(** * Shipment optimisation models: formulation and reporting

    A shallow embedding of the two model builders and their reports:
    - [src/carrier_earned_discount.py] and
      [src/problems/carrier_earned_discount/main.py] (tiered carrier
      discounts), and
    - [src/warehouse_shipments.py] (warehouse network with fixed costs and a
      delivery tolerance),
    together with the part of the PuLP modelling library they rely on.

    Numbers are exact rationals ([Q]); Python dictionaries are [gmap]s, Python
    lists are lists, exceptions are the [Raise] results of the [result]
    monad, and [print] output is a list of structured lines. *)

From Stdlib Require Import Ascii String QArith Qabs Lqa.
From stdpp Require Import gmap strings list pretty.

(** ** Python values and exceptions *)

Inductive exn := KeyError | IndexError.

Inductive result (A : Type) : Type :=
| Ok (a : A)
| Raise (e : exn).
Arguments Ok {A} a.
Arguments Raise {A} e.

Global Instance result_ret : MRet result := λ A a, Ok a.
Global Instance result_bind : MBind result := λ A B f m,
  match m with Ok a => f a | Raise e => Raise e end.
Global Instance result_fmap : FMap result := λ A B f m,
  match m with Ok a => Ok (f a) | Raise e => Raise e end.

(** [d[k]] on a dictionary. *)
Definition getitem `{Countable K} {V} (d : gmap K V) (k : K) : result V :=
  match d !! k with Some v => Ok v | None => Raise KeyError end.

(** [l[i]] on a list; a negative index counts from the end. *)
Definition getitem_list {A} (l : list A) (i : Z) : result A :=
  let j := if (i <? 0)%Z then (Z.of_nat (length l) + i)%Z else i in
  if (j <? 0)%Z then Raise IndexError
  else match l !! Z.to_nat j with Some x => Ok x | None => Raise IndexError end.

(** [range(n)] and [len(l)]. *)
Definition range (n : Z) : list Z := Z.of_nat <$> seq 0 (Z.to_nat n).
Definition len {A} (l : list A) : Z := Z.of_nat (length l).

(** [sum] over rationals. *)
Definition Qsum (l : list Q) : Q := foldr Qplus 0%Q l.

(** [d.values()] of a dictionary, for [sum(d.values())]. *)
Definition values `{Countable K} {V} (d : gmap K V) : list V := (map_to_list d).*2.

(** A loop [for x in l: body] that threads a state [s] and may raise. *)
Fixpoint for_ {A S} (l : list A) (body : S → A → result S) (s : S) : result S :=
  match l with
  | [] => Ok s
  | x :: l' => s' ← body s x; for_ l' body s'
  end.

(** A dictionary filled by [for k in ks: d[k] = f(k)]: a later assignment to
    the same key replaces the earlier one. *)
Definition dict_of `{Countable K} {V} (f : K → result V) (ks : list K)
  : result (gmap K V) :=
  for_ ks (λ d k, v ← f k; Ok (<[k := v]> d)) ∅.

(** A comprehension [[e(x) for x in l]] whose element may raise, and the
    outer clause [for x in l] of a comprehension with several [for]s. *)
Definition comprehension {A B} (f : A → result B) (l : list A) : result (list B) :=
  mapM f l.
Definition comprehension_for {A B} (f : A → result (list B)) (l : list A)
  : result (list B) :=
  ls ← mapM f l; Ok (concat ls).

(** *** Strings *)

(** [s.startswith(p)]. *)
Definition startswith (s p : string) : bool := String.prefix p s.

(** [s.replace(old, new)] for a non-empty [old]: occurrences are taken from
    the left and do not overlap. [skip] counts the characters of a matched
    occurrence that are still to be passed over. *)
Fixpoint replace_go (old new s : string) (skip : nat) : string :=
  match s with
  | EmptyString => EmptyString
  | String c s' =>
    match skip with
    | S k => replace_go old new s' k
    | O =>
      if String.prefix old s
      then new +:+ replace_go old new s' (String.length old - 1)
      else String c (replace_go old new s' 0)
    end
  end.
Definition replace (s old new : string) : string := replace_go old new s 0.

(** [s.split(sep)] for a one-character separator. *)
Fixpoint split (s : string) (sep : ascii) : list string :=
  match s with
  | EmptyString => [EmptyString]
  | String c s' =>
    if Ascii.eqb c sep then EmptyString :: split s' sep
    else match split s' sep with
         | h :: t => String c h :: t
         | [] => [String c EmptyString]
         end
  end.

(** [int(x)] of a float: truncation towards zero. *)
Definition int (x : Q) : Z := (Qnum x ÷ Zpos (Qden x))%Z.

(** ** The PuLP modelling layer

    PuLP hashes variables by object identity. The object a builder reaches
    through its dictionaries is determined by the path of keys, so a variable
    carries that path as its identity [key]; its [name] is only a label, and
    two variables may share one.

    An expression keeps its terms as the builder wrote them, a constraint
    keeps both of its sides, and the name of a constraint is a label. Two
    things PuLP does are left out: it drops the terms of an expression that
    is multiplied by the number 0, and it refuses a second constraint under
    a name that is already in use. *)

Module pulp.

(** Status codes and their names ([LpStatus]). *)
Definition LpStatusNotSolved : Z := 0.
Definition LpStatusOptimal : Z := 1.
Definition LpStatusInfeasible : Z := -1.
Definition LpStatusUnbounded : Z := -2.
Definition LpStatusUndefined : Z := -3.

Definition LpStatus : gmap Z string :=
  {[ LpStatusNotSolved := "Not Solved"; LpStatusOptimal := "Optimal";
     LpStatusInfeasible := "Infeasible"; LpStatusUnbounded := "Unbounded";
     LpStatusUndefined := "Undefined" ]}.

(** [LpElement.setName]: every character of ["-+[] ->/"] in a variable name
    is replaced by an underscore. *)
Definition illegal_chars : list ascii :=
  ["-"; "+"; "["; "]"; " "; "-"; ">"; "/"]%char.
Definition trans (c : ascii) : ascii :=
  if bool_decide (c ∈ illegal_chars) then "_"%char else c.
Fixpoint translate (s : string) : string :=
  match s with
  | EmptyString => EmptyString
  | String c s' => String (trans c) (translate s')
  end.

Inductive LpCategory := LpContinuous | LpInteger | LpBinary.
Inductive LpSense := LpConstraintLE | LpConstraintEQ | LpConstraintGE.

Section model.
Context {K : Type} `{EqDecision K}.

Record LpVariable := {
  key : K;
  name : string;
  lowBound : option Q;
  upBound : option Q;
  cat : LpCategory;
}.

(** [LpVariable(name, lowBound, upBound, cat)]; a binary variable is stored
    as an integer variable with bounds 0 and 1. *)
Definition new_LpVariable (k : K) (nm : string) (lo up : option Q)
    (c : LpCategory) : LpVariable :=
  match c with
  | LpBinary =>
    {| key := k; name := translate nm; lowBound := Some 0%Q;
       upBound := Some 1%Q; cat := LpInteger |}
  | _ =>
    {| key := k; name := translate nm; lowBound := lo; upBound := up; cat := c |}
  end.

(** An affine expression: coefficient terms in the order they were added
    (a variable that occurs twice stands for the sum of its coefficients)
    and a constant. *)
Record LpAffineExpression := {
  terms : list (LpVariable * Q);
  constant : Q;
}.

Definition of_var (v : LpVariable) : LpAffineExpression :=
  {| terms := [(v, 1%Q)]; constant := 0%Q |}.
Definition of_num (c : Q) : LpAffineExpression :=
  {| terms := []; constant := c |}.
(** [e * c] and [c * e] for a number [c]. *)
Definition scale (e : LpAffineExpression) (c : Q) : LpAffineExpression :=
  {| terms := (λ t, (t.1, (c * t.2)%Q)) <$> terms e;
     constant := (constant e * c)%Q |}.
Definition lpSum (es : list LpAffineExpression) : LpAffineExpression :=
  {| terms := concat (terms <$> es); constant := Qsum (constant <$> es) |}.
Definition add (e1 e2 : LpAffineExpression) : LpAffineExpression :=
  lpSum [e1; e2].

(** A constraint [lhs sense rhs], both sides as the builder wrote them. *)
Record LpConstraint := {
  lhs : LpAffineExpression;
  sense : LpSense;
  rhs : LpAffineExpression;
}.

Record LpProblem := {
  problem_name : string;
  objective : LpAffineExpression;
  constraints : list (option string * LpConstraint);
}.

Definition new_LpProblem (nm : string) : LpProblem :=
  {| problem_name := nm; objective := of_num 0%Q; constraints := [] |}.
(** [problem += expression, name] sets the objective. *)
Definition set_objective (p : LpProblem) (e : LpAffineExpression) : LpProblem :=
  {| problem_name := problem_name p; objective := e;
     constraints := constraints p |}.
(** [problem += constraint] and [problem += (constraint, name)]. *)
Definition add_constraint (p : LpProblem) (c : LpConstraint)
    (nm : option string) : LpProblem :=
  {| problem_name := problem_name p; objective := objective p;
     constraints := constraints p ++ [(nm, c)] |}.

(** [problem.variables()]: the variables of the objective and of the
    constraints, each object once, sorted by name (a stable sort). *)
Definition addVariables (acc vs : list LpVariable) : list LpVariable :=
  foldl (λ acc v,
    if bool_decide (Exists (λ w, key w = key v) acc) then acc else acc ++ [v])
    acc vs.
Fixpoint insert_by_name (v : LpVariable) (l : list LpVariable) : list LpVariable :=
  match l with
  | [] => [v]
  | w :: l' =>
    if String.leb (name v) (name w) then v :: l else w :: insert_by_name v l'
  end.
Definition sort_by_name (l : list LpVariable) : list LpVariable :=
  foldr insert_by_name [] l.
Definition expr_variables (e : LpAffineExpression) : list LpVariable :=
  (terms e).*1.
Definition constraint_variables (c : LpConstraint) : list LpVariable :=
  expr_variables (lhs c) ++ expr_variables (rhs c).
(** Every occurrence of a variable, the objective first. *)
Definition all_variables (p : LpProblem) : list LpVariable :=
  expr_variables (objective p) ++
  (nc ← constraints p; constraint_variables nc.2).
Definition variables (p : LpProblem) : list LpVariable :=
  sort_by_name (addVariables [] (all_variables p)).

(** *** Assignments *)

(** What the solver hands back: a status and a value for every variable. *)
Record Solution := {
  status : Z;
  varValue : K → Q;
}.

(** [value(e)] under an assignment. *)
Definition value (a : K → Q) (e : LpAffineExpression) : Q :=
  (Qsum ((λ t, a (key t.1) * t.2) <$> terms e) + constant e)%Q.

Definition holds (a : K → Q) (c : LpConstraint) : Prop :=
  match sense c with
  | LpConstraintLE => (value a (lhs c) <= value a (rhs c))%Q
  | LpConstraintEQ => (value a (lhs c) == value a (rhs c))%Q
  | LpConstraintGE => (value a (rhs c) <= value a (lhs c))%Q
  end.

Definition is_integer (q : Q) : Prop := ∃ z : Z, (q == inject_Z z)%Q.

Definition within_bounds (a : K → Q) (v : LpVariable) : Prop :=
  (∀ lo, lowBound v = Some lo → (lo <= a (key v))%Q) ∧
  (∀ up, upBound v = Some up → (a (key v) <= up)%Q) ∧
  (cat v = LpInteger → is_integer (a (key v))).

(** An assignment is feasible when every constraint holds and every
    variable that occurs in the problem is within its bounds. *)
Definition feasible (p : LpProblem) (a : K → Q) : Prop :=
  (∀ nc, nc ∈ constraints p → holds a nc.2) ∧
  (∀ v, v ∈ all_variables p → within_bounds a v).

(** The problems here are minimisations. *)
Definition optimal (p : LpProblem) (a : K → Q) : Prop :=
  feasible p a ∧
  ∀ a', feasible p a' → (value a (objective p) <= value a' (objective p))%Q.

(** Executable checks of the same conditions. *)
Definition holdsb (a : K → Q) (c : LpConstraint) : bool :=
  match sense c with
  | LpConstraintLE => Qle_bool (value a (lhs c)) (value a (rhs c))
  | LpConstraintEQ => Qeq_bool (value a (lhs c)) (value a (rhs c))
  | LpConstraintGE => Qle_bool (value a (rhs c)) (value a (lhs c))
  end.
Definition is_integerb (q : Q) : bool :=
  (Qnum q mod Zpos (Qden q) =? 0)%Z.
Definition within_boundsb (a : K → Q) (v : LpVariable) : bool :=
  match lowBound v with Some lo => Qle_bool lo (a (key v)) | None => true end &&
  match upBound v with Some up => Qle_bool (a (key v)) up | None => true end &&
  match cat v with LpInteger => is_integerb (a (key v)) | _ => true end.
Definition feasibleb (p : LpProblem) (a : K → Q) : bool :=
  forallb (λ nc, holdsb a nc.2) (constraints p) &&
  forallb (within_boundsb a) (all_variables p).
End model.

Arguments LpVariable : clear implicits.
Arguments LpAffineExpression : clear implicits.
Arguments LpConstraint : clear implicits.
Arguments LpProblem : clear implicits.
Arguments Solution : clear implicits.

End pulp.

Import pulp.

(** ** Tiered carrier discounts: the model *)

(** Identity of the variables of the tiered model: the path of dictionary
    keys under which [optimize_shipments] stores them. *)
Inductive TierKey :=
| shipment_at_tier_key (year : Z) (carrier : string) (tier : Z) (dest : string)
| tier_flag_key (year : Z) (carrier : string) (tier : Z).

Global Instance TierKey_eq_dec : EqDecision TierKey.
Proof. solve_decision. Defined.

(** [f"ship_y{year}_{carrier}_t{tier}_{dest}"] and
    [f"tier_y{year}_{carrier}_t{tier}"]. *)
Definition ship_name (year : Z) (carrier : string) (tier : Z) (dest : string) : string :=
  "ship_y" +:+ pretty year +:+ "_" +:+ carrier +:+ "_t" +:+ pretty tier +:+ "_" +:+ dest.
Definition tier_name (year : Z) (carrier : string) (tier : Z) : string :=
  "tier_y" +:+ pretty year +:+ "_" +:+ carrier +:+ "_t" +:+ pretty tier.

(** The nested dictionary [shipment_at_tier] and the list of dictionaries
    [tier_flag]. *)
Abbreviation ShipStore :=
  (gmap Z (gmap string (gmap Z (gmap string (LpVariable TierKey))))).
Abbreviation FlagStore := (list (gmap string (list (LpVariable TierKey)))).

(** [shipment_at_tier[year][carrier][tier][dest]]. *)
Definition ship_at (shipment_at_tier : ShipStore)
    (year : Z) (carrier : string) (tier : Z) (dest : string)
  : result (LpVariable TierKey) :=
  by_year ← getitem shipment_at_tier year;
  by_carrier ← getitem by_year carrier;
  by_tier ← getitem by_carrier tier;
  getitem by_tier dest.

(** [tier_flag[year][carrier]] and [tier_flag[year][carrier][tier]]. *)
Definition flags_at (tier_flag : FlagStore) (year : Z) (carrier : string)
  : result (list (LpVariable TierKey)) :=
  by_carrier ← getitem_list tier_flag year;
  getitem by_carrier carrier.
Definition flag_at (tier_flag : FlagStore) (year : Z) (carrier : string) (tier : Z)
  : result (LpVariable TierKey) :=
  flags ← flags_at tier_flag year carrier;
  getitem_list flags tier.

(** [shipment_target[year][dest]]. *)
Definition target_at (shipment_target : list (gmap string Q)) (year : Z)
    (dest : string) : result Q :=
  targets ← getitem_list shipment_target year;
  getitem targets dest.

Module carrier_earned_discount.

(** [optimize_shipments] of [src/carrier_earned_discount.py]. *)
Definition optimize_shipments
    (num_years : Z) (carriers destinations : list string)
    (shipment_target : list (gmap string Q))
    (shipment_cost : gmap string (gmap string Q))
    (tier_min_quantity : list Z)
    (discount_rate : gmap string (list Q)) : result (LpProblem TierKey) :=
  let problem := new_LpProblem "Carrier_Optimization" in
  let years := range num_years in
  let tiers := range (len tier_min_quantity) in
  (* decision variables: year -> carrier -> tier -> destination *)
  shipment_at_tier ←
    dict_of (λ year,
      dict_of (λ carrier,
        dict_of (λ tier,
          dict_of (λ dest,
            upBound ← target_at shipment_target year dest;
            Ok (new_LpVariable (shipment_at_tier_key year carrier tier dest)
                  (ship_name year carrier tier dest)
                  (Some 0%Q) (Some upBound) LpInteger))
            destinations)
          tiers)
        carriers)
      years;
  (* binary variables for tier selection: year -> carrier -> tier *)
  tier_flag ←
    comprehension (λ year,
      dict_of (λ carrier,
        Ok ((λ tier, new_LpVariable (tier_flag_key year carrier tier)
                       (tier_name year carrier tier) None None LpBinary)
            <$> tiers))
        carriers)
      years;
  (* objective function *)
  total_cost_terms ←
    comprehension_for (λ year,
      comprehension_for (λ carrier,
        comprehension_for (λ tier,
          comprehension (λ dest,
            v ← ship_at shipment_at_tier year carrier tier dest;
            costs ← getitem shipment_cost carrier;
            cost ← getitem costs dest;
            rates ← getitem discount_rate carrier;
            rate ← getitem_list rates tier;
            Ok (scale (scale (of_var v) cost) rate))
            destinations)
          tiers)
        carriers)
      years;
  let total_cost := lpSum total_cost_terms in
  let problem := set_objective problem total_cost in
  (* constraints *)
  problem ←
    for_ years (λ problem year,
      for_ carriers (λ problem carrier,
        (* only 1 earned discount tier may be active per year *)
        flags ← flags_at tier_flag year carrier;
        let problem :=
          add_constraint problem
            {| lhs := lpSum (of_var <$> flags); sense := LpConstraintEQ;
               rhs := of_num 1%Q |} None in
        for_ tiers (λ problem tier,
          problem ←
            for_ destinations (λ problem dest,
              (* shipments can only occur when tier is active *)
              v ← ship_at shipment_at_tier year carrier tier dest;
              target ← target_at shipment_target year dest;
              flag ← flag_at tier_flag year carrier tier;
              Ok (add_constraint problem
                    {| lhs := of_var v; sense := LpConstraintLE;
                       rhs := scale (of_var flag) target |} None))
              problem;
          (* total shipments at a discount tier across all destinations *)
          tier_total_terms ←
            comprehension (λ dest,
              v ← ship_at shipment_at_tier year carrier tier dest; Ok (of_var v))
              destinations;
          let tier_total := lpSum tier_total_terms in
          (* must meet minimum shipments for an active discount tier *)
          min_quantity ← getitem_list tier_min_quantity tier;
          flag ← flag_at tier_flag year carrier tier;
          Ok (add_constraint problem
                {| lhs := tier_total; sense := LpConstraintGE;
                   rhs := scale (of_var flag) (inject_Z min_quantity) |} None))
          problem)
        problem)
      problem;
  (* must hit shipment targets each year *)
  for_ years (λ problem year,
    for_ destinations (λ problem dest,
      destination_total_terms ←
        comprehension_for (λ carrier,
          comprehension (λ tier,
            v ← ship_at shipment_at_tier year carrier tier dest; Ok (of_var v))
            tiers)
          carriers;
      let destination_total := lpSum destination_total_terms in
      target ← target_at shipment_target year dest;
      Ok (add_constraint problem
            {| lhs := destination_total; sense := LpConstraintEQ;
               rhs := of_num target |} None))
      problem)
    problem.

End carrier_earned_discount.

(** ** Tiered carrier discounts: the report *)

(** [x < y] on floats. *)
Definition Qltb (x y : Q) : bool := negb (Qle_bool y x).

(** ["\n"], and [c * 80] for a one-character string [c]. *)
Definition nl : string := String "010" EmptyString.
Definition rule (c : ascii) : string := string_of_list_ascii (replicate 80 c).

(** The first variable of a list with a given name: the scan
    [for var in problem.variables(): if var.name == var_name: ...; break]. *)
Definition find_by_name {K} (vars : list (LpVariable K)) (var_name : string)
  : option (LpVariable K) :=
  List.find (λ var, String.eqb (name var) var_name) vars.

Module carrier_earned_discount_report.

(** One line per [print] call. A fixed text is kept as it is; a formatted
    line keeps the values that are formatted into it. *)
Inductive Line :=
| Text (s : string)
| SolverStatus (status_name : string) (status_code : Z)
| OptimalTotalCost (cost : Q)
| TotalShipmentsNeeded (total : Q)
| NumberOfCarriers (n : Z)
| NumberOfDestinations (n : Z)
| NumberOfYears (n : Z)
| TierMinimum (i : Z) (min_qty : Z)
| YearTargetTotal (year : Z) (year_total : Q)
| DestinationTarget (dest : string) (target : Q)
| UnknownStatus (status_code : Z)
| CostUnavailable
| YearBanner (year : Z)
| CarrierBanner (carrier : string)
| ActiveTier (active_tier : Z) (discount_pct multiplier : Q)
| MinRequired (min_qty : Z)
| DestinationRow (dest : string) (dest_shipments target dest_cost : Q)
| CarrierTotal (carrier_shipments carrier_cost : Q)
| YearTotal (year_total_shipments year_total_cost : Q)
| DestinationSummary (dest : string) (total_shipments total_target : Q) (ok : bool)
| CarrierPerformance (carrier : string) (year active_tier : Z)
    (carrier_year_shipments discount_pct : Q).

Section report.
Context (problem : LpProblem TierKey) (solution : Solution TierKey).
Context (num_years : Z) (carriers destinations : list string).
Context (shipment_target : list (gmap string Q)).
Context (tier_min_quantity : list Z).
Context (discount_rate : gmap string (list Q)).

(** [value(var)]. *)
Definition value_of (var : LpVariable TierKey) : Q := varValue solution (key var).

(** The active tier of a carrier in a year: the first tier for which some
    variable carries the tier's name and a value above 0.5. *)
Definition find_active_tier (year : Z) (carrier : string) : option Z :=
  List.find (λ tier,
    existsb (λ var,
      String.eqb (name var) (tier_name year carrier tier) && Qltb 0.5 (value_of var))
      (variables problem))
    (range (len tier_min_quantity)).

(** The per-destination loop of the yearly table: shipments and cost of one
    carrier to one destination, summed over the tiers. *)
Definition destination_figures (year : Z) (carrier dest : string)
  : result (Q * Q) :=
  for_ (range (len tier_min_quantity)) (λ '(dest_shipments, dest_cost) tier,
    match find_by_name (variables problem) (ship_name year carrier tier dest) with
    | Some var =>
      let shipments := value_of var in
      if Qltb 0 shipments then
        rates ← getitem discount_rate carrier;
        rate ← getitem_list rates tier;
        Ok ((dest_shipments + shipments)%Q, (dest_cost + shipments * rate)%Q)
      else Ok (dest_shipments, dest_cost)
    | None => Ok (dest_shipments, dest_cost)
    end) (0%Q, 0%Q).

(** The lines about the active tier, when there is one. *)
Definition active_tier_lines (carrier : string) (active_tier : option Z)
  : result (list Line) :=
  match active_tier with
  | Some active_tier =>
    rates ← getitem discount_rate carrier;
    rate ← getitem_list rates active_tier;
    let discount_pct := ((1 - rate) * 100)%Q in
    min_qty ← getitem_list tier_min_quantity active_tier;
    Ok [ActiveTier active_tier discount_pct rate; MinRequired min_qty]
  | None => Ok []
  end.

(** The body of [for carrier in carriers] in the yearly table; the state is
    the output so far and the two year totals. *)
Definition carrier_block (year : Z) (st : list Line * Q * Q) (carrier : string)
  : result (list Line * Q * Q) :=
  let '(out, year_total_shipments, year_total_cost) := st in
  let out := out ++ [CarrierBanner carrier] in
  tier_lines ← active_tier_lines carrier (find_active_tier year carrier);
  let out := out ++ tier_lines in
  let out := out ++ [Text (nl +:+ "    Destination        Shipments       Target            Cost");
                     Text "    --------------- ------------ ------------ ---------------"] in
  '(out, carrier_shipments, carrier_cost) ←
    for_ destinations (λ '(out, carrier_shipments, carrier_cost) dest,
      '(dest_shipments, dest_cost) ← destination_figures year carrier dest;
      let carrier_shipments := (carrier_shipments + dest_shipments)%Q in
      let carrier_cost := (carrier_cost + dest_cost)%Q in
      if Qltb 0 dest_shipments then
        target ← target_at shipment_target year dest;
        Ok (out ++ [DestinationRow dest dest_shipments target dest_cost],
            carrier_shipments, carrier_cost)
      else Ok (out, carrier_shipments, carrier_cost))
      (out, 0%Q, 0%Q);
  let out := out ++ [Text "    --------------- ------------ ------------ ---------------";
                     CarrierTotal carrier_shipments carrier_cost] in
  Ok (out, (year_total_shipments + carrier_shipments)%Q,
      (year_total_cost + carrier_cost)%Q).

(** The table "SHIPMENT ALLOCATION BY YEAR". *)
Definition yearly_table (out : list Line) : result (list Line) :=
  for_ (range num_years) (λ out year,
    let out := out ++ [YearBanner year] in
    '(out, year_total_shipments, year_total_cost) ←
      for_ carriers (carrier_block year) (out, 0%Q, 0%Q);
    Ok (out ++ [YearTotal year_total_shipments year_total_cost])) out.

(** The value of a flow variable found by name, where the scan adds it
    whatever its sign. *)
Definition shipments_by_name (year : Z) (carrier : string) (tier : Z)
    (dest : string) : Q :=
  match find_by_name (variables problem) (ship_name year carrier tier dest) with
  | Some var => value_of var
  | None => 0%Q
  end.

(** The table "DESTINATION SUMMARY (All Years)". *)
Definition destination_summary (out : list Line) : result (list Line) :=
  for_ destinations (λ out dest,
    targets ← comprehension (λ year, target_at shipment_target year dest)
                (range num_years);
    let total_target := Qsum targets in
    let total_shipments :=
      Qsum (year ← range num_years; carrier ← carriers;
            tier ← range (len tier_min_quantity);
            [shipments_by_name year carrier tier dest]) in
    let ok := Qltb (Qabs (total_shipments - total_target)) 0.01 in
    Ok (out ++ [DestinationSummary dest total_shipments total_target ok])) out.

(** The table "CARRIER PERFORMANCE SUMMARY". *)
Definition carrier_performance (out : list Line) : result (list Line) :=
  for_ carriers (λ out carrier,
    for_ (range num_years) (λ out year,
      let active_tier := find_active_tier year carrier in
      let carrier_year_shipments :=
        Qsum (dest ← destinations; tier ← range (len tier_min_quantity);
              [shipments_by_name year carrier tier dest]) in
      match active_tier with
      | Some active_tier =>
        rates ← getitem discount_rate carrier;
        rate ← getitem_list rates active_tier;
        let discount_pct := ((1 - rate) * 100)%Q in
        Ok (out ++ [CarrierPerformance carrier year active_tier
                      carrier_year_shipments discount_pct])
      | None => Ok out
      end) out) out.

(** What is printed for an optimal solution after the status lines. *)
Definition optimal_display (out : list Line) : result (list Line) :=
  let out := out ++ [Text (nl +:+ rule "-"); Text "SHIPMENT ALLOCATION BY YEAR";
                     Text (rule "-")] in
  out ← yearly_table out;
  let out := out ++ [Text (nl +:+ rule "-"); Text "DESTINATION SUMMARY (All Years)";
                     Text (rule "-");
                     Text (nl +:+ "Destination        Total Shipments       Total Target     Status");
                     Text "--------------- ------------------ ------------------ ----------"] in
  out ← destination_summary out;
  let out := out ++ [Text (nl +:+ rule "-"); Text "CARRIER PERFORMANCE SUMMARY";
                     Text (rule "-");
                     Text (nl +:+ "Carrier         Year     Tier           Shipments     Discount");
                     Text "--------------- -------- -------- --------------- ------------"] in
  out ← carrier_performance out;
  Ok (out ++ [Text (nl +:+ rule "=" +:+ nl)]).

(** The fixed lines that open and close the diagnosis of an infeasible
    problem. *)
Definition infeasible_reasons : list Line :=
  [Text (nl +:+ "⚠ PROBLEM IS INFEASIBLE ⚠");
   Text (nl +:+ "The constraints cannot be satisfied simultaneously.");
   Text (nl +:+ "Possible reasons:");
   Text "  1. Shipment targets exceed combined carrier capacity at any tier";
   Text "  2. Individual destination targets exceed any single carrier's capacity";
   Text "  3. Minimum tier quantities are too high to achieve with given targets";
   Text "  4. Conflicting constraints between tier requirements and shipment bounds";
   Text (nl +:+ "Diagnostic Information:")].

Definition infeasible_suggestions : list Line :=
  [Text (nl +:+ "Suggestions:");
   Text "  • Check if any single destination target exceeds maximum shipments";
   Text "  • Verify tier minimums are achievable with your shipment volumes";
   Text "  • Consider adding more carriers or relaxing constraints";
   Text "  • Review if shipment bounds are too restrictive"].

(** The diagnosis printed when the status is infeasible. *)
Definition infeasible_diagnosis (out : list Line) : result (list Line) :=
  let out := out ++ infeasible_reasons in
  year_totals ← comprehension (λ y,
      targets ← getitem_list shipment_target y; Ok (Qsum (values targets)))
    (range num_years);
  let out := out ++
    [TotalShipmentsNeeded (Qsum year_totals);
     NumberOfCarriers (len carriers);
     NumberOfDestinations (len destinations);
     NumberOfYears num_years;
     Text (nl +:+ "  Tier minimum quantities:")] in
  let out := out ++ imap (λ i min_qty, TierMinimum (Z.of_nat i) min_qty)
                      tier_min_quantity in
  let out := out ++ [Text (nl +:+ "  Yearly shipment targets:")] in
  out ← for_ (range num_years) (λ out year,
    targets ← getitem_list shipment_target year;
    let out := out ++ [YearTargetTotal year (Qsum (values targets))] in
    for_ destinations (λ out dest,
      target ← target_at shipment_target year dest;
      Ok (out ++ [DestinationTarget dest target])) out) out;
  Ok (out ++ infeasible_suggestions).

Definition unbounded_diagnosis : list Line :=
  [Text (nl +:+ "⚠ PROBLEM IS UNBOUNDED ⚠");
   Text (nl +:+ "The objective function can be improved indefinitely.");
   Text "This suggests an error in the model formulation:";
   Text "  • Missing constraints that should limit the solution";
   Text "  • Incorrect objective function (possibly wrong sign)";
   Text "  • Variables without proper bounds"].

Definition not_solved_diagnosis : list Line :=
  [Text (nl +:+ "⚠ PROBLEM NOT SOLVED ⚠");
   Text (nl +:+ "The solver did not attempt to solve or did not complete.");
   Text "Possible reasons:";
   Text "  • Solver not found or not properly installed";
   Text "  • Problem too large for available memory";
   Text "  • Timeout reached before solution found";
   Text "  • Solver configuration error"].

Definition undefined_diagnosis : list Line :=
  [Text (nl +:+ "⚠ SOLVER RETURNED UNDEFINED STATUS ⚠");
   Text (nl +:+ "The solver encountered an issue:");
   Text "  • Numerical difficulties";
   Text "  • Model formulation issues";
   Text "  • Solver-specific error"].

(** The three lines every report starts with. *)
Definition results_banner : list Line :=
  [Text (nl +:+ rule "="); Text "SHIPMENT OPTIMIZATION RESULTS"; Text (rule "=")].

(** [print_solution] of [src/carrier_earned_discount.py]. The result is the
    printed lines; the lines printed before an exception are not kept. *)
Definition print_solution : result (list Line) :=
  let out := results_banner in
  let status_code := status solution in
  status_name ← getitem LpStatus status_code;
  let out := out ++ [SolverStatus status_name status_code] in
  if (status_code =? LpStatusOptimal)%Z then
    let out := out ++ [OptimalTotalCost (value (varValue solution) (objective problem))] in
    optimal_display out
  else if (status_code =? LpStatusInfeasible)%Z then
    infeasible_diagnosis out
  else if (status_code =? LpStatusUnbounded)%Z then
    Ok (out ++ unbounded_diagnosis)
  else if (status_code =? LpStatusNotSolved)%Z then
    Ok (out ++ not_solved_diagnosis)
  else if (status_code =? -3)%Z then
    Ok (out ++ undefined_diagnosis)
  else
    let cost := value (varValue solution) (objective problem) in
    Ok (out ++ [UnknownStatus status_code;
                if Qeq_bool cost 0 then CostUnavailable else OptimalTotalCost cost]).
End report.

End carrier_earned_discount_report.

(** ** Warehouse network: the model *)

(** Identity of the variables of the network model: the key of
    [shipment_count] or of [warehouse_usage] under which they are stored. *)
Inductive NetKey :=
| shipment_count_key (i j : string)
| warehouse_usage_key (i : string).

Global Instance NetKey_eq_dec : EqDecision NetKey.
Proof. solve_decision. Defined.

(** [f"shipment_count_{i}_{j}"], and the name [LpVariable.dicts] gives to the
    entry [i] of ["warehouse_usage"]. *)
Definition shipment_count_name (i j : string) : string :=
  "shipment_count_" +:+ i +:+ "_" +:+ j.
Definition warehouse_usage_name (i : string) : string :=
  "warehouse_usage_" +:+ i.

(** The pairs of [for i in warehouses for j in destinations]. *)
Definition pairs (warehouses destinations : list string) : list (string * string) :=
  i ← warehouses; j ← destinations; [(i, j)].

(** [d[i][j]] on a dictionary of dictionaries. *)
Definition getitem2 {V} (d : gmap string (gmap string V)) (i j : string) : result V :=
  row ← getitem d i; getitem row j.

Module warehouse_shipments.

(** [optimize_shipments] of [src/warehouse_shipments.py]. *)
Definition optimize_shipments
    (warehouses destinations : list string)
    (target_distribution : gmap string Z)
    (shipment_capacity : gmap string (gmap string Z))
    (warehouse_cost : gmap string Q)
    (shipment_cost : gmap string (gmap string Q))
    (target_delivery_days : Z)
    (delivery_tolerance : Q)
    (delivery_estimate : gmap string (gmap string Z)) : result (LpProblem NetKey) :=
  let problem := new_LpProblem "Shipment_Optimization" in
  (* decision variables *)
  shipment_count ←
    dict_of (λ '(i, j),
      upBound ← getitem2 shipment_capacity i j;
      Ok (new_LpVariable (shipment_count_key i j) (shipment_count_name i j)
            (Some 0%Q) (Some (inject_Z upBound)) LpInteger))
      (pairs warehouses destinations);
  (* warehouse_usage[i] = binary variable indicating if warehouse i is used *)
  warehouse_usage ←
    dict_of (λ i,
      Ok (new_LpVariable (warehouse_usage_key i) (warehouse_usage_name i)
            None None LpBinary))
      warehouses;
  (* calculated parameters *)
  delivery_target_failure ←
    dict_of (λ '(i, j),
      estimate ← getitem2 delivery_estimate i j;
      Ok (if (target_delivery_days <? estimate)%Z then 1%Z else 0%Z))
      (pairs warehouses destinations);
  (* objective function *)
  shipment_terms ←
    comprehension_for (λ i,
      comprehension (λ j,
        v ← getitem shipment_count (i, j);
        cost ← getitem2 shipment_cost i j;
        Ok (scale (of_var v) cost))
        destinations)
      warehouses;
  usage_terms ←
    comprehension (λ i,
      u ← getitem warehouse_usage i;
      cost ← getitem warehouse_cost i;
      Ok (scale (of_var u) cost))
      warehouses;
  let total_cost := add (lpSum shipment_terms) (lpSum usage_terms) in
  let problem := set_objective problem total_cost in
  (* warehouse usage constraints *)
  problem ←
    for_ warehouses (λ problem i,
      for_ destinations (λ problem j,
        v ← getitem shipment_count (i, j);
        capacity ← getitem2 shipment_capacity i j;
        u ← getitem warehouse_usage i;
        Ok (add_constraint problem
              {| lhs := of_var v; sense := LpConstraintLE;
                 rhs := scale (of_var u) (inject_Z capacity) |}
              (Some ("Warehouse_Usage_" +:+ i +:+ "_" +:+ j))))
        problem)
      problem;
  (* distribution constraints *)
  problem ←
    for_ destinations (λ problem j,
      total ← comprehension (λ i,
          v ← getitem shipment_count (i, j); Ok (of_var v)) warehouses;
      target ← getitem target_distribution j;
      Ok (add_constraint problem
            {| lhs := lpSum total; sense := LpConstraintEQ;
               rhs := of_num (inject_Z target) |}
            (Some ("Distribution_" +:+ j))))
      problem;
  (* delivery target constraints *)
  for_ destinations (λ problem j,
    failed ← comprehension (λ i,
        failure ← getitem delivery_target_failure (i, j);
        v ← getitem shipment_count (i, j);
        Ok (scale (of_var v) (inject_Z failure))) warehouses;
    let failed_shipments := lpSum failed in
    total ← comprehension (λ i,
        v ← getitem shipment_count (i, j); Ok (of_var v)) warehouses;
    let total_to_dest := lpSum total in
    Ok (add_constraint problem
          {| lhs := failed_shipments; sense := LpConstraintLE;
             rhs := scale total_to_dest delivery_tolerance |}
          (Some ("Delivery_Target_" +:+ j))))
    problem.

(** ** Warehouse network: the report *)

Inductive Line :=
| Text (s : string)
| SolutionStatus (status_name : string)
| Status (status_name : string)
| TotalCost (cost : Q)
| WarehouseLine (i : string) (active : bool) (cost : Q)
| TotalFixedCosts (fixed_cost_total : Q)
| RouteLine (i j : string) (count : Z) (unit_cost total_cost : Q)
| TotalVariableCosts (variable_cost_total : Q)
| DestinationLine (j : string) (dest_actual dest_target : Z) (pct_of_total : Q)
| DestinationTotal (total_shipments : Z)
| WarehouseShare (i : string) (warehouse_total : Z) (pct_of_total : Q)
| WarehouseTotal (total_shipments : Z)
| TargetDeliveryDays (target_delivery_days : Z)
| AverageDeliveryTime (avg_delivery_days : Q)
| OnTimeShipments (on_time_shipments : Z) (on_time_pct : Q)
| LateShipments (late_shipments : Z) (late_pct : Q)
| DestinationDelivery (j : string) (dest_avg : Q) (dest_on_time dest_late : Z)
    (dest_late_pct : Q).

(** [sum] over integers. *)
Definition Zsum (l : list Z) : Z := foldr Z.add 0%Z l.

(** [a / b] on integers, a float. *)
Definition truediv (a b : Z) : Q := (inject_Z a / inject_Z b)%Q.

Section report.
Context (problem : LpProblem NetKey) (solution : Solution NetKey).
Context (warehouses destinations : list string).
Context (target_distribution : gmap string Z).
Context (warehouse_cost : gmap string Q).
Context (shipment_cost : gmap string (gmap string Q)).
Context (target_delivery_days : Z).
Context (delivery_estimate : gmap string (gmap string Z)).

(** The loop that reads the solution back from the variable names; the
    state is the pair of dictionaries [shipment_counts] and
    [warehouse_usage]. *)
Definition extract_solution
  : result (gmap (string * string) Z * gmap string Z) :=
  for_ (variables problem) (λ '(shipment_counts, warehouse_usage) v,
    if startswith (name v) "shipment_count_" then
      (* parse warehouse and destination from variable name *)
      let parts := split (replace (name v) "shipment_count_" "") "_" in
      i ← getitem_list parts 0;
      j ← getitem_list parts 1;
      Ok (<[(i, j) := int (varValue solution (key v))]> shipment_counts,
          warehouse_usage)
    else if startswith (name v) "warehouse_usage_" then
      let i := replace (name v) "warehouse_usage_" "" in
      Ok (shipment_counts, <[i := int (varValue solution (key v))]> warehouse_usage)
    else Ok (shipment_counts, warehouse_usage))
    (∅, ∅).

(** [d.get(k, 0)]. *)
Definition get0 `{Countable K} (d : gmap K Z) (k : K) : Z := default 0%Z (d !! k).

(** [(n / total_shipments) * 100 if total_shipments > 0 else 0]. *)
Definition pct (n total_shipments : Z) : Q :=
  if (0 <? total_shipments)%Z then (truediv n total_shipments * 100)%Q else 0%Q.

(** What is printed for an optimal solution. *)
Definition optimal_report : result (list Line) :=
  status_name ← getitem LpStatus (status solution);
  let out := [Text (rule "="); Text "SHIPMENT OPTIMIZATION SOLUTION"; Text (rule "=");
              Status status_name;
              TotalCost (value (varValue solution) (objective problem))] in
  (* extract solution values *)
  '(shipment_counts, warehouse_usage) ← extract_solution;
  (* total shipments across all destination targets *)
  let total_shipments := Zsum (values target_distribution) in
  (* warehouse usage and costs *)
  let out := out ++ [Text "WAREHOUSE USAGE:"; Text (rule "-")] in
  '(out, fixed_cost_total) ←
    for_ warehouses (λ '(out, fixed_cost_total) i,
      let active := (get0 warehouse_usage i =? 1)%Z in
      wcost ← getitem warehouse_cost i;
      let cost := (wcost * inject_Z (get0 warehouse_usage i))%Q in
      Ok (out ++ [WarehouseLine i active cost], (fixed_cost_total + cost)%Q))
      (out, 0%Q);
  let out := out ++ [TotalFixedCosts fixed_cost_total] in
  (* shipment routing table *)
  let out := out ++
    [Text "SHIPMENT ROUTING:"; Text (rule "-");
     Text "  From     -> To       |  Shipments |  Unit Cost |   Total Cost";
     Text ("  " +:+ string_of_list_ascii (replicate 76 "-"%char))] in
  '(out, variable_cost_total) ←
    for_ (pairs warehouses destinations) (λ '(out, variable_cost_total) '(i, j),
      let count := get0 shipment_counts (i, j) in
      if (0 <? count)%Z then
        unit_cost ← getitem2 shipment_cost i j;
        let total_cost := (inject_Z count * unit_cost)%Q in
        Ok (out ++ [RouteLine i j count unit_cost total_cost],
            (variable_cost_total + total_cost)%Q)
      else Ok (out, variable_cost_total))
      (out, 0%Q);
  let out := out ++
    [Text ("  " +:+ string_of_list_ascii (replicate 76 "-"%char));
     TotalVariableCosts variable_cost_total] in
  (* destination distribution *)
  let out := out ++
    [Text "DESTINATION DISTRIBUTION:"; Text (rule "-");
     Text "  Destination  |     Actual |     Target |  % of Total";
     Text ("  " +:+ string_of_list_ascii (replicate 76 "-"%char))] in
  let out := out ++
    ((λ j,
      let dest_actual := Zsum ((λ i, get0 shipment_counts (i, j)) <$> warehouses) in
      let dest_target := get0 target_distribution j in
      DestinationLine j dest_actual dest_target (pct dest_actual total_shipments))
     <$> destinations) in
  let out := out ++
    [Text ("  " +:+ string_of_list_ascii (replicate 76 "-"%char));
     DestinationTotal total_shipments] in
  (* warehouse distribution *)
  let out := out ++
    [Text "WAREHOUSE DISTRIBUTION:"; Text (rule "-");
     Text "  Warehouse    |  Shipments |  % of Total";
     Text ("  " +:+ string_of_list_ascii (replicate 76 "-"%char))] in
  let out := out ++
    ((λ i,
      let warehouse_total :=
        Zsum ((λ j, get0 shipment_counts (i, j)) <$> destinations) in
      WarehouseShare i warehouse_total (pct warehouse_total total_shipments))
     <$> warehouses) in
  let out := out ++
    [Text ("  " +:+ string_of_list_ascii (replicate 76 "-"%char));
     WarehouseTotal total_shipments] in
  (* delivery time statistics *)
  let out := out ++
    [Text "DELIVERY TIME STATISTICS:"; Text (rule "-");
     TargetDeliveryDays target_delivery_days] in
  '(total_delivery_days, on_time_shipments, late_shipments) ←
    for_ (pairs warehouses destinations)
      (λ '(total_delivery_days, on_time_shipments, late_shipments) '(i, j),
        let count := get0 shipment_counts (i, j) in
        if (0 <? count)%Z then
          days ← getitem2 delivery_estimate i j;
          let total_delivery_days := (total_delivery_days + days * count)%Z in
          if (days <=? target_delivery_days)%Z
          then Ok (total_delivery_days, (on_time_shipments + count)%Z, late_shipments)
          else Ok (total_delivery_days, on_time_shipments, (late_shipments + count)%Z)
        else Ok (total_delivery_days, on_time_shipments, late_shipments))
      (0%Z, 0%Z, 0%Z);
  let avg_delivery_days :=
    if (0 <? total_shipments)%Z then truediv total_delivery_days total_shipments
    else 0%Q in
  let out := out ++
    [Text "  Overall:";
     AverageDeliveryTime avg_delivery_days;
     OnTimeShipments on_time_shipments (pct on_time_shipments total_shipments);
     LateShipments late_shipments (pct late_shipments total_shipments);
     Text "  Destination  |  Avg Days |    On-Time |       Late |    Late %";
     Text ("  " +:+ string_of_list_ascii (replicate 76 "-"%char))] in
  (* per-destination statistics *)
  out ←
    for_ destinations (λ out j,
      let dest_total := Zsum ((λ i, get0 shipment_counts (i, j)) <$> warehouses) in
      if (0 <? dest_total)%Z then
        weighted ← comprehension (λ i,
            days ← getitem2 delivery_estimate i j;
            Ok (get0 shipment_counts (i, j) * days)%Z) warehouses;
        let dest_delivery_days := Zsum weighted in
        let dest_avg := truediv dest_delivery_days dest_total in
        on_time ← comprehension (λ i,
            days ← getitem2 delivery_estimate i j;
            Ok (if (days <=? target_delivery_days)%Z
                then get0 shipment_counts (i, j) else 0%Z)) warehouses;
        let dest_on_time := Zsum on_time in
        let dest_late := (dest_total - dest_on_time)%Z in
        let dest_late_pct := pct dest_late dest_total in
        Ok (out ++ [DestinationDelivery j dest_avg dest_on_time dest_late dest_late_pct])
      else Ok out)
      out;
  Ok (out ++ [Text (rule "=")]).

(** [print_solution] of [src/warehouse_shipments.py]. *)
Definition print_solution : result (list Line) :=
  if negb (status solution =? LpStatusOptimal)%Z then
    status_name ← getitem LpStatus (status solution);
    Ok [SolutionStatus status_name; Text "No optimal solution found."]
  else optimal_report.
End report.

End warehouse_shipments.

(** ** Tiered carrier discounts: the packaged copy of the model *)

Module problems_carrier_earned_discount_main.

(** [optimize_shipments] of [src/problems/carrier_earned_discount/main.py]. *)
Definition optimize_shipments
    (num_years : Z) (carriers destinations : list string)
    (shipment_target : list (gmap string Q))
    (shipment_cost : gmap string (gmap string Q))
    (tier_min_quantity : list Z)
    (discount_rate : gmap string (list Q)) : result (LpProblem TierKey) :=
  let problem := new_LpProblem "Carrier_Optimization" in
  let years := range num_years in
  let tiers := range (len tier_min_quantity) in
  (* decision variables: year -> carrier -> tier -> destination *)
  shipment_at_tier ←
    dict_of (λ year,
      dict_of (λ carrier,
        dict_of (λ tier,
          dict_of (λ dest,
            upBound ← target_at shipment_target year dest;
            Ok (new_LpVariable (shipment_at_tier_key year carrier tier dest)
                  (ship_name year carrier tier dest)
                  (Some 0%Q) (Some upBound) LpInteger))
            destinations)
          tiers)
        carriers)
      years;
  (* binary variables for tier selection: year -> carrier -> tier *)
  tier_flag ←
    comprehension (λ year,
      dict_of (λ carrier,
        Ok ((λ tier, new_LpVariable (tier_flag_key year carrier tier)
                       (tier_name year carrier tier) None None LpBinary)
            <$> tiers))
        carriers)
      years;
  (* objective function *)
  total_cost_terms ←
    comprehension_for (λ year,
      comprehension_for (λ carrier,
        comprehension_for (λ tier,
          comprehension (λ dest,
            v ← ship_at shipment_at_tier year carrier tier dest;
            costs ← getitem shipment_cost carrier;
            cost ← getitem costs dest;
            rates ← getitem discount_rate carrier;
            rate ← getitem_list rates tier;
            Ok (scale (scale (of_var v) cost) rate))
            destinations)
          tiers)
        carriers)
      years;
  let total_cost := lpSum total_cost_terms in
  let problem := set_objective problem total_cost in
  (* constraints *)
  problem ←
    for_ years (λ problem year,
      for_ carriers (λ problem carrier,
        (* only 1 earned discount tier may be active per year *)
        flags ← flags_at tier_flag year carrier;
        let problem :=
          add_constraint problem
            {| lhs := lpSum (of_var <$> flags); sense := LpConstraintEQ;
               rhs := of_num 1%Q |} None in
        for_ tiers (λ problem tier,
          problem ←
            for_ destinations (λ problem dest,
              (* shipments can only occur when tier is active *)
              v ← ship_at shipment_at_tier year carrier tier dest;
              target ← target_at shipment_target year dest;
              flag ← flag_at tier_flag year carrier tier;
              Ok (add_constraint problem
                    {| lhs := of_var v; sense := LpConstraintLE;
                       rhs := scale (of_var flag) target |} None))
              problem;
          (* total shipments at a discount tier across all destinations *)
          tier_total_terms ←
            comprehension (λ dest,
              v ← ship_at shipment_at_tier year carrier tier dest; Ok (of_var v))
              destinations;
          let tier_total := lpSum tier_total_terms in
          (* must meet minimum shipments for an active discount tier *)
          min_quantity ← getitem_list tier_min_quantity tier;
          flag ← flag_at tier_flag year carrier tier;
          Ok (add_constraint problem
                {| lhs := tier_total; sense := LpConstraintGE;
                   rhs := scale (of_var flag) (inject_Z min_quantity) |} None))
          problem)
        problem)
      problem;
  (* must hit shipment targets each year *)
  for_ years (λ problem year,
    for_ destinations (λ problem dest,
      destination_total_terms ←
        comprehension_for (λ carrier,
          comprehension (λ tier,
            v ← ship_at shipment_at_tier year carrier tier dest; Ok (of_var v))
            tiers)
          carriers;
      let destination_total := lpSum destination_total_terms in
      target ← target_at shipment_target year dest;
      Ok (add_constraint problem
            {| lhs := destination_total; sense := LpConstraintEQ;
               rhs := of_num target |} None))
      problem)
    problem.

End problems_carrier_earned_discount_main.

(** ** The models, read off declaratively

    The constraints and the objective a successful run of a builder
    produces, written without the dictionaries; the lemmas below show that
    the builders return exactly these. *)

Definition add_constraints {K} (p : LpProblem K)
    (cs : list (option string * LpConstraint K)) : LpProblem K :=
  {| problem_name := problem_name p; objective := objective p;
     constraints := constraints p ++ cs |}.

(** The value of a successful lookup, 0 when the lookup raises. *)
Definition or0 (r : result Q) : Q := match r with Ok q => q | Raise _ => 0%Q end.
Definition or0Z (r : result Z) : Z := match r with Ok z => z | Raise _ => 0%Z end.

Section tiered_model.
Context (num_years : Z) (carriers destinations : list string).
Context (shipment_target : list (gmap string Q)).
Context (shipment_cost : gmap string (gmap string Q)).
Context (tier_min_quantity : list Z).
Context (discount_rate : gmap string (list Q)).

Definition years : list Z := range num_years.
Definition tiers : list Z := range (len tier_min_quantity).

Definition target (year : Z) (dest : string) : Q :=
  or0 (target_at shipment_target year dest).
Definition unit_cost (carrier dest : string) : Q :=
  or0 (getitem2 shipment_cost carrier dest).
Definition rate (carrier : string) (tier : Z) : Q :=
  or0 (rates ← getitem discount_rate carrier; getitem_list rates tier).
Definition min_quantity (tier : Z) : Z :=
  or0Z (getitem_list tier_min_quantity tier).

Definition ship_var (year : Z) (carrier : string) (tier : Z) (dest : string)
  : LpVariable TierKey :=
  new_LpVariable (shipment_at_tier_key year carrier tier dest)
    (ship_name year carrier tier dest) (Some 0%Q) (Some (target year dest))
    LpInteger.
Definition flag_var (year : Z) (carrier : string) (tier : Z) : LpVariable TierKey :=
  new_LpVariable (tier_flag_key year carrier tier) (tier_name year carrier tier)
    None None LpBinary.

Definition tiered_objective : LpAffineExpression TierKey :=
  lpSum (year ← years; carrier ← carriers; tier ← tiers; dest ← destinations;
         [scale (scale (of_var (ship_var year carrier tier dest))
                   (unit_cost carrier dest)) (rate carrier tier)]).

Definition one_tier_constraint (year : Z) (carrier : string) : LpConstraint TierKey :=
  {| lhs := lpSum (of_var <$> (flag_var year carrier <$> tiers));
     sense := LpConstraintEQ; rhs := of_num 1%Q |}.
Definition gating_constraint (year : Z) (carrier : string) (tier : Z)
    (dest : string) : LpConstraint TierKey :=
  {| lhs := of_var (ship_var year carrier tier dest); sense := LpConstraintLE;
     rhs := scale (of_var (flag_var year carrier tier)) (target year dest) |}.
Definition tier_minimum_constraint (year : Z) (carrier : string) (tier : Z)
  : LpConstraint TierKey :=
  {| lhs := lpSum ((λ dest, of_var (ship_var year carrier tier dest)) <$> destinations);
     sense := LpConstraintGE;
     rhs := scale (of_var (flag_var year carrier tier))
              (inject_Z (min_quantity tier)) |}.
Definition target_constraint (year : Z) (dest : string) : LpConstraint TierKey :=
  {| lhs := lpSum (carrier ← carriers; tier ← tiers;
                   [of_var (ship_var year carrier tier dest)]);
     sense := LpConstraintEQ; rhs := of_num (target year dest) |}.

Definition tier_constraints (year : Z) (carrier : string)
  : list (option string * LpConstraint TierKey) :=
  (None, one_tier_constraint year carrier) ::
  (tier ← tiers;
   ((λ dest, (None, gating_constraint year carrier tier dest)) <$> destinations)
   ++ [(None, tier_minimum_constraint year carrier tier)]).

Definition tiered_constraints : list (option string * LpConstraint TierKey) :=
  (year ← years; carrier ← carriers; tier_constraints year carrier) ++
  (year ← years; dest ← destinations; [(None, target_constraint year dest)]).

Definition tiered_model : LpProblem TierKey :=
  {| problem_name := "Carrier_Optimization";
     objective := tiered_objective;
     constraints := tiered_constraints |}.
End tiered_model.

Section network_model.
Context (warehouses destinations : list string).
Context (target_distribution : gmap string Z).
Context (shipment_capacity : gmap string (gmap string Z)).
Context (warehouse_cost : gmap string Q).
Context (shipment_cost : gmap string (gmap string Q)).
Context (target_delivery_days : Z).
Context (delivery_tolerance : Q).
Context (delivery_estimate : gmap string (gmap string Z)).

Definition capacity (i j : string) : Z := or0Z (getitem2 shipment_capacity i j).
Definition route_cost (i j : string) : Q := or0 (getitem2 shipment_cost i j).
Definition fixed_cost (i : string) : Q := or0 (getitem warehouse_cost i).
Definition demand (j : string) : Z := or0Z (getitem target_distribution j).
(** The entry [(i, j)] of [delivery_target_failure]. *)
Definition late_indicator (i j : string) : Z :=
  if (target_delivery_days <? or0Z (getitem2 delivery_estimate i j))%Z
  then 1%Z else 0%Z.

Definition count_var (i j : string) : LpVariable NetKey :=
  new_LpVariable (shipment_count_key i j) (shipment_count_name i j)
    (Some 0%Q) (Some (inject_Z (capacity i j))) LpInteger.
Definition usage_var (i : string) : LpVariable NetKey :=
  new_LpVariable (warehouse_usage_key i) (warehouse_usage_name i) None None LpBinary.

Definition network_objective : LpAffineExpression NetKey :=
  add (lpSum (i ← warehouses; j ← destinations;
              [scale (of_var (count_var i j)) (route_cost i j)]))
      (lpSum ((λ i, scale (of_var (usage_var i)) (fixed_cost i)) <$> warehouses)).

Definition usage_constraint (i j : string) : LpConstraint NetKey :=
  {| lhs := of_var (count_var i j); sense := LpConstraintLE;
     rhs := scale (of_var (usage_var i)) (inject_Z (capacity i j)) |}.
Definition distribution_constraint (j : string) : LpConstraint NetKey :=
  {| lhs := lpSum ((λ i, of_var (count_var i j)) <$> warehouses);
     sense := LpConstraintEQ; rhs := of_num (inject_Z (demand j)) |}.
Definition delivery_constraint (j : string) : LpConstraint NetKey :=
  {| lhs := lpSum ((λ i, scale (of_var (count_var i j))
                           (inject_Z (late_indicator i j))) <$> warehouses);
     sense := LpConstraintLE;
     rhs := scale (lpSum ((λ i, of_var (count_var i j)) <$> warehouses))
              delivery_tolerance |}.

Definition network_constraints : list (option string * LpConstraint NetKey) :=
  (i ← warehouses; j ← destinations;
   [(Some ("Warehouse_Usage_" +:+ i +:+ "_" +:+ j), usage_constraint i j)]) ++
  ((λ j, (Some ("Distribution_" +:+ j), distribution_constraint j)) <$> destinations) ++
  ((λ j, (Some ("Delivery_Target_" +:+ j), delivery_constraint j)) <$> destinations).

Definition network_model : LpProblem NetKey :=
  {| problem_name := "Shipment_Optimization";
     objective := network_objective;
     constraints := network_constraints |}.
End network_model.

(** ** The dictionaries of the builders *)

Section tiered_builders.
Context (num_years : Z) (carriers destinations : list string).
Context (shipment_target : list (gmap string Q)).
Context (shipment_cost : gmap string (gmap string Q)).
Context (tier_min_quantity : list Z).
Context (discount_rate : gmap string (list Q)).

(** The two dictionaries of variables, as the builders fill them. *)
Definition build_shipment_at_tier : result ShipStore :=
  dict_of (λ year,
    dict_of (λ carrier,
      dict_of (λ tier,
        dict_of (λ dest,
          upBound ← target_at shipment_target year dest;
          Ok (new_LpVariable (shipment_at_tier_key year carrier tier dest)
                (ship_name year carrier tier dest)
                (Some 0%Q) (Some upBound) LpInteger))
          destinations)
        (tiers tier_min_quantity))
      carriers)
    (years num_years).
Definition build_tier_flag : result FlagStore :=
  comprehension (λ year,
    dict_of (λ carrier,
      Ok ((λ tier, new_LpVariable (tier_flag_key year carrier tier)
                     (tier_name year carrier tier) None None LpBinary)
          <$> (tiers tier_min_quantity)))
      carriers)
    (years num_years).

(** The term of the objective for one variable. *)
Definition objective_term (store : ShipStore) (year : Z) (carrier : string)
    (tier : Z) (dest : string) : result (LpAffineExpression TierKey) :=
  v ← ship_at store year carrier tier dest;
  costs ← getitem shipment_cost carrier;
  cost ← getitem costs dest;
  rates ← getitem discount_rate carrier;
  rate ← getitem_list rates tier;
  Ok (scale (scale (of_var v) cost) rate).

(** The flow into a destination in a year: every carrier, every tier. *)
Definition inflow (a : TierKey → Q) (year : Z) (dest : string) : Q :=
  Qsum (carrier ← carriers; tier ← (tiers tier_min_quantity);
        [a (shipment_at_tier_key year carrier tier dest)]).
End tiered_builders.

Section network_builders.
Context (warehouses destinations : list string).
Context (shipment_capacity : gmap string (gmap string Z)).
Context (target_delivery_days : Z).
Context (delivery_estimate : gmap string (gmap string Z)).

(** The three dictionaries, as the builder fills them. *)
Definition build_shipment_count : result (gmap (string * string) (LpVariable NetKey)) :=
  dict_of (λ '(i, j),
    upBound ← getitem2 shipment_capacity i j;
    Ok (new_LpVariable (shipment_count_key i j) (shipment_count_name i j)
          (Some 0%Q) (Some (inject_Z upBound)) LpInteger))
    (pairs warehouses destinations).
Definition build_warehouse_usage : result (gmap string (LpVariable NetKey)) :=
  dict_of (λ i,
    Ok (new_LpVariable (warehouse_usage_key i) (warehouse_usage_name i)
          None None LpBinary))
    warehouses.
Definition build_delivery_target_failure : result (gmap (string * string) Z) :=
  dict_of (λ '(i, j),
    estimate ← getitem2 delivery_estimate i j;
    Ok (if (target_delivery_days <? estimate)%Z then 1%Z else 0%Z))
    (pairs warehouses destinations).
End network_builders.

(** ** Names that parse back *)

(** [c in s]. *)
Fixpoint contains (s : string) (c : ascii) : bool :=
  match s with
  | EmptyString => false
  | String b s' => Ascii.eqb b c || contains s' c
  end.

(** A name PuLP keeps as it is: it has none of the characters that
    [LpElement.setName] rewrites. *)
Definition kept_by_pulp (s : string) : bool :=
  forallb (λ c, negb (contains s c)) illegal_chars.

(** A name without underscore that PuLP keeps as it is. *)
Definition plain_name (s : string) : bool :=
  negb (contains s "_") && kept_by_pulp s.

(** [s.count(c)]. *)
Fixpoint count_char (c : ascii) (s : string) : nat :=
  match s with
  | EmptyString => 0
  | String b s' => (if Ascii.eqb b c then 1 else 0) + count_char c s'
  end.

(** What one round of the loop of [extract_solution] does to the two
    dictionaries when the name of the variable parses to its own key. *)
Definition extract_step (solution : Solution NetKey)
    (st : gmap (string * string) Z * gmap string Z) (v : LpVariable NetKey)
  : gmap (string * string) Z * gmap string Z :=
  match key v with
  | shipment_count_key i j =>
    (<[(i, j) := int (varValue solution (key v))]> st.1, st.2)
  | warehouse_usage_key i =>
    (st.1, <[replace (name v) "warehouse_usage_" "" :=
               int (varValue solution (key v))]> st.2)
  end.

(** ** Outcomes of a call *)

(** A result that, if it is an exception, is the exception [e]. *)
Definition ok_or {A} (e : exn) (r : result A) : Prop :=
  match r with Ok _ => True | Raise e' => e' = e end.

(** ** Assignments and inputs compared *)

(** The assignment that closes every warehouse and keeps the flows. *)
Definition without_usage (a : NetKey → Q) (k : NetKey) : Q :=
  match k with
  | warehouse_usage_key _ => 0%Q
  | shipment_count_key _ _ => a k
  end.

(** Two cost tables that differ only in the entry [cost[source][dest]], which
    the second one has higher: the second is the first after
    [cost[source][dest] = v'] with [v <= v']. *)
Definition raised_entry (cost cost' : gmap string (gmap string Q))
    (source dest : string) : Prop :=
  ∃ row v v',
    getitem cost source = Ok row ∧ getitem row dest = Ok v ∧ (v <= v')%Q ∧
    cost' = <[source := <[dest := v']> row]> cost.

(** ** Reading the reports *)

(** The figures printed in the cost column of the yearly table: the
    per-destination costs, the carrier totals and the year totals, in the
    order they are printed. *)
Definition cost_figures (out : list carrier_earned_discount_report.Line) : list Q :=
  out ≫= λ line,
    match line with
    | carrier_earned_discount_report.DestinationRow _ _ _ dest_cost => [dest_cost]
    | carrier_earned_discount_report.CarrierTotal _ carrier_cost => [carrier_cost]
    | carrier_earned_discount_report.YearTotal _ year_total_cost => [year_total_cost]
    | _ => []
    end.

(** A fixed line, and a line that repeats a target of the input. *)
Definition is_text (line : carrier_earned_discount_report.Line) : bool :=
  match line with carrier_earned_discount_report.Text _ => true | _ => false end.

Definition is_target_line (line : carrier_earned_discount_report.Line) : bool :=
  match line with
  | carrier_earned_discount_report.YearTargetTotal _ _
  | carrier_earned_discount_report.DestinationTarget _ _ => true
  | _ => false
  end.

(** [sum(shipment_target[year].values())]. *)
Definition year_total (shipment_target : list (gmap string Q)) (year : Z)
  : result Q :=
  targets ← getitem_list shipment_target year; Ok (Qsum (values targets)).

(** ** Example inputs *)

Module example.
(** One carrier, one destination, one year and two tiers; the second tier is
    active and carries the whole target. *)
Definition shipment_target : list (gmap string Q) := [ {[ "A" := 10%Q ]} ].
Definition shipment_cost : gmap string (gmap string Q) :=
  {[ "UPS" := {[ "A" := 5%Q ]} ]}.
Definition tier_min_quantity : list Z := [0%Z; 5%Z].
Definition discount_rate : gmap string (list Q) := {[ "UPS" := [1%Q; 0.9%Q] ]}.
Definition tiered : LpProblem TierKey :=
  tiered_model 1 ["UPS"] ["A"] shipment_target shipment_cost tier_min_quantity
    discount_rate.
Definition tiered_assignment (k : TierKey) : Q :=
  match k with
  | shipment_at_tier_key _ _ tier _ => if (tier =? 1)%Z then 10%Q else 0%Q
  | tier_flag_key _ _ tier => if (tier =? 1)%Z then 1%Q else 0%Q
  end.

(** Two warehouses and one destination; the first warehouse ships the whole
    demand and the second stays closed. *)
Definition target_distribution : gmap string Z := {[ "x" := 3%Z ]}.
Definition shipment_capacity : gmap string (gmap string Z) :=
  {[ "a" := {[ "x" := 5%Z ]}; "b" := {[ "x" := 5%Z ]} ]}.
Definition warehouse_cost : gmap string Q := {[ "a" := 10%Q; "b" := 20%Q ]}.
Definition route_cost : gmap string (gmap string Q) :=
  {[ "a" := {[ "x" := 1%Q ]}; "b" := {[ "x" := 2%Q ]} ]}.
Definition delivery_estimate : gmap string (gmap string Z) :=
  {[ "a" := {[ "x" := 2%Z ]}; "b" := {[ "x" := 4%Z ]} ]}.
Definition network : LpProblem NetKey :=
  network_model ["a"; "b"] ["x"] target_distribution shipment_capacity
    warehouse_cost route_cost 3 0.5 delivery_estimate.
Definition network_assignment (k : NetKey) : Q :=
  match k with
  | shipment_count_key i _ => if String.eqb i "a" then 3%Q else 0%Q
  | warehouse_usage_key i => if String.eqb i "a" then 1%Q else 0%Q
  end.
End example.

Module misnamed.
(** One warehouse and one destination with capacity and demand 3, under a
    warehouse name chosen by the caller; the solver ships the 3 units. *)
Definition target_distribution : gmap string Z := {[ "x" := 3%Z ]}.
Definition shipment_capacity (w : string) : gmap string (gmap string Z) :=
  {[ w := {[ "x" := 3%Z ]} ]}.
Definition warehouse_cost (w : string) : gmap string Q := {[ w := 10%Q ]}.
Definition shipment_cost (w : string) : gmap string (gmap string Q) :=
  {[ w := {[ "x" := 1%Q ]} ]}.
Definition delivery_estimate (w : string) : gmap string (gmap string Z) :=
  {[ w := {[ "x" := 2%Z ]} ]}.
Definition problem (w : string) : result (LpProblem NetKey) :=
  warehouse_shipments.optimize_shipments [w] ["x"] target_distribution
    (shipment_capacity w) (warehouse_cost w) (shipment_cost w) 3 0.5
    (delivery_estimate w).
Definition solution : Solution NetKey :=
  {| status := LpStatusOptimal;
     varValue := λ k, match k with
                      | shipment_count_key _ _ => 3%Q
                      | warehouse_usage_key _ => 1%Q
                      end |}.
(** The entries of the reconstructed [shipment_counts] under two keys. *)
Definition shipment_counts_at (w : string) (k1 k2 : string * string)
  : result (option Z * option Z) :=
  m ← problem w;
  '(shipment_counts, _) ← warehouse_shipments.extract_solution m solution;
  Ok (shipment_counts !! k1, shipment_counts !! k2).
End misnamed.

Module zero_target.
(** One carrier with a single tier, one destination with target 0. *)
Definition shipment_target : list (gmap string Q) := [ {[ "A" := 0%Q ]} ].
Definition single_tier : LpProblem TierKey :=
  tiered_model 1 ["UPS"] ["A"] shipment_target example.shipment_cost [0%Z]
    {[ "UPS" := [1%Q] ]}.
Definition tiered : LpProblem TierKey :=
  tiered_model 1 ["UPS"] ["A"] shipment_target example.shipment_cost
    example.tier_min_quantity example.discount_rate.
Definition first_tier_active (k : TierKey) : Q :=
  match k with
  | shipment_at_tier_key _ _ _ _ => 0%Q
  | tier_flag_key _ _ tier => if (tier =? 0)%Z then 1%Q else 0%Q
  end.

(** Two warehouses, one destination with demand 0; the first warehouse is
    open although nothing is shipped. *)
Definition target_distribution : gmap string Z := {[ "x" := 0%Z ]}.
Definition network : LpProblem NetKey :=
  network_model ["a"; "b"] ["x"] target_distribution example.shipment_capacity
    example.warehouse_cost example.route_cost 3 0.5 example.delivery_estimate.
Definition open_idle (k : NetKey) : Q :=
  match k with
  | shipment_count_key _ _ => 0%Q
  | warehouse_usage_key i => if String.eqb i "a" then 1%Q else 0%Q
  end.
End zero_target.

Module single_tier.
(** One carrier with a single tier, one destination with target 1: the
    carrier ships the one unit, whatever it costs. *)
Definition shipment_target : list (gmap string Q) := [ {[ "A" := 1%Q ]} ].
Definition lower_cost : gmap string (gmap string Q) := {[ "UPS" := {[ "A" := 1%Q ]} ]}.
Definition higher_cost : gmap string (gmap string Q) :=
  <[ "UPS" := <[ "A" := 2%Q ]> {[ "A" := 1%Q ]} ]> lower_cost.
Definition model (cost : gmap string (gmap string Q)) (multiplier : Q)
  : LpProblem TierKey :=
  tiered_model 1 ["UPS"] ["A"] shipment_target cost [0%Z] {[ "UPS" := [multiplier] ]}.
Definition assignment (k : TierKey) : Q := 1%Q.
End single_tier.

Module raised_route.
(** The cost of the route from the first warehouse raised from 1 to 3. *)
Definition route_cost : gmap string (gmap string Q) :=
  <[ "a" := <[ "x" := 3%Q ]> {[ "x" := 1%Q ]} ]> example.route_cost.
Definition network (cost : gmap string (gmap string Q)) : LpProblem NetKey :=
  network_model ["a"; "b"] ["x"] example.target_distribution
    example.shipment_capacity example.warehouse_cost cost 3 0.5
    example.delivery_estimate.
End raised_route.

(** ** What the builders read *)

(** Every dictionary entry that [optimize_shipments] of
    [src/warehouse_shipments.py] reads is there. *)
Definition network_entries_present
    (warehouses destinations : list string)
    (target_distribution : gmap string Z)
    (shipment_capacity : gmap string (gmap string Z))
    (warehouse_cost : gmap string Q)
    (shipment_cost : gmap string (gmap string Q))
    (delivery_estimate : gmap string (gmap string Z)) : Prop :=
  (∀ i j, i ∈ warehouses → j ∈ destinations →
     (∃ c, getitem2 shipment_capacity i j = Ok c) ∧
     (∃ c, getitem2 shipment_cost i j = Ok c) ∧
     (∃ d, getitem2 delivery_estimate i j = Ok d)) ∧
  (∀ i, i ∈ warehouses → ∃ c, getitem warehouse_cost i = Ok c) ∧
  (∀ j, j ∈ destinations → ∃ t, getitem target_distribution j = Ok t).

(** The names under which [optimize_shipments] of
    [src/warehouse_shipments.py] adds its constraints, as PuLP stores them.
    PuLP refuses a constraint whose name is in use, which the model of
    [problem += (constraint, name)] leaves out: when these names are
    distinct a run of the builder meets no such refusal. *)
Definition network_constraint_names (warehouses destinations : list string)
  : list string :=
  ((λ '(i, j), translate ("Warehouse_Usage_" +:+ i +:+ "_" +:+ j))
     <$> pairs warehouses destinations)
  ++ ((λ j, translate ("Distribution_" +:+ j)) <$> destinations)
  ++ ((λ j, translate ("Delivery_Target_" +:+ j)) <$> destinations).


(** ** The network report, read off declaratively

    The lines that [print_solution] of [src/warehouse_shipments.py] prints
    for an optimal solution, as functions of the two dictionaries that it
    reads back from the variable names. A missing cost or estimate reads as
    0 here; the report itself raises [KeyError]. *)

Section network_report_lines.
Import warehouse_shipments.
Context (warehouses destinations : list string).
Context (target_distribution : gmap string Z).
Context (warehouse_cost : gmap string Q).
Context (shipment_cost : gmap string (gmap string Q)).
Context (target_delivery_days : Z).
Context (delivery_estimate : gmap string (gmap string Z)).
Context (shipment_counts : gmap (string * string) Z).
Context (warehouse_usage : gmap string Z).

Definition estimate (i j : string) : Z := or0Z (getitem2 delivery_estimate i j).
Definition total_shipments : Z := Zsum (values target_distribution).
Definition dashes : Line := Text ("  " +:+ string_of_list_ascii (replicate 76 "-"%char)).

Definition warehouse_lines : list Line :=
  (λ i, WarehouseLine i (get0 warehouse_usage i =? 1)%Z
          (fixed_cost warehouse_cost i * inject_Z (get0 warehouse_usage i))%Q)
  <$> warehouses.
Definition fixed_cost_total : Q :=
  foldl (λ total i,
    (total + fixed_cost warehouse_cost i * inject_Z (get0 warehouse_usage i))%Q)
    0%Q warehouses.

Definition route_lines : list Line :=
  '(i, j) ← pairs warehouses destinations;
  let count := get0 shipment_counts (i, j) in
  if (0 <? count)%Z then
    [RouteLine i j count (route_cost shipment_cost i j)
       (inject_Z count * route_cost shipment_cost i j)%Q]
  else [].
Definition variable_cost_total : Q :=
  foldl (λ total '(i, j),
    let count := get0 shipment_counts (i, j) in
    if (0 <? count)%Z
    then (total + inject_Z count * route_cost shipment_cost i j)%Q else total)
    0%Q (pairs warehouses destinations).

Definition dest_actual (j : string) : Z :=
  Zsum ((λ i, get0 shipment_counts (i, j)) <$> warehouses).
Definition destination_lines : list Line :=
  (λ j, DestinationLine j (dest_actual j) (get0 target_distribution j)
          (pct (dest_actual j) total_shipments))
  <$> destinations.

Definition warehouse_total (i : string) : Z :=
  Zsum ((λ j, get0 shipment_counts (i, j)) <$> destinations).
Definition warehouse_share_lines : list Line :=
  (λ i, WarehouseShare i (warehouse_total i) (pct (warehouse_total i) total_shipments))
  <$> warehouses.

(** The three running totals of the delivery statistics. *)
Definition delivery_totals : Z * Z * Z :=
  foldl (λ '(total_delivery_days, on_time_shipments, late_shipments) '(i, j),
    let count := get0 shipment_counts (i, j) in
    if (0 <? count)%Z then
      let days := estimate i j in
      if (days <=? target_delivery_days)%Z
      then ((total_delivery_days + days * count)%Z,
            (on_time_shipments + count)%Z, late_shipments)
      else ((total_delivery_days + days * count)%Z,
            on_time_shipments, (late_shipments + count)%Z)
    else (total_delivery_days, on_time_shipments, late_shipments))
    (0%Z, 0%Z, 0%Z) (pairs warehouses destinations).

Definition dest_on_time (j : string) : Z :=
  Zsum ((λ i, if (estimate i j <=? target_delivery_days)%Z
              then get0 shipment_counts (i, j) else 0%Z) <$> warehouses).
Definition destination_delivery_lines : list Line :=
  j ← destinations;
  if (0 <? dest_actual j)%Z then
    [DestinationDelivery j
       (truediv (Zsum ((λ i, get0 shipment_counts (i, j) * estimate i j)%Z
                         <$> warehouses))
                (dest_actual j))
       (dest_on_time j) (dest_actual j - dest_on_time j)%Z
       (pct (dest_actual j - dest_on_time j) (dest_actual j))]
  else [].

Definition report_lines (status_name : string) (total_cost : Q) : list Line :=
  [Text (rule "="); Text "SHIPMENT OPTIMIZATION SOLUTION"; Text (rule "=");
   Status status_name; TotalCost total_cost;
   Text "WAREHOUSE USAGE:"; Text (rule "-")]
  ++ warehouse_lines
  ++ [TotalFixedCosts fixed_cost_total;
      Text "SHIPMENT ROUTING:"; Text (rule "-");
      Text "  From     -> To       |  Shipments |  Unit Cost |   Total Cost";
      dashes]
  ++ route_lines
  ++ [dashes; TotalVariableCosts variable_cost_total;
      Text "DESTINATION DISTRIBUTION:"; Text (rule "-");
      Text "  Destination  |     Actual |     Target |  % of Total";
      dashes]
  ++ destination_lines
  ++ [dashes; DestinationTotal total_shipments;
      Text "WAREHOUSE DISTRIBUTION:"; Text (rule "-");
      Text "  Warehouse    |  Shipments |  % of Total";
      dashes]
  ++ warehouse_share_lines
  ++ [dashes; WarehouseTotal total_shipments;
      Text "DELIVERY TIME STATISTICS:"; Text (rule "-");
      TargetDeliveryDays target_delivery_days;
      Text "  Overall:";
      AverageDeliveryTime
        (if (0 <? total_shipments)%Z
         then truediv delivery_totals.1.1 total_shipments else 0%Q);
      OnTimeShipments delivery_totals.1.2 (pct delivery_totals.1.2 total_shipments);
      LateShipments delivery_totals.2 (pct delivery_totals.2 total_shipments);
      Text "  Destination  |  Avg Days |    On-Time |       Late |    Late %";
      dashes]
  ++ destination_delivery_lines
  ++ [Text (rule "=")].
End network_report_lines.


(** ** Digits *)

(** A decimal digit, and a string of decimal digits. *)
Definition is_digit (c : ascii) : bool :=
  bool_decide (c ∈ ["0"; "1"; "2"; "3"; "4"; "5"; "6"; "7"; "8"; "9"]%char).
Fixpoint all_digits (s : string) : bool :=
  match s with
  | EmptyString => true
  | String c s' => is_digit c && all_digits s'
  end.

(** ["_".join(fields)]. *)
Fixpoint join_underscore (fields : list string) : string :=
  match fields with
  | [] => EmptyString
  | [s] => s
  | s :: rest => s +:+ String "_" (join_underscore rest)
  end.

(** ** Reading the tiered report *)

(** A line of one of the two summary tables of the tiered report. *)
Definition is_summary_line (line : carrier_earned_discount_report.Line) : bool :=
  match line with
  | carrier_earned_discount_report.DestinationSummary _ _ _ _
  | carrier_earned_discount_report.CarrierPerformance _ _ _ _ _ => true
  | _ => false
  end.

Module spaced_carrier.
(** The tiered example with a carrier whose name has a space. *)
Definition shipment_cost : gmap string (gmap string Q) :=
  {[ "U S" := {[ "A" := 5%Q ]} ]}.
Definition discount_rate : gmap string (list Q) := {[ "U S" := [1%Q; 0.9%Q] ]}.
Definition solution : Solution TierKey :=
  {| status := LpStatusOptimal; varValue := example.tiered_assignment |}.
End spaced_carrier.


(** ** Reading the parameters from the console

    [input()] takes the next line of the standard input and raises
    [EOFError] when there is none. A reader is given the lines that are left
    and returns its value with the lines it has not read, [None] standing for
    [EOFError]. The prompts and the messages printed while the parameters are
    read are not part of the model. *)

Definition reader (A : Type) : Type := list string → option (A * list string).

Global Instance reader_ret : MRet reader := λ A a lines, Some (a, lines).
Global Instance reader_bind : MBind reader := λ A B f m lines,
  match m lines with Some (a, rest) => f a rest | None => None end.

(** [input(prompt)]. *)
Definition input : reader string := λ lines,
  match lines with [] => None | line :: rest => Some (line, rest) end.

(** The loop
    [while True: try: val = parse(input()); if accept(val): break
    except ValueError: ...], where [parse] returns [None] for [ValueError]:
    lines are read until one is parsed and accepted. *)
Fixpoint ask {A} (parse : string → option A) (accept : A → bool)
    (lines : list string) : option (A * list string) :=
  match lines with
  | [] => None
  | line :: rest =>
    match parse line with
    | Some val => if accept val then Some (val, rest) else ask parse accept rest
    | None => ask parse accept rest
    end
  end.

(** A loop [for x in l: body] that threads a state and reads from the
    console. *)
Fixpoint for_in {A S} (l : list A) (body : S → A → reader S) (s : S) : reader S :=
  match l with
  | [] => mret s
  | x :: l' => s' ← body s x; for_in l' body s'
  end.

(** The parameters of the two builders, as the dictionaries returned by the
    two [get_user_input]. *)
Record tiered_params := {
  tp_num_years : Z;
  tp_carriers : list string;
  tp_destinations : list string;
  tp_shipment_target : list (gmap string Q);
  tp_shipment_cost : gmap string (gmap string Q);
  tp_tier_min_quantity : list Z;
  tp_discount_rate : gmap string (list Q);
}.

Record network_params := {
  np_warehouses : list string;
  np_destinations : list string;
  np_target_distribution : gmap string Z;
  np_shipment_capacity : gmap string (gmap string Z);
  np_warehouse_cost : gmap string Q;
  np_shipment_cost : gmap string (gmap string Q);
  np_target_delivery_days : Z;
  np_delivery_tolerance : Q;
  np_delivery_estimate : gmap string (gmap string Z);
}.

Section console.
(** [s.strip()], [int(s)] and [float(s)] of a string are parameters; the two
    conversions return [None] where Python raises [ValueError]. *)
Context (strip : string → string).
Context (int_of : string → option Z) (float_of : string → option Q).

(** [[f(x) for x in line.split(",") if x.strip()]]. *)
Definition numbers {A} (f : string → option A) (line : string) : option (list A) :=
  mapM f (filter (λ x, strip x ≠ "") (split line ",")).

(** [get_user_input] of [src/problems/carrier_earned_discount/main.py]. A
    dictionary that is created empty, stored and then filled is stored here
    when it has been filled. *)
Definition tiered_get_user_input : reader tiered_params :=
  num_years ← ask (λ line, int_of (strip line)) (λ num_years, (0 <? num_years)%Z);
  carrier_input ← input;
  let carriers :=
    filter (λ c, c ≠ "") (strip <$> split (strip carrier_input) ",") in
  destination_input ← input;
  let destinations :=
    filter (λ d, d ≠ "") (strip <$> split (strip destination_input) ",") in
  shipment_target ←
    for_in (range num_years) (λ shipment_target year,
      yearly_targets ←
        for_in destinations (λ yearly_targets dest,
          val ← ask (λ line, int_of (strip line)) (λ val, (0 <=? val)%Z);
          mret (<[dest := inject_Z val]> yearly_targets)) ∅;
      mret (shipment_target ++ [yearly_targets])) [];
  shipment_cost ←
    for_in carriers (λ shipment_cost carrier,
      costs ←
        for_in destinations (λ costs dest,
          val ← ask (λ line, float_of (strip line)) (λ val, Qle_bool 0 val);
          mret (<[dest := val]> costs)) ∅;
      mret (<[carrier := costs]> shipment_cost)) ∅;
  user_tiers ← ask (λ line, numbers int_of (strip line))
                  (forallb (λ x, (0 <? x)%Z));
  let tier_min_quantity := 0%Z :: user_tiers in
  discount_rate ←
    for_in carriers (λ discount_rate carrier,
      user_rates ← ask (λ line, numbers float_of (strip line))
                      (λ user_rates,
                         (len user_rates =? len tier_min_quantity - 1)%Z
                         && forallb (λ r, Qltb 0 r) user_rates);
      mret (<[carrier := 1%Q :: user_rates]> discount_rate)) ∅;
  mret {| tp_num_years := num_years; tp_carriers := carriers;
          tp_destinations := destinations; tp_shipment_target := shipment_target;
          tp_shipment_cost := shipment_cost;
          tp_tier_min_quantity := tier_min_quantity;
          tp_discount_rate := discount_rate |}.

(** [get_user_input] of [src/warehouse_shipments.py]. *)
Definition network_get_user_input : reader network_params :=
  warehouse_input ← input;
  let warehouses := strip <$> split (strip warehouse_input) "," in
  destination_input ← input;
  let destinations := strip <$> split (strip destination_input) "," in
  target_distribution ←
    for_in destinations (λ target_distribution j,
      val ← ask (λ line, int_of (strip line)) (λ val, (0 <=? val)%Z);
      mret (<[j := val]> target_distribution)) ∅;
  warehouse_cost ←
    for_in warehouses (λ warehouse_cost i,
      val ← ask (λ line, float_of (strip line)) (λ val, Qle_bool 0 val);
      mret (<[i := val]> warehouse_cost)) ∅;
  shipment_capacity ←
    for_in warehouses (λ shipment_capacity i,
      row ←
        for_in destinations (λ row j,
          val ← ask (λ line, int_of (strip line)) (λ val, (0 <=? val)%Z);
          mret (<[j := val]> row)) ∅;
      mret (<[i := row]> shipment_capacity)) ∅;
  shipment_cost ←
    for_in warehouses (λ shipment_cost i,
      row ←
        for_in destinations (λ row j,
          val ← ask (λ line, float_of (strip line)) (λ val, Qltb 0 val);
          mret (<[j := val]> row)) ∅;
      mret (<[i := row]> shipment_cost)) ∅;
  target_delivery_days ←
    ask (λ line, int_of (strip line)) (λ days, (0 <? days)%Z);
  delivery_tolerance ←
    ask (λ line, float_of (strip line))
      (λ tolerance, Qle_bool 0 tolerance && Qle_bool tolerance 1);
  delivery_estimate ←
    for_in warehouses (λ delivery_estimate i,
      row ←
        for_in destinations (λ row j,
          val ← ask (λ line, int_of (strip line)) (λ val, (1 <=? val)%Z);
          mret (<[j := val]> row)) ∅;
      mret (<[i := row]> delivery_estimate)) ∅;
  mret {| np_warehouses := warehouses; np_destinations := destinations;
          np_target_distribution := target_distribution;
          np_shipment_capacity := shipment_capacity;
          np_warehouse_cost := warehouse_cost; np_shipment_cost := shipment_cost;
          np_target_delivery_days := target_delivery_days;
          np_delivery_tolerance := delivery_tolerance;
          np_delivery_estimate := delivery_estimate |}.

(** The two [main]: the parameters are read, the model is built, the solver
    [solve] is run on it and the report is printed. The result is [None] when
    the input ends before the parameters are complete. *)
Definition tiered_main (solve : LpProblem TierKey → Solution TierKey)
    (lines : list string)
  : option (result (list carrier_earned_discount_report.Line)) :=
  match tiered_get_user_input lines with
  | None => None
  | Some (params, _) =>
    Some (problem ←
            problems_carrier_earned_discount_main.optimize_shipments
              (tp_num_years params) (tp_carriers params) (tp_destinations params)
              (tp_shipment_target params) (tp_shipment_cost params)
              (tp_tier_min_quantity params) (tp_discount_rate params);
          carrier_earned_discount_report.print_solution problem (solve problem)
            (tp_num_years params) (tp_carriers params) (tp_destinations params)
            (tp_shipment_target params) (tp_tier_min_quantity params)
            (tp_discount_rate params))
  end.

Definition network_main (solve : LpProblem NetKey → Solution NetKey)
    (lines : list string) : option (result (list warehouse_shipments.Line)) :=
  match network_get_user_input lines with
  | None => None
  | Some (params, _) =>
    Some (problem ←
            warehouse_shipments.optimize_shipments
              (np_warehouses params) (np_destinations params)
              (np_target_distribution params) (np_shipment_capacity params)
              (np_warehouse_cost params) (np_shipment_cost params)
              (np_target_delivery_days params) (np_delivery_tolerance params)
              (np_delivery_estimate params);
          warehouse_shipments.print_solution problem (solve problem)
            (np_warehouses params) (np_destinations params)
            (np_target_distribution params) (np_warehouse_cost params)
            (np_shipment_cost params) (np_target_delivery_days params)
            (np_delivery_estimate params))
  end.
End console.

Module console_example.
(** A console whose lines have no blanks and whose numbers are whole numbers
    in decimal digits. *)
Definition strip (s : string) : string := s.
Definition digit_value (c : ascii) : option Z :=
  if is_digit c then Some (Z.of_nat (nat_of_ascii c) - 48)%Z else None.
Fixpoint decimal (acc : Z) (s : string) : option Z :=
  match s with
  | EmptyString => Some acc
  | String c s' =>
    match digit_value c with
    | Some d => decimal (10 * acc + d) s'
    | None => None
    end
  end.
Definition int_of (s : string) : option Z :=
  match s with EmptyString => None | _ => decimal 0 s end.
Definition float_of (s : string) : option Q := inject_Z <$> int_of s.

(** The answers that give the network example, with tolerance 1; the first
    answer for the target is refused. *)
Definition network_lines : list string :=
  ["a,b"; "x"; "many"; "3"; "10"; "20"; "5"; "5"; "1"; "2"; "3"; "1"; "2"; "4"].
(** The answers that give the tiered example with multiplier 1 at the second
    tier; the first answers for the years and for the multipliers are
    refused. *)
Definition tiered_lines : list string :=
  ["0"; "1"; "UPS"; "A"; "10"; "5"; "5"; "1,1"; "1"].

(** The parameters that are read from them. *)
Definition network_read : network_params :=
  {| np_warehouses := ["a"; "b"]; np_destinations := ["x"];
     np_target_distribution := example.target_distribution;
     np_shipment_capacity := example.shipment_capacity;
     np_warehouse_cost := example.warehouse_cost;
     np_shipment_cost := example.route_cost;
     np_target_delivery_days := 3; np_delivery_tolerance := 1;
     np_delivery_estimate := example.delivery_estimate |}.
Definition tiered_read : tiered_params :=
  {| tp_num_years := 1; tp_carriers := ["UPS"]; tp_destinations := ["A"];
     tp_shipment_target := example.shipment_target;
     tp_shipment_cost := example.shipment_cost;
     tp_tier_min_quantity := example.tier_min_quantity;
     tp_discount_rate := {[ "UPS" := [1%Q; 1%Q] ]} |}.
End console_example.

(** ** An assignment that uses the first tier only

    Every carrier is at tier 0 and the carrier [carrier0] ships every
    target. *)
Definition tier_zero_assignment (shipment_target : list (gmap string Q))
    (carrier0 : string) (k : TierKey) : Q :=
  match k with
  | shipment_at_tier_key year carrier tier dest =>
    if bool_decide (carrier = carrier0 ∧ tier = 0%Z)
    then target shipment_target year dest else 0%Q
  | tier_flag_key _ _ tier => if bool_decide (tier = 0%Z) then 1%Q else 0%Q
  end.


(** ** The flow into a destination

    The flow variables of a tiered problem into a destination in a year are
    those of its variables ([problem.variables()], each variable once) that
    the builder keeps under [shipment_at_tier[year][carrier][tier][dest]] for
    some carrier and tier; the flow into the destination is the sum of their
    values. *)
Definition flows_into (year : Z) (dest : string) (k : TierKey) : bool :=
  match k with
  | shipment_at_tier_key y _ _ d => bool_decide (y = year) && bool_decide (d = dest)
  | tier_flag_key _ _ _ => false
  end.
Definition flow_into (m : LpProblem TierKey) (a : TierKey → Q)
    (year : Z) (dest : string) : Q :=
  Qsum ((λ v, a (key v)) <$> filter (λ v, flows_into year dest (key v)) (variables m)).

Module repeated_carrier.
(** The tiered example with its carrier entered twice; the carrier ships 5
    at the second tier. *)
Definition tiered : LpProblem TierKey :=
  tiered_model 1 ["UPS"; "UPS"] ["A"] example.shipment_target example.shipment_cost
    example.tier_min_quantity example.discount_rate.
Definition half_assignment (k : TierKey) : Q :=
  match k with
  | shipment_at_tier_key _ _ tier _ => if (tier =? 1)%Z then 5%Q else 0%Q
  | tier_flag_key _ _ tier => if (tier =? 1)%Z then 1%Q else 0%Q
  end.
End repeated_carrier.

(** * Lemmas *)

(** ** Lemmas about the [result] monad and the loops *)

Lemma bind_Ok {A B} (m : result A) (f : A → result B) (b : B) :
  m ≫= f = Ok b ↔ ∃ a, m = Ok a ∧ f a = Ok b.
Proof.
  destruct m as [a|e]; simpl; split.
  - intros H. by exists a.
  - intros (a' & Heq & H). by injection Heq as ->.
  - discriminate.
  - by intros (a' & ? & _).
Qed.

Ltac inv_bind H :=
  let a := fresh "x" in
  let Ha := fresh "E" in
  apply bind_Ok in H as (a & Ha & H).

Lemma mapM_Ok_Forall2 {A B} (f : A → result B) (l : list A) (r : list B) :
  mapM f l = Ok r → Forall2 (λ x y, f x = Ok y) l r.
Proof.
  revert r. induction l as [|x l IH]; intros r H; simpl in H.
  - injection H as <-. constructor.
  - inv_bind H. inv_bind H. injection H as <-. constructor; auto.
Qed.

Lemma mapM_Ok_fmap {A B} (f : A → result B) (g : A → B) (l : list A) (r : list B) :
  (∀ x y, x ∈ l → f x = Ok y → y = g x) →
  mapM f l = Ok r → r = g <$> l.
Proof.
  intros Hg H. apply mapM_Ok_Forall2 in H.
  induction H as [|x y l r Hxy _ IH]; [done|].
  simpl. f_equal.
  - apply Hg; [left|done].
  - apply IH. intros x' y' Hx'. apply Hg. by right.
Qed.

Lemma mapM_total {A B} (f : A → result B) (l : list A) :
  (∀ x, x ∈ l → ∃ y, f x = Ok y) → ∃ r, mapM f l = Ok r.
Proof.
  induction l as [|x l IH]; intros H; simpl.
  - by eexists.
  - destruct (H x) as [y Hy]; [left|].
    destruct IH as [r Hr]; [intros x' Hx'; apply H; by right|].
    exists (y :: r). by rewrite Hy, Hr.
Qed.

Lemma comprehension_Ok {A B} (f : A → result B) (g : A → B) l r :
  (∀ x y, x ∈ l → f x = Ok y → y = g x) →
  comprehension f l = Ok r → r = g <$> l.
Proof. apply mapM_Ok_fmap. Qed.

Lemma concat_fmap_bind {A B} (g : A → list B) (l : list A) :
  concat (g <$> l) = x ← l; g x.
Proof. induction l as [|x l IH]; [done|]. simpl. f_equal. exact IH. Qed.

Lemma bind_singleton_fmap {A B} (g : A → B) (l : list A) :
  (x ← l; [g x]) = g <$> l.
Proof. induction l as [|x l IH]; [done|]. simpl. by f_equal. Qed.

Lemma comprehension_for_Ok {A B} (f : A → result (list B)) (g : A → list B) l r :
  (∀ x y, x ∈ l → f x = Ok y → y = g x) →
  comprehension_for f l = Ok r → r = x ← l; g x.
Proof.
  intros Hg H. unfold comprehension_for in H. inv_bind H. injection H as <-.
  rewrite (mapM_Ok_fmap f g l x Hg E). apply concat_fmap_bind.
Qed.

Lemma comprehension_total {A B} (f : A → result B) (l : list A) :
  (∀ x, x ∈ l → ∃ y, f x = Ok y) → ∃ r, comprehension f l = Ok r.
Proof. apply mapM_total. Qed.

Lemma comprehension_for_total {A B} (f : A → result (list B)) (l : list A) :
  (∀ x, x ∈ l → ∃ y, f x = Ok y) → ∃ r, comprehension_for f l = Ok r.
Proof.
  intros H. destruct (mapM_total f l H) as [r Hr].
  exists (concat r). unfold comprehension_for. by rewrite Hr.
Qed.

(** A loop whose body is a pure step on success computes the fold. *)
Lemma for__Ok_foldl {A S} (step : S → A → S) (l : list A)
    (body : S → A → result S) (s s' : S) :
  (∀ s x s1, x ∈ l → body s x = Ok s1 → s1 = step s x) →
  for_ l body s = Ok s' → s' = foldl step s l.
Proof.
  revert s. induction l as [|x l IH]; intros s Hstep H; simpl in H.
  - by injection H as <-.
  - inv_bind H. simpl.
    rewrite <-(Hstep s x x0); [|left|done].
    apply IH; [|done]. intros s2 x2 s3 Hx2. apply Hstep. by right.
Qed.

Lemma for__total {A S} (l : list A) (body : S → A → result S) (s : S) :
  (∀ s x, x ∈ l → ∃ s1, body s x = Ok s1) → ∃ s', for_ l body s = Ok s'.
Proof.
  revert s. induction l as [|x l IH]; intros s H; simpl.
  - by eexists.
  - destruct (H s x) as [s1 Hs1]; [left|]. rewrite Hs1. simpl.
    apply IH. intros s2 x2 Hx2. apply H. by right.
Qed.

(** Dictionaries built by a loop. *)
Lemma dict_of_acc_sound `{Countable K} {V} (f : K → result V) ks (acc m : gmap K V) :
  for_ ks (λ d k, v ← f k; Ok (<[k := v]> d)) acc = Ok m →
  (∀ k v, acc !! k = Some v → f k = Ok v) →
  ∀ k v, m !! k = Some v → f k = Ok v.
Proof.
  revert acc. induction ks as [|k0 ks IH]; intros acc Hm Hacc; simpl in Hm.
  - by injection Hm as <-.
  - inv_bind Hm. inv_bind E. injection E as <-.
    apply (IH _ Hm). intros k v.
    destruct (decide (k0 = k)) as [->|Hne].
    + rewrite lookup_insert_eq. by intros [= <-].
    + rewrite lookup_insert_ne by done. apply Hacc.
Qed.

Lemma dict_of_acc_complete `{Countable K} {V} (f : K → result V) ks (acc m : gmap K V) :
  for_ ks (λ d k, v ← f k; Ok (<[k := v]> d)) acc = Ok m →
  ∀ k, k ∈ ks ∨ is_Some (acc !! k) → is_Some (m !! k).
Proof.
  revert acc. induction ks as [|k0 ks IH]; intros acc Hm k Hk; simpl in Hm.
  - injection Hm as <-. destruct Hk as [Hk|Hk]; [by apply elem_of_nil in Hk|done].
  - inv_bind Hm. inv_bind E. injection E as <-.
    apply (IH _ Hm). destruct Hk as [Hk|Hk].
    + apply elem_of_cons in Hk as [->|Hk]; [right|by left].
      rewrite lookup_insert_eq. by eexists.
    + right. destruct (decide (k0 = k)) as [->|Hne].
      * rewrite lookup_insert_eq. by eexists.
      * by rewrite lookup_insert_ne.
Qed.

Lemma dict_of_getitem `{Countable K} {V} (f : K → result V) ks (m : gmap K V) k v :
  dict_of f ks = Ok m → getitem m k = Ok v → f k = Ok v.
Proof.
  unfold dict_of, getitem. intros Hm Hk.
  destruct (m !! k) as [v'|] eqn:Hv; [|discriminate]. injection Hk as ->.
  eapply dict_of_acc_sound; [exact Hm| |exact Hv].
  intros k' v'. by rewrite lookup_empty.
Qed.

Lemma dict_of_elem `{Countable K} {V} (f : K → result V) ks (m : gmap K V) k :
  dict_of f ks = Ok m → k ∈ ks → ∃ v, getitem m k = Ok v.
Proof.
  unfold dict_of, getitem. intros Hm Hk.
  destruct (dict_of_acc_complete f ks ∅ m Hm k) as [v Hv]; [by left|].
  exists v. by rewrite Hv.
Qed.

Lemma dict_of_total `{Countable K} {V} (f : K → result V) ks :
  (∀ k, k ∈ ks → ∃ v, f k = Ok v) → ∃ m : gmap K V, dict_of f ks = Ok m.
Proof.
  intros Hf. apply for__total. intros d k Hk.
  destruct (Hf k Hk) as [v ->]. by eexists.
Qed.

(** Ranges and list indexing. *)
Lemma elem_of_range n i : i ∈ range n ↔ (0 ≤ i < n)%Z.
Proof.
  unfold range. rewrite list_elem_of_fmap. setoid_rewrite elem_of_seq. split.
  - intros (k & -> & Hk). lia.
  - intros Hi. exists (Z.to_nat i). lia.
Qed.

Lemma NoDup_range n : NoDup (range n).
Proof. apply NoDup_fmap; [apply Nat2Z.inj'|apply NoDup_seq]. Qed.

Lemma range_lookup n i x : range n !! i = Some x → x = Z.of_nat i.
Proof.
  unfold range. rewrite list_lookup_fmap.
  destruct (seq 0 (Z.to_nat n) !! i) as [k|] eqn:Hk; [|discriminate].
  apply lookup_seq in Hk as [-> _]. by intros [= <-].
Qed.

Lemma getitem_list_Ok {A} (l : list A) (i : Z) (x : A) :
  (0 ≤ i)%Z → getitem_list l i = Ok x ↔ l !! Z.to_nat i = Some x.
Proof.
  intros Hi. unfold getitem_list.
  destruct (Z.ltb_spec i 0); [lia|].
  destruct (Z.ltb_spec i 0); [lia|].
  destruct (l !! Z.to_nat i); split; congruence.
Qed.

Lemma getitem_list_range_fmap {A} (g : Z → A) n i x :
  i ∈ range n → getitem_list (g <$> range n) i = Ok x → x = g i.
Proof.
  intros Hi%elem_of_range H. apply getitem_list_Ok in H; [|lia].
  rewrite list_lookup_fmap in H.
  destruct (range n !! Z.to_nat i) as [y|] eqn:Hy; [|discriminate].
  apply range_lookup in Hy. injection H as <-. f_equal. lia.
Qed.

Lemma getitem_list_range_total {A} (g : Z → A) n i :
  i ∈ range n → getitem_list (g <$> range n) i = Ok (g i).
Proof.
  intros Hi. pose proof Hi as Hi'%elem_of_range.
  apply getitem_list_Ok; [lia|].
  rewrite list_lookup_fmap. unfold range. rewrite list_lookup_fmap.
  rewrite lookup_seq_lt by lia. simpl. f_equal. f_equal. lia.
Qed.

Lemma getitem_list_total {A} (l : list A) i :
  (0 ≤ i < len l)%Z → ∃ x, getitem_list l i = Ok x.
Proof.
  unfold len. intros Hi.
  destruct (lookup_lt_is_Some_2 l (Z.to_nat i)) as [x Hx]; [lia|].
  exists x. apply getitem_list_Ok; [lia|done].
Qed.

Lemma getitem_list_short {A} (l : list A) i :
  (len l ≤ i)%Z → getitem_list l i = Raise IndexError.
Proof.
  unfold len, getitem_list. intros Hi.
  destruct (Z.ltb_spec i 0); [lia|].
  destruct (Z.ltb_spec i 0); [lia|].
  rewrite lookup_ge_None_2; [done|lia].
Qed.

(** ** The tiered builder returns the declarative model *)

Lemma add_constraints_nil {K} (p : LpProblem K) : add_constraints p [] = p.
Proof. destruct p. unfold add_constraints. simpl. by rewrite app_nil_r. Qed.

Lemma add_constraints_app {K} (p : LpProblem K) cs1 cs2 :
  add_constraints (add_constraints p cs1) cs2 = add_constraints p (cs1 ++ cs2).
Proof. unfold add_constraints. simpl. by rewrite app_assoc. Qed.

Lemma add_constraint_add_constraints {K} (p : LpProblem K) c nm :
  add_constraint p c nm = add_constraints p [(nm, c)].
Proof. done. Qed.

Lemma foldl_add_constraints {K A} (G : A → list (option string * LpConstraint K))
    (l : list A) (p : LpProblem K) :
  foldl (λ p x, add_constraints p (G x)) p l = add_constraints p (x ← l; G x).
Proof.
  revert p. induction l as [|x l IH]; intros p; simpl.
  - by rewrite add_constraints_nil.
  - rewrite IH. apply add_constraints_app.
Qed.

(** A loop whose body adds the constraints [G x] adds them all in order. *)
Lemma for__add_constraints {K A} (G : A → list (option string * LpConstraint K))
    (l : list A) (body : LpProblem K → A → result (LpProblem K)) p p' :
  (∀ p x p1, x ∈ l → body p x = Ok p1 → p1 = add_constraints p (G x)) →
  for_ l body p = Ok p' → p' = add_constraints p (x ← l; G x).
Proof.
  intros Hbody H. rewrite <-foldl_add_constraints.
  by apply (for__Ok_foldl (λ p x, add_constraints p (G x)) l body).
Qed.

Section tiered_refinement.
Context (num_years : Z) (carriers destinations : list string).
Context (shipment_target : list (gmap string Q)).
Context (shipment_cost : gmap string (gmap string Q)).
Context (tier_min_quantity : list Z).
Context (discount_rate : gmap string (list Q)).

#[local] Abbreviation all_years := (years num_years).
#[local] Abbreviation all_tiers := (tiers tier_min_quantity).
#[local] Abbreviation target := (target shipment_target).
#[local] Abbreviation unit_cost := (unit_cost shipment_cost).
#[local] Abbreviation rate := (rate discount_rate).
#[local] Abbreviation min_quantity := (min_quantity tier_min_quantity).
#[local] Abbreviation ship_var := (ship_var shipment_target).
#[local] Abbreviation gating_constraint := (gating_constraint shipment_target).
#[local] Abbreviation tier_minimum_constraint :=
  (tier_minimum_constraint destinations shipment_target tier_min_quantity).
#[local] Abbreviation target_constraint :=
  (target_constraint carriers shipment_target tier_min_quantity).
#[local] Abbreviation tier_constraints :=
  (tier_constraints destinations shipment_target tier_min_quantity).
#[local] Abbreviation tiered_model :=
  (tiered_model num_years carriers destinations shipment_target shipment_cost
     tier_min_quantity discount_rate).

#[local] Abbreviation build_shipment_at_tier :=
  (build_shipment_at_tier num_years carriers destinations shipment_target
     tier_min_quantity).
#[local] Abbreviation build_tier_flag :=
  (build_tier_flag num_years carriers tier_min_quantity).

Lemma ship_at_store store year carrier tier dest v :
  build_shipment_at_tier = Ok store →
  ship_at store year carrier tier dest = Ok v →
  v = ship_var year carrier tier dest.
Proof.
  unfold build_shipment_at_tier, ship_at. intros Hs H.
  inv_bind H. inv_bind H. inv_bind H.
  apply (dict_of_getitem _ _ _ _ _ Hs) in E.
  apply (dict_of_getitem _ _ _ _ _ E) in E0.
  apply (dict_of_getitem _ _ _ _ _ E0) in E1.
  apply (dict_of_getitem _ _ _ _ _ E1) in H.
  inv_bind H. injection H as <-.
  unfold ship_var, target. by rewrite E2.
Qed.

Lemma ship_at_total store year carrier tier dest :
  build_shipment_at_tier = Ok store →
  year ∈ all_years → carrier ∈ carriers → tier ∈ all_tiers → dest ∈ destinations →
  ∃ v, ship_at store year carrier tier dest = Ok v.
Proof.
  unfold build_shipment_at_tier, ship_at. intros Hs Hy Hc Ht Hd.
  destruct (dict_of_elem _ _ _ _ Hs Hy) as [m1 H1]. rewrite H1. simpl.
  apply (dict_of_getitem _ _ _ _ _ Hs) in H1.
  destruct (dict_of_elem _ _ _ _ H1 Hc) as [m2 H2]. rewrite H2. simpl.
  apply (dict_of_getitem _ _ _ _ _ H1) in H2.
  destruct (dict_of_elem _ _ _ _ H2 Ht) as [m3 H3]. rewrite H3. simpl.
  apply (dict_of_getitem _ _ _ _ _ H2) in H3.
  apply (dict_of_elem _ _ _ _ H3 Hd).
Qed.

Lemma flags_at_store tier_flag year carrier flags :
  build_tier_flag = Ok tier_flag → year ∈ all_years →
  flags_at tier_flag year carrier = Ok flags →
  flags = flag_var year carrier <$> all_tiers.
Proof.
  unfold build_tier_flag, comprehension, flags_at. intros Hs Hy H.
  apply elem_of_range in Hy.
  inv_bind H. apply getitem_list_Ok in E; [|lia].
  apply mapM_Ok_Forall2 in Hs.
  destruct (Forall2_lookup_r _ _ _ _ _ Hs E) as (y & Hy' & Hd).
  apply range_lookup in Hy'. assert (y = year) as -> by lia.
  apply (dict_of_getitem _ _ _ _ _ Hd) in H. by injection H as <-.
Qed.

Lemma flags_at_total tier_flag year carrier :
  build_tier_flag = Ok tier_flag → year ∈ all_years → carrier ∈ carriers →
  flags_at tier_flag year carrier = Ok (flag_var year carrier <$> all_tiers).
Proof.
  unfold build_tier_flag, comprehension, flags_at. intros Hs Hy Hc.
  pose proof Hy as Hy'%elem_of_range.
  apply mapM_Ok_Forall2 in Hs.
  assert (is_Some (all_years !! Z.to_nat year)) as [y Hy1].
  { apply lookup_lt_is_Some. unfold years, range.
    rewrite length_fmap, length_seq. lia. }
  destruct (Forall2_lookup_l _ _ _ _ _ Hs Hy1) as (d & Hd1 & Hd2).
  apply range_lookup in Hy1. assert (y = year) as -> by lia.
  assert (getitem_list tier_flag year = Ok d) as ->
    by (apply getitem_list_Ok; [lia|done]).
  simpl. destruct (dict_of_elem _ _ _ _ Hd2 Hc) as [fl Hfl].
  rewrite Hfl. f_equal.
  apply (dict_of_getitem _ _ _ _ _ Hd2) in Hfl. by injection Hfl as <-.
Qed.

Lemma flag_at_store tier_flag year carrier tier v :
  build_tier_flag = Ok tier_flag → year ∈ all_years → tier ∈ all_tiers →
  flag_at tier_flag year carrier tier = Ok v →
  v = flag_var year carrier tier.
Proof.
  unfold flag_at. intros Hs Hy Ht H. inv_bind H.
  apply (flags_at_store _ _ _ _ Hs Hy) in E. subst x.
  by apply getitem_list_range_fmap in H.
Qed.

Lemma flag_at_total tier_flag year carrier tier :
  build_tier_flag = Ok tier_flag →
  year ∈ all_years → carrier ∈ carriers → tier ∈ all_tiers →
  flag_at tier_flag year carrier tier = Ok (flag_var year carrier tier).
Proof.
  unfold flag_at. intros Hs Hy Hc Ht.
  rewrite (flags_at_total _ _ _ Hs Hy Hc). simpl.
  by apply getitem_list_range_total.
Qed.

Lemma target_at_Ok year dest t :
  target_at shipment_target year dest = Ok t → t = target year dest.
Proof. unfold target. by intros ->. Qed.

Lemma min_quantity_Ok tier q :
  getitem_list tier_min_quantity tier = Ok q → q = min_quantity tier.
Proof. unfold min_quantity. by intros ->. Qed.

(** The builder, when it returns, returns the declarative model. *)
Lemma optimize_shipments_model m :
  carrier_earned_discount.optimize_shipments num_years carriers destinations
    shipment_target shipment_cost tier_min_quantity discount_rate = Ok m →
  m = tiered_model.
Proof.
  unfold carrier_earned_discount.optimize_shipments. intros H.
  inv_bind H. rename x into store, E into Hstore.
  inv_bind H. rename x into tier_flag, E into Hflag.
  inv_bind H. rename x into terms, E into Hterms.
  inv_bind H. rename x into p1, E into Hp1.
  fold build_shipment_at_tier in Hstore. fold build_tier_flag in Hflag.
  (* the objective *)
  apply (comprehension_for_Ok _ (λ year, carrier ← carriers; tier ← all_tiers;
           dest ← destinations;
           [scale (scale (of_var (ship_var year carrier tier dest))
               (unit_cost carrier dest))
               (rate carrier tier)])) in Hterms.
  2:{ intros year ts _. apply comprehension_for_Ok. intros carrier ts1 _.
      apply comprehension_for_Ok. intros tier ts2 _.
      intros Hc. apply (comprehension_Ok _ (λ dest,
        scale (scale (of_var (ship_var year carrier tier dest))
               (unit_cost carrier dest))
               (rate carrier tier))) in Hc.
      { by rewrite Hc, bind_singleton_fmap. }
      intros dest e _ He.
      inv_bind He. apply (ship_at_store _ _ _ _ _ _ Hstore) in E. subst x.
      inv_bind He. inv_bind He. inv_bind He. inv_bind He. injection He as <-.
      unfold unit_cost, getitem2, rate. rewrite E. simpl. rewrite E0.
      rewrite E1. simpl. by rewrite E2. }
  (* the tier constraints *)
  apply (for__add_constraints (λ year, carrier ← carriers;
           tier_constraints year carrier)) in Hp1.
  2:{ intros p year p' Hy. apply for__add_constraints.
      intros q carrier q' Hc Hq.
      inv_bind Hq. apply (flags_at_store _ _ _ _ Hflag Hy) in E. subst x.
      apply (for__add_constraints (λ tier,
        ((λ dest, (None, gating_constraint year carrier tier dest))
           <$> destinations)
        ++ [(None, tier_minimum_constraint year carrier tier)])) in Hq.
      { rewrite Hq. rewrite add_constraint_add_constraints.
        by rewrite add_constraints_app. }
      intros r tier r' Ht Hr.
      inv_bind Hr. rename x into r1, E into Hr1.
      inv_bind Hr. rename x into tt, E into Htt.
      inv_bind Hr. apply min_quantity_Ok in E. subst x.
      inv_bind Hr. apply (flag_at_store _ _ _ _ _ Hflag Hy Ht) in E. subst x.
      injection Hr as <-.
      apply (for__add_constraints (λ dest,
        [(None, gating_constraint year carrier tier dest)])) in Hr1.
      2:{ intros s dest s' Hd Hs.
          inv_bind Hs. apply (ship_at_store _ _ _ _ _ _ Hstore) in E. subst x.
          inv_bind Hs. apply target_at_Ok in E. subst x.
          inv_bind Hs. apply (flag_at_store _ _ _ _ _ Hflag Hy Ht) in E. subst x.
          by injection Hs as <-. }
      apply (comprehension_Ok _ (λ dest, of_var (ship_var year carrier tier dest)))
        in Htt.
      2:{ intros dest e _ He. inv_bind He.
          apply (ship_at_store _ _ _ _ _ _ Hstore) in E. subst x.
          by injection He as <-. }
      rewrite Hr1, Htt, add_constraint_add_constraints, add_constraints_app.
      by rewrite bind_singleton_fmap. }
  (* the target constraints *)
  apply (for__add_constraints (λ year, dest ← destinations;
           [(None, target_constraint year dest)])) in H.
  2:{ intros p year p' Hy. apply for__add_constraints.
      intros q dest q' Hd Hq.
      inv_bind Hq. rename x into tt, E into Htt.
      inv_bind Hq. apply target_at_Ok in E. subst x.
      injection Hq as <-.
      apply (comprehension_for_Ok _ (λ carrier, tier ← all_tiers;
               [of_var (ship_var year carrier tier dest)])) in Htt.
      { by rewrite Htt. }
      intros carrier es _ Hes.
      apply (comprehension_Ok _ (λ tier, of_var (ship_var year carrier tier dest)))
        in Hes.
      { by rewrite Hes, bind_singleton_fmap. }
      intros tier e _ He. inv_bind He.
      apply (ship_at_store _ _ _ _ _ _ Hstore) in E. subst x.
      by injection He as <-. }
  subst m p1 terms. unfold tiered_model, tiered_constraints, tiered_objective.
  rewrite add_constraints_app. reflexivity.
Qed.
End tiered_refinement.

(** ** The network builder returns the declarative model *)

Section network_refinement.
Context (warehouses destinations : list string).
Context (target_distribution : gmap string Z).
Context (shipment_capacity : gmap string (gmap string Z)).
Context (warehouse_cost : gmap string Q).
Context (shipment_cost : gmap string (gmap string Q)).
Context (target_delivery_days : Z).
Context (delivery_tolerance : Q).
Context (delivery_estimate : gmap string (gmap string Z)).

#[local] Abbreviation capacity := (capacity shipment_capacity).
#[local] Abbreviation route_cost := (route_cost shipment_cost).
#[local] Abbreviation fixed_cost := (fixed_cost warehouse_cost).
#[local] Abbreviation demand := (demand target_distribution).
#[local] Abbreviation late_indicator :=
  (late_indicator target_delivery_days delivery_estimate).
#[local] Abbreviation count_var := (count_var shipment_capacity).
#[local] Abbreviation usage_constraint := (usage_constraint shipment_capacity).
#[local] Abbreviation distribution_constraint :=
  (distribution_constraint warehouses target_distribution shipment_capacity).
#[local] Abbreviation delivery_constraint :=
  (delivery_constraint warehouses shipment_capacity target_delivery_days
     delivery_tolerance delivery_estimate).
#[local] Abbreviation network_model :=
  (network_model warehouses destinations target_distribution shipment_capacity
     warehouse_cost shipment_cost target_delivery_days delivery_tolerance
     delivery_estimate).

#[local] Abbreviation build_shipment_count :=
  (build_shipment_count warehouses destinations shipment_capacity).
#[local] Abbreviation build_warehouse_usage := (build_warehouse_usage warehouses).
#[local] Abbreviation build_delivery_target_failure :=
  (build_delivery_target_failure warehouses destinations target_delivery_days
     delivery_estimate).

Lemma elem_of_pairs i j :
  (i, j) ∈ pairs warehouses destinations ↔ i ∈ warehouses ∧ j ∈ destinations.
Proof.
  unfold pairs. rewrite list_elem_of_bind. split.
  - intros (i' & Hj & Hi). apply list_elem_of_bind in Hj as (j' & Hij & Hj).
    apply list_elem_of_singleton in Hij. injection Hij as -> ->. done.
  - intros [Hi Hj]. exists i. split; [|done].
    apply list_elem_of_bind. exists j. split; [|done]. by left.
Qed.

Lemma shipment_count_store store i j v :
  build_shipment_count = Ok store → getitem store (i, j) = Ok v →
  v = count_var i j.
Proof.
  intros Hs H. apply (dict_of_getitem _ _ _ _ _ Hs) in H. simpl in H.
  inv_bind H. injection H as <-. unfold count_var, capacity. by rewrite E.
Qed.

Lemma warehouse_usage_store store i u :
  build_warehouse_usage = Ok store → getitem store i = Ok u → u = usage_var i.
Proof.
  intros Hs H. apply (dict_of_getitem _ _ _ _ _ Hs) in H. by injection H as <-.
Qed.

Lemma delivery_target_failure_store store i j f :
  build_delivery_target_failure = Ok store → getitem store (i, j) = Ok f →
  f = late_indicator i j.
Proof.
  intros Hs H. apply (dict_of_getitem _ _ _ _ _ Hs) in H. simpl in H.
  inv_bind H. injection H as <-. unfold late_indicator. by rewrite E.
Qed.

Lemma capacity_Ok i j c : getitem2 shipment_capacity i j = Ok c → c = capacity i j.
Proof. unfold capacity. by intros ->. Qed.
Lemma route_cost_Ok i j c : getitem2 shipment_cost i j = Ok c → c = route_cost i j.
Proof. unfold route_cost. by intros ->. Qed.
Lemma fixed_cost_Ok i c : getitem warehouse_cost i = Ok c → c = fixed_cost i.
Proof. unfold fixed_cost. by intros ->. Qed.
Lemma demand_Ok j t : getitem target_distribution j = Ok t → t = demand j.
Proof. unfold demand. by intros ->. Qed.

(** The builder, when it returns, returns the declarative model. *)
Lemma network_optimize_shipments_model m :
  warehouse_shipments.optimize_shipments warehouses destinations
    target_distribution shipment_capacity warehouse_cost shipment_cost
    target_delivery_days delivery_tolerance delivery_estimate = Ok m →
  m = network_model.
Proof.
  unfold warehouse_shipments.optimize_shipments. intros H.
  inv_bind H. rename x into counts, E into Hcounts.
  inv_bind H. rename x into usage, E into Husage.
  inv_bind H. rename x into failure, E into Hfailure.
  inv_bind H. rename x into sterms, E into Hsterms.
  inv_bind H. rename x into uterms, E into Huterms.
  inv_bind H. rename x into p1, E into Hp1.
  inv_bind H. rename x into p2, E into Hp2.
  fold build_shipment_count in Hcounts. fold build_warehouse_usage in Husage.
  fold build_delivery_target_failure in Hfailure.
  assert (Hsum : ∀ j total,
    comprehension (λ i, v ← getitem counts (i, j); Ok (of_var v)) warehouses
      = Ok total →
    total = (λ i, of_var (count_var i j)) <$> warehouses).
  { intros j total. apply comprehension_Ok. intros i e _ He. inv_bind He.
    apply (shipment_count_store _ _ _ _ Hcounts) in E. subst x.
    by injection He as <-. }
  (* the objective *)
  apply (comprehension_for_Ok _ (λ i, j ← destinations;
           [scale (of_var (count_var i j)) (route_cost i j)])) in Hsterms.
  2:{ intros i es _ Hes.
      apply (comprehension_Ok _ (λ j,
        scale (of_var (count_var i j)) (route_cost i j))) in Hes.
      { by rewrite Hes, bind_singleton_fmap. }
      intros j e _ He. inv_bind He.
      apply (shipment_count_store _ _ _ _ Hcounts) in E. subst x.
      inv_bind He. apply route_cost_Ok in E. subst x. by injection He as <-. }
  apply (comprehension_Ok _ (λ i, scale (of_var (usage_var i)) (fixed_cost i)))
    in Huterms.
  2:{ intros i e _ He. inv_bind He.
      apply (warehouse_usage_store _ _ _ Husage) in E. subst x.
      inv_bind He. apply fixed_cost_Ok in E. subst x. by injection He as <-. }
  (* warehouse usage constraints *)
  apply (for__add_constraints (λ i, j ← destinations;
           [(Some ("Warehouse_Usage_" +:+ i +:+ "_" +:+ j), usage_constraint i j)]))
    in Hp1.
  2:{ intros p i p' _. apply for__add_constraints. intros q j q' _ Hq.
      inv_bind Hq. apply (shipment_count_store _ _ _ _ Hcounts) in E. subst x.
      inv_bind Hq. apply capacity_Ok in E. subst x.
      inv_bind Hq. apply (warehouse_usage_store _ _ _ Husage) in E. subst x.
      by injection Hq as <-. }
  (* distribution constraints *)
  apply (for__add_constraints (λ j,
           [(Some ("Distribution_" +:+ j), distribution_constraint j)])) in Hp2.
  2:{ intros p j p' _ Hp. inv_bind Hp. apply Hsum in E. subst x.
      inv_bind Hp. apply demand_Ok in E. subst x. by injection Hp as <-. }
  (* delivery target constraints *)
  apply (for__add_constraints (λ j,
           [(Some ("Delivery_Target_" +:+ j), delivery_constraint j)])) in H.
  2:{ intros p j p' _ Hp. inv_bind Hp. rename x into failed, E into Hfailed.
      inv_bind Hp. apply Hsum in E. subst x. injection Hp as <-.
      apply (comprehension_Ok _ (λ i,
        scale (of_var (count_var i j)) (inject_Z (late_indicator i j)))) in Hfailed.
      { by rewrite Hfailed. }
      intros i e _ He. inv_bind He.
      apply (delivery_target_failure_store _ _ _ _ Hfailure) in E. subst x.
      inv_bind He. apply (shipment_count_store _ _ _ _ Hcounts) in E. subst x.
      by injection He as <-. }
  subst m p2 p1 sterms uterms.
  unfold network_model, network_constraints, network_objective.
  rewrite !add_constraints_app, !bind_singleton_fmap. reflexivity.
Qed.
End network_refinement.

(** ** Sums and values of expressions *)

Section sums.
Local Open Scope Q_scope.

Lemma Qsum_cons x l : Qsum (x :: l) = x + Qsum l.
Proof. done. Qed.

Lemma Qsum_app l1 l2 : Qsum (l1 ++ l2) == Qsum l1 + Qsum l2.
Proof.
  induction l1 as [|x l1 IH].
  - change (Qsum l2 == 0 + Qsum l2). ring.
  - change (x + Qsum (l1 ++ l2) == x + Qsum l1 + Qsum l2). rewrite IH. ring.
Qed.

Lemma Qsum_bind {A} (g : A → list Q) (l : list A) :
  Qsum (x ← l; g x) == Qsum ((λ x, Qsum (g x)) <$> l).
Proof.
  induction l as [|x l IH]; [reflexivity|].
  change (Qsum (g x ++ (l ≫= g)) == Qsum (g x) + Qsum ((λ x, Qsum (g x)) <$> l)).
  rewrite Qsum_app, IH. reflexivity.
Qed.

Lemma Qsum_fmap_ext {A} (f g : A → Q) (l : list A) :
  (∀ x, x ∈ l → f x == g x) → Qsum (f <$> l) == Qsum (g <$> l).
Proof.
  induction l as [|x l IH]; intros H; [reflexivity|].
  change (f x + Qsum (f <$> l) == g x + Qsum (g <$> l)).
  rewrite IH, (H x); [reflexivity|left|].
  intros y Hy. apply H. by right.
Qed.

Lemma Qsum_fmap_le {A} (f g : A → Q) (l : list A) :
  (∀ x, x ∈ l → f x <= g x) → Qsum (f <$> l) <= Qsum (g <$> l).
Proof.
  induction l as [|x l IH]; intros H; [apply Qle_refl|].
  change (f x + Qsum (f <$> l) <= g x + Qsum (g <$> l)).
  apply Qplus_le_compat; [apply H; left|].
  apply IH. intros y Hy. apply H. by right.
Qed.

Lemma Qsum_fmap_nonneg {A} (f : A → Q) (l : list A) :
  (∀ x, x ∈ l → 0 <= f x) → 0 <= Qsum (f <$> l).
Proof.
  induction l as [|x l IH]; intros H; [apply Qle_refl|].
  change (0 <= f x + Qsum (f <$> l)).
  assert (0 <= f x) by (apply H; left).
  assert (0 <= Qsum (f <$> l)) by (apply IH; intros y Hy; apply H; by right).
  lra.
Qed.

(** A sum of non-negative numbers that is at most 0 has only zeros. *)
Lemma Qsum_fmap_zero {A} (f : A → Q) (l : list A) :
  (∀ x, x ∈ l → 0 <= f x) → Qsum (f <$> l) <= 0 →
  ∀ x, x ∈ l → f x == 0.
Proof.
  induction l as [|y l IH]; intros Hpos Hsum x Hx.
  - by apply elem_of_nil in Hx.
  - change (f y + Qsum (f <$> l) <= 0) in Hsum.
    assert (0 <= f y) by (apply Hpos; left).
    assert (0 <= Qsum (f <$> l))
      by (apply Qsum_fmap_nonneg; intros z Hz; apply Hpos; by right).
    apply elem_of_cons in Hx as [->|Hx]; [lra|].
    apply IH; [|lra|done]. intros z Hz. apply Hpos. by right.
Qed.

Lemma Qsum_fmap_scale {A} (c : Q) (f : A → Q) (l : list A) :
  Qsum ((λ x, c * f x) <$> l) == c * Qsum (f <$> l).
Proof.
  induction l as [|x l IH]; [unfold Qsum; simpl; ring|].
  change (c * f x + Qsum ((λ x, c * f x) <$> l) == c * (f x + Qsum (f <$> l))).
  rewrite IH. ring.
Qed.

Lemma Qsum_fmap_const0 {A} (l : list A) : Qsum ((λ _, 0) <$> l) == 0.
Proof.
  induction l as [|x l IH]; [reflexivity|].
  change (0 + Qsum ((λ _ : A, 0) <$> l) == 0). rewrite IH. ring.
Qed.

(** Numbers that are 0 or 1 and add up to 1: exactly one of them is 1. *)
Lemma binary_sum_one {A} (f : A → Q) (l : list A) :
  (∀ x, x ∈ l → f x == 0 ∨ f x == 1) → Qsum (f <$> l) == 1 →
  ∃ x, x ∈ l ∧ f x == 1 ∧ ∀ y, y ∈ l → y ≠ x → f y == 0.
Proof.
  induction l as [|x l IH]; intros Hbin Hsum.
  - unfold Qsum in Hsum. simpl in Hsum. lra.
  - change (f x + Qsum (f <$> l) == 1) in Hsum.
    assert (Hl : ∀ y, y ∈ l → f y == 0 ∨ f y == 1)
      by (intros y Hy; apply Hbin; by right).
    assert (Hpos : ∀ y, y ∈ l → 0 <= f y)
      by (intros y Hy; destruct (Hl y Hy); lra).
    destruct (Hbin x) as [Hx|Hx]; [left| |].
    + destruct IH as (x' & Hx' & H1 & H0); [done|lra|].
      exists x'. split; [by right|]. split; [done|].
      intros y Hy Hne. apply elem_of_cons in Hy as [->|Hy]; [done|by apply H0].
    + exists x. split; [left|]. split; [done|].
      intros y Hy Hne. apply elem_of_cons in Hy as [->|Hy]; [done|].
      apply (Qsum_fmap_zero f l Hpos); [lra|done].
Qed.

Lemma integer_0_1 q : is_integer q → 0 <= q → q <= 1 → q == 0 ∨ q == 1.
Proof.
  intros [z Hz] H0 H1. rewrite Hz in H0, H1.
  change 0 with (inject_Z 0) in H0. change 1 with (inject_Z 1) in H1.
  rewrite <-Zle_Qle in H0, H1.
  assert (z = 0 ∨ z = 1)%Z as [->| ->] by lia; [left|right]; exact Hz.
Qed.

Context {K : Type}.
Implicit Types (a : K → Q) (e : LpAffineExpression K) (v : LpVariable K).

Lemma value_of_var a v : value a (of_var v) == a (key v).
Proof. unfold value, of_var, Qsum. simpl. ring. Qed.

Lemma value_of_num a c : value a (of_num c) == c.
Proof. unfold value, of_num, Qsum. simpl. ring. Qed.

Lemma value_scale a e c : value a (scale e c) == c * value a e.
Proof.
  unfold value, scale. simpl. rewrite <-list_fmap_compose.
  rewrite (Qsum_fmap_ext _ (λ t, c * (a (key t.1) * t.2))).
  - rewrite Qsum_fmap_scale. ring.
  - intros t _. simpl. ring.
Qed.

Lemma value_lpSum a (es : list (LpAffineExpression K)) :
  value a (lpSum es) == Qsum (value a <$> es).
Proof.
  induction es as [|e es IH]; [unfold value, lpSum, Qsum; simpl; ring|].
  change (Qsum ((λ t, a (key t.1) * t.2) <$> (terms e ++ terms (lpSum es)))
          + (constant e + constant (lpSum es))
          == value a e + Qsum (value a <$> es)).
  rewrite <-IH. unfold value. rewrite fmap_app, Qsum_app. ring.
Qed.

Lemma value_lpSum_fmap {A} a (g : A → LpAffineExpression K) (l : list A) :
  value a (lpSum (g <$> l)) == Qsum ((λ x, value a (g x)) <$> l).
Proof. by rewrite value_lpSum, <-list_fmap_compose. Qed.

Lemma value_add a e1 e2 : value a (add e1 e2) == value a e1 + value a e2.
Proof. unfold add. rewrite value_lpSum. unfold Qsum. simpl. ring. Qed.

(** The executable check of feasibility is sound. *)
Lemma is_integerb_true q : is_integerb q = true → is_integer q.
Proof.
  unfold is_integerb, is_integer. destruct q as [n d]. simpl.
  intros H%Z.eqb_eq. exists (n / Zpos d)%Z.
  unfold Qeq, inject_Z. simpl.
  pose proof (Z.div_mod n (Zpos d)). lia.
Qed.

Lemma holdsb_true a (c : LpConstraint K) : holdsb a c = true → holds a c.
Proof.
  unfold holdsb, holds. destruct (sense c); intros H.
  - by apply Qle_bool_imp_le.
  - by apply Qeq_bool_eq.
  - by apply Qle_bool_imp_le.
Qed.

Lemma within_boundsb_true a v : within_boundsb a v = true → within_bounds a v.
Proof.
  unfold within_boundsb, within_bounds.
  intros [[Hlo Hup]%andb_prop Hint]%andb_prop. repeat split.
  - intros lo Hl. rewrite Hl in Hlo. by apply Qle_bool_imp_le.
  - intros up Hu. rewrite Hu in Hup. by apply Qle_bool_imp_le.
  - intros Hc. rewrite Hc in Hint. by apply is_integerb_true.
Qed.

Lemma feasibleb_true (p : LpProblem K) a : feasibleb p a = true → feasible p a.
Proof.
  unfold feasibleb, feasible. intros [Hc Hv]%andb_prop. split.
  - intros nc Hnc. apply holdsb_true.
    rewrite forallb_forall in Hc. apply Hc. by apply list_elem_of_In.
  - intros v Hin. apply within_boundsb_true.
    rewrite forallb_forall in Hv. apply Hv. by apply list_elem_of_In.
Qed.

Lemma feasible_holds (p : LpProblem K) a nm c :
  feasible p a → (nm, c) ∈ constraints p → holds a c.
Proof. intros [H _] Hin. apply (H (nm, c) Hin). Qed.

Lemma feasible_bounds (p : LpProblem K) a nm c v :
  feasible p a → (nm, c) ∈ constraints p → v ∈ constraint_variables c →
  within_bounds a v.
Proof.
  intros [_ H] Hin Hv. apply H. unfold all_variables.
  apply elem_of_app. right. apply list_elem_of_bind. by exists (nm, c).
Qed.
End sums.

(** ** Facts about the tiered model *)

Lemma fmap_list_bind {A B C} (h : B → C) (g : A → list B) (l : list A) :
  h <$> (x ← l; g x) = x ← l; h <$> g x.
Proof.
  induction l as [|x l IH]; [done|].
  change (h <$> (g x ++ (l ≫= g)) = (h <$> g x) ++ (l ≫= λ x, h <$> g x)).
  rewrite fmap_app. f_equal. exact IH.
Qed.

Lemma value_lpSum_bind {K A} (a : K → Q) (g : A → list (LpAffineExpression K))
    (l : list A) :
  (value a (lpSum (x ← l; g x)) == Qsum ((λ x, value a (lpSum (g x))) <$> l))%Q.
Proof.
  rewrite value_lpSum, fmap_list_bind, Qsum_bind.
  apply Qsum_fmap_ext. intros x _. by rewrite value_lpSum.
Qed.

Lemma expr_variables_lpSum {K} (es : list (LpAffineExpression K)) :
  expr_variables (lpSum es) = e ← es; expr_variables e.
Proof.
  induction es as [|e es IH]; [done|].
  unfold expr_variables in *. simpl in *.
  rewrite fmap_app. f_equal. exact IH.
Qed.

Lemma expr_variables_lpSum_bind {K A} (g : A → list (LpAffineExpression K))
    (l : list A) :
  expr_variables (lpSum (x ← l; g x)) = x ← l; expr_variables (lpSum (g x)).
Proof.
  rewrite expr_variables_lpSum.
  induction l as [|x l IH]; [done|].
  change ((g x ++ (l ≫= g)) ≫= expr_variables =
          expr_variables (lpSum (g x)) ++ (l ≫= λ x, expr_variables (lpSum (g x)))).
  rewrite bind_app, expr_variables_lpSum. f_equal. exact IH.
Qed.

Lemma expr_variables_scale {K} (e : LpAffineExpression K) c :
  expr_variables (scale e c) = expr_variables e.
Proof.
  unfold expr_variables, scale. simpl. rewrite <-list_fmap_compose.
  by apply list_fmap_ext.
Qed.

Section tiered_facts.
Context (num_years : Z) (carriers destinations : list string).
Context (shipment_target : list (gmap string Q)).
Context (shipment_cost : gmap string (gmap string Q)).
Context (tier_min_quantity : list Z).
Context (discount_rate : gmap string (list Q)).
Local Open Scope Q_scope.

#[local] Abbreviation all_years := (years num_years).
#[local] Abbreviation all_tiers := (tiers tier_min_quantity).
#[local] Abbreviation target := (target shipment_target).
#[local] Abbreviation unit_cost := (unit_cost shipment_cost).
#[local] Abbreviation rate := (rate discount_rate).
#[local] Abbreviation min_quantity := (min_quantity tier_min_quantity).
#[local] Abbreviation ship_var := (ship_var shipment_target).
#[local] Abbreviation one_tier_constraint := (one_tier_constraint tier_min_quantity).
#[local] Abbreviation gating_constraint := (gating_constraint shipment_target).
#[local] Abbreviation tier_minimum_constraint :=
  (tier_minimum_constraint destinations shipment_target tier_min_quantity).
#[local] Abbreviation target_constraint :=
  (target_constraint carriers shipment_target tier_min_quantity).
#[local] Abbreviation tier_constraints :=
  (tier_constraints destinations shipment_target tier_min_quantity).
#[local] Abbreviation tiered_constraints :=
  (tiered_constraints num_years carriers destinations shipment_target
     tier_min_quantity).
#[local] Abbreviation tiered_objective :=
  (tiered_objective num_years carriers destinations shipment_target
     shipment_cost tier_min_quantity discount_rate).
#[local] Abbreviation tiered_model :=
  (tiered_model num_years carriers destinations shipment_target shipment_cost
     tier_min_quantity discount_rate).

(** *** Which constraints the model holds *)

Lemma tier_constraints_elem year carrier nc :
  year ∈ all_years → carrier ∈ carriers → nc ∈ tier_constraints year carrier →
  nc ∈ tiered_constraints.
Proof.
  intros Hy Hc Hnc. unfold tiered_constraints. apply elem_of_app. left.
  apply list_elem_of_bind. exists year. split; [|done].
  apply list_elem_of_bind. by exists carrier.
Qed.

Lemma one_tier_constraint_elem year carrier :
  year ∈ all_years → carrier ∈ carriers →
  (None, one_tier_constraint year carrier) ∈ tiered_constraints.
Proof.
  intros Hy Hc. apply (tier_constraints_elem year carrier); [done..|]. by left.
Qed.

Lemma gating_constraint_elem year carrier tier dest :
  year ∈ all_years → carrier ∈ carriers → tier ∈ all_tiers → dest ∈ destinations →
  (None, gating_constraint year carrier tier dest) ∈ tiered_constraints.
Proof.
  intros Hy Hc Ht Hd. apply (tier_constraints_elem year carrier); [done..|].
  right. apply list_elem_of_bind. exists tier. split; [|done].
  apply elem_of_app. left.
  by apply (list_elem_of_fmap_2 (λ dest, (None, gating_constraint year carrier tier dest))).
Qed.

Lemma tier_minimum_constraint_elem year carrier tier :
  year ∈ all_years → carrier ∈ carriers → tier ∈ all_tiers →
  (None, tier_minimum_constraint year carrier tier) ∈ tiered_constraints.
Proof.
  intros Hy Hc Ht. apply (tier_constraints_elem year carrier); [done..|].
  right. apply list_elem_of_bind. exists tier. split; [|done].
  apply elem_of_app. right. by left.
Qed.

Lemma target_constraint_elem year dest :
  year ∈ all_years → dest ∈ destinations →
  (None, target_constraint year dest) ∈ tiered_constraints.
Proof.
  intros Hy Hd. unfold tiered_constraints. apply elem_of_app. right.
  apply list_elem_of_bind. exists year. split; [|done].
  apply list_elem_of_bind. exists dest. split; [by left|done].
Qed.

(** *** What the constraints say about an assignment *)

Implicit Types a : TierKey → Q.

Lemma holds_one_tier a year carrier :
  holds a (one_tier_constraint year carrier) ↔
  Qsum ((λ tier, a (tier_flag_key year carrier tier)) <$> all_tiers) == 1.
Proof.
  unfold holds, one_tier_constraint. simpl.
  rewrite value_of_num, <-list_fmap_compose, value_lpSum_fmap.
  rewrite (Qsum_fmap_ext _ (λ tier, a (tier_flag_key year carrier tier))); [done|].
  intros tier _. simpl. by rewrite value_of_var.
Qed.

Lemma holds_gating a year carrier tier dest :
  holds a (gating_constraint year carrier tier dest) ↔
  a (shipment_at_tier_key year carrier tier dest)
    <= target year dest * a (tier_flag_key year carrier tier).
Proof.
  unfold holds, gating_constraint. simpl.
  by rewrite value_scale, !value_of_var.
Qed.

Lemma holds_tier_minimum a year carrier tier :
  holds a (tier_minimum_constraint year carrier tier) ↔
  inject_Z (min_quantity tier) * a (tier_flag_key year carrier tier)
    <= Qsum ((λ dest, a (shipment_at_tier_key year carrier tier dest)) <$> destinations).
Proof.
  unfold holds, tier_minimum_constraint. simpl.
  rewrite value_scale, value_of_var, value_lpSum_fmap.
  rewrite (Qsum_fmap_ext _ (λ dest, a (shipment_at_tier_key year carrier tier dest)));
    [done|].
  intros dest _. by rewrite value_of_var.
Qed.

#[local] Abbreviation inflow := (inflow carriers tier_min_quantity).

Lemma inflow_nested a year dest :
  inflow a year dest ==
  Qsum ((λ carrier,
    Qsum ((λ tier, a (shipment_at_tier_key year carrier tier dest)) <$> all_tiers))
    <$> carriers).
Proof.
  unfold inflow. rewrite Qsum_bind. apply Qsum_fmap_ext. intros carrier _.
  by rewrite bind_singleton_fmap.
Qed.

Lemma holds_target a year dest :
  holds a (target_constraint year dest) ↔ inflow a year dest == target year dest.
Proof.
  unfold holds, target_constraint. simpl.
  rewrite value_of_num, value_lpSum_bind, inflow_nested.
  rewrite (Qsum_fmap_ext _ (λ carrier,
    Qsum ((λ tier, a (shipment_at_tier_key year carrier tier dest)) <$> all_tiers)));
    [done|].
  intros carrier _. rewrite bind_singleton_fmap, value_lpSum_fmap.
  apply Qsum_fmap_ext. intros tier _. by rewrite value_of_var.
Qed.

(** *** Bounds of the variables *)

Lemma flag_binary a year carrier tier :
  feasible tiered_model a →
  year ∈ all_years → carrier ∈ carriers → tier ∈ all_tiers →
  a (tier_flag_key year carrier tier) == 0 ∨ a (tier_flag_key year carrier tier) == 1.
Proof.
  intros Hf Hy Hc Ht.
  destruct (feasible_bounds _ a None (one_tier_constraint year carrier)
              (flag_var year carrier tier) Hf) as (Hlo & Hup & Hint).
  - by apply one_tier_constraint_elem.
  - unfold constraint_variables. apply elem_of_app. left.
    unfold one_tier_constraint. simpl. rewrite expr_variables_lpSum.
    apply list_elem_of_bind. exists (of_var (flag_var year carrier tier)).
    split; [by left|]. apply list_elem_of_fmap_2. by apply list_elem_of_fmap_2.
  - apply integer_0_1; [by apply Hint|by apply Hlo|by apply Hup].
Qed.

Lemma ship_bounds a year carrier tier dest :
  feasible tiered_model a →
  year ∈ all_years → carrier ∈ carriers → tier ∈ all_tiers → dest ∈ destinations →
  0 <= a (shipment_at_tier_key year carrier tier dest) <= target year dest.
Proof.
  intros Hf Hy Hc Ht Hd.
  destruct (feasible_bounds _ a None (gating_constraint year carrier tier dest)
              (ship_var year carrier tier dest) Hf) as (Hlo & Hup & _).
  - by apply gating_constraint_elem.
  - unfold constraint_variables. apply elem_of_app. left. by left.
  - split; [by apply Hlo|by apply Hup].
Qed.

(** *** Target equality, tier exclusivity and gating *)

Lemma tiered_target_met a year dest :
  feasible tiered_model a → year ∈ all_years → dest ∈ destinations →
  inflow a year dest == target year dest.
Proof.
  intros Hf Hy Hd. apply holds_target.
  apply (feasible_holds tiered_model a None); [done|].
  by apply target_constraint_elem.
Qed.

Lemma tiered_one_tier a year carrier :
  feasible tiered_model a → year ∈ all_years → carrier ∈ carriers →
  ∃ tier, tier ∈ all_tiers ∧ a (tier_flag_key year carrier tier) == 1 ∧
    ∀ tier', tier' ∈ all_tiers → tier' ≠ tier →
      a (tier_flag_key year carrier tier') == 0.
Proof.
  intros Hf Hy Hc.
  apply (binary_sum_one (λ tier, a (tier_flag_key year carrier tier))).
  - intros tier Ht. by apply flag_binary.
  - apply holds_one_tier. apply (feasible_holds tiered_model a None); [done|].
    by apply one_tier_constraint_elem.
Qed.

Lemma tiered_inactive_zero a year carrier tier dest :
  feasible tiered_model a →
  year ∈ all_years → carrier ∈ carriers → tier ∈ all_tiers → dest ∈ destinations →
  a (tier_flag_key year carrier tier) == 0 →
  a (shipment_at_tier_key year carrier tier dest) == 0.
Proof.
  intros Hf Hy Hc Ht Hd H0.
  destruct (ship_bounds a year carrier tier dest) as [Hlo _]; [done..|].
  assert (Hg : holds a (gating_constraint year carrier tier dest)).
  { apply (feasible_holds tiered_model a None); [done|].
    by apply gating_constraint_elem. }
  apply holds_gating in Hg. rewrite H0 in Hg. lra.
Qed.

(** *** The objective *)

Lemma tiered_objective_value a :
  value a tiered_objective ==
  Qsum ((λ year, Qsum ((λ carrier, Qsum ((λ tier, Qsum ((λ dest,
      a (shipment_at_tier_key year carrier tier dest)
      * unit_cost carrier dest * rate carrier tier)
    <$> destinations)) <$> all_tiers)) <$> carriers)) <$> all_years).
Proof.
  unfold tiered_objective.
  rewrite value_lpSum_bind. apply Qsum_fmap_ext. intros year _.
  rewrite value_lpSum_bind. apply Qsum_fmap_ext. intros carrier _.
  rewrite value_lpSum_bind. apply Qsum_fmap_ext. intros tier _.
  rewrite bind_singleton_fmap, value_lpSum_fmap.
  apply Qsum_fmap_ext. intros dest _.
  rewrite !value_scale, value_of_var. simpl. ring.
Qed.

Lemma tiered_objective_variables :
  expr_variables tiered_objective =
  year ← all_years; carrier ← carriers; tier ← all_tiers; dest ← destinations;
  [ship_var year carrier tier dest].
Proof.
  unfold tiered_objective.
  rewrite expr_variables_lpSum_bind. apply list_bind_ext; [|done]. intros year.
  rewrite expr_variables_lpSum_bind. apply list_bind_ext; [|done]. intros carrier.
  rewrite expr_variables_lpSum_bind. apply list_bind_ext; [|done]. intros tier.
  rewrite expr_variables_lpSum_bind. apply list_bind_ext; [|done]. intros dest.
  rewrite expr_variables_lpSum. reflexivity.
Qed.
End tiered_facts.

(** ** Facts about the network model *)

Section network_facts.
Context (warehouses destinations : list string).
Context (target_distribution : gmap string Z).
Context (shipment_capacity : gmap string (gmap string Z)).
Context (warehouse_cost : gmap string Q).
Context (shipment_cost : gmap string (gmap string Q)).
Context (target_delivery_days : Z).
Context (delivery_tolerance : Q).
Context (delivery_estimate : gmap string (gmap string Z)).
Local Open Scope Q_scope.

#[local] Abbreviation capacity := (capacity shipment_capacity).
#[local] Abbreviation route_cost := (route_cost shipment_cost).
#[local] Abbreviation fixed_cost := (fixed_cost warehouse_cost).
#[local] Abbreviation demand := (demand target_distribution).
#[local] Abbreviation late_indicator :=
  (late_indicator target_delivery_days delivery_estimate).
#[local] Abbreviation count_var := (count_var shipment_capacity).
#[local] Abbreviation usage_constraint := (usage_constraint shipment_capacity).
#[local] Abbreviation distribution_constraint :=
  (distribution_constraint warehouses target_distribution shipment_capacity).
#[local] Abbreviation delivery_constraint :=
  (delivery_constraint warehouses shipment_capacity target_delivery_days
     delivery_tolerance delivery_estimate).
#[local] Abbreviation network_constraints :=
  (network_constraints warehouses destinations target_distribution
     shipment_capacity target_delivery_days delivery_tolerance delivery_estimate).
#[local] Abbreviation network_objective :=
  (network_objective warehouses destinations shipment_capacity warehouse_cost
     shipment_cost).
#[local] Abbreviation network_model :=
  (network_model warehouses destinations target_distribution shipment_capacity
     warehouse_cost shipment_cost target_delivery_days delivery_tolerance
     delivery_estimate).

Implicit Types a : NetKey → Q.

Lemma usage_constraint_elem i j :
  i ∈ warehouses → j ∈ destinations →
  (Some ("Warehouse_Usage_" +:+ i +:+ "_" +:+ j), usage_constraint i j)
    ∈ network_constraints.
Proof.
  intros Hi Hj. unfold network_constraints. apply elem_of_app. left.
  apply list_elem_of_bind. exists i. split; [|done].
  apply list_elem_of_bind. exists j. split; [by left|done].
Qed.

Lemma distribution_constraint_elem j :
  j ∈ destinations →
  (Some ("Distribution_" +:+ j), distribution_constraint j) ∈ network_constraints.
Proof.
  intros Hj. unfold network_constraints. apply elem_of_app. right.
  apply elem_of_app. left.
  by apply (list_elem_of_fmap_2
    (λ j, (Some ("Distribution_" +:+ j), distribution_constraint j))).
Qed.

Lemma delivery_constraint_elem j :
  j ∈ destinations →
  (Some ("Delivery_Target_" +:+ j), delivery_constraint j) ∈ network_constraints.
Proof.
  intros Hj. unfold network_constraints. apply elem_of_app. right.
  apply elem_of_app. right.
  by apply (list_elem_of_fmap_2
    (λ j, (Some ("Delivery_Target_" +:+ j), delivery_constraint j))).
Qed.

Lemma holds_usage a i j :
  holds a (usage_constraint i j) ↔
  a (shipment_count_key i j) <= inject_Z (capacity i j) * a (warehouse_usage_key i).
Proof.
  unfold holds, usage_constraint. simpl. by rewrite value_scale, !value_of_var.
Qed.

Lemma value_total_to_dest a j :
  value a (lpSum ((λ i, of_var (count_var i j)) <$> warehouses)) ==
  Qsum ((λ i, a (shipment_count_key i j)) <$> warehouses).
Proof.
  rewrite value_lpSum_fmap. apply Qsum_fmap_ext. intros i _.
  by rewrite value_of_var.
Qed.

Lemma holds_distribution a j :
  holds a (distribution_constraint j) ↔
  Qsum ((λ i, a (shipment_count_key i j)) <$> warehouses) == inject_Z (demand j).
Proof.
  unfold holds, distribution_constraint. simpl.
  by rewrite value_of_num, value_total_to_dest.
Qed.

Lemma holds_delivery a j :
  holds a (delivery_constraint j) ↔
  Qsum ((λ i, inject_Z (late_indicator i j) * a (shipment_count_key i j))
          <$> warehouses)
    <= delivery_tolerance * Qsum ((λ i, a (shipment_count_key i j)) <$> warehouses).
Proof.
  unfold holds, delivery_constraint. simpl.
  rewrite value_scale, value_total_to_dest, value_lpSum_fmap.
  rewrite (Qsum_fmap_ext _
    (λ i, inject_Z (late_indicator i j) * a (shipment_count_key i j))); [done|].
  intros i _. by rewrite value_scale, value_of_var.
Qed.

Lemma delivery_constraint_variables j v :
  v ∈ constraint_variables (delivery_constraint j) →
  ∃ i, i ∈ warehouses ∧ v = count_var i j.
Proof.
  unfold constraint_variables, delivery_constraint. simpl.
  rewrite expr_variables_scale, !expr_variables_lpSum.
  intros [H|H]%elem_of_app;
    apply list_elem_of_bind in H as (e & Hv & He);
    apply list_elem_of_fmap in He as (i & -> & Hi);
    exists i; (split; [done|]).
  - rewrite expr_variables_scale in Hv. by apply list_elem_of_singleton in Hv.
  - by apply list_elem_of_singleton in Hv.
Qed.

Lemma count_bounds a i j :
  feasible network_model a → i ∈ warehouses → j ∈ destinations →
  0 <= a (shipment_count_key i j) <= inject_Z (capacity i j).
Proof.
  intros Hf Hi Hj.
  destruct (feasible_bounds _ a _ (usage_constraint i j) (count_var i j) Hf
              (usage_constraint_elem i j Hi Hj)) as (Hlo & Hup & _).
  - unfold constraint_variables. apply elem_of_app. left. by left.
  - split; [by apply Hlo|by apply Hup].
Qed.

Lemma usage_binary a i j :
  feasible network_model a → i ∈ warehouses → j ∈ destinations →
  a (warehouse_usage_key i) == 0 ∨ a (warehouse_usage_key i) == 1.
Proof.
  intros Hf Hi Hj.
  destruct (feasible_bounds _ a _ (usage_constraint i j) (usage_var i) Hf
              (usage_constraint_elem i j Hi Hj)) as (Hlo & Hup & Hint).
  - unfold constraint_variables. apply elem_of_app. right. by left.
  - apply integer_0_1; [by apply Hint|by apply Hlo|by apply Hup].
Qed.

Lemma network_target_met a j :
  feasible network_model a → j ∈ destinations →
  Qsum ((λ i, a (shipment_count_key i j)) <$> warehouses) == inject_Z (demand j).
Proof.
  intros Hf Hj. apply holds_distribution.
  apply (feasible_holds network_model a _ _ Hf (distribution_constraint_elem j Hj)).
Qed.

Lemma network_objective_value a :
  value a network_objective ==
  Qsum ((λ i, Qsum ((λ j, a (shipment_count_key i j) * route_cost i j)
                      <$> destinations)) <$> warehouses)
  + Qsum ((λ i, a (warehouse_usage_key i) * fixed_cost i) <$> warehouses).
Proof.
  unfold network_objective. rewrite value_add.
  apply Qplus_comp.
  - rewrite value_lpSum_bind. apply Qsum_fmap_ext. intros i _.
    rewrite bind_singleton_fmap, value_lpSum_fmap.
    apply Qsum_fmap_ext. intros j _. rewrite value_scale, value_of_var. simpl. ring.
  - rewrite value_lpSum_fmap. apply Qsum_fmap_ext. intros i _.
    rewrite value_scale, value_of_var. simpl. ring.
Qed.

Lemma network_objective_variables :
  expr_variables network_objective =
  (i ← warehouses; j ← destinations; [count_var i j]) ++ (usage_var <$> warehouses).
Proof.
  unfold network_objective, add. rewrite expr_variables_lpSum. simpl.
  rewrite app_nil_r. f_equal.
  - rewrite expr_variables_lpSum_bind. apply list_bind_ext; [|done]. intros i.
    rewrite expr_variables_lpSum_bind. apply list_bind_ext; [|done]. intros j.
    rewrite expr_variables_lpSum. reflexivity.
  - rewrite expr_variables_lpSum, list_fmap_bind, <-bind_singleton_fmap.
    apply list_bind_ext; [|done]. intros i. reflexivity.
Qed.
End network_facts.

(** ** Names and their parsing *)

Lemma translate_app s1 s2 :
  translate (s1 +:+ s2) = (translate s1 +:+ translate s2).
Proof. induction s1 as [|c s1 IH]; [done|]. simpl. by rewrite IH. Qed.

Lemma kept_by_pulp_cons c s :
  kept_by_pulp (String c s) = true → (c ∉ illegal_chars) ∧ kept_by_pulp s = true.
Proof.
  unfold kept_by_pulp. rewrite !forallb_forall. intros H. split.
  - intros Hc. apply list_elem_of_In in Hc. specialize (H c Hc). simpl in H.
    by rewrite Ascii.eqb_refl in H.
  - intros x Hx. specialize (H x Hx). simpl in H.
    by destruct (Ascii.eqb c x); [|exact H].
Qed.

Lemma translate_kept s : kept_by_pulp s = true → translate s = s.
Proof.
  induction s as [|c s IH]; [done|].
  intros [Hc Hs]%kept_by_pulp_cons. simpl. rewrite (IH Hs). f_equal.
  unfold trans. by rewrite bool_decide_eq_false_2.
Qed.

Lemma plain_name_spec s :
  plain_name s = true → contains s "_" = false ∧ translate s = s.
Proof.
  unfold plain_name. intros [H1 H2]%andb_prop. split.
  - by apply negb_true_iff.
  - by apply translate_kept.
Qed.

Lemma count_char_app c s1 s2 :
  count_char c (s1 +:+ s2) = count_char c s1 + count_char c s2.
Proof. induction s1 as [|b s1 IH]; [done|]. simpl. rewrite IH. lia. Qed.

Lemma count_char_contains c s : contains s c = false → count_char c s = 0.
Proof.
  induction s as [|b s IH]; [done|]. simpl.
  intros [Hb Hs]%orb_false_elim. by rewrite Hb, IH.
Qed.

Lemma prefix_count_char c p t :
  String.prefix p t = true → count_char c p ≤ count_char c t.
Proof.
  revert t. induction p as [|a p IH]; intros t; [simpl; lia|].
  destruct t as [|b t]; simpl; [discriminate|].
  destruct (ascii_dec a b) as [->|]; [|discriminate].
  intros H%IH. lia.
Qed.

(** A string with fewer occurrences of a character than [old] has no
    occurrence of [old], and [replace] leaves it as it is. *)
Lemma replace_go_id c old new s :
  count_char c s < count_char c old → replace_go old new s 0 = s.
Proof.
  induction s as [|b s IH]; [done|]. intros Hlt.
  cbn [replace_go].
  destruct (String.prefix old (String b s)) eqn:Hp.
  - apply (prefix_count_char c) in Hp. lia.
  - f_equal. apply IH. simpl in Hlt. lia.
Qed.

Lemma split_no_sep s c : contains s c = false → split s c = [s].
Proof.
  induction s as [|b s IH]; [done|]. simpl.
  intros [Hb Hs]%orb_false_elim. by rewrite Hb, (IH Hs).
Qed.

Lemma split_app s1 s2 c :
  contains s1 c = false → split (s1 +:+ String c s2) c = s1 :: split s2 c.
Proof.
  induction s1 as [|b s1 IH]; simpl.
  - intros _. by rewrite Ascii.eqb_refl.
  - intros [Hb Hs]%orb_false_elim. by rewrite Hb, (IH Hs).
Qed.

Lemma prefix_append p r : String.prefix p (p +:+ r) = true.
Proof.
  induction p as [|a p IH]; simpl; [by destruct r|].
  by destruct (ascii_dec a a).
Qed.

Lemma replace_go_skip old new p rest :
  replace_go old new (p +:+ rest) (String.length p) = replace_go old new rest 0.
Proof. induction p as [|a p IH]; [done|]. simpl. exact IH. Qed.

(** [replace] removes a leading occurrence and goes on after it. *)
Lemma replace_prefix c old' new rest :
  replace (String c old' +:+ rest) (String c old') new
  = (new +:+ replace_go (String c old') new rest 0).
Proof.
  unfold replace.
  change (String c old' +:+ rest) with (String c (old' +:+ rest)).
  cbn [replace_go].
  change (String c (old' +:+ rest)) with (String c old' +:+ rest).
  rewrite prefix_append. f_equal.
  cbn [String.length]. rewrite Nat.sub_1_r. cbn [Nat.pred].
  apply replace_go_skip.
Qed.

(** The name of a flow variable with plain names parses back to its pair. *)
Lemma shipment_count_name_parse i j :
  plain_name i = true → plain_name j = true →
  let nm := translate (shipment_count_name i j) in
  startswith nm "shipment_count_" = true ∧
  split (replace nm "shipment_count_" "") "_" = [i; j].
Proof.
  intros [Hi Ti]%plain_name_spec [Hj Tj]%plain_name_spec.
  unfold shipment_count_name. rewrite !translate_app, Ti, Tj.
  change (translate "shipment_count_") with "shipment_count_".
  change (translate "_") with "_".
  split; [apply prefix_append|].
  rewrite replace_prefix.
  rewrite (replace_go_id "_" "shipment_count_" "" (i +:+ "_" +:+ j)).
  - change ("" +:+ i +:+ "_" +:+ j) with (i +:+ String "_" j).
    by rewrite split_app, split_no_sep.
  - rewrite !count_char_app, (count_char_contains _ i Hi), (count_char_contains _ j Hj).
    simpl. lia.
Qed.

Lemma warehouse_usage_name_not_count i :
  startswith (translate (warehouse_usage_name i)) "shipment_count_" = false ∧
  startswith (translate (warehouse_usage_name i)) "warehouse_usage_" = true.
Proof.
  unfold warehouse_usage_name. rewrite translate_app.
  change (translate "warehouse_usage_") with "warehouse_usage_".
  split; [reflexivity|apply prefix_append].
Qed.

(** ** The variables of a problem *)

Section variables.
Context {K : Type} `{EqDecision K}.
Implicit Types (v w : LpVariable K) (l acc vs : list (LpVariable K)).

Lemma elem_of_insert_by_name w v l : w ∈ insert_by_name v l ↔ w = v ∨ w ∈ l.
Proof.
  induction l as [|u l IH]; simpl.
  - rewrite list_elem_of_singleton, elem_of_nil. tauto.
  - destruct (String.leb (name v) (name u)).
    + by rewrite elem_of_cons.
    + rewrite !elem_of_cons, IH. tauto.
Qed.

Lemma elem_of_sort_by_name w l : w ∈ sort_by_name l ↔ w ∈ l.
Proof.
  induction l as [|u l IH]; [done|]. simpl.
  by rewrite elem_of_insert_by_name, IH, elem_of_cons.
Qed.

Lemma addVariables_sound acc vs w : w ∈ addVariables acc vs → w ∈ acc ∨ w ∈ vs.
Proof.
  unfold addVariables. revert acc.
  induction vs as [|v vs IH]; intros acc; simpl; [by left|].
  intros [H|H]%IH; [|right; by right].
  case_bool_decide; [by left|].
  apply elem_of_app in H as [H|H]; [by left|].
  apply list_elem_of_singleton in H as ->. right. by left.
Qed.

Lemma addVariables_complete acc vs w :
  w ∈ acc ∨ w ∈ vs → ∃ v, v ∈ addVariables acc vs ∧ key v = key w.
Proof.
  unfold addVariables. revert acc w.
  induction vs as [|v vs IH]; intros acc w; simpl.
  - intros [H|H]; [by exists w|by apply elem_of_nil in H].
  - intros H. case_bool_decide as Hex.
    + destruct H as [H|H]; [apply IH; by left|].
      apply elem_of_cons in H as [->|H]; [|apply IH; by right].
      (* the object already present stands for [v] *)
      apply Exists_exists in Hex as (u & Hu & Hk).
      destruct (IH acc u) as (v' & Hv' & Hk'); [by left|].
      exists v'. split; [done|congruence].
    + apply IH. destruct H as [H|H]; [left; apply elem_of_app; by left|].
      apply elem_of_cons in H as [->|H]; [|by right].
      left. apply elem_of_app. right. by left.
Qed.

Lemma variables_sound (p : LpProblem K) w : w ∈ variables p → w ∈ all_variables p.
Proof.
  unfold variables. rewrite elem_of_sort_by_name.
  intros [H|H]%addVariables_sound; [by apply elem_of_nil in H|done].
Qed.

Lemma variables_complete (p : LpProblem K) w :
  w ∈ all_variables p → ∃ v, v ∈ variables p ∧ key v = key w.
Proof.
  intros H. destruct (addVariables_complete [] (all_variables p) w) as (v & Hv & Hk);
    [by right|].
  exists v. split; [|done]. unfold variables. by apply elem_of_sort_by_name.
Qed.
End variables.

(** ** Reading the network solution back from the variable names *)

Lemma for__pure {A S} (step : S → A → S) (l : list A)
    (body : S → A → result S) (s : S) :
  (∀ s x, x ∈ l → body s x = Ok (step s x)) →
  for_ l body s = Ok (foldl step s l).
Proof.
  revert s. induction l as [|x l IH]; intros s H; [done|].
  simpl. rewrite H by left. simpl. apply IH. intros s' y Hy. apply H. by right.
Qed.

Lemma foldl_extract_step_lookup solution vars st i j :
  (∃ v, v ∈ vars ∧ key v = shipment_count_key i j) →
  (foldl (extract_step solution) st vars).1 !! (i, j)
  = Some (int (varValue solution (shipment_count_key i j))).
Proof.
  induction vars as [|v vars IH] using rev_ind.
  - intros (v & Hv & _). by apply elem_of_nil in Hv.
  - intros (w & Hw & Hk). rewrite foldl_app. simpl.
    unfold extract_step at 1.
    destruct (key v) as [i' j'|i'] eqn:Hv; simpl.
    + destruct (decide ((i', j') = (i, j))) as [[= -> ->]|Hne].
      * by rewrite lookup_insert_eq.
      * rewrite lookup_insert_ne by done. apply IH.
        apply elem_of_app in Hw as [Hw|Hw]; [by exists w|].
        apply list_elem_of_singleton in Hw as ->. congruence.
    + apply IH. apply elem_of_app in Hw as [Hw|Hw]; [by exists w|].
      apply list_elem_of_singleton in Hw as ->. congruence.
Qed.

Section network_extract.
Context (warehouses destinations : list string).
Context (target_distribution : gmap string Z).
Context (shipment_capacity : gmap string (gmap string Z)).
Context (warehouse_cost : gmap string Q).
Context (shipment_cost : gmap string (gmap string Q)).
Context (target_delivery_days : Z).
Context (delivery_tolerance : Q).
Context (delivery_estimate : gmap string (gmap string Z)).
Context (solution : Solution NetKey).

#[local] Abbreviation count_var := (count_var shipment_capacity).
#[local] Abbreviation network_model :=
  (network_model warehouses destinations target_distribution shipment_capacity
     warehouse_cost shipment_cost target_delivery_days delivery_tolerance
     delivery_estimate).

Lemma network_all_variables v :
  v ∈ all_variables network_model →
  (∃ i j, i ∈ warehouses ∧ j ∈ destinations ∧ v = count_var i j) ∨
  (∃ i, i ∈ warehouses ∧ v = usage_var i).
Proof.
  unfold all_variables. intros [H|H]%elem_of_app.
  - change (objective network_model) with
      (network_objective warehouses destinations shipment_capacity warehouse_cost
         shipment_cost) in H.
    rewrite network_objective_variables in H.
    apply elem_of_app in H as [H|H].
    + apply list_elem_of_bind in H as (i & H & Hi).
      apply list_elem_of_bind in H as (j & H & Hj).
      apply list_elem_of_singleton in H as ->. left. by exists i, j.
    + apply list_elem_of_fmap in H as (i & -> & Hi). right. by exists i.
  - apply list_elem_of_bind in H as ([nm c] & Hv & Hc). simpl in Hv.
    change (constraints network_model) with
      (network_constraints warehouses destinations target_distribution
         shipment_capacity target_delivery_days delivery_tolerance
         delivery_estimate) in Hc.
    unfold network_constraints in Hc.
    apply elem_of_app in Hc as [Hc|Hc]; [|apply elem_of_app in Hc as [Hc|Hc]].
    + apply list_elem_of_bind in Hc as (i & Hc & Hi).
      apply list_elem_of_bind in Hc as (j & Hc & Hj).
      apply list_elem_of_singleton in Hc. injection Hc as -> ->.
      change (v ∈ [count_var i j; usage_var i]) in Hv.
      apply elem_of_cons in Hv as [->|Hv]; [left; by exists i, j|].
      apply list_elem_of_singleton in Hv as ->. right. by exists i.
    + apply list_elem_of_fmap in Hc as (j & [= -> ->] & Hj).
      unfold constraint_variables, distribution_constraint in Hv. simpl in Hv.
      rewrite expr_variables_lpSum in Hv.
      apply elem_of_app in Hv as [Hv|Hv]; [|by apply elem_of_nil in Hv].
      apply list_elem_of_bind in Hv as (e & Hv & He).
      apply list_elem_of_fmap in He as (i & -> & Hi).
      apply list_elem_of_singleton in Hv as ->. left. by exists i, j.
    + apply list_elem_of_fmap in Hc as (j & [= -> ->] & Hj).
      apply delivery_constraint_variables in Hv as (i & Hi & ->).
      left. by exists i, j.
Qed.

Lemma count_var_occurs i j :
  i ∈ warehouses → j ∈ destinations → count_var i j ∈ all_variables network_model.
Proof.
  intros Hi Hj. unfold all_variables. apply elem_of_app. left.
  change (objective network_model) with
    (network_objective warehouses destinations shipment_capacity warehouse_cost
       shipment_cost).
  rewrite network_objective_variables. apply elem_of_app. left.
  apply list_elem_of_bind. exists i. split; [|done].
  apply list_elem_of_bind. exists j. split; [by left|done].
Qed.

Hypothesis plain_warehouses : ∀ i, i ∈ warehouses → plain_name i = true.
Hypothesis plain_destinations : ∀ j, j ∈ destinations → plain_name j = true.

(** With plain names the loop is the fold of [extract_step]. *)
Lemma extract_solution_fold :
  warehouse_shipments.extract_solution network_model solution
  = Ok (foldl (extract_step solution) (∅, ∅) (variables network_model)).
Proof.
  unfold warehouse_shipments.extract_solution. apply for__pure.
  intros [sc wu] v Hv%variables_sound%network_all_variables.
  destruct Hv as [(i & j & Hi & Hj & ->)|(i & Hi & ->)].
  - destruct (shipment_count_name_parse i j) as [Hs Hp]; [by auto..|].
    change (name (count_var i j)) with (translate (shipment_count_name i j)).
    rewrite Hs, Hp. reflexivity.
  - destruct (warehouse_usage_name_not_count i) as [Hs Hu].
    change (name (usage_var i)) with (translate (warehouse_usage_name i)).
    rewrite Hs, Hu. reflexivity.
Qed.

Lemma extract_solution_lookup i j :
  i ∈ warehouses → j ∈ destinations →
  (foldl (extract_step solution) (∅, ∅) (variables network_model)).1 !! (i, j)
  = Some (int (varValue solution (shipment_count_key i j))).
Proof.
  intros Hi Hj. apply foldl_extract_step_lookup.
  destruct (variables_complete network_model (count_var i j)) as (v & Hv & Hk);
    [by apply count_var_occurs|].
  by exists v.
Qed.
End network_extract.

(** ** When the tiered builder returns and when it raises *)

Lemma bind_of_Ok {A B} (m : result A) (f : A → result B) a :
  m = Ok a → m ≫= f = f a.
Proof. by intros ->. Qed.

Lemma bind_of_Raise {A B} (m : result A) (f : A → result B) e :
  m = Raise e → m ≫= f = Raise e.
Proof. by intros ->. Qed.

Lemma bind_total {A B} (m : result A) (f : A → result B) :
  (∃ a, m = Ok a ∧ ∃ b, f a = Ok b) → ∃ b, m ≫= f = Ok b.
Proof. intros (a & -> & b & Hb). by exists b. Qed.

Lemma bind_total2 {A B} (m : result A) (f : A → result B) :
  (∃ a, m = Ok a) → (∀ a, m = Ok a → ∃ b, f a = Ok b) → ∃ b, m ≫= f = Ok b.
Proof. intros [a Ha] H. rewrite Ha. by apply H. Qed.

Lemma ok_or_bind {A B} e (m : result A) (f : A → result B) :
  ok_or e m → (∀ a, m = Ok a → ok_or e (f a)) → ok_or e (m ≫= f).
Proof. destruct m as [a|e']; simpl; [intros _ H; by apply H|done]. Qed.

Lemma ok_or_Raise {A} e (r : result A) :
  ok_or e r → (∀ a, r ≠ Ok a) → r = Raise e.
Proof. destruct r as [a|e']; simpl; [intros _ H; by destruct (H a)|by intros ->]. Qed.

Lemma getitem_list_ok_or {A} (l : list A) i : ok_or IndexError (getitem_list l i).
Proof.
  unfold getitem_list. destruct (_ <? 0)%Z; [done|]. by destruct (l !! _).
Qed.

Lemma mapM_ok_or {A B} e (f : A → result B) (l : list A) :
  (∀ x, x ∈ l → ok_or e (f x)) → ok_or e (mapM f l).
Proof.
  induction l as [|x l IH]; intros H; [done|]. simpl.
  apply ok_or_bind; [apply H; left|]. intros y _.
  apply ok_or_bind; [apply IH; intros z Hz; apply H; by right|]. done.
Qed.

Lemma mapM_not_Ok {A B} (f : A → result B) (l : list A) x :
  x ∈ l → (∀ y, f x ≠ Ok y) → ∀ r, mapM f l ≠ Ok r.
Proof.
  intros Hx Hf r Hr. apply mapM_Ok_Forall2 in Hr.
  apply list_elem_of_lookup in Hx as [i Hi].
  destruct (Forall2_lookup_l _ _ _ _ _ Hr Hi) as (y & _ & Hy). by apply (Hf y).
Qed.

(** A comprehension whose elements either succeed or raise [e], one of them
    raising it, raises [e]. *)
Lemma comprehension_Raise {A B} e (f : A → result B) (l : list A) x :
  (∀ z, z ∈ l → ok_or e (f z)) → x ∈ l → f x = Raise e →
  comprehension f l = Raise e.
Proof.
  intros Hok Hx Hf. apply ok_or_Raise; [by apply mapM_ok_or|].
  apply (mapM_not_Ok f l x Hx). intros y. by rewrite Hf.
Qed.

Lemma comprehension_ok_or {A B} e (f : A → result B) (l : list A) :
  (∀ z, z ∈ l → ok_or e (f z)) → ok_or e (comprehension f l).
Proof. apply mapM_ok_or. Qed.

Lemma comprehension_for_ok_or {A B} e (f : A → result (list B)) (l : list A) :
  (∀ z, z ∈ l → ok_or e (f z)) → ok_or e (comprehension_for f l).
Proof.
  intros H. unfold comprehension_for. apply ok_or_bind; [by apply mapM_ok_or|done].
Qed.

Lemma comprehension_for_Raise {A B} e (f : A → result (list B)) (l : list A) x :
  (∀ z, z ∈ l → ok_or e (f z)) → x ∈ l → f x = Raise e →
  comprehension_for f l = Raise e.
Proof.
  intros Hok Hx Hf. unfold comprehension_for.
  apply bind_of_Raise. by apply (comprehension_Raise e f l x).
Qed.

Section tiered_totality.
Context (num_years : Z) (carriers destinations : list string).
Context (shipment_target : list (gmap string Q)).
Context (shipment_cost : gmap string (gmap string Q)).
Context (tier_min_quantity : list Z).
Context (discount_rate : gmap string (list Q)).

#[local] Abbreviation all_years := (years num_years).
#[local] Abbreviation all_tiers := (tiers tier_min_quantity).
#[local] Abbreviation build_shipment_at_tier :=
  (build_shipment_at_tier num_years carriers destinations shipment_target
     tier_min_quantity).
#[local] Abbreviation build_tier_flag :=
  (build_tier_flag num_years carriers tier_min_quantity).

(** Every dictionary entry the builder reads is there. *)
Hypothesis targets_present : ∀ year dest,
  year ∈ range num_years → dest ∈ destinations →
  ∃ t, target_at shipment_target year dest = Ok t.
Hypothesis costs_present : ∀ carrier dest,
  carrier ∈ carriers → dest ∈ destinations →
  ∃ c, getitem2 shipment_cost carrier dest = Ok c.
Hypothesis rates_present : ∀ carrier,
  carrier ∈ carriers → ∃ rates, getitem discount_rate carrier = Ok rates.

Lemma build_shipment_at_tier_total : ∃ store, build_shipment_at_tier = Ok store.
Proof.
  apply dict_of_total. intros year Hy.
  apply dict_of_total. intros carrier Hc.
  apply dict_of_total. intros tier Ht.
  apply dict_of_total. intros dest Hd.
  destruct (targets_present year dest Hy Hd) as [t ->]. by eexists.
Qed.

Lemma build_tier_flag_total : ∃ tier_flag, build_tier_flag = Ok tier_flag.
Proof.
  apply comprehension_total. intros year Hy.
  apply dict_of_total. intros carrier Hc. by eexists.
Qed.

#[local] Abbreviation objective_term := (objective_term shipment_cost discount_rate).

Lemma objective_term_ok_or store year carrier tier dest :
  build_shipment_at_tier = Ok store →
  year ∈ all_years → carrier ∈ carriers → tier ∈ all_tiers → dest ∈ destinations →
  ok_or IndexError (objective_term store year carrier tier dest).
Proof.
  intros Hs Hy Hc Ht Hd. unfold objective_term.
  destruct (ship_at_total _ _ _ _ _ _ _ _ _ _ Hs Hy Hc Ht Hd) as [v ->]. simpl.
  destruct (costs_present carrier dest Hc Hd) as [c Hcost].
  unfold getitem2 in Hcost. inv_bind Hcost. rewrite E. simpl. rewrite Hcost. simpl.
  destruct (rates_present carrier Hc) as [rates ->]. simpl.
  apply ok_or_bind; [apply getitem_list_ok_or|done].
Qed.

Lemma objective_term_total store year carrier tier dest rates :
  build_shipment_at_tier = Ok store →
  year ∈ all_years → carrier ∈ carriers → tier ∈ all_tiers → dest ∈ destinations →
  getitem discount_rate carrier = Ok rates → (len tier_min_quantity ≤ len rates)%Z →
  ∃ e, objective_term store year carrier tier dest = Ok e.
Proof.
  intros Hs Hy Hc Ht Hd Hr Hlen. unfold objective_term.
  destruct (ship_at_total _ _ _ _ _ _ _ _ _ _ Hs Hy Hc Ht Hd) as [v ->]. simpl.
  destruct (costs_present carrier dest Hc Hd) as [c Hcost].
  unfold getitem2 in Hcost. inv_bind Hcost. rewrite E. simpl. rewrite Hcost. simpl.
  rewrite Hr. simpl. apply elem_of_range in Ht.
  destruct (getitem_list_total rates tier) as [r ->]; [lia|]. by eexists.
Qed.

Lemma objective_term_short store year carrier dest rates :
  build_shipment_at_tier = Ok store →
  year ∈ all_years → carrier ∈ carriers → dest ∈ destinations →
  getitem discount_rate carrier = Ok rates → (len rates < len tier_min_quantity)%Z →
  objective_term store year carrier (len rates) dest = Raise IndexError.
Proof.
  intros Hs Hy Hc Hd Hr Hlen. unfold objective_term.
  assert (Ht : len rates ∈ all_tiers) by (apply elem_of_range; unfold len in *; lia).
  destruct (ship_at_total _ _ _ _ _ _ _ _ _ _ Hs Hy Hc Ht Hd) as [v ->]. simpl.
  destruct (costs_present carrier dest Hc Hd) as [c Hcost].
  unfold getitem2 in Hcost. inv_bind Hcost. rewrite E. simpl. rewrite Hcost. simpl.
  rewrite Hr. simpl. by rewrite getitem_list_short.
Qed.

(** The discount lists are long enough: the model is built. *)
Lemma optimize_shipments_total :
  (∀ carrier rates, carrier ∈ carriers → getitem discount_rate carrier = Ok rates →
     (len tier_min_quantity ≤ len rates)%Z) →
  ∃ m, carrier_earned_discount.optimize_shipments num_years carriers destinations
         shipment_target shipment_cost tier_min_quantity discount_rate = Ok m.
Proof.
  intros Hlen. unfold carrier_earned_discount.optimize_shipments. cbv zeta.
  apply bind_total2; [exact build_shipment_at_tier_total|intros store Hstore].
  apply bind_total2; [exact build_tier_flag_total|intros tier_flag Hflag].
  apply bind_total2.
  { apply comprehension_for_total. intros year Hy.
    apply comprehension_for_total. intros carrier Hc.
    apply comprehension_for_total. intros tier Ht.
    apply comprehension_total. intros dest Hd.
    destruct (rates_present carrier Hc) as [rates Hr].
    by apply (objective_term_total store year carrier tier dest rates);
      [..|apply (Hlen carrier)]. }
  intros terms _.
  apply bind_total2.
  { apply for__total. intros p year Hy. apply for__total. intros q carrier Hc.
    rewrite (flags_at_total _ _ _ _ _ _ Hflag Hy Hc). simpl.
    apply for__total. intros r tier Ht.
    apply bind_total2.
    { apply for__total. intros s dest Hd.
      destruct (ship_at_total _ _ _ _ _ _ _ _ _ _ Hstore Hy Hc Ht Hd) as [v ->].
      simpl. destruct (targets_present year dest Hy Hd) as [t ->]. simpl.
      rewrite (flag_at_total _ _ _ _ _ _ _ Hflag Hy Hc Ht). by eexists. }
    intros r1 _. apply bind_total2.
    { apply comprehension_total. intros dest Hd.
      destruct (ship_at_total _ _ _ _ _ _ _ _ _ _ Hstore Hy Hc Ht Hd) as [v ->].
      by eexists. }
    intros tt _. pose proof Ht as Ht'%elem_of_range.
    destruct (getitem_list_total tier_min_quantity tier Ht') as [q0 ->]. simpl.
    rewrite (flag_at_total _ _ _ _ _ _ _ Hflag Hy Hc Ht). by eexists. }
  intros p1 _.
  apply for__total. intros p year Hy. apply for__total. intros q dest Hd.
  apply bind_total2.
  { apply comprehension_for_total. intros carrier Hc.
    apply comprehension_total. intros tier Ht.
    destruct (ship_at_total _ _ _ _ _ _ _ _ _ _ Hstore Hy Hc Ht Hd) as [v ->].
    by eexists. }
  intros tt _. destruct (targets_present year dest Hy Hd) as [t ->]. by eexists.
Qed.

(** A discount list shorter than the tier list: the lookup of the missing
    multiplier raises [IndexError] while the objective is built. *)
Lemma optimize_shipments_short carrier rates dest :
  carrier ∈ carriers → getitem discount_rate carrier = Ok rates →
  (len rates < len tier_min_quantity)%Z →
  (0 < num_years)%Z → dest ∈ destinations →
  carrier_earned_discount.optimize_shipments num_years carriers destinations
    shipment_target shipment_cost tier_min_quantity discount_rate
  = Raise IndexError.
Proof.
  intros Hc Hr Hlen Hny Hd.
  unfold carrier_earned_discount.optimize_shipments. cbv zeta.
  destruct build_shipment_at_tier_total as [store Hstore].
  destruct build_tier_flag_total as [tier_flag Hflag].
  rewrite (bind_of_Ok _ _ _ Hstore), (bind_of_Ok _ _ _ Hflag).
  apply bind_of_Raise.
  assert (Hy : 0%Z ∈ all_years) by (apply elem_of_range; lia).
  assert (Ht : len rates ∈ all_tiers) by (apply elem_of_range; unfold len in *; lia).
  apply (comprehension_for_Raise IndexError _ _ 0%Z); [|done|].
  { intros year Hy'. apply comprehension_for_ok_or. intros c' Hc'.
    apply comprehension_for_ok_or. intros tier Ht'.
    apply comprehension_ok_or. intros d Hd'.
    by apply (objective_term_ok_or store). }
  apply (comprehension_for_Raise IndexError _ _ carrier); [|done|].
  { intros c' Hc'. apply comprehension_for_ok_or. intros tier Ht'.
    apply comprehension_ok_or. intros d Hd'.
    by apply (objective_term_ok_or store). }
  apply (comprehension_for_Raise IndexError _ _ (len rates)); [|done|].
  { intros tier Ht'. apply comprehension_ok_or. intros d Hd'.
    by apply (objective_term_ok_or store). }
  apply (comprehension_Raise IndexError _ _ dest); [|done|].
  { intros d Hd'. by apply (objective_term_ok_or store). }
  by apply (objective_term_short store 0%Z carrier dest rates).
Qed.
End tiered_totality.

(** ** Destinations that ask for nothing *)

Lemma Qsum_fmap_all_zero {A} (f : A → Q) (l : list A) :
  (∀ x, x ∈ l → (f x == 0)%Q) → (Qsum (f <$> l) == 0)%Q.
Proof.
  intros H. rewrite (Qsum_fmap_ext f (λ _, 0%Q)); [apply Qsum_fmap_const0|done].
Qed.

Section tiered_zero.
Context (num_years : Z) (carriers destinations : list string).
Context (shipment_target : list (gmap string Q)).
Context (shipment_cost : gmap string (gmap string Q)).
Context (tier_min_quantity : list Z).
Context (discount_rate : gmap string (list Q)).
Local Open Scope Q_scope.

#[local] Abbreviation all_years := (years num_years).
#[local] Abbreviation all_tiers := (tiers tier_min_quantity).
#[local] Abbreviation target := (target shipment_target).
#[local] Abbreviation tiered_objective :=
  (tiered_objective num_years carriers destinations shipment_target shipment_cost
     tier_min_quantity discount_rate).
#[local] Abbreviation tiered_model :=
  (tiered_model num_years carriers destinations shipment_target shipment_cost
     tier_min_quantity discount_rate).

Hypothesis zero_targets :
  ∀ year dest, year ∈ all_years → dest ∈ destinations → target year dest == 0.

Lemma tiered_zero_flows a year carrier tier dest :
  feasible tiered_model a →
  year ∈ all_years → carrier ∈ carriers → tier ∈ all_tiers → dest ∈ destinations →
  a (shipment_at_tier_key year carrier tier dest) == 0.
Proof.
  intros Hf Hy Hc Ht Hd.
  pose proof (ship_bounds num_years carriers destinations shipment_target
                shipment_cost tier_min_quantity discount_rate a year carrier tier
                dest Hf Hy Hc Ht Hd) as [Hlo Hup].
  rewrite (zero_targets year dest Hy Hd) in Hup. lra.
Qed.

Lemma tiered_zero_objective a :
  feasible tiered_model a → value a tiered_objective == 0.
Proof.
  intros Hf. rewrite tiered_objective_value.
  apply Qsum_fmap_all_zero. intros year Hy.
  apply Qsum_fmap_all_zero. intros carrier Hc.
  apply Qsum_fmap_all_zero. intros tier Ht.
  apply Qsum_fmap_all_zero. intros dest Hd.
  rewrite (tiered_zero_flows a year carrier tier dest); [ring|done..].
Qed.
End tiered_zero.

Section network_zero.
Context (warehouses destinations : list string).
Context (target_distribution : gmap string Z).
Context (shipment_capacity : gmap string (gmap string Z)).
Context (warehouse_cost : gmap string Q).
Context (shipment_cost : gmap string (gmap string Q)).
Context (target_delivery_days : Z).
Context (delivery_tolerance : Q).
Context (delivery_estimate : gmap string (gmap string Z)).
Local Open Scope Q_scope.

#[local] Abbreviation capacity := (capacity shipment_capacity).
#[local] Abbreviation fixed_cost := (fixed_cost warehouse_cost).
#[local] Abbreviation demand := (demand target_distribution).
#[local] Abbreviation count_var := (count_var shipment_capacity).
#[local] Abbreviation usage_constraint := (usage_constraint shipment_capacity).
#[local] Abbreviation distribution_constraint :=
  (distribution_constraint warehouses target_distribution shipment_capacity).
#[local] Abbreviation delivery_constraint :=
  (delivery_constraint warehouses shipment_capacity target_delivery_days
     delivery_tolerance delivery_estimate).
#[local] Abbreviation network_constraints :=
  (network_constraints warehouses destinations target_distribution
     shipment_capacity target_delivery_days delivery_tolerance delivery_estimate).
#[local] Abbreviation network_objective :=
  (network_objective warehouses destinations shipment_capacity warehouse_cost
     shipment_cost).
#[local] Abbreviation network_model :=
  (network_model warehouses destinations target_distribution shipment_capacity
     warehouse_cost shipment_cost target_delivery_days delivery_tolerance
     delivery_estimate).

Lemma network_constraints_inv nc :
  nc ∈ network_constraints →
  (∃ i j, i ∈ warehouses ∧ j ∈ destinations ∧ nc.2 = usage_constraint i j) ∨
  (∃ j, j ∈ destinations ∧ nc.2 = distribution_constraint j) ∨
  (∃ j, j ∈ destinations ∧ nc.2 = delivery_constraint j).
Proof.
  unfold network_constraints.
  intros [H|H]%elem_of_app; [|apply elem_of_app in H as [H|H]].
  - apply list_elem_of_bind in H as (i & H & Hi).
    apply list_elem_of_bind in H as (j & H & Hj).
    apply list_elem_of_singleton in H as ->. left. by exists i, j.
  - apply list_elem_of_fmap in H as (j & -> & Hj). right; left. by exists j.
  - apply list_elem_of_fmap in H as (j & -> & Hj). right; right. by exists j.
Qed.

Hypothesis zero_demand : ∀ j, j ∈ destinations → demand j = 0%Z.

Lemma network_zero_flows a i j :
  feasible network_model a → i ∈ warehouses → j ∈ destinations →
  a (shipment_count_key i j) == 0.
Proof.
  intros Hf Hi Hj.
  pose proof (network_target_met warehouses destinations target_distribution
                shipment_capacity warehouse_cost shipment_cost target_delivery_days
                delivery_tolerance delivery_estimate a j Hf Hj) as Hsum.
  rewrite (zero_demand j Hj) in Hsum.
  apply (Qsum_fmap_zero (λ i, a (shipment_count_key i j)) warehouses); [| |done].
  - intros i' Hi'.
    by destruct (count_bounds warehouses destinations target_distribution
                   shipment_capacity warehouse_cost shipment_cost
                   target_delivery_days delivery_tolerance delivery_estimate
                   a i' j Hf Hi' Hj).
  - rewrite Hsum. apply Qle_refl.
Qed.

Lemma network_zero_objective a :
  feasible network_model a →
  value a network_objective ==
  Qsum ((λ i, a (warehouse_usage_key i) * fixed_cost i) <$> warehouses).
Proof.
  intros Hf. rewrite network_objective_value.
  rewrite Qsum_fmap_all_zero; [ring|].
  intros i Hi. apply Qsum_fmap_all_zero. intros j Hj.
  rewrite (network_zero_flows a i j); [ring|done..].
Qed.

Lemma without_usage_feasible a :
  feasible network_model a → feasible network_model (without_usage a).
Proof.
  intros Hf. split.
  - intros [nm c] Hnc. pose proof (proj1 Hf _ Hnc) as Hold.
    destruct (network_constraints_inv _ Hnc)
      as [(i & j & Hi & Hj & Hc)|[(j & Hj & Hc)|(j & Hj & Hc)]];
      simpl in Hc, Hold |- *; subst c.
    + apply holds_usage. simpl.
      rewrite (network_zero_flows a i j); [|done..]. lra.
    + apply holds_distribution. by apply holds_distribution in Hold.
    + apply holds_delivery. by apply holds_delivery in Hold.
  - intros v Hv. pose proof (proj2 Hf v Hv) as Hold.
    apply network_all_variables in Hv as [(i & j & _ & _ & ->)|(i & _ & ->)].
    + exact Hold.
    + repeat split; simpl.
      * intros lo [= <-]. apply Qle_refl.
      * intros up [= <-]. discriminate.
      * intros _. by exists 0%Z.
Qed.

Lemma without_usage_objective a :
  feasible network_model a → value (without_usage a) network_objective == 0.
Proof.
  intros Hf. rewrite network_zero_objective by by apply without_usage_feasible.
  apply Qsum_fmap_all_zero. intros i _. simpl. ring.
Qed.
End network_zero.

(** ** Raising one unit cost *)

Lemma getitem_Ok `{Countable K} {V} (d : gmap K V) k v :
  getitem d k = Ok v ↔ d !! k = Some v.
Proof. unfold getitem. destruct (d !! k); split; congruence. Qed.

Lemma getitem_list_elem {A} (l : list A) i x : getitem_list l i = Ok x → x ∈ l.
Proof.
  unfold getitem_list.
  destruct (_ <? 0)%Z; [done|].
  destruct (l !! _) eqn:E; [|done]. intros [= <-]. by eapply list_elem_of_lookup_2.
Qed.

Section raised.
Context (cost cost' : gmap string (gmap string Q)) (source dest : string).
Hypothesis raised : raised_entry cost cost' source dest.
Local Open Scope Q_scope.

Lemma raised_entry_other c e :
  (c, e) ≠ (source, dest) → getitem2 cost' c e = getitem2 cost c e.
Proof.
  destruct raised as (row & v & v' & Hrow%getitem_Ok & Hv & Hle & ->).
  intros Hne. unfold getitem2, getitem.
  destruct (decide (c = source)) as [->|Hc].
  - rewrite lookup_insert_eq, Hrow. simpl.
    rewrite lookup_insert_ne; [done|]. intros <-. by apply Hne.
  - by rewrite lookup_insert_ne.
Qed.

Lemma raised_entry_le c e : or0 (getitem2 cost c e) <= or0 (getitem2 cost' c e).
Proof.
  destruct (decide ((c, e) = (source, dest))) as [[= -> ->]|Hne].
  - destruct raised as (row & v & v' & Hrow & Hv & Hle & ->).
    unfold getitem2 at 1. rewrite Hrow. simpl. rewrite Hv.
    unfold getitem2, getitem. rewrite lookup_insert_eq. simpl.
    by rewrite lookup_insert_eq.
  - rewrite raised_entry_other by done. apply Qle_refl.
Qed.

Lemma raised_entry_eq c e :
  c ≠ source → or0 (getitem2 cost' c e) = or0 (getitem2 cost c e).
Proof. intros Hc. rewrite raised_entry_other; [done|]. by intros [= -> _]. Qed.
End raised.

Lemma term_le (x c c' r : Q) :
  (0 <= x → c <= c' → 0 <= r → x * c * r <= x * c' * r)%Q.
Proof.
  intros Hx Hc Hr.
  assert (0 <= x * r * (c' - c))%Q.
  { apply Qmult_le_0_compat; [apply Qmult_le_0_compat|]; lra. }
  assert (E : (x * c' * r == x * c * r + x * r * (c' - c))%Q) by ring.
  rewrite E. lra.
Qed.

Lemma flow_cost_le (x c c' : Q) : (0 <= x → c <= c' → x * c <= x * c')%Q.
Proof.
  intros Hx Hc.
  assert (0 <= x * (c' - c))%Q by (apply Qmult_le_0_compat; lra).
  assert (E : (x * c' == x * c + x * (c' - c))%Q) by ring.
  rewrite E. lra.
Qed.

Section tiered_costs.
Context (num_years : Z) (carriers destinations : list string).
Context (shipment_target : list (gmap string Q)).
Context (shipment_cost shipment_cost' : gmap string (gmap string Q)).
Context (tier_min_quantity : list Z).
Context (discount_rate : gmap string (list Q)).
Context (source dest : string).
Local Open Scope Q_scope.

#[local] Abbreviation lower :=
  (tiered_model num_years carriers destinations shipment_target shipment_cost
     tier_min_quantity discount_rate).
#[local] Abbreviation higher :=
  (tiered_model num_years carriers destinations shipment_target shipment_cost'
     tier_min_quantity discount_rate).

(** The constraints and the variables do not depend on the costs. *)
Lemma tiered_feasible_costs a : feasible lower a ↔ feasible higher a.
Proof.
  unfold feasible, all_variables. simpl.
  by rewrite !tiered_objective_variables.
Qed.

Hypothesis raised : raised_entry shipment_cost shipment_cost' source dest.
Hypothesis rates_nonneg :
  ∀ rates, getitem discount_rate source = Ok rates → Forall (λ r, 0 <= r) rates.

Lemma rate_nonneg tier : 0 <= rate discount_rate source tier.
Proof.
  unfold rate. destruct (getitem discount_rate source) as [rates|] eqn:E; simpl;
    [|apply Qle_refl].
  destruct (getitem_list rates tier) as [r|] eqn:Er; simpl; [|apply Qle_refl].
  apply getitem_list_elem in Er. specialize (rates_nonneg rates eq_refl).
  rewrite Forall_forall in rates_nonneg. by apply rates_nonneg.
Qed.

Lemma tiered_objective_mono a :
  feasible lower a → value a (objective lower) <= value a (objective higher).
Proof.
  intros Hf. simpl. rewrite !tiered_objective_value.
  apply Qsum_fmap_le. intros year Hy.
  apply Qsum_fmap_le. intros carrier Hc.
  apply Qsum_fmap_le. intros tier Ht.
  apply Qsum_fmap_le. intros d Hd.
  destruct (ship_bounds num_years carriers destinations shipment_target
              shipment_cost tier_min_quantity discount_rate a year carrier tier d
              Hf Hy Hc Ht Hd) as [Hlo _].
  unfold unit_cost.
  destruct (decide (carrier = source)) as [->|Hne].
  - apply term_le; [done| |apply rate_nonneg].
    by apply (raised_entry_le _ _ source dest).
  - rewrite (raised_entry_eq _ _ source dest raised) by done. apply Qle_refl.
Qed.

Lemma tiered_optimum_mono a a' :
  optimal lower a → optimal higher a' →
  value a (objective lower) <= value a' (objective higher).
Proof.
  intros [_ Hmin] [Hf' _]. apply tiered_feasible_costs in Hf'.
  eapply Qle_trans; [by apply Hmin|by apply tiered_objective_mono].
Qed.
End tiered_costs.

Section network_costs.
Context (warehouses destinations : list string).
Context (target_distribution : gmap string Z).
Context (shipment_capacity : gmap string (gmap string Z)).
Context (warehouse_cost : gmap string Q).
Context (shipment_cost shipment_cost' : gmap string (gmap string Q)).
Context (target_delivery_days : Z).
Context (delivery_tolerance : Q).
Context (delivery_estimate : gmap string (gmap string Z)).
Context (source dest : string).
Local Open Scope Q_scope.

#[local] Abbreviation lower_network :=
  (network_model warehouses destinations target_distribution shipment_capacity
     warehouse_cost shipment_cost target_delivery_days delivery_tolerance
     delivery_estimate).
#[local] Abbreviation higher_network :=
  (network_model warehouses destinations target_distribution shipment_capacity
     warehouse_cost shipment_cost' target_delivery_days delivery_tolerance
     delivery_estimate).

Lemma network_feasible_costs a : feasible lower_network a ↔ feasible higher_network a.
Proof.
  unfold feasible, all_variables. simpl.
  by rewrite !network_objective_variables.
Qed.

Hypothesis raised : raised_entry shipment_cost shipment_cost' source dest.

Lemma network_objective_mono a :
  feasible lower_network a →
  value a (objective lower_network) <= value a (objective higher_network).
Proof.
  intros Hf. simpl. rewrite !network_objective_value.
  apply Qplus_le_compat; [|apply Qle_refl].
  apply Qsum_fmap_le. intros i Hi.
  apply Qsum_fmap_le. intros j Hj.
  destruct (count_bounds warehouses destinations target_distribution
              shipment_capacity warehouse_cost shipment_cost target_delivery_days
              delivery_tolerance delivery_estimate a i j Hf Hi Hj) as [Hlo _].
  unfold route_cost.
  pose proof (raised_entry_le _ _ source dest raised i j).
  by apply flow_cost_le.
Qed.

Lemma network_optimum_mono a a' :
  optimal lower_network a → optimal higher_network a' →
  value a (objective lower_network) <= value a' (objective higher_network).
Proof.
  intros [_ Hmin] [Hf' _]. apply network_feasible_costs in Hf'.
  eapply Qle_trans; [by apply Hmin|by apply network_objective_mono].
Qed.
End network_costs.

(** ** The examples are built and feasible *)

Lemma example_tiered_built :
  carrier_earned_discount.optimize_shipments 1 ["UPS"] ["A"] example.shipment_target
    example.shipment_cost example.tier_min_quantity example.discount_rate
  = Ok example.tiered.
Proof. vm_compute. reflexivity. Qed.

Lemma example_tiered_feasible : feasible example.tiered example.tiered_assignment.
Proof. apply feasibleb_true. vm_compute. reflexivity. Qed.

Lemma example_network_built :
  warehouse_shipments.optimize_shipments ["a"; "b"] ["x"] example.target_distribution
    example.shipment_capacity example.warehouse_cost example.route_cost 3 0.5
    example.delivery_estimate
  = Ok example.network.
Proof. vm_compute. reflexivity. Qed.

Lemma example_network_feasible : feasible example.network example.network_assignment.
Proof. apply feasibleb_true. vm_compute. reflexivity. Qed.

(** ** The claims *)

(** C5. In a model built by the tiered builder every feasible assignment has,
    for each year and carrier, exactly one tier activation variable equal to
    1 (all the others are 0), and every flow variable of a tier whose
    activation variable is 0 is 0. *)
Theorem tier_exclusivity
    num_years carriers destinations shipment_target shipment_cost
    tier_min_quantity discount_rate m a year carrier :
  carrier_earned_discount.optimize_shipments num_years carriers destinations
    shipment_target shipment_cost tier_min_quantity discount_rate = Ok m →
  feasible m a →
  year ∈ range num_years → carrier ∈ carriers →
  (∃ tier, tier ∈ range (len tier_min_quantity) ∧
     (a (tier_flag_key year carrier tier) == 1)%Q ∧
     ∀ tier', tier' ∈ range (len tier_min_quantity) → tier' ≠ tier →
       (a (tier_flag_key year carrier tier') == 0)%Q) ∧
  (∀ tier dest, tier ∈ range (len tier_min_quantity) → dest ∈ destinations →
     (a (tier_flag_key year carrier tier) == 0)%Q →
     (a (shipment_at_tier_key year carrier tier dest) == 0)%Q).
Proof.
  intros Hm Hf Hy Hc. apply optimize_shipments_model in Hm as ->. split.
  - by apply (tiered_one_tier num_years carriers destinations shipment_target
                shipment_cost tier_min_quantity discount_rate).
  - intros tier dest Ht Hd.
    by apply (tiered_inactive_zero num_years carriers destinations shipment_target
                shipment_cost tier_min_quantity discount_rate).
Qed.

Lemma tier_exclusivity_witness :
  feasible example.tiered example.tiered_assignment ∧
  (∃ tier, tier ∈ range 2 ∧
     (example.tiered_assignment (tier_flag_key 0 "UPS" tier) == 1)%Q ∧
     ∀ tier', tier' ∈ range 2 → tier' ≠ tier →
       (example.tiered_assignment (tier_flag_key 0 "UPS" tier') == 0)%Q) ∧
  (∀ tier dest, tier ∈ range 2 → dest ∈ ["A"] →
     (example.tiered_assignment (tier_flag_key 0 "UPS" tier) == 0)%Q →
     (example.tiered_assignment (shipment_at_tier_key 0 "UPS" tier dest) == 0)%Q).
Proof.
  split; [exact example_tiered_feasible|].
  apply (tier_exclusivity 1%Z ["UPS"] ["A"] example.shipment_target
           example.shipment_cost example.tier_min_quantity example.discount_rate
           example.tiered).
  - exact example_tiered_built.
  - exact example_tiered_feasible.
  - apply elem_of_range. lia.
  - by left.
Defined.

(** C6. In a model built by the network builder every destination [j] has the
    constraint [Delivery_Target_j]: the late flow, each warehouse's flow
    weighted by its late indicator, is at most [delivery_tolerance] times the
    whole flow into [j]. The indicator is 1 when [delivery_estimate[i][j]]
    exceeds [target_delivery_days] and 0 otherwise; it is a number fixed by
    the inputs, and the only variables of the constraint are the flow
    variables into [j]. *)
Theorem delivery_tolerance_constraint
    warehouses destinations target_distribution shipment_capacity warehouse_cost
    shipment_cost target_delivery_days delivery_tolerance delivery_estimate m j :
  warehouse_shipments.optimize_shipments warehouses destinations
    target_distribution shipment_capacity warehouse_cost shipment_cost
    target_delivery_days delivery_tolerance delivery_estimate = Ok m →
  j ∈ destinations →
  ∃ (c : LpConstraint NetKey) (late : string → Z),
    (Some ("Delivery_Target_" +:+ j), c) ∈ constraints m ∧
    sense c = LpConstraintLE ∧
    (∀ i estimate, getitem2 delivery_estimate i j = Ok estimate →
       late i = if (target_delivery_days <? estimate)%Z then 1%Z else 0%Z) ∧
    (∀ v, v ∈ constraint_variables c →
       ∃ i, i ∈ warehouses ∧ key v = shipment_count_key i j) ∧
    (∀ a, holds a c ↔
       (Qsum ((λ i, inject_Z (late i) * a (shipment_count_key i j)) <$> warehouses)
        <= delivery_tolerance
           * Qsum ((λ i, a (shipment_count_key i j)) <$> warehouses))%Q).
Proof.
  intros Hm Hj. apply network_optimize_shipments_model in Hm as ->.
  exists (delivery_constraint warehouses shipment_capacity target_delivery_days
            delivery_tolerance delivery_estimate j),
         (λ i, late_indicator target_delivery_days delivery_estimate i j).
  split; [by apply delivery_constraint_elem|]. split; [done|]. split; [|split].
  - intros i estimate He. unfold late_indicator. by rewrite He.
  - intros v Hv. apply delivery_constraint_variables in Hv as (i & Hi & ->).
    by exists i.
  - intros a. apply holds_delivery.
Qed.

Lemma delivery_tolerance_constraint_witness :
  ∃ (c : LpConstraint NetKey) (late : string → Z),
    (Some "Delivery_Target_x", c) ∈ constraints example.network ∧
    sense c = LpConstraintLE ∧
    (∀ i estimate, getitem2 example.delivery_estimate i "x" = Ok estimate →
       late i = if (3 <? estimate)%Z then 1%Z else 0%Z) ∧
    (∀ v, v ∈ constraint_variables c →
       ∃ i, i ∈ ["a"; "b"] ∧ key v = shipment_count_key i "x") ∧
    (∀ a, holds a c ↔
       (Qsum ((λ i, inject_Z (late i) * a (shipment_count_key i "x")) <$> ["a"; "b"])
        <= 0.5 * Qsum ((λ i, a (shipment_count_key i "x")) <$> ["a"; "b"]))%Q).
Proof.
  apply (delivery_tolerance_constraint ["a"; "b"] ["x"] example.target_distribution
           example.shipment_capacity example.warehouse_cost example.route_cost
           3%Z 0.5%Q example.delivery_estimate example.network "x").
  - exact example_network_built.
  - by left.
Defined.

(** C9. [optimize_shipments] of [src/carrier_earned_discount.py] and
    [optimize_shipments] of [src/problems/carrier_earned_discount/main.py]
    agree on every input: they raise the same exception or return the same
    model, with the same variables, objective and constraints. *)
Theorem packaged_copy_builds_same_model
    num_years carriers destinations shipment_target shipment_cost
    tier_min_quantity discount_rate :
  carrier_earned_discount.optimize_shipments num_years carriers destinations
    shipment_target shipment_cost tier_min_quantity discount_rate
  = problems_carrier_earned_discount_main.optimize_shipments num_years carriers
      destinations shipment_target shipment_cost tier_min_quantity discount_rate.
Proof. reflexivity. Qed.

(** ** Names that do not parse back *)

(** A warehouse called ["a b"] has no underscore in its name, yet its flow is
    filed under [("a", "b")] and nothing is filed under [("a b", "x")]. *)
Lemma space_name_miskeyed :
  contains "a b" "_" = false ∧ contains "x" "_" = false ∧
  (∃ m, misnamed.problem "a b" = Ok m ∧
        feasible m (varValue misnamed.solution)) ∧
  misnamed.shipment_counts_at "a b" ("a b", "x") ("a", "b")
  = Ok (None, Some 3%Z).
Proof.
  split; [reflexivity|]. split; [reflexivity|]. split.
  - eexists. split; [vm_compute; reflexivity|].
    apply feasibleb_true. vm_compute. reflexivity.
  - vm_compute. reflexivity.
Qed.

(** The same happens to a warehouse called ["a_b"]. *)
Lemma underscore_name_miskeyed :
  contains "a_b" "_" = true ∧
  misnamed.shipment_counts_at "a_b" ("a_b", "x") ("a", "b")
  = Ok (None, Some 3%Z).
Proof. split; [reflexivity|]. vm_compute. reflexivity. Qed.

(** C10, as the claim states it, fails: no name of the input has an
    underscore, the solution is feasible with status optimal, and the
    reconstructed [shipment_counts] has no entry for the pair
    [("a b", "x")], whose flow variable has the value 3. *)
Lemma shipment_counts_counterexample :
  contains "a b" "_" = false ∧ contains "x" "_" = false ∧
  status misnamed.solution = LpStatusOptimal ∧
  (∃ m, misnamed.problem "a b" = Ok m ∧
        feasible m (varValue misnamed.solution)) ∧
  int (varValue misnamed.solution (shipment_count_key "a b" "x")) = 3%Z ∧
  misnamed.shipment_counts_at "a b" ("a b", "x") ("a", "b")
  = Ok (None, Some 3%Z).
Proof.
  destruct space_name_miskeyed as (H1 & H2 & H3 & H4).
  repeat split; try done.
Qed.

(** C10, amended. When every warehouse and destination name is plain (no
    underscore and no character that PuLP rewrites to an underscore), the
    loop of [print_solution] that reads the solution back succeeds and the
    reconstructed [shipment_counts] gives every (warehouse, destination) pair
    the value of its flow variable truncated to an integer. A name with an
    underscore is mis-keyed: the flow of warehouse ["a_b"] is filed under
    [("a", "b")]. *)
Theorem shipment_counts_recovered
    warehouses destinations target_distribution shipment_capacity warehouse_cost
    shipment_cost target_delivery_days delivery_tolerance delivery_estimate
    m solution :
  (∀ i, i ∈ warehouses → plain_name i = true) →
  (∀ j, j ∈ destinations → plain_name j = true) →
  warehouse_shipments.optimize_shipments warehouses destinations
    target_distribution shipment_capacity warehouse_cost shipment_cost
    target_delivery_days delivery_tolerance delivery_estimate = Ok m →
  (∃ shipment_counts warehouse_usage,
     warehouse_shipments.extract_solution m solution
     = Ok (shipment_counts, warehouse_usage) ∧
     ∀ i j, i ∈ warehouses → j ∈ destinations →
       shipment_counts !! (i, j)
       = Some (int (varValue solution (shipment_count_key i j)))) ∧
  (contains "a_b" "_" = true ∧
   misnamed.shipment_counts_at "a_b" ("a_b", "x") ("a", "b") = Ok (None, Some 3%Z)).
Proof.
  intros Hw Hd Hm. apply network_optimize_shipments_model in Hm as ->.
  split; [|exact underscore_name_miskeyed].
  eexists _, _. split.
  - rewrite (extract_solution_fold _ _ _ _ _ _ _ _ _ solution Hw Hd).
    apply f_equal. apply surjective_pairing.
  - intros i j Hi Hj. by apply extract_solution_lookup.
Qed.

Lemma shipment_counts_recovered_witness :
  (∃ shipment_counts warehouse_usage,
     warehouse_shipments.extract_solution example.network
       {| status := LpStatusOptimal; varValue := example.network_assignment |}
     = Ok (shipment_counts, warehouse_usage) ∧
     ∀ i j, i ∈ ["a"; "b"] → j ∈ ["x"] →
       shipment_counts !! (i, j)
       = Some (int (example.network_assignment (shipment_count_key i j)))) ∧
  (contains "a_b" "_" = true ∧
   misnamed.shipment_counts_at "a_b" ("a_b", "x") ("a", "b") = Ok (None, Some 3%Z)).
Proof.
  apply (shipment_counts_recovered ["a"; "b"] ["x"] example.target_distribution
           example.shipment_capacity example.warehouse_cost example.route_cost
           3%Z 0.5%Q example.delivery_estimate example.network
           {| status := LpStatusOptimal; varValue := example.network_assignment |}).
  - intros i Hi. repeat (apply elem_of_cons in Hi as [->|Hi]; [reflexivity|]).
    by apply elem_of_nil in Hi.
  - intros j Hj. repeat (apply elem_of_cons in Hj as [->|Hj]; [reflexivity|]).
    by apply elem_of_nil in Hj.
  - exact example_network_built.
Defined.

(** ** The printed cost figures *)

Lemma example_tiered_optimal : optimal example.tiered example.tiered_assignment.
Proof.
  split; [exact example_tiered_feasible|]. intros a Hf.
  pose proof (tiered_target_met 1 ["UPS"] ["A"] example.shipment_target
                example.shipment_cost example.tier_min_quantity
                example.discount_rate a 0%Z "A" Hf) as Hsum.
  assert (Hy : 0%Z ∈ years 1) by (apply elem_of_range; lia).
  assert (Hc : "UPS" ∈ ["UPS"]) by left.
  assert (Hd : "A" ∈ ["A"]) by left.
  specialize (Hsum Hy Hd).
  assert (Ht0 : 0%Z ∈ tiers example.tier_min_quantity) by (apply elem_of_range; done).
  assert (Ht1 : 1%Z ∈ tiers example.tier_min_quantity) by (apply elem_of_range; done).
  pose proof (ship_bounds 1 ["UPS"] ["A"] example.shipment_target
                example.shipment_cost example.tier_min_quantity
                example.discount_rate a 0%Z "UPS" 0%Z "A" Hf Hy Hc Ht0 Hd) as [H0 _].
  pose proof (ship_bounds 1 ["UPS"] ["A"] example.shipment_target
                example.shipment_cost example.tier_min_quantity
                example.discount_rate a 0%Z "UPS" 1%Z "A" Hf Hy Hc Ht1 Hd) as [H1 _].
  change (objective example.tiered) with
    (tiered_objective 1 ["UPS"] ["A"] example.shipment_target example.shipment_cost
       example.tier_min_quantity example.discount_rate).
  rewrite !tiered_objective_value.
  change (a (shipment_at_tier_key 0 "UPS" 0 "A")
          + (a (shipment_at_tier_key 0 "UPS" 1 "A") + 0) == 10)%Q in Hsum.
  unfold years, tiers, range, len, Qsum. simpl.
  change (Z.of_nat 0) with 0%Z. change (Z.of_nat 1) with 1%Z.
  change (unit_cost example.shipment_cost "UPS" "A") with 5%Q.
  change (rate example.discount_rate "UPS" 0) with 1%Q.
  change (rate example.discount_rate "UPS" 1) with 0.9%Q.
  change (example.tiered_assignment (shipment_at_tier_key 0 "UPS" 0 "A")) with 0%Q.
  change (example.tiered_assignment (shipment_at_tier_key 0 "UPS" 1 "A")) with 10%Q.
  revert Hsum H0 H1.
  generalize (a (shipment_at_tier_key 0 "UPS" 0 "A")).
  generalize (a (shipment_at_tier_key 0 "UPS" 1 "A")).
  intros q1 q0 Hsum H0 H1.
  lra.
Qed.

(** C1, evaluated where the code departs from it. For one carrier shipping
    10 units to one destination at unit cost 5 under the second tier
    (multiplier 0.9), the assignment is optimal with objective value 45 =
    10 * 5 * 0.9, and [print_solution] reports that value as the optimal
    total cost; but the destination's cost, the carrier total and the year
    total it prints are all 9 = 10 * 0.9: the unit cost is left out. *)
Theorem printed_cost_omits_unit_cost :
  optimal example.tiered example.tiered_assignment ∧
  (value example.tiered_assignment (objective example.tiered) == 45)%Q ∧
  ∃ out cost,
    carrier_earned_discount_report.print_solution example.tiered
      {| status := LpStatusOptimal; varValue := example.tiered_assignment |}
      1 ["UPS"] ["A"] example.shipment_target example.tier_min_quantity
      example.discount_rate = Ok out ∧
    cost_figures out = [cost; cost; cost] ∧
    (cost == 10 * 0.9)%Q ∧ ¬ (cost == 10 * 5 * 0.9)%Q.
Proof.
  split; [exact example_tiered_optimal|]. split; [reflexivity|].
  eexists _, _. split; [vm_compute; reflexivity|].
  split; [vm_compute; reflexivity|]. split; [reflexivity|]. discriminate.
Qed.

(** ** No configuration check *)

(** C3, as the claim states it, fails: with thresholds [5, 3] (not
    increasing, not starting at 0) and three multipliers for two tiers,
    [optimize_shipments] raises nothing and returns a model. *)
Lemma configuration_error_counterexample :
  len [1%Q; 0.9%Q; 0.8%Q] ≠ len [5%Z; 3%Z] ∧
  ∃ m, carrier_earned_discount.optimize_shipments 1 ["UPS"] ["A"]
         example.shipment_target example.shipment_cost [5%Z; 3%Z]
         {[ "UPS" := [1%Q; 0.9%Q; 0.8%Q] ]} = Ok m.
Proof. split; [done|]. eexists. vm_compute. reflexivity. Qed.

(** C3, amended. [optimize_shipments] checks nothing before it builds. When
    every dictionary entry it reads is present: if every carrier has at least
    as many multipliers as there are tiers, it returns a model, whatever the
    order of the thresholds and however long the lists; if some carrier has
    fewer, and there is a year and a destination, the lookup of the missing
    multiplier raises [IndexError] while the objective is built and no model
    is returned. *)
Theorem no_configuration_check
    num_years carriers destinations shipment_target shipment_cost
    tier_min_quantity discount_rate :
  (∀ year dest, year ∈ range num_years → dest ∈ destinations →
     ∃ t, target_at shipment_target year dest = Ok t) →
  (∀ carrier dest, carrier ∈ carriers → dest ∈ destinations →
     ∃ c, getitem2 shipment_cost carrier dest = Ok c) →
  (∀ carrier, carrier ∈ carriers → ∃ rates, getitem discount_rate carrier = Ok rates) →
  ((∀ carrier rates, carrier ∈ carriers → getitem discount_rate carrier = Ok rates →
      (len tier_min_quantity ≤ len rates)%Z) →
   ∃ m, carrier_earned_discount.optimize_shipments num_years carriers destinations
          shipment_target shipment_cost tier_min_quantity discount_rate = Ok m) ∧
  (∀ carrier rates dest,
     carrier ∈ carriers → getitem discount_rate carrier = Ok rates →
     (len rates < len tier_min_quantity)%Z →
     (0 < num_years)%Z → dest ∈ destinations →
     carrier_earned_discount.optimize_shipments num_years carriers destinations
       shipment_target shipment_cost tier_min_quantity discount_rate
     = Raise IndexError).
Proof.
  intros Ht Hc Hr. split.
  - by apply optimize_shipments_total.
  - intros carrier rates dest. by apply optimize_shipments_short.
Qed.

Lemma example_entries_present :
  (∀ year dest, year ∈ range 1 → dest ∈ ["A"] →
     ∃ t, target_at example.shipment_target year dest = Ok t) ∧
  (∀ carrier dest, carrier ∈ ["UPS"] → dest ∈ ["A"] →
     ∃ c, getitem2 example.shipment_cost carrier dest = Ok c).
Proof.
  split.
  - intros year dest Hy%elem_of_range ->%list_elem_of_singleton.
    assert (year = 0%Z) as -> by lia. by eexists.
  - intros carrier dest ->%list_elem_of_singleton ->%list_elem_of_singleton.
    by eexists.
Qed.

Lemma no_configuration_check_witness :
  (∃ m, carrier_earned_discount.optimize_shipments 1 ["UPS"] ["A"]
          example.shipment_target example.shipment_cost [5%Z; 3%Z]
          {[ "UPS" := [1%Q; 0.9%Q; 0.8%Q] ]} = Ok m) ∧
  carrier_earned_discount.optimize_shipments 1 ["UPS"] ["A"]
    example.shipment_target example.shipment_cost [0%Z; 5%Z; 50%Z]
    example.discount_rate = Raise IndexError.
Proof.
  destruct example_entries_present as [Ht Hc]. split.
  - apply (no_configuration_check 1%Z ["UPS"] ["A"] example.shipment_target
             example.shipment_cost [5%Z; 3%Z] {[ "UPS" := [1%Q; 0.9%Q; 0.8%Q] ]}
             Ht Hc).
    + intros carrier ->%list_elem_of_singleton. by eexists.
    + intros carrier rates ->%list_elem_of_singleton [= <-]. done.
  - apply (no_configuration_check 1%Z ["UPS"] ["A"] example.shipment_target
             example.shipment_cost [0%Z; 5%Z; 50%Z] example.discount_rate Ht Hc)
      with (carrier := "UPS") (rates := [1%Q; 0.9%Q]) (dest := "A").
    + intros carrier ->%list_elem_of_singleton. by eexists.
    + by left.
    + reflexivity.
    + done.
    + done.
    + by left.
Defined.

(** ** The diagnosis of a problem that was not solved to optimality *)

(** A loop that only prints: each round appends lines that do not depend on
    what was printed before. *)
Lemma for__appends {A L} (P : L → Prop) (l : list A)
    (body : list L → A → result (list L)) :
  (∀ x, x ∈ l → ∃ ys, Forall P ys ∧ ∀ out, body out x = Ok (out ++ ys)) →
  ∃ ys, Forall P ys ∧ ∀ out, for_ l body out = Ok (out ++ ys).
Proof.
  induction l as [|x l IH]; intros H.
  - exists []. split; [constructor|]. intros out. simpl. by rewrite app_nil_r.
  - destruct (H x) as (ys & Hys & Hx); [left|].
    destruct IH as (zs & Hzs & Hl); [intros y Hy; apply H; by right|].
    exists (ys ++ zs). split; [by apply Forall_app|].
    intros out. simpl. rewrite Hx. simpl. rewrite Hl. by rewrite app_assoc.
Qed.

Section diagnosis.
Import carrier_earned_discount_report.
Context (num_years : Z) (carriers destinations : list string).
Context (shipment_target : list (gmap string Q)).
Context (tier_min_quantity : list Z).

Hypothesis targets_present :
  ∀ year, year ∈ range num_years →
    ∃ targets, getitem_list shipment_target year = Ok targets ∧
      ∀ dest, dest ∈ destinations → ∃ t, getitem targets dest = Ok t.

Lemma infeasible_diagnosis_shape :
  ∃ year_totals yearly,
    Forall2 (λ year total, year_total shipment_target year = Ok total)
      (range num_years) year_totals ∧
    forallb is_target_line yearly = true ∧
    ∀ out,
      infeasible_diagnosis num_years carriers destinations shipment_target
        tier_min_quantity out
      = Ok (out ++ infeasible_reasons
              ++ [TotalShipmentsNeeded (Qsum year_totals);
                  NumberOfCarriers (len carriers);
                  NumberOfDestinations (len destinations);
                  NumberOfYears num_years;
                  Text (nl +:+ "  Tier minimum quantities:")]
              ++ imap (λ i min_qty, TierMinimum (Z.of_nat i) min_qty)
                   tier_min_quantity
              ++ [Text (nl +:+ "  Yearly shipment targets:")]
              ++ yearly ++ infeasible_suggestions).
Proof.
  destruct (comprehension_total (year_total shipment_target) (range num_years))
    as [year_totals Htot].
  { intros year Hy. destruct (targets_present year Hy) as (targets & Ht & _).
    unfold year_total. rewrite Ht. by eexists. }
  destruct (for__appends (λ line, is_target_line line = true) (range num_years)
    (λ out year,
      targets ← getitem_list shipment_target year;
      let out := out ++ [YearTargetTotal year (Qsum (values targets))] in
      for_ destinations (λ out dest,
        target ← target_at shipment_target year dest;
        Ok (out ++ [DestinationTarget dest target])) out))
    as (yearly & Hyearly & Hloop).
  { intros year Hy. destruct (targets_present year Hy) as (targets & Ht & Hd).
    destruct (for__appends (λ line, is_target_line line = true) destinations
      (λ out dest,
        target ← target_at shipment_target year dest;
        Ok (out ++ [DestinationTarget dest target])))
      as (rows & Hrows & Hinner).
    { intros dest Hdest. destruct (Hd dest Hdest) as [t Htd].
      exists [DestinationTarget dest t]. split; [by repeat constructor|].
      intros out. unfold target_at. rewrite Ht. simpl. by rewrite Htd. }
    exists (YearTargetTotal year (Qsum (values targets)) :: rows).
    split; [by constructor|].
    intros out. rewrite Ht. simpl. rewrite Hinner. by rewrite <-app_assoc. }
  exists year_totals, yearly. split; [|split].
  - by apply mapM_Ok_Forall2.
  - apply forallb_forall. intros line Hin.
    rewrite Forall_forall in Hyearly. apply Hyearly. by apply list_elem_of_In.
  - intros out. unfold infeasible_diagnosis.
    change (comprehension _ (range num_years))
      with (comprehension (year_total shipment_target) (range num_years)).
    rewrite Htot. simpl. rewrite Hloop. simpl.
    by rewrite <-!app_assoc.
Qed.
End diagnosis.

Lemma recognised_status code status_name :
  code ≠ LpStatusOptimal → LpStatus !! code = Some status_name →
  (code = LpStatusInfeasible ∧ status_name = "Infeasible") ∨
  (code = LpStatusUnbounded ∧ status_name = "Unbounded") ∨
  (code = LpStatusNotSolved ∧ status_name = "Not Solved") ∨
  (code = LpStatusUndefined ∧ status_name = "Undefined").
Proof.
  intros Hne. unfold LpStatus.
  destruct (decide (code = LpStatusNotSolved)) as [->|H0].
  { intros [= <-]. right; right; left. done. }
  rewrite lookup_insert_ne by done.
  rewrite lookup_insert_ne by done.
  destruct (decide (code = LpStatusInfeasible)) as [->|H1].
  { intros [= <-]. left. done. }
  rewrite lookup_insert_ne by done.
  destruct (decide (code = LpStatusUnbounded)) as [->|H2].
  { intros [= <-]. right; left. done. }
  rewrite lookup_insert_ne by done.
  destruct (decide (code = LpStatusUndefined)) as [->|H3].
  { intros [= <-]. right; right; right. done. }
  rewrite lookup_singleton_ne by done. done.
Qed.

(** C4, as the claim states it, fails. In the network variant the message
    does not depend on the category and carries no count: for an infeasible
    and for an unbounded problem [print_solution] prints the name of the
    status and the same single line. In the tiered variant the diagnosis of
    an unbounded problem is made of fixed lines only. *)
Lemma diagnosis_counterexample :
  warehouse_shipments.print_solution example.network
    {| status := LpStatusInfeasible; varValue := λ _, 0%Q |}
    ["a"; "b"] ["x"] example.target_distribution example.warehouse_cost
    example.route_cost 3 example.delivery_estimate
  = Ok [warehouse_shipments.SolutionStatus "Infeasible";
        warehouse_shipments.Text "No optimal solution found."] ∧
  warehouse_shipments.print_solution example.network
    {| status := LpStatusUnbounded; varValue := λ _, 0%Q |}
    ["a"; "b"] ["x"] example.target_distribution example.warehouse_cost
    example.route_cost 3 example.delivery_estimate
  = Ok [warehouse_shipments.SolutionStatus "Unbounded";
        warehouse_shipments.Text "No optimal solution found."] ∧
  ∃ out,
    carrier_earned_discount_report.print_solution example.tiered
      {| status := LpStatusUnbounded; varValue := λ _, 0%Q |}
      1 ["UPS"] ["A"] example.shipment_target example.tier_min_quantity
      example.discount_rate = Ok out ∧
    forallb is_text (drop 4 out) = true.
Proof.
  split; [reflexivity|]. split; [reflexivity|].
  eexists. split; [reflexivity|]. reflexivity.
Qed.

(** C4, amended. For a status other than optimal that PuLP names:
    the network variant prints the name of the status and the one line
    "No optimal solution found.", whatever the status, and no count; the
    tiered variant prints its banner, the status, and a diagnosis chosen by
    the status. For unbounded, not solved and undefined the diagnosis is a
    list of fixed lines; for infeasible, when the targets of every year are
    present, it is the fixed reasons, then the total of all targets, the
    numbers of carriers, destinations and years, the tier thresholds and the
    targets of every year, then the fixed suggestions. The four diagnoses
    differ from one another, and none of them reports an allocation. *)
Theorem non_optimal_diagnosis
    (problem : LpProblem TierKey) (a : TierKey → Q)
    (num_years : Z) (carriers destinations : list string)
    (shipment_target : list (gmap string Q)) (tier_min_quantity : list Z)
    (discount_rate : gmap string (list Q))
    (network : LpProblem NetKey) (b : NetKey → Q)
    (warehouses network_destinations : list string)
    (target_distribution : gmap string Z) (warehouse_cost : gmap string Q)
    (shipment_cost : gmap string (gmap string Q)) (target_delivery_days : Z)
    (delivery_estimate : gmap string (gmap string Z))
    (code : Z) (status_name : string) :
  code ≠ LpStatusOptimal → LpStatus !! code = Some status_name →
  let tiered_output :=
    carrier_earned_discount_report.print_solution problem
      {| status := code; varValue := a |} num_years carriers destinations
      shipment_target tier_min_quantity discount_rate in
  let header :=
    carrier_earned_discount_report.results_banner
      ++ [carrier_earned_discount_report.SolverStatus status_name code] in
  warehouse_shipments.print_solution network {| status := code; varValue := b |}
    warehouses network_destinations target_distribution warehouse_cost
    shipment_cost target_delivery_days delivery_estimate
  = Ok [warehouse_shipments.SolutionStatus status_name;
        warehouse_shipments.Text "No optimal solution found."] ∧
  (code = LpStatusUnbounded →
   tiered_output = Ok (header ++ carrier_earned_discount_report.unbounded_diagnosis)) ∧
  (code = LpStatusNotSolved →
   tiered_output = Ok (header ++ carrier_earned_discount_report.not_solved_diagnosis)) ∧
  (code = LpStatusUndefined →
   tiered_output = Ok (header ++ carrier_earned_discount_report.undefined_diagnosis)) ∧
  (code = LpStatusInfeasible →
   (∀ year, year ∈ range num_years →
      ∃ targets, getitem_list shipment_target year = Ok targets ∧
        ∀ dest, dest ∈ destinations → ∃ t, getitem targets dest = Ok t) →
   ∃ year_totals yearly,
     Forall2 (λ year total, year_total shipment_target year = Ok total)
       (range num_years) year_totals ∧
     forallb is_target_line yearly = true ∧
     tiered_output
     = Ok (header ++ carrier_earned_discount_report.infeasible_reasons
             ++ [carrier_earned_discount_report.TotalShipmentsNeeded (Qsum year_totals);
                 carrier_earned_discount_report.NumberOfCarriers (len carriers);
                 carrier_earned_discount_report.NumberOfDestinations (len destinations);
                 carrier_earned_discount_report.NumberOfYears num_years;
                 carrier_earned_discount_report.Text (nl +:+ "  Tier minimum quantities:")]
             ++ imap (λ i min_qty,
                        carrier_earned_discount_report.TierMinimum (Z.of_nat i) min_qty)
                  tier_min_quantity
             ++ [carrier_earned_discount_report.Text (nl +:+ "  Yearly shipment targets:")]
             ++ yearly ++ carrier_earned_discount_report.infeasible_suggestions)) ∧
  NoDup [carrier_earned_discount_report.infeasible_reasons;
         carrier_earned_discount_report.unbounded_diagnosis;
         carrier_earned_discount_report.not_solved_diagnosis;
         carrier_earned_discount_report.undefined_diagnosis] ∧
  forallb is_text
    (carrier_earned_discount_report.infeasible_reasons
       ++ carrier_earned_discount_report.infeasible_suggestions
       ++ carrier_earned_discount_report.unbounded_diagnosis
       ++ carrier_earned_discount_report.not_solved_diagnosis
       ++ carrier_earned_discount_report.undefined_diagnosis) = true.
Proof.
  intros Hne Hname tiered_output header.
  split; [|split; [|split; [|split; [|split; [|split]]]]].
  - unfold warehouse_shipments.print_solution. simpl.
    apply Z.eqb_neq in Hne. rewrite Hne. simpl.
    unfold getitem. by rewrite Hname.
  - intros ->. injection Hname as <-. reflexivity.
  - intros ->. injection Hname as <-. reflexivity.
  - intros ->. injection Hname as <-. reflexivity.
  - intros -> Hpresent. pose proof Hname as Hlookup. injection Hname as <-.
    destruct (infeasible_diagnosis_shape num_years carriers destinations
                shipment_target tier_min_quantity Hpresent)
      as (year_totals & yearly & Htot & Hyearly & Hshape).
    exists year_totals, yearly. split; [done|]. split; [done|].
    unfold tiered_output, carrier_earned_discount_report.print_solution.
    cbn [status]. unfold getitem. rewrite Hlookup.
    cbn [mbind result_bind Z.eqb LpStatusInfeasible LpStatusOptimal].
    rewrite Hshape. unfold header. by rewrite <-!app_assoc.
  - repeat (apply NoDup_cons; split;
            [rewrite ?elem_of_cons, elem_of_nil; intros H;
             repeat (destruct H as [H|H]; [discriminate H|]); done|]).
    apply NoDup_nil_2.
  - reflexivity.
Qed.

Lemma non_optimal_diagnosis_witness :
  warehouse_shipments.print_solution example.network
    {| status := LpStatusInfeasible; varValue := λ _, 0%Q |}
    ["a"; "b"] ["x"] example.target_distribution example.warehouse_cost
    example.route_cost 3 example.delivery_estimate
  = Ok [warehouse_shipments.SolutionStatus "Infeasible";
        warehouse_shipments.Text "No optimal solution found."] ∧
  ∃ out,
    carrier_earned_discount_report.print_solution example.tiered
      {| status := LpStatusInfeasible; varValue := λ _, 0%Q |}
      1 ["UPS"] ["A"] example.shipment_target example.tier_min_quantity
      example.discount_rate = Ok out.
Proof.
  assert (Hne : LpStatusInfeasible ≠ LpStatusOptimal) by done.
  assert (Hname : LpStatus !! LpStatusInfeasible = Some "Infeasible") by reflexivity.
  destruct (non_optimal_diagnosis example.tiered (λ _, 0%Q) 1 ["UPS"] ["A"]
              example.shipment_target example.tier_min_quantity example.discount_rate
              example.network (λ _, 0%Q) ["a"; "b"] ["x"]
              example.target_distribution example.warehouse_cost example.route_cost
              3 example.delivery_estimate LpStatusInfeasible "Infeasible" Hne Hname)
    as (Hnet & _ & _ & _ & Hinf & _).
  split; [exact Hnet|].
  destruct Hinf as (year_totals & yearly & _ & _ & Hout); [reflexivity| |by eexists].
  intros year Hy%elem_of_range. assert (year = 0%Z) as -> by lia.
  eexists. split; [reflexivity|].
  intros dest ->%list_elem_of_singleton. by eexists.
Defined.

(** ** A destination that asks for nothing *)

Lemma zero_target_tiered_built :
  carrier_earned_discount.optimize_shipments 1 ["UPS"] ["A"]
    zero_target.shipment_target example.shipment_cost example.tier_min_quantity
    example.discount_rate = Ok zero_target.tiered.
Proof. vm_compute. reflexivity. Qed.

Lemma zero_target_network_built :
  warehouse_shipments.optimize_shipments ["a"; "b"] ["x"]
    zero_target.target_distribution example.shipment_capacity
    example.warehouse_cost example.route_cost 3 0.5 example.delivery_estimate
  = Ok zero_target.network.
Proof. vm_compute. reflexivity. Qed.

Lemma zero_target_tiered_feasible :
  feasible zero_target.tiered zero_target.first_tier_active.
Proof. apply feasibleb_true. vm_compute. reflexivity. Qed.

Lemma zero_target_network_feasible :
  feasible zero_target.network zero_target.open_idle.
Proof. apply feasibleb_true. vm_compute. reflexivity. Qed.

(** C7, as the claim states it, fails. With a single tier and target 0 the
    builder returns a model that has a feasible assignment, and in every
    feasible assignment the activation variable of the tier is 1: the tier
    is forced active. In the network model with demand 0 a feasible
    assignment may keep a warehouse open, and its objective value is the
    fixed cost of that warehouse, not 0. *)
Lemma zero_target_counterexample :
  (carrier_earned_discount.optimize_shipments 1 ["UPS"] ["A"]
     zero_target.shipment_target example.shipment_cost [0%Z] {[ "UPS" := [1%Q] ]}
   = Ok zero_target.single_tier ∧
   feasible zero_target.single_tier zero_target.first_tier_active ∧
   ∀ a, feasible zero_target.single_tier a → (a (tier_flag_key 0 "UPS" 0) == 1)%Q)
  ∧
  (warehouse_shipments.optimize_shipments ["a"; "b"] ["x"]
     zero_target.target_distribution example.shipment_capacity
     example.warehouse_cost example.route_cost 3 0.5 example.delivery_estimate
   = Ok zero_target.network ∧
   feasible zero_target.network zero_target.open_idle ∧
   (value zero_target.open_idle (objective zero_target.network) == 10)%Q).
Proof.
  split; split.
  - vm_compute. reflexivity.
  - split; [apply feasibleb_true; vm_compute; reflexivity|].
    intros a Hf.
    destruct (tiered_one_tier 1 ["UPS"] ["A"] zero_target.shipment_target
                example.shipment_cost [0%Z] {[ "UPS" := [1%Q] ]} a 0%Z "UPS" Hf)
      as (tier & Ht & H1 & _).
    + apply elem_of_range. lia.
    + by left.
    + apply elem_of_range in Ht. change (len [0%Z]) with 1%Z in Ht.
      assert (tier = 0%Z) as -> by lia. exact H1.
  - exact zero_target_network_built.
  - split; [exact zero_target_network_feasible|reflexivity].
Qed.

(** C7, amended. When every target is 0, every feasible assignment of the
    model built by either builder has all flow variables equal to 0. In the
    tiered model its objective value is 0, and for every year and carrier
    one tier activation variable is 1. In the network model its objective
    value is the fixed cost of the warehouses it keeps open; no warehouse is
    forced open: closing them all gives a feasible assignment again, with
    objective value 0. *)
Theorem zero_target_flows
    num_years carriers destinations shipment_target shipment_cost
    tier_min_quantity discount_rate m
    warehouses network_destinations target_distribution shipment_capacity
    warehouse_cost route_cost target_delivery_days delivery_tolerance
    delivery_estimate n :
  carrier_earned_discount.optimize_shipments num_years carriers destinations
    shipment_target shipment_cost tier_min_quantity discount_rate = Ok m →
  (∀ year dest, year ∈ range num_years → dest ∈ destinations →
     ∃ t, target_at shipment_target year dest = Ok t ∧ (t == 0)%Q) →
  warehouse_shipments.optimize_shipments warehouses network_destinations
    target_distribution shipment_capacity warehouse_cost route_cost
    target_delivery_days delivery_tolerance delivery_estimate = Ok n →
  (∀ j, j ∈ network_destinations → getitem target_distribution j = Ok 0%Z) →
  (∀ a, feasible m a →
     (∀ year carrier tier dest,
        year ∈ range num_years → carrier ∈ carriers →
        tier ∈ range (len tier_min_quantity) → dest ∈ destinations →
        (a (shipment_at_tier_key year carrier tier dest) == 0)%Q) ∧
     (value a (objective m) == 0)%Q ∧
     (∀ year carrier, year ∈ range num_years → carrier ∈ carriers →
        ∃ tier, tier ∈ range (len tier_min_quantity) ∧
          (a (tier_flag_key year carrier tier) == 1)%Q)) ∧
  (∀ b, feasible n b →
     (∀ i j, i ∈ warehouses → j ∈ network_destinations →
        (b (shipment_count_key i j) == 0)%Q) ∧
     (value b (objective n) ==
      Qsum ((λ i, b (warehouse_usage_key i) * fixed_cost warehouse_cost i)
              <$> warehouses))%Q ∧
     feasible n (without_usage b) ∧
     (value (without_usage b) (objective n) == 0)%Q).
Proof.
  intros Hm Htargets Hn Hdemand.
  apply optimize_shipments_model in Hm as ->.
  apply network_optimize_shipments_model in Hn as ->.
  assert (Hzero : ∀ year dest, year ∈ years num_years → dest ∈ destinations →
                    (target shipment_target year dest == 0)%Q).
  { intros year dest Hy Hd. destruct (Htargets year dest Hy Hd) as (t & Ht & H0).
    unfold target. by rewrite Ht. }
  assert (Hzero' : ∀ j, j ∈ network_destinations → demand target_distribution j = 0%Z).
  { intros j Hj. unfold demand. by rewrite (Hdemand j Hj). }
  split.
  - intros a Hf. split; [|split].
    + intros year carrier tier dest Hy Hc Ht Hd.
      by apply (tiered_zero_flows num_years carriers destinations shipment_target
                  shipment_cost tier_min_quantity discount_rate Hzero).
    + by apply (tiered_zero_objective num_years carriers destinations shipment_target
                  shipment_cost tier_min_quantity discount_rate Hzero).
    + intros year carrier Hy Hc.
      destruct (tiered_one_tier num_years carriers destinations shipment_target
                  shipment_cost tier_min_quantity discount_rate a year carrier
                  Hf Hy Hc) as (tier & Ht & H1 & _).
      by exists tier.
  - intros b Hf. split; [|split; [|split]].
    + intros i j Hi Hj.
      by apply (network_zero_flows warehouses network_destinations
                  target_distribution shipment_capacity warehouse_cost route_cost
                  target_delivery_days delivery_tolerance delivery_estimate Hzero').
    + by apply (network_zero_objective warehouses network_destinations
                  target_distribution shipment_capacity warehouse_cost route_cost
                  target_delivery_days delivery_tolerance delivery_estimate Hzero').
    + by apply (without_usage_feasible warehouses network_destinations
                  target_distribution shipment_capacity warehouse_cost route_cost
                  target_delivery_days delivery_tolerance delivery_estimate Hzero').
    + by apply (without_usage_objective warehouses network_destinations
                  target_distribution shipment_capacity warehouse_cost route_cost
                  target_delivery_days delivery_tolerance delivery_estimate Hzero').
Qed.

Lemma zero_target_flows_witness :
  (feasible zero_target.tiered zero_target.first_tier_active ∧
   (value zero_target.first_tier_active (objective zero_target.tiered) == 0)%Q) ∧
  (feasible zero_target.network zero_target.open_idle ∧
   feasible zero_target.network (without_usage zero_target.open_idle) ∧
   (value (without_usage zero_target.open_idle) (objective zero_target.network)
    == 0)%Q).
Proof.
  destruct (zero_target_flows 1 ["UPS"] ["A"] zero_target.shipment_target
              example.shipment_cost example.tier_min_quantity example.discount_rate
              zero_target.tiered
              ["a"; "b"] ["x"] zero_target.target_distribution
              example.shipment_capacity example.warehouse_cost example.route_cost
              3 0.5%Q example.delivery_estimate zero_target.network)
    as [Htiered Hnetwork].
  - exact zero_target_tiered_built.
  - intros year dest Hy%elem_of_range ->%list_elem_of_singleton.
    assert (year = 0%Z) as -> by lia. exists 0%Q. split; reflexivity.
  - exact zero_target_network_built.
  - intros j ->%list_elem_of_singleton. reflexivity.
  - split.
    + split; [exact zero_target_tiered_feasible|].
      apply (Htiered _ zero_target_tiered_feasible).
    + split; [exact zero_target_network_feasible|].
      destruct (Hnetwork _ zero_target_network_feasible) as (_ & _ & Hf & Hv).
      by split.
Defined.

(** ** Raising one unit cost: examples *)

Lemma single_tier_raised :
  raised_entry single_tier.lower_cost single_tier.higher_cost "UPS" "A".
Proof. exists {[ "A" := 1%Q ]}, 1%Q, 2%Q. repeat split. discriminate. Qed.

Lemma single_tier_feasible cost multiplier :
  feasible (single_tier.model cost multiplier) single_tier.assignment.
Proof.
  unfold feasible, all_variables.
  change (objective (single_tier.model cost multiplier)) with
    (tiered_objective 1 ["UPS"] ["A"] single_tier.shipment_target cost [0%Z]
       {[ "UPS" := [multiplier] ]}).
  change (constraints (single_tier.model cost multiplier)) with
    (tiered_constraints 1 ["UPS"] ["A"] single_tier.shipment_target [0%Z]).
  rewrite tiered_objective_variables.
  change (feasible (single_tier.model single_tier.lower_cost 1)
            single_tier.assignment).
  apply feasibleb_true. vm_compute. reflexivity.
Qed.

(** Every feasible assignment costs the same: one unit at the one price. *)
Lemma single_tier_value cost multiplier a :
  feasible (single_tier.model cost multiplier) a →
  (value a (objective (single_tier.model cost multiplier))
   == unit_cost cost "UPS" "A" * multiplier)%Q.
Proof.
  intros Hf.
  pose proof (tiered_target_met 1 ["UPS"] ["A"] single_tier.shipment_target cost
                [0%Z] {[ "UPS" := [multiplier] ]} a 0%Z "A" Hf) as Hsum.
  assert (Hy : 0%Z ∈ years 1) by (apply elem_of_range; lia).
  specialize (Hsum Hy ltac:(by left)).
  change (a (shipment_at_tier_key 0 "UPS" 0 "A") + 0 == 1)%Q in Hsum.
  change (objective (single_tier.model cost multiplier)) with
    (tiered_objective 1 ["UPS"] ["A"] single_tier.shipment_target cost [0%Z]
       {[ "UPS" := [multiplier] ]}).
  rewrite tiered_objective_value.
  change (a (shipment_at_tier_key 0 "UPS" 0 "A") * unit_cost cost "UPS" "A"
          * multiplier + 0 + 0 + 0 + 0
          == unit_cost cost "UPS" "A" * multiplier)%Q.
  assert (E : (a (shipment_at_tier_key 0 "UPS" 0 "A") == 1)%Q) by lra.
  rewrite E. ring.
Qed.

Lemma single_tier_optimal cost multiplier :
  optimal (single_tier.model cost multiplier) single_tier.assignment.
Proof.
  split; [apply single_tier_feasible|]. intros a' Hf'.
  rewrite (single_tier_value cost multiplier a' Hf').
  rewrite (single_tier_value cost multiplier _ (single_tier_feasible cost multiplier)).
  apply Qle_refl.
Qed.

(** C8, as the claim states it, fails in the tiered formulation. With the
    multiplier -1, raising the unit cost of the only route from 1 to 2 takes
    the optimal objective value from -1 down to -2. *)
Lemma cost_monotonicity_counterexample :
  carrier_earned_discount.optimize_shipments 1 ["UPS"] ["A"]
    single_tier.shipment_target single_tier.lower_cost [0%Z] {[ "UPS" := [-1%Q] ]}
  = Ok (single_tier.model single_tier.lower_cost (-1)) ∧
  carrier_earned_discount.optimize_shipments 1 ["UPS"] ["A"]
    single_tier.shipment_target single_tier.higher_cost [0%Z] {[ "UPS" := [-1%Q] ]}
  = Ok (single_tier.model single_tier.higher_cost (-1)) ∧
  raised_entry single_tier.lower_cost single_tier.higher_cost "UPS" "A" ∧
  optimal (single_tier.model single_tier.lower_cost (-1)) single_tier.assignment ∧
  optimal (single_tier.model single_tier.higher_cost (-1)) single_tier.assignment ∧
  ∀ a a',
    optimal (single_tier.model single_tier.lower_cost (-1)) a →
    optimal (single_tier.model single_tier.higher_cost (-1)) a' →
    (value a (objective (single_tier.model single_tier.lower_cost (-1))) == -1)%Q ∧
    (value a' (objective (single_tier.model single_tier.higher_cost (-1))) == -2)%Q.
Proof.
  split; [vm_compute; reflexivity|]. split; [vm_compute; reflexivity|].
  split; [exact single_tier_raised|].
  split; [apply single_tier_optimal|]. split; [apply single_tier_optimal|].
  intros a a' [Hf _] [Hf' _].
  rewrite (single_tier_value _ _ a Hf), (single_tier_value _ _ a' Hf').
  split; reflexivity.
Qed.

Lemma raised_route_raised :
  raised_entry example.route_cost raised_route.route_cost "a" "x".
Proof. exists {[ "x" := 1%Q ]}, 1%Q, 3%Q. repeat split. discriminate. Qed.

(** Shipping everything from the first warehouse is optimal as long as its
    route costs at most 3 a unit. *)
Lemma raised_route_optimal cost c :
  route_cost cost "a" "x" = c → route_cost cost "b" "x" = 2%Q →
  (0 <= c)%Q → (c <= 3)%Q →
  optimal (raised_route.network cost) example.network_assignment ∧
  (value example.network_assignment (objective (raised_route.network cost))
   == 3 * c + 10)%Q.
Proof.
  intros Hca Hcb Hc0 Hc3.
  assert (Hval : (value example.network_assignment
                    (objective (raised_route.network cost)) == 3 * c + 10)%Q).
  { change (objective (raised_route.network cost)) with
      (network_objective ["a"; "b"] ["x"] example.shipment_capacity
         example.warehouse_cost cost).
    rewrite network_objective_value.
    cbn [fmap list_fmap Qsum foldr]. rewrite Hca, Hcb.
    change (fixed_cost example.warehouse_cost "a") with 10%Q.
    change (fixed_cost example.warehouse_cost "b") with 20%Q.
    change (example.network_assignment (shipment_count_key "a" "x")) with 3%Q.
    change (example.network_assignment (shipment_count_key "b" "x")) with 0%Q.
    change (example.network_assignment (warehouse_usage_key "a")) with 1%Q.
    change (example.network_assignment (warehouse_usage_key "b")) with 0%Q.
    ring. }
  split; [|exact Hval]. split.
  { apply (network_feasible_costs ["a"; "b"] ["x"] example.target_distribution
             example.shipment_capacity example.warehouse_cost example.route_cost
             cost 3 0.5 example.delivery_estimate).
    exact example_network_feasible. }
  intros a' Hf'. rewrite Hval.
  assert (Ha : "a" ∈ ["a"; "b"]) by (by left).
  assert (Hb : "b" ∈ ["a"; "b"]) by (right; by left).
  assert (Hx : "x" ∈ ["x"]) by (by left).
  pose proof (count_bounds _ _ _ _ _ _ _ _ _ a' "a" "x" Hf' Ha Hx) as [Hxa _].
  pose proof (count_bounds _ _ _ _ _ _ _ _ _ a' "b" "x" Hf' Hb Hx) as [Hxb _].
  pose proof (usage_binary _ _ _ _ _ _ _ _ _ a' "a" "x" Hf' Ha Hx) as Hua.
  pose proof (usage_binary _ _ _ _ _ _ _ _ _ a' "b" "x" Hf' Hb Hx) as Hub.
  pose proof (network_target_met _ _ _ _ _ _ _ _ _ a' "x" Hf' Hx) as Hsum.
  change (a' (shipment_count_key "a" "x")
          + (a' (shipment_count_key "b" "x") + 0) == 3)%Q in Hsum.
  assert (Hga : (a' (shipment_count_key "a" "x")
                 <= 5 * a' (warehouse_usage_key "a"))%Q).
  { apply (holds_usage example.shipment_capacity a' "a" "x").
    apply (feasible_holds _ a' _ _ Hf'
             (usage_constraint_elem ["a"; "b"] ["x"] example.target_distribution
                example.shipment_capacity 3 0.5 example.delivery_estimate
                "a" "x" Ha Hx)). }
  assert (Hgb : (a' (shipment_count_key "b" "x")
                 <= 5 * a' (warehouse_usage_key "b"))%Q).
  { apply (holds_usage example.shipment_capacity a' "b" "x").
    apply (feasible_holds _ a' _ _ Hf'
             (usage_constraint_elem ["a"; "b"] ["x"] example.target_distribution
                example.shipment_capacity 3 0.5 example.delivery_estimate
                "b" "x" Hb Hx)). }
  change (objective (raised_route.network cost)) with
    (network_objective ["a"; "b"] ["x"] example.shipment_capacity
       example.warehouse_cost cost).
  rewrite network_objective_value.
  cbn [fmap list_fmap Qsum foldr]. rewrite Hca, Hcb.
  change (fixed_cost example.warehouse_cost "a") with 10%Q.
  change (fixed_cost example.warehouse_cost "b") with 20%Q.
  revert Hxa Hxb Hua Hub Hsum Hga Hgb.
  generalize (a' (shipment_count_key "a" "x")) (a' (shipment_count_key "b" "x"))
    (a' (warehouse_usage_key "a")) (a' (warehouse_usage_key "b")).
  intros xa xb ua ub Hxa Hxb Hua Hub Hsum Hga Hgb.
  assert (0 <= xa * c)%Q by (by apply Qmult_le_0_compat).
  destruct Hub as [Hub|Hub].
  - assert (Exb : (xb == 0)%Q) by lra.
    assert (Exa : (xa == 3)%Q) by lra.
    assert (Eua : (ua == 1)%Q) by (destruct Hua; lra).
    rewrite Exa, Exb, Eua, Hub. lra.
  - rewrite Hub. destruct Hua as [Hua|Hua]; lra.
Qed.

(** C8, amended. Take two inputs to one builder that differ only in one entry
    [shipment_cost[source][dest]], higher in the second, and the two models
    built from them. The two models have the same feasible assignments. In
    the network formulation the optimal objective value of the second is at
    least that of the first. In the tiered formulation the same holds when
    the discount multipliers of that carrier are not negative. *)
Theorem cost_monotonicity :
  (∀ num_years carriers destinations shipment_target shipment_cost shipment_cost'
     tier_min_quantity discount_rate source dest m m',
     carrier_earned_discount.optimize_shipments num_years carriers destinations
       shipment_target shipment_cost tier_min_quantity discount_rate = Ok m →
     carrier_earned_discount.optimize_shipments num_years carriers destinations
       shipment_target shipment_cost' tier_min_quantity discount_rate = Ok m' →
     raised_entry shipment_cost shipment_cost' source dest →
     (∀ rates, getitem discount_rate source = Ok rates →
        Forall (λ r, (0 <= r)%Q) rates) →
     (∀ a, feasible m a ↔ feasible m' a) ∧
     (∀ a a', optimal m a → optimal m' a' →
        (value a (objective m) <= value a' (objective m'))%Q))
  ∧
  (∀ warehouses destinations target_distribution shipment_capacity warehouse_cost
     shipment_cost shipment_cost' target_delivery_days delivery_tolerance
     delivery_estimate source dest n n',
     warehouse_shipments.optimize_shipments warehouses destinations
       target_distribution shipment_capacity warehouse_cost shipment_cost
       target_delivery_days delivery_tolerance delivery_estimate = Ok n →
     warehouse_shipments.optimize_shipments warehouses destinations
       target_distribution shipment_capacity warehouse_cost shipment_cost'
       target_delivery_days delivery_tolerance delivery_estimate = Ok n' →
     raised_entry shipment_cost shipment_cost' source dest →
     (∀ b, feasible n b ↔ feasible n' b) ∧
     (∀ b b', optimal n b → optimal n' b' →
        (value b (objective n) <= value b' (objective n'))%Q)).
Proof.
  split.
  - intros ny cs ds st sc sc' tmq dr source dest m m' Hm Hm' Hraised Hrates.
    apply optimize_shipments_model in Hm as ->.
    apply optimize_shipments_model in Hm' as ->.
    split.
    + intros a. apply tiered_feasible_costs.
    + intros a a'. by apply (tiered_optimum_mono ny cs ds st sc sc' tmq dr source dest).
  - intros ws ds td cap wc sc sc' tdd tol de source dest n n' Hn Hn' Hraised.
    apply network_optimize_shipments_model in Hn as ->.
    apply network_optimize_shipments_model in Hn' as ->.
    split.
    + intros b. apply network_feasible_costs.
    + intros b b'.
      by apply (network_optimum_mono ws ds td cap wc sc sc' tdd tol de source dest).
Qed.

Lemma cost_monotonicity_witness :
  (value single_tier.assignment (objective (single_tier.model single_tier.lower_cost 1))
   <= value single_tier.assignment
        (objective (single_tier.model single_tier.higher_cost 1)))%Q ∧
  (value example.network_assignment
     (objective (raised_route.network example.route_cost))
   <= value example.network_assignment
        (objective (raised_route.network raised_route.route_cost)))%Q.
Proof.
  destruct cost_monotonicity as [Htiered Hnetwork]. split.
  - apply (Htiered 1%Z ["UPS"] ["A"] single_tier.shipment_target
             single_tier.lower_cost single_tier.higher_cost [0%Z]
             {[ "UPS" := [1%Q] ]} "UPS" "A"
             (single_tier.model single_tier.lower_cost 1)
             (single_tier.model single_tier.higher_cost 1)).
    + vm_compute. reflexivity.
    + vm_compute. reflexivity.
    + exact single_tier_raised.
    + intros rates [= <-]. repeat constructor. discriminate.
    + apply single_tier_optimal.
    + apply single_tier_optimal.
  - apply (Hnetwork ["a"; "b"] ["x"] example.target_distribution
             example.shipment_capacity example.warehouse_cost example.route_cost
             raised_route.route_cost 3%Z 0.5%Q example.delivery_estimate "a" "x"
             (raised_route.network example.route_cost)
             (raised_route.network raised_route.route_cost)).
    + vm_compute. reflexivity.
    + vm_compute. reflexivity.
    + exact raised_route_raised.
    + apply (raised_route_optimal example.route_cost 1); [reflexivity..|discriminate|discriminate].
    + apply (raised_route_optimal raised_route.route_cost 3);
        [reflexivity..|discriminate|apply Qle_refl].
Defined.

(** * Further properties of the models *)

(** ** More on sums *)

Lemma Qsum_inject_Z {A} (f : A → Z) (l : list A) :
  (Qsum ((λ x, inject_Z (f x)) <$> l) == inject_Z (warehouse_shipments.Zsum (f <$> l)))%Q.
Proof.
  induction l as [|x l IH]; [reflexivity|].
  change (inject_Z (f x) + Qsum ((λ x, inject_Z (f x)) <$> l)
          == inject_Z (f x + warehouse_shipments.Zsum (f <$> l)))%Q.
  rewrite IH, inject_Z_plus. reflexivity.
Qed.

(** A sum with a single entry that may differ from 0. *)
Lemma Qsum_single {A} (f : A → Q) (l : list A) (x : A) :
  NoDup l → x ∈ l → (∀ y, y ∈ l → y ≠ x → (f y == 0)%Q) →
  (Qsum (f <$> l) == f x)%Q.
Proof.
  induction l as [|y l IH]; intros Hnd Hx Hz; [by apply elem_of_nil in Hx|].
  apply NoDup_cons in Hnd as [Hy Hnd].
  change (f y + Qsum (f <$> l) == f x)%Q.
  apply elem_of_cons in Hx as [->|Hx].
  - rewrite Qsum_fmap_all_zero; [ring|].
    intros z Hzl. apply Hz; [by right|]. intros ->. done.
  - rewrite IH; [|done..|].
    + rewrite (Hz y); [ring|by left|]. intros ->. done.
    + intros z Hzl. apply Hz. by right.
Qed.

Lemma length_bind_const {A B} (g : A → list B) (l : list A) (n : nat) :
  (∀ x, x ∈ l → length (g x) = n) → length (l ≫= g) = (length l * n)%nat.
Proof.
  induction l as [|x l IH]; intros H; [done|].
  change (length (g x ++ (l ≫= g)) = (n + length l * n)%nat).
  rewrite length_app, IH, H; [done|by left|]. intros y Hy. apply H. by right.
Qed.

Lemma length_range n : length (range n) = Z.to_nat n.
Proof. unfold range. by rewrite length_fmap, length_seq. Qed.

(** ** The network model: warehouses, capacity and lateness *)

(** X1. In the network model a closed warehouse ships nothing, and a
    warehouse that ships anything is open. *)
Theorem closed_warehouse_ships_nothing
    warehouses destinations target_distribution shipment_capacity warehouse_cost
    shipment_cost target_delivery_days delivery_tolerance delivery_estimate m a i j :
  warehouse_shipments.optimize_shipments warehouses destinations
    target_distribution shipment_capacity warehouse_cost shipment_cost
    target_delivery_days delivery_tolerance delivery_estimate = Ok m →
  feasible m a → i ∈ warehouses → j ∈ destinations →
  ((a (warehouse_usage_key i) == 0)%Q → (a (shipment_count_key i j) == 0)%Q) ∧
  ((0 < a (shipment_count_key i j))%Q → (a (warehouse_usage_key i) == 1)%Q).
Proof.
  intros Hm Hf Hi Hj. apply network_optimize_shipments_model in Hm as ->.
  pose proof (count_bounds _ _ _ _ _ _ _ _ _ a i j Hf Hi Hj) as [Hlo _].
  pose proof (usage_binary _ _ _ _ _ _ _ _ _ a i j Hf Hi Hj) as Hbin.
  assert (Hg : (a (shipment_count_key i j)
                <= inject_Z (capacity shipment_capacity i j)
                   * a (warehouse_usage_key i))%Q).
  { apply holds_usage.
    apply (feasible_holds _ a _ _ Hf
             (usage_constraint_elem warehouses destinations target_distribution
                shipment_capacity target_delivery_days delivery_tolerance
                delivery_estimate i j Hi Hj)). }
  split.
  - intros H0. rewrite H0 in Hg. lra.
  - intros Hpos. destruct Hbin as [H0|H1]; [|done].
    rewrite H0 in Hg. lra.
Qed.

Lemma closed_warehouse_ships_nothing_witness :
  (example.network_assignment (shipment_count_key "b" "x") == 0)%Q ∧
  (example.network_assignment (warehouse_usage_key "a") == 1)%Q.
Proof.
  assert (Hb : "b" ∈ ["a"; "b"]) by (right; by left).
  assert (Ha : "a" ∈ ["a"; "b"]) by (by left).
  assert (Hx : "x" ∈ ["x"]) by (by left).
  split.
  - apply (closed_warehouse_ships_nothing _ _ _ _ _ _ _ _ _ _ _ "b" "x"
             example_network_built example_network_feasible Hb Hx).
    reflexivity.
  - apply (closed_warehouse_ships_nothing _ _ _ _ _ _ _ _ _ _ _ "a" "x"
             example_network_built example_network_feasible Ha Hx).
    reflexivity.
Defined.

(** X2. When the capacities of the routes into a destination add up to less
    than its demand, the network model has no feasible assignment. *)
Theorem capacity_shortfall_infeasible
    warehouses destinations target_distribution shipment_capacity warehouse_cost
    shipment_cost target_delivery_days delivery_tolerance delivery_estimate m j :
  warehouse_shipments.optimize_shipments warehouses destinations
    target_distribution shipment_capacity warehouse_cost shipment_cost
    target_delivery_days delivery_tolerance delivery_estimate = Ok m →
  j ∈ destinations →
  (warehouse_shipments.Zsum ((λ i, capacity shipment_capacity i j) <$> warehouses)
   < demand target_distribution j)%Z →
  ∀ a, ¬ feasible m a.
Proof.
  intros Hm Hj Hlt a Hf. apply network_optimize_shipments_model in Hm as ->.
  pose proof (network_target_met _ _ _ _ _ _ _ _ _ a j Hf Hj) as Hsum.
  assert (Hle : (Qsum ((λ i, a (shipment_count_key i j)) <$> warehouses)
                 <= Qsum ((λ i, inject_Z (capacity shipment_capacity i j))
                            <$> warehouses))%Q).
  { apply Qsum_fmap_le. intros i Hi.
    by destruct (count_bounds _ _ _ _ _ _ _ _ _ a i j Hf Hi Hj). }
  rewrite Hsum, Qsum_inject_Z in Hle. rewrite <-Zle_Qle in Hle. lia.
Qed.

Lemma capacity_shortfall_infeasible_witness :
  ¬ ∃ a, feasible
           (network_model ["a"; "b"] ["x"] {[ "x" := 11%Z ]}
              example.shipment_capacity example.warehouse_cost example.route_cost
              3 0.5 example.delivery_estimate)
           a.
Proof.
  intros [a Hf]. revert a Hf.
  apply (capacity_shortfall_infeasible ["a"; "b"] ["x"] {[ "x" := 11%Z ]}
           example.shipment_capacity example.warehouse_cost example.route_cost
           3%Z 0.5%Q example.delivery_estimate _ "x").
  - vm_compute. reflexivity.
  - by left.
  - reflexivity.
Defined.

(** X3. In every feasible assignment of the network model the shipments that
    reach a destination late are at most the tolerated share of its demand;
    with tolerance 0 no late route carries anything. *)
Theorem late_shipments_within_tolerance
    warehouses destinations target_distribution shipment_capacity warehouse_cost
    shipment_cost target_delivery_days delivery_tolerance delivery_estimate m a j :
  warehouse_shipments.optimize_shipments warehouses destinations
    target_distribution shipment_capacity warehouse_cost shipment_cost
    target_delivery_days delivery_tolerance delivery_estimate = Ok m →
  feasible m a → j ∈ destinations →
  (Qsum ((λ i, inject_Z (late_indicator target_delivery_days delivery_estimate i j)
               * a (shipment_count_key i j)) <$> warehouses)
   <= delivery_tolerance * inject_Z (demand target_distribution j))%Q ∧
  ((delivery_tolerance == 0)%Q →
   ∀ i days, i ∈ warehouses → getitem2 delivery_estimate i j = Ok days →
     (target_delivery_days < days)%Z → (a (shipment_count_key i j) == 0)%Q).
Proof.
  intros Hm Hf Hj. apply network_optimize_shipments_model in Hm as ->.
  pose proof (network_target_met _ _ _ _ _ _ _ _ _ a j Hf Hj) as Hsum.
  assert (Hd : (Qsum ((λ i, inject_Z (late_indicator target_delivery_days
                                        delivery_estimate i j)
                            * a (shipment_count_key i j)) <$> warehouses)
                <= delivery_tolerance
                   * Qsum ((λ i, a (shipment_count_key i j)) <$> warehouses))%Q).
  { apply (holds_delivery warehouses shipment_capacity target_delivery_days
             delivery_tolerance delivery_estimate a j).
    apply (feasible_holds _ a _ _ Hf
             (delivery_constraint_elem warehouses destinations target_distribution
                shipment_capacity target_delivery_days delivery_tolerance
                delivery_estimate j Hj)). }
  rewrite Hsum in Hd. split; [exact Hd|].
  intros Htol i days Hi Hdays Hlate.
  rewrite Htol in Hd.
  assert (Hz : (Qsum ((λ i, inject_Z (late_indicator target_delivery_days
                                        delivery_estimate i j)
                            * a (shipment_count_key i j)) <$> warehouses) <= 0)%Q)
    by lra.
  pose proof (Qsum_fmap_zero
                (λ i, inject_Z (late_indicator target_delivery_days
                                  delivery_estimate i j)
                      * a (shipment_count_key i j))%Q warehouses) as Hzero.
  simpl in Hzero.
  assert (Hi0 : (inject_Z (late_indicator target_delivery_days delivery_estimate i j)
                 * a (shipment_count_key i j) == 0)%Q).
  { apply Hzero; [|exact Hz|exact Hi].
    intros i' Hi'.
    destruct (count_bounds _ _ _ _ _ _ _ _ _ a i' j Hf Hi' Hj) as [Hlo _].
    apply Qmult_le_0_compat; [|done].
    unfold late_indicator. destruct (_ <? _)%Z; discriminate. }
  unfold late_indicator in Hi0. rewrite Hdays in Hi0. simpl in Hi0.
  apply Z.ltb_lt in Hlate. rewrite Hlate in Hi0.
  change (inject_Z 1) with 1%Q in Hi0. lra.
Qed.

Lemma late_shipments_within_tolerance_witness :
  (example.network_assignment (shipment_count_key "b" "x") == 0)%Q.
Proof.
  assert (Hf : feasible
                 (network_model ["a"; "b"] ["x"] example.target_distribution
                    example.shipment_capacity example.warehouse_cost
                    example.route_cost 3 0 example.delivery_estimate)
                 example.network_assignment)
    by (apply feasibleb_true; vm_compute; reflexivity).
  refine (proj2 (late_shipments_within_tolerance ["a"; "b"] ["x"]
                   example.target_distribution example.shipment_capacity
                   example.warehouse_cost example.route_cost 3%Z 0%Q
                   example.delivery_estimate _ example.network_assignment "x"
                   _ Hf _) _ "b" 4%Z _ _ _).
  - vm_compute. reflexivity.
  - by left.
  - reflexivity.
  - right. by left.
  - reflexivity.
  - reflexivity.
Defined.

(** ** The tiered model: the active tier *)

(** X4. When no destination is repeated in the list of destinations, in
    every feasible assignment of the tiered model what a carrier ships in a
    year at its active tier, the sum of its flow variables of that year and
    tier over the destinations, is at least the minimum quantity of that tier
    and at most the sum of the year's targets; a tier whose minimum exceeds
    that sum is never active. *)
Theorem active_tier_minimum_met
    num_years carriers destinations shipment_target shipment_cost
    tier_min_quantity discount_rate m a year carrier tier :
  carrier_earned_discount.optimize_shipments num_years carriers destinations
    shipment_target shipment_cost tier_min_quantity discount_rate = Ok m →
  feasible m a →
  NoDup destinations →
  year ∈ range num_years → carrier ∈ carriers →
  tier ∈ range (len tier_min_quantity) →
  ((a (tier_flag_key year carrier tier) == 1)%Q →
   (inject_Z (min_quantity tier_min_quantity tier)
    <= Qsum ((λ dest, a (shipment_at_tier_key year carrier tier dest))
               <$> destinations))%Q) ∧
  (Qsum ((λ dest, a (shipment_at_tier_key year carrier tier dest)) <$> destinations)
   <= Qsum ((λ dest, target shipment_target year dest) <$> destinations))%Q ∧
  ((Qsum ((λ dest, target shipment_target year dest) <$> destinations)
    < inject_Z (min_quantity tier_min_quantity tier))%Q →
   (a (tier_flag_key year carrier tier) == 0)%Q).
Proof.
  intros Hm Hf _ Hy Hc Ht. apply optimize_shipments_model in Hm as ->.
  assert (Hmin : (inject_Z (min_quantity tier_min_quantity tier)
                  * a (tier_flag_key year carrier tier)
                  <= Qsum ((λ dest, a (shipment_at_tier_key year carrier tier dest))
                             <$> destinations))%Q).
  { apply (holds_tier_minimum destinations shipment_target tier_min_quantity a
             year carrier tier).
    apply (feasible_holds _ a None _ Hf).
    by apply tier_minimum_constraint_elem. }
  assert (Hup : (Qsum ((λ dest, a (shipment_at_tier_key year carrier tier dest))
                         <$> destinations)
                 <= Qsum ((λ dest, target shipment_target year dest)
                            <$> destinations))%Q).
  { apply Qsum_fmap_le. intros dest Hd.
    by destruct (ship_bounds _ _ _ _ _ _ _ a year carrier tier dest Hf Hy Hc Ht Hd). }
  split; [|split; [exact Hup|]].
  - intros H1. rewrite H1 in Hmin. lra.
  - intros Hlt.
    destruct (flag_binary _ _ _ _ _ _ _ a year carrier tier Hf Hy Hc Ht) as [H0|H1];
      [done|].
    rewrite H1 in Hmin. lra.
Qed.

Lemma active_tier_minimum_met_witness :
  (inject_Z 5 <= Qsum ((λ dest, example.tiered_assignment
                                  (shipment_at_tier_key 0 "UPS" 1 dest)) <$> ["A"]))%Q.
Proof.
  refine (proj1 (active_tier_minimum_met 1%Z ["UPS"] ["A"] example.shipment_target
                   example.shipment_cost example.tier_min_quantity
                   example.discount_rate example.tiered example.tiered_assignment
                   0%Z "UPS" 1%Z example_tiered_built example_tiered_feasible
                   _ _ _ _) _).
  - apply NoDup_singleton.
  - apply elem_of_range. lia.
  - by left.
  - apply elem_of_range. split; [lia|reflexivity].
  - reflexivity.
Defined.

(** X5. The objective of a feasible assignment charges every carrier at the
    multiplier of its active tier only: it is the sum, over years, carriers
    and destinations, of the shipments at the active tier times the unit cost
    times the multiplier of that tier. *)
Theorem objective_at_active_tier
    num_years carriers destinations shipment_target shipment_cost
    tier_min_quantity discount_rate m a (active : Z → string → Z) :
  carrier_earned_discount.optimize_shipments num_years carriers destinations
    shipment_target shipment_cost tier_min_quantity discount_rate = Ok m →
  feasible m a →
  (∀ year carrier, year ∈ range num_years → carrier ∈ carriers →
     active year carrier ∈ range (len tier_min_quantity) ∧
     (a (tier_flag_key year carrier (active year carrier)) == 1)%Q) →
  (value a (objective m) ==
   Qsum ((λ year, Qsum ((λ carrier, Qsum ((λ dest,
       a (shipment_at_tier_key year carrier (active year carrier) dest)
       * unit_cost shipment_cost carrier dest
       * rate discount_rate carrier (active year carrier))
     <$> destinations)) <$> carriers)) <$> range num_years))%Q.
Proof.
  intros Hm Hf Hactive. apply optimize_shipments_model in Hm as ->.
  change (objective (tiered_model num_years carriers destinations shipment_target
                       shipment_cost tier_min_quantity discount_rate))
    with (tiered_objective num_years carriers destinations shipment_target
            shipment_cost tier_min_quantity discount_rate).
  rewrite tiered_objective_value.
  apply Qsum_fmap_ext. intros year Hy.
  apply Qsum_fmap_ext. intros carrier Hc.
  destruct (Hactive year carrier Hy Hc) as [Hin H1].
  apply (Qsum_single
           (λ tier, Qsum ((λ dest,
              a (shipment_at_tier_key year carrier tier dest)
              * unit_cost shipment_cost carrier dest
              * rate discount_rate carrier tier)%Q <$> destinations))
           (tiers tier_min_quantity) (active year carrier)).
  - apply NoDup_range.
  - exact Hin.
  - intros tier Ht Hne.
    destruct (tiered_one_tier _ _ _ _ _ _ _ a year carrier Hf Hy Hc)
      as (tier1 & Ht1 & Hone & Hothers).
    assert (active year carrier = tier1) as Heq.
    { destruct (decide (active year carrier = tier1)) as [|Hd]; [done|].
      rewrite (Hothers _ Hin Hd) in H1. discriminate H1. }
    apply Qsum_fmap_all_zero. intros dest Hd.
    rewrite (tiered_inactive_zero _ _ _ _ _ _ _ a year carrier tier dest Hf Hy Hc Ht Hd);
      [ring|].
    apply Hothers; [done|]. by rewrite <-Heq.
Qed.

Lemma objective_at_active_tier_witness :
  (value example.tiered_assignment (objective example.tiered) ==
   Qsum ((λ year, Qsum ((λ carrier, Qsum ((λ dest,
       example.tiered_assignment (shipment_at_tier_key year carrier 1 dest)
       * unit_cost example.shipment_cost carrier dest
       * rate example.discount_rate carrier 1)
     <$> ["A"])) <$> ["UPS"])) <$> range 1))%Q.
Proof.
  apply (objective_at_active_tier 1%Z ["UPS"] ["A"] example.shipment_target
           example.shipment_cost example.tier_min_quantity example.discount_rate
           example.tiered example.tiered_assignment (λ _ _, 1%Z)
           example_tiered_built example_tiered_feasible).
  intros year carrier Hy%elem_of_range ->%list_elem_of_singleton.
  assert (year = 0%Z) as -> by lia.
  split; [apply elem_of_range; split; [lia|reflexivity]|reflexivity].
Defined.

(** ** The tiered model on empty inputs *)

(** X6. A tiered model built with an empty list of tiers has no feasible
    assignment as soon as there is a year and a carrier; one built with an
    empty list of carriers is feasible only when every target is 0. *)
Theorem empty_tiers_or_carriers
    num_years carriers destinations shipment_target shipment_cost
    tier_min_quantity discount_rate m :
  carrier_earned_discount.optimize_shipments num_years carriers destinations
    shipment_target shipment_cost tier_min_quantity discount_rate = Ok m →
  (tier_min_quantity = [] → (0 < num_years)%Z → carriers ≠ [] →
   ∀ a, ¬ feasible m a) ∧
  (carriers = [] → ∀ a, feasible m a →
   ∀ year dest t, year ∈ range num_years → dest ∈ destinations →
     target_at shipment_target year dest = Ok t → (t == 0)%Q).
Proof.
  intros Hm. pose proof Hm as Hbuilt. apply optimize_shipments_model in Hm as ->.
  split.
  - intros -> Hy Hc a Hf.
    destruct carriers as [|carrier cs]; [done|].
    destruct (tiered_one_tier _ _ _ _ _ _ _ a 0%Z carrier Hf) as (tier & Ht & _).
    + apply elem_of_range. lia.
    + by left.
    + by apply elem_of_nil in Ht.
  - intros -> a Hf year dest t Hy Hd Ht.
    pose proof (tiered_target_met _ _ _ _ _ _ _ a year dest Hf Hy Hd) as Hsum.
    apply target_at_Ok in Ht as ->. rewrite <-Hsum. reflexivity.
Qed.

Lemma empty_tiers_or_carriers_witness :
  (∀ a, ¬ feasible
          (tiered_model 1 ["UPS"] ["A"] example.shipment_target
             example.shipment_cost [] example.discount_rate) a) ∧
  (∀ a, ¬ feasible
          (tiered_model 1 [] ["A"] example.shipment_target
             example.shipment_cost example.tier_min_quantity example.discount_rate) a).
Proof.
  split.
  - apply (empty_tiers_or_carriers 1%Z ["UPS"] ["A"] example.shipment_target
             example.shipment_cost [] example.discount_rate).
    + vm_compute. reflexivity.
    + reflexivity.
    + lia.
    + done.
  - intros a Hf.
    assert (H : (10 == 0)%Q); [|discriminate H].
    refine (proj2 (empty_tiers_or_carriers 1%Z [] ["A"] example.shipment_target
                     example.shipment_cost example.tier_min_quantity
                     example.discount_rate _ _) eq_refl a Hf 0%Z "A" 10%Q _ _ _).
    + vm_compute. reflexivity.
    + apply elem_of_range. lia.
    + by left.
    + reflexivity.
Defined.

(** ** When the network builder returns and when it raises *)

Lemma mapM_Ok_elem {A B} (f : A → result B) (l : list A) r x :
  mapM f l = Ok r → x ∈ l → ∃ y, f x = Ok y.
Proof.
  intros Hr Hx. destruct (f x) as [y|e] eqn:E; [by exists y|].
  exfalso. apply (mapM_not_Ok f l x Hx) with (r := r); [|done].
  intros y. rewrite E. discriminate.
Qed.

Lemma for__Ok_elem {A S} (l : list A) (body : S → A → result S) s s' x :
  for_ l body s = Ok s' → x ∈ l → ∃ s1 s2, body s1 x = Ok s2.
Proof.
  revert s. induction l as [|y l IH]; intros s H Hx; [by apply elem_of_nil in Hx|].
  simpl in H. inv_bind H.
  apply elem_of_cons in Hx as [->|Hx]; [by exists s, x0|by apply (IH x0)].
Qed.

Lemma getitem_ok_or `{Countable K} {V} (d : gmap K V) k : ok_or KeyError (getitem d k).
Proof. unfold getitem. by destruct (d !! k). Qed.

Lemma getitem2_ok_or {V} (d : gmap string (gmap string V)) i j :
  ok_or KeyError (getitem2 d i j).
Proof.
  unfold getitem2. apply ok_or_bind; [apply getitem_ok_or|].
  intros row _. apply getitem_ok_or.
Qed.

Lemma for__ok_or {A S} e (l : list A) (body : S → A → result S) s :
  (∀ s x, x ∈ l → ok_or e (body s x)) → ok_or e (for_ l body s).
Proof.
  revert s. induction l as [|x l IH]; intros s H; [done|]. simpl.
  apply ok_or_bind; [apply H; left|]. intros s1 _.
  apply IH. intros s2 y Hy. apply H. by right.
Qed.

Lemma dict_of_ok_or `{Countable K} {V} e (f : K → result V) ks :
  (∀ k, k ∈ ks → ok_or e (f k)) → ok_or e (dict_of f ks).
Proof.
  intros Hf. apply for__ok_or. intros d k Hk.
  apply ok_or_bind; [by apply Hf|]. done.
Qed.

Section network_totality.
Context (warehouses destinations : list string).
Context (target_distribution : gmap string Z).
Context (shipment_capacity : gmap string (gmap string Z)).
Context (warehouse_cost : gmap string Q).
Context (shipment_cost : gmap string (gmap string Q)).
Context (target_delivery_days : Z).
Context (delivery_tolerance : Q).
Context (delivery_estimate : gmap string (gmap string Z)).

#[local] Abbreviation build :=
  (warehouse_shipments.optimize_shipments warehouses destinations
     target_distribution shipment_capacity warehouse_cost shipment_cost
     target_delivery_days delivery_tolerance delivery_estimate).
#[local] Abbreviation present :=
  (network_entries_present warehouses destinations target_distribution
     shipment_capacity warehouse_cost shipment_cost delivery_estimate).

Lemma network_build_ok_or : ok_or KeyError build.
Proof.
  unfold warehouse_shipments.optimize_shipments.
  apply ok_or_bind.
  { apply dict_of_ok_or. intros [i j] _.
    apply ok_or_bind; [apply getitem2_ok_or|done]. }
  intros counts _. apply ok_or_bind; [by apply dict_of_ok_or|].
  intros usage _. apply ok_or_bind.
  { apply dict_of_ok_or. intros [i j] _.
    apply ok_or_bind; [apply getitem2_ok_or|done]. }
  intros failure _. apply ok_or_bind.
  { unfold comprehension_for. apply ok_or_bind; [|done].
    apply mapM_ok_or. intros i _. apply mapM_ok_or. intros j _.
    apply ok_or_bind; [apply getitem_ok_or|]. intros v _.
    apply ok_or_bind; [apply getitem2_ok_or|done]. }
  intros shipment_terms _. apply ok_or_bind.
  { apply mapM_ok_or. intros i _.
    apply ok_or_bind; [apply getitem_ok_or|]. intros u _.
    apply ok_or_bind; [apply getitem_ok_or|done]. }
  intros usage_terms _. apply ok_or_bind.
  { apply for__ok_or. intros p i _. apply for__ok_or. intros p' j _.
    apply ok_or_bind; [apply getitem_ok_or|]. intros v _.
    apply ok_or_bind; [apply getitem2_ok_or|]. intros c _.
    apply ok_or_bind; [apply getitem_ok_or|done]. }
  intros p1 _. apply ok_or_bind.
  { apply for__ok_or. intros p j _.
    apply ok_or_bind.
    { apply mapM_ok_or. intros i _. apply ok_or_bind; [apply getitem_ok_or|done]. }
    intros total _. apply ok_or_bind; [apply getitem_ok_or|done]. }
  intros p2 _. apply for__ok_or. intros p j _.
  apply ok_or_bind.
  { apply mapM_ok_or. intros i _.
    apply ok_or_bind; [apply getitem_ok_or|]. intros f _.
    apply ok_or_bind; [apply getitem_ok_or|done]. }
  intros failed _. apply ok_or_bind; [|done].
  apply mapM_ok_or. intros i _. apply ok_or_bind; [apply getitem_ok_or|done].
Qed.

Lemma network_build_present m : build = Ok m → present.
Proof.
  unfold warehouse_shipments.optimize_shipments. intros H.
  inv_bind H. rename x into counts, E into Hcounts.
  inv_bind H. rename x into usage, E into Husage.
  inv_bind H. rename x into failure, E into Hfailure.
  inv_bind H. rename x into shipment_terms, E into Hterms.
  inv_bind H. rename x into usage_terms, E into Huterms.
  inv_bind H. rename x into p1, E into Hp1.
  inv_bind H. rename x into p2, E into Hp2.
  split; [|split].
  - intros i j Hi Hj.
    assert (Hij : (i, j) ∈ pairs warehouses destinations) by (by apply elem_of_pairs).
    split; [|split].
    + destruct (dict_of_elem _ _ _ _ Hcounts Hij) as [v Hv].
      apply (dict_of_getitem _ _ _ _ _ Hcounts) in Hv. simpl in Hv.
      inv_bind Hv. by eexists.
    + unfold comprehension_for in Hterms. inv_bind Hterms.
      destruct (mapM_Ok_elem _ _ _ i E Hi) as [row Hrow].
      destruct (mapM_Ok_elem _ _ _ j Hrow Hj) as [t Ht].
      inv_bind Ht. inv_bind Ht. by eexists.
    + destruct (dict_of_elem _ _ _ _ Hfailure Hij) as [v Hv].
      apply (dict_of_getitem _ _ _ _ _ Hfailure) in Hv. simpl in Hv.
      inv_bind Hv. by eexists.
  - intros i Hi.
    destruct (mapM_Ok_elem _ _ _ i Huterms Hi) as [t Ht].
    inv_bind Ht. inv_bind Ht. by eexists.
  - intros j Hj.
    destruct (for__Ok_elem _ _ _ _ j Hp2 Hj) as (s1 & s2 & Hbody).
    inv_bind Hbody. inv_bind Hbody. by eexists.
Qed.

Lemma network_build_total : present → ∃ m, build = Ok m.
Proof.
  intros (Hpairs & Hcost & Htarget).
  unfold warehouse_shipments.optimize_shipments.
  apply bind_total2.
  { apply dict_of_total. intros [i j] [Hi Hj]%elem_of_pairs.
    destruct (Hpairs i j Hi Hj) as ([c ->] & _). by eexists. }
  intros counts Hcounts. apply bind_total2.
  { apply dict_of_total. intros i Hi. by eexists. }
  intros usage Husage. apply bind_total2.
  { apply dict_of_total. intros [i j] [Hi Hj]%elem_of_pairs.
    destruct (Hpairs i j Hi Hj) as (_ & _ & [d ->]). by eexists. }
  intros failure Hfailure.
  assert (Hcount : ∀ i j, i ∈ warehouses → j ∈ destinations →
                     ∃ v, getitem counts (i, j) = Ok v).
  { intros i j Hi Hj. apply (dict_of_elem _ _ _ _ Hcounts). by apply elem_of_pairs. }
  assert (Huse : ∀ i, i ∈ warehouses → ∃ u, getitem usage i = Ok u).
  { intros i Hi. by apply (dict_of_elem _ _ _ _ Husage). }
  assert (Hfail : ∀ i j, i ∈ warehouses → j ∈ destinations →
                    ∃ f, getitem failure (i, j) = Ok f).
  { intros i j Hi Hj. apply (dict_of_elem _ _ _ _ Hfailure). by apply elem_of_pairs. }
  apply bind_total2.
  { apply comprehension_for_total. intros i Hi.
    apply comprehension_total. intros j Hj.
    destruct (Hcount i j Hi Hj) as [v ->].
    destruct (Hpairs i j Hi Hj) as (_ & [c ->] & _). by eexists. }
  intros shipment_terms _. apply bind_total2.
  { apply comprehension_total. intros i Hi.
    destruct (Huse i Hi) as [u ->]. destruct (Hcost i Hi) as [c ->]. by eexists. }
  intros usage_terms _. apply bind_total2.
  { apply for__total. intros p i Hi. apply for__total. intros p' j Hj.
    destruct (Hcount i j Hi Hj) as [v ->].
    destruct (Hpairs i j Hi Hj) as ([c ->] & _).
    destruct (Huse i Hi) as [u ->]. by eexists. }
  intros p1 _. apply bind_total2.
  { apply for__total. intros p j Hj.
    apply bind_total2.
    { apply comprehension_total. intros i Hi.
      destruct (Hcount i j Hi Hj) as [v ->]. by eexists. }
    intros total _. destruct (Htarget j Hj) as [t ->]. by eexists. }
  intros p2 _. apply for__total. intros p j Hj.
  apply bind_total2.
  { apply comprehension_total. intros i Hi.
    destruct (Hfail i j Hi Hj) as [f ->].
    destruct (Hcount i j Hi Hj) as [v ->]. by eexists. }
  intros failed _. apply bind_total2; [|by eexists].
  apply comprehension_total. intros i Hi.
  destruct (Hcount i j Hi Hj) as [v ->]. by eexists.
Qed.
End network_totality.

(** X7. With constraint names that are distinct, the network builder returns
    a model exactly when every dictionary entry it reads is present: the
    capacity, unit cost and delivery estimate of every route, the fixed cost
    of every warehouse and the target of every destination. When one is
    missing it raises [KeyError], and never any other exception. *)
Theorem network_builder_needs_every_entry
    warehouses destinations target_distribution shipment_capacity warehouse_cost
    shipment_cost target_delivery_days delivery_tolerance delivery_estimate :
  NoDup (network_constraint_names warehouses destinations) →
  (network_entries_present warehouses destinations target_distribution
     shipment_capacity warehouse_cost shipment_cost delivery_estimate →
   ∃ m, warehouse_shipments.optimize_shipments warehouses destinations
          target_distribution shipment_capacity warehouse_cost shipment_cost
          target_delivery_days delivery_tolerance delivery_estimate = Ok m) ∧
  (¬ network_entries_present warehouses destinations target_distribution
       shipment_capacity warehouse_cost shipment_cost delivery_estimate →
   warehouse_shipments.optimize_shipments warehouses destinations
     target_distribution shipment_capacity warehouse_cost shipment_cost
     target_delivery_days delivery_tolerance delivery_estimate = Raise KeyError).
Proof.
  intros _. split; [apply network_build_total|].
  intros Hmissing. apply ok_or_Raise; [apply network_build_ok_or|].
  intros m Hm. apply Hmissing.
  by apply (network_build_present warehouses destinations target_distribution
              shipment_capacity warehouse_cost shipment_cost target_delivery_days
              delivery_tolerance delivery_estimate m).
Qed.

Lemma network_builder_needs_every_entry_witness :
  (∃ m, warehouse_shipments.optimize_shipments ["a"; "b"] ["x"]
          example.target_distribution example.shipment_capacity
          example.warehouse_cost example.route_cost 3 0.5
          example.delivery_estimate = Ok m) ∧
  warehouse_shipments.optimize_shipments ["a"; "b"] ["x"]
    example.target_distribution example.shipment_capacity
    {[ "a" := 10%Q ]} example.route_cost 3 0.5
    example.delivery_estimate = Raise KeyError.
Proof.
  assert (Hnames : NoDup (network_constraint_names ["a"; "b"] ["x"])).
  { apply (bool_decide_unpack _). vm_compute. exact I. }
  split.
  - apply (network_builder_needs_every_entry ["a"; "b"] ["x"]); [exact Hnames|].
    split; [|split].
    + intros i j Hi ->%list_elem_of_singleton.
      repeat (apply elem_of_cons in Hi as [->|Hi];
              [repeat split; by eexists|]).
      by apply elem_of_nil in Hi.
    + intros i Hi.
      repeat (apply elem_of_cons in Hi as [->|Hi]; [by eexists|]).
      by apply elem_of_nil in Hi.
    + intros j ->%list_elem_of_singleton. by eexists.
  - apply (network_builder_needs_every_entry ["a"; "b"] ["x"]); [exact Hnames|].
    intros (_ & Hcost & _).
    destruct (Hcost "b") as [c Hc]; [right; by left|]. discriminate Hc.
Defined.

(** ** The size of the models *)

(** X8. The number of constraints of a built model. The tiered model has,
    for every year and carrier, one tier-selection constraint and, for every
    tier, one gating constraint per destination and one minimum constraint,
    and it has one target constraint for every year and destination: years x
    carriers x (1 + tiers x (destinations + 1)) + years x destinations in
    all. The network model has one usage constraint per route and two
    constraints per destination: warehouses x destinations + 2 x
    destinations in all. *)
Theorem model_sizes :
  (∀ num_years carriers destinations shipment_target shipment_cost
     tier_min_quantity discount_rate m,
     carrier_earned_discount.optimize_shipments num_years carriers destinations
       shipment_target shipment_cost tier_min_quantity discount_rate = Ok m →
     length (constraints m)
     = (Z.to_nat num_years * length carriers
          * (1 + length tier_min_quantity * (length destinations + 1))
        + Z.to_nat num_years * length destinations)%nat) ∧
  (∀ warehouses destinations target_distribution shipment_capacity warehouse_cost
     shipment_cost target_delivery_days delivery_tolerance delivery_estimate n,
     warehouse_shipments.optimize_shipments warehouses destinations
       target_distribution shipment_capacity warehouse_cost shipment_cost
       target_delivery_days delivery_tolerance delivery_estimate = Ok n →
     length (constraints n)
     = (length warehouses * length destinations + 2 * length destinations)%nat).
Proof.
  split.
  - intros ny cs ds st sc tmq dr m Hm. apply optimize_shipments_model in Hm as ->.
    change (constraints (tiered_model ny cs ds st sc tmq dr))
      with (tiered_constraints ny cs ds st tmq).
    unfold tiered_constraints. rewrite length_app.
    transitivity
      (Z.to_nat ny * (length cs * (1 + length tmq * (length ds + 1)))
       + Z.to_nat ny * (length ds * 1))%nat; [|nia].
    f_equal.
    + rewrite (length_bind_const _ _
                 (length cs * (1 + length tmq * (length ds + 1)))).
      { unfold years. by rewrite length_range. }
      intros year _. apply length_bind_const. intros carrier _.
      unfold tier_constraints. cbn [length]. f_equal.
      rewrite (length_bind_const _ _ (length ds + 1)).
      { unfold tiers. rewrite length_range. unfold len. by rewrite Nat2Z.id. }
      intros tier _. by rewrite length_app, length_fmap.
    + rewrite (length_bind_const _ _ (length ds * 1)).
      { unfold years. by rewrite length_range. }
      intros year _. by apply length_bind_const.
  - intros ws ds td cap wc sc tdd tol de n Hn.
    apply network_optimize_shipments_model in Hn as ->.
    change (constraints (network_model ws ds td cap wc sc tdd tol de))
      with (network_constraints ws ds td cap tdd tol de).
    unfold network_constraints. rewrite !length_app, !length_fmap.
    transitivity
      (length ws * (length ds * 1) + (length ds + length ds))%nat; [|nia].
    f_equal.
    apply length_bind_const. intros i _. by apply length_bind_const.
Qed.

Lemma model_sizes_witness :
  length (constraints example.tiered) = 6%nat ∧
  length (constraints example.network) = 4%nat.
Proof.
  destruct model_sizes as [Htiered Hnetwork]. split.
  - apply (Htiered _ _ _ _ _ _ _ _ example_tiered_built).
  - apply (Hnetwork _ _ _ _ _ _ _ _ _ _ example_network_built).
Defined.

(** * The network report *)

(** ** Loops that print and add up *)

Lemma for__lines_total {A L T} (g : A → list L) (h : T → A → T) (l : list A)
    (body : list L * T → A → result (list L * T)) out0 t0 :
  (∀ out t x, x ∈ l → body (out, t) x = Ok (out ++ g x, h t x)) →
  for_ l body (out0, t0) = Ok (out0 ++ (l ≫= g), foldl h t0 l).
Proof.
  revert out0 t0. induction l as [|x l IH]; intros out0 t0 H.
  - simpl. by rewrite app_nil_r.
  - simpl. rewrite H by left. simpl. rewrite IH.
    + by rewrite <-app_assoc.
    + intros out t y Hy. apply H. by right.
Qed.

Lemma for__lines {A L} (g : A → list L) (l : list A)
    (body : list L → A → result (list L)) out0 :
  (∀ out x, x ∈ l → body out x = Ok (out ++ g x)) →
  for_ l body out0 = Ok (out0 ++ (l ≫= g)).
Proof.
  revert out0. induction l as [|x l IH]; intros out0 H.
  - simpl. by rewrite app_nil_r.
  - simpl. rewrite H by left. simpl. rewrite IH.
    + by rewrite <-app_assoc.
    + intros out y Hy. apply H. by right.
Qed.

Lemma comprehension_pure {A B} (f : A → result B) (g : A → B) (l : list A) :
  (∀ x, x ∈ l → f x = Ok (g x)) → comprehension f l = Ok (g <$> l).
Proof.
  unfold comprehension. induction l as [|x l IH]; intros H; [done|].
  simpl. rewrite H by left. simpl. rewrite IH; [done|].
  intros y Hy. apply H. by right.
Qed.

Section network_report.
Import warehouse_shipments.
Context (problem : LpProblem NetKey) (solution : Solution NetKey).
Context (warehouses destinations : list string).
Context (target_distribution : gmap string Z).
Context (warehouse_cost : gmap string Q).
Context (shipment_cost : gmap string (gmap string Q)).
Context (target_delivery_days : Z).
Context (delivery_estimate : gmap string (gmap string Z)).
Context (shipment_counts : gmap (string * string) Z).
Context (warehouse_usage : gmap string Z).
Context (status_name : string).

Hypothesis status_named : getitem LpStatus (status solution) = Ok status_name.
Hypothesis extracted :
  extract_solution problem solution = Ok (shipment_counts, warehouse_usage).
Hypothesis fixed_costs_present :
  ∀ i, i ∈ warehouses → ∃ c, getitem warehouse_cost i = Ok c.
Hypothesis routes_present :
  ∀ i j, i ∈ warehouses → j ∈ destinations →
    (∃ c, getitem2 shipment_cost i j = Ok c) ∧
    (∃ d, getitem2 delivery_estimate i j = Ok d).

(** With every entry present the report is the list of lines read off
    above. *)
Lemma optimal_report_lines :
  optimal_report problem solution warehouses destinations target_distribution
    warehouse_cost shipment_cost target_delivery_days delivery_estimate
  = Ok (report_lines warehouses destinations target_distribution warehouse_cost
          shipment_cost target_delivery_days delivery_estimate shipment_counts
          warehouse_usage status_name
          (value (varValue solution) (objective problem))).
Proof.
  unfold optimal_report. rewrite status_named. cbn [mbind result_bind].
  rewrite extracted. cbn [mbind result_bind].
  rewrite (for__lines_total
    (λ i, [WarehouseLine i (get0 warehouse_usage i =? 1)%Z
             (fixed_cost warehouse_cost i * inject_Z (get0 warehouse_usage i))%Q])
    (λ total i,
       (total + fixed_cost warehouse_cost i * inject_Z (get0 warehouse_usage i))%Q)).
  2:{ intros out t i Hi. destruct (fixed_costs_present i Hi) as [c Hc].
      unfold fixed_cost. rewrite Hc. reflexivity. }
  cbn [mbind result_bind].
  rewrite (for__lines_total
    (λ '(i, j),
       let count := get0 shipment_counts (i, j) in
       if (0 <? count)%Z then
         [RouteLine i j count (route_cost shipment_cost i j)
            (inject_Z count * route_cost shipment_cost i j)%Q]
       else [])
    (λ total '(i, j),
       let count := get0 shipment_counts (i, j) in
       if (0 <? count)%Z
       then (total + inject_Z count * route_cost shipment_cost i j)%Q else total)).
  2:{ intros out t [i j] [Hi Hj]%elem_of_pairs. cbn zeta.
      destruct (0 <? get0 shipment_counts (i, j))%Z; [|by rewrite app_nil_r].
      destruct (routes_present i j Hi Hj) as ([c Hc] & _).
      unfold route_cost. rewrite Hc. reflexivity. }
  cbn [mbind result_bind].
  rewrite (for__pure
    (λ '(total_delivery_days, on_time_shipments, late_shipments) '(i, j),
       let count := get0 shipment_counts (i, j) in
       if (0 <? count)%Z then
         let days := estimate delivery_estimate i j in
         if (days <=? target_delivery_days)%Z
         then ((total_delivery_days + days * count)%Z,
               (on_time_shipments + count)%Z, late_shipments)
         else ((total_delivery_days + days * count)%Z,
               on_time_shipments, (late_shipments + count)%Z)
       else (total_delivery_days, on_time_shipments, late_shipments))).
  2:{ intros [[t o] l] [i j] [Hi Hj]%elem_of_pairs. cbn zeta.
      destruct (0 <? get0 shipment_counts (i, j))%Z; [|done].
      destruct (routes_present i j Hi Hj) as (_ & [d Hd]).
      unfold estimate. rewrite Hd. cbn [mbind result_bind or0Z].
      by destruct (d <=? target_delivery_days)%Z. }
  cbn [mbind result_bind].
  fold (delivery_totals warehouses destinations target_delivery_days
          delivery_estimate shipment_counts).
  destruct (delivery_totals warehouses destinations target_delivery_days
              delivery_estimate shipment_counts) as [[tdays on_time] late] eqn:Htotals.
  rewrite (for__lines
    (λ j,
       if (0 <? dest_actual warehouses shipment_counts j)%Z then
         [DestinationDelivery j
            (truediv (Zsum ((λ i, get0 shipment_counts (i, j)
                                  * estimate delivery_estimate i j)%Z
                              <$> warehouses))
                     (dest_actual warehouses shipment_counts j))
            (dest_on_time warehouses target_delivery_days delivery_estimate
               shipment_counts j)
            (dest_actual warehouses shipment_counts j
             - dest_on_time warehouses target_delivery_days delivery_estimate
                 shipment_counts j)%Z
            (pct (dest_actual warehouses shipment_counts j
                  - dest_on_time warehouses target_delivery_days delivery_estimate
                      shipment_counts j)
                 (dest_actual warehouses shipment_counts j))]
       else [])).
  2:{ intros out j Hj. cbn zeta. fold (dest_actual warehouses shipment_counts j).
      destruct (0 <? dest_actual warehouses shipment_counts j)%Z;
        [|by rewrite app_nil_r].
      rewrite (comprehension_pure
        (λ i, days ← getitem2 delivery_estimate i j;
              Ok (get0 shipment_counts (i, j) * days)%Z)
        (λ i, (get0 shipment_counts (i, j) * estimate delivery_estimate i j)%Z)).
      2:{ intros i Hi. destruct (routes_present i j Hi Hj) as (_ & [d Hd]).
          unfold estimate. by rewrite Hd. }
      cbn [mbind result_bind].
      rewrite (comprehension_pure
        (λ i, days ← getitem2 delivery_estimate i j;
              Ok (if (days <=? target_delivery_days)%Z
                  then get0 shipment_counts (i, j) else 0%Z))
        (λ i, if (estimate delivery_estimate i j <=? target_delivery_days)%Z
              then get0 shipment_counts (i, j) else 0%Z)).
      2:{ intros i Hi. destruct (routes_present i j Hi Hj) as (_ & [d Hd]).
          unfold estimate. by rewrite Hd. }
      reflexivity. }
  cbn [mbind result_bind]. f_equal.
  unfold report_lines, warehouse_lines, destination_lines, warehouse_share_lines,
    route_lines, destination_delivery_lines, fixed_cost_total, variable_cost_total,
    dashes, total_shipments.
  rewrite Htotals, bind_singleton_fmap. cbn [fst snd].
  rewrite <-!app_assoc. reflexivity.
Qed.
End network_report.

(** ** Reading integers and fixed costs back *)

Lemma int_inject_Z (q : Q) (z : Z) : (q == inject_Z z)%Q → int q = z.
Proof.
  unfold Qeq, int, inject_Z. destruct q as [n d]. simpl. intros H.
  rewrite Z.mul_1_r in H. subst n. by rewrite Z.quot_mul.
Qed.

Lemma integer_int (q : Q) : is_integer q → (q == inject_Z (int q))%Q.
Proof. intros [z Hz]. by rewrite (int_inject_Z q z Hz). Qed.

Lemma foldl_Qplus {A} (h : A → Q) (l : list A) (t0 : Q) :
  (foldl (λ t x, t + h x) t0 l == t0 + Qsum (h <$> l))%Q.
Proof.
  revert t0. induction l as [|x l IH]; intros t0.
  - unfold Qsum. simpl. ring.
  - cbn [foldl]. rewrite IH.
    change (Qsum (h <$> x :: l)) with (h x + Qsum (h <$> l))%Q. ring.
Qed.

Lemma warehouse_usage_name_parse i :
  plain_name i = true →
  replace (translate (warehouse_usage_name i)) "warehouse_usage_" "" = i.
Proof.
  intros [Hi Ti]%plain_name_spec.
  unfold warehouse_usage_name. rewrite translate_app, Ti.
  change (translate "warehouse_usage_") with "warehouse_usage_".
  rewrite replace_prefix.
  rewrite (replace_go_id "_" "warehouse_usage_" "" i); [done|].
  rewrite (count_char_contains _ i Hi). simpl. lia.
Qed.

Lemma foldl_extract_step_usage solution vars st i :
  (∀ v i', v ∈ vars → key v = warehouse_usage_key i' →
     replace (name v) "warehouse_usage_" "" = i') →
  (∃ v, v ∈ vars ∧ key v = warehouse_usage_key i) →
  (foldl (extract_step solution) st vars).2 !! i
  = Some (int (varValue solution (warehouse_usage_key i))).
Proof.
  induction vars as [|v vars IH] using rev_ind.
  - intros _ (v & Hv & _). by apply elem_of_nil in Hv.
  - intros Hnames (w & Hw & Hk). rewrite foldl_app. simpl.
    assert (Hnames' : ∀ v i', v ∈ vars → key v = warehouse_usage_key i' →
                        replace (name v) "warehouse_usage_" "" = i').
    { intros v' i' Hv'. apply Hnames. apply elem_of_app. by left. }
    unfold extract_step at 1.
    destruct (key v) as [i' j'|i'] eqn:Hv; simpl.
    + apply IH; [done|]. apply elem_of_app in Hw as [Hw|Hw]; [by exists w|].
      apply list_elem_of_singleton in Hw as ->. congruence.
    + rewrite (Hnames v i'); [|apply elem_of_app; right; by left|done].
      destruct (decide (i' = i)) as [->|Hne].
      * by rewrite lookup_insert_eq.
      * rewrite lookup_insert_ne by done. apply IH; [done|].
        apply elem_of_app in Hw as [Hw|Hw]; [by exists w|].
        apply list_elem_of_singleton in Hw as ->. congruence.
Qed.

Section network_report_values.
Import warehouse_shipments.
Context (warehouses destinations : list string).
Context (target_distribution : gmap string Z).
Context (shipment_capacity : gmap string (gmap string Z)).
Context (warehouse_cost : gmap string Q).
Context (shipment_cost : gmap string (gmap string Q)).
Context (target_delivery_days : Z).
Context (delivery_tolerance : Q).
Context (delivery_estimate : gmap string (gmap string Z)).
Context (solution : Solution NetKey).
Local Open Scope Q_scope.

#[local] Abbreviation model :=
  (network_model warehouses destinations target_distribution shipment_capacity
     warehouse_cost shipment_cost target_delivery_days delivery_tolerance
     delivery_estimate).
#[local] Abbreviation a := (varValue solution).
#[local] Abbreviation extracted :=
  (foldl (extract_step solution) (∅, ∅) (variables model)).

Hypothesis plain_warehouses : ∀ i, i ∈ warehouses → plain_name i = true.
Hypothesis plain_destinations : ∀ j, j ∈ destinations → plain_name j = true.
Hypothesis solution_feasible : feasible model a.

Lemma usage_var_occurs i : i ∈ warehouses → usage_var i ∈ all_variables model.
Proof.
  intros Hi. unfold all_variables. apply elem_of_app. left.
  change (objective model) with
    (network_objective warehouses destinations shipment_capacity warehouse_cost
       shipment_cost).
  rewrite network_objective_variables. apply elem_of_app. right.
  by apply list_elem_of_fmap_2.
Qed.

Lemma extracted_usage i :
  i ∈ warehouses →
  get0 extracted.2 i = int (a (warehouse_usage_key i)).
Proof.
  intros Hi. unfold get0.
  rewrite (foldl_extract_step_usage solution (variables model) (∅, ∅) i); [done| |].
  - intros v i' Hv%variables_sound%network_all_variables Hk.
    destruct Hv as [(i1 & j1 & _ & _ & ->)|(i1 & Hi1 & ->)]; [discriminate Hk|].
    injection Hk as ->.
    change (name (usage_var i')) with (translate (warehouse_usage_name i')).
    apply warehouse_usage_name_parse. by apply plain_warehouses.
  - destruct (variables_complete model (usage_var i)) as (v & Hv & Hk);
      [by apply usage_var_occurs|].
    by exists v.
Qed.

Lemma extracted_count i j :
  i ∈ warehouses → j ∈ destinations →
  get0 extracted.1 (i, j) = int (a (shipment_count_key i j)).
Proof.
  intros Hi Hj. unfold get0.
  by rewrite (extract_solution_lookup warehouses destinations target_distribution
                shipment_capacity warehouse_cost shipment_cost target_delivery_days
                delivery_tolerance delivery_estimate solution i j Hi Hj).
Qed.

Lemma count_integer i j :
  i ∈ warehouses → j ∈ destinations →
  a (shipment_count_key i j) == inject_Z (get0 extracted.1 (i, j)) ∧
  (0 <= get0 extracted.1 (i, j))%Z.
Proof.
  intros Hi Hj. rewrite extracted_count by done.
  destruct solution_feasible as [_ Hb].
  destruct (Hb (count_var shipment_capacity i j)) as (Hlo & _ & Hint).
  { by apply count_var_occurs. }
  pose proof (integer_int _ (Hint eq_refl)) as Hz. split; [exact Hz|].
  specialize (Hlo 0 eq_refl). simpl in Hlo, Hz. rewrite Hz in Hlo.
  change 0 with (inject_Z 0) in Hlo. by rewrite <-Zle_Qle in Hlo.
Qed.

Lemma usage_integer i :
  i ∈ warehouses →
  a (warehouse_usage_key i) == inject_Z (get0 extracted.2 i) ∧
  (get0 extracted.2 i = 0%Z ∨ get0 extracted.2 i = 1%Z).
Proof.
  intros Hi. rewrite extracted_usage by done.
  destruct solution_feasible as [_ Hb].
  destruct (Hb (usage_var i)) as (Hlo & Hup & Hint).
  { by apply usage_var_occurs. }
  pose proof (integer_int _ (Hint eq_refl)) as Hz. split; [exact Hz|].
  specialize (Hlo 0 eq_refl). specialize (Hup 1 eq_refl).
  simpl in Hlo, Hup, Hz. rewrite Hz in Hlo, Hup.
  change 0 with (inject_Z 0) in Hlo. change 1 with (inject_Z 1) in Hup.
  rewrite <-Zle_Qle in Hlo, Hup. lia.
Qed.

(** The two printed totals, as sums over the assignment. *)
Lemma fixed_cost_total_value :
  fixed_cost_total warehouses warehouse_cost extracted.2
  == Qsum ((λ i, a (warehouse_usage_key i) * fixed_cost warehouse_cost i)
             <$> warehouses).
Proof.
  unfold fixed_cost_total.
  rewrite (foldl_Qplus
             (λ i, fixed_cost warehouse_cost i * inject_Z (get0 extracted.2 i))).
  rewrite Qplus_0_l. apply Qsum_fmap_ext. intros i Hi.
  destruct (usage_integer i Hi) as [-> _]. ring.
Qed.

Lemma foldl_route_costs (l : list (string * string)) (t0 : Q) :
  (∀ i j, (i, j) ∈ l → i ∈ warehouses ∧ j ∈ destinations) →
  foldl (λ total '(i, j),
    let count := get0 extracted.1 (i, j) in
    if (0 <? count)%Z
    then total + inject_Z count * route_cost shipment_cost i j else total) t0 l
  == t0 + Qsum ((λ '(i, j), a (shipment_count_key i j)
                            * route_cost shipment_cost i j) <$> l).
Proof.
  revert t0. induction l as [|[i j] l IH]; intros t0 Hl.
  - unfold Qsum. simpl. ring.
  - cbn [foldl]. rewrite IH by (intros i' j' H'; apply Hl; by right).
    change (Qsum ((λ '(i, j), a (shipment_count_key i j)
                              * route_cost shipment_cost i j) <$> (i, j) :: l))
      with (a (shipment_count_key i j) * route_cost shipment_cost i j
            + Qsum ((λ '(i, j), a (shipment_count_key i j)
                                * route_cost shipment_cost i j) <$> l)).
    cbn zeta.
    destruct (Hl i j) as [Hi Hj]; [by left|].
    destruct (count_integer i j Hi Hj) as [Hc Hpos]. rewrite Hc.
    destruct (0 <? get0 extracted.1 (i, j))%Z eqn:E; [ring|].
    apply Z.ltb_ge in E. assert (get0 extracted.1 (i, j) = 0%Z) as -> by lia.
    change (inject_Z 0) with 0. ring.
Qed.

Lemma variable_cost_total_value :
  variable_cost_total warehouses destinations shipment_cost extracted.1
  == Qsum ((λ i, Qsum ((λ j, a (shipment_count_key i j)
                             * route_cost shipment_cost i j) <$> destinations))
             <$> warehouses).
Proof.
  unfold variable_cost_total. rewrite foldl_route_costs.
  - assert (E : (λ '(i, j), a (shipment_count_key i j)
                            * route_cost shipment_cost i j)
                <$> pairs warehouses destinations
                = i ← warehouses;
                  (λ j, a (shipment_count_key i j)
                        * route_cost shipment_cost i j) <$> destinations).
    { unfold pairs. rewrite fmap_list_bind. apply list_bind_ext; [|done].
      intros i. rewrite fmap_list_bind.
      etransitivity; [|apply bind_singleton_fmap]. by apply list_bind_ext. }
    rewrite E, Qsum_bind, Qplus_0_l. reflexivity.
  - intros i j. apply elem_of_pairs.
Qed.
End network_report_values.

(** ** Which lines the report holds *)

Section report_lines_inversion.
Import warehouse_shipments.
Context (warehouses destinations : list string).
Context (target_distribution : gmap string Z).
Context (warehouse_cost : gmap string Q).
Context (shipment_cost : gmap string (gmap string Q)).
Context (target_delivery_days : Z).
Context (delivery_estimate : gmap string (gmap string Z)).
Context (shipment_counts : gmap (string * string) Z).
Context (warehouse_usage : gmap string Z).
Context (status_name : string) (total_cost : Q).

#[local] Abbreviation report :=
  (report_lines warehouses destinations target_distribution warehouse_cost
     shipment_cost target_delivery_days delivery_estimate shipment_counts
     warehouse_usage status_name total_cost).

Lemma in_warehouse_lines line :
  line ∈ warehouse_lines warehouses warehouse_cost warehouse_usage →
  ∃ i, i ∈ warehouses ∧
    line = WarehouseLine i (get0 warehouse_usage i =? 1)%Z
             (fixed_cost warehouse_cost i * inject_Z (get0 warehouse_usage i))%Q.
Proof.
  unfold warehouse_lines. intros (i & -> & Hi)%list_elem_of_fmap. by exists i.
Qed.

Lemma in_route_lines line :
  line ∈ route_lines warehouses destinations shipment_cost shipment_counts →
  ∃ i j, i ∈ warehouses ∧ j ∈ destinations ∧
    (0 < get0 shipment_counts (i, j))%Z ∧
    line = RouteLine i j (get0 shipment_counts (i, j))
             (route_cost shipment_cost i j)
             (inject_Z (get0 shipment_counts (i, j))
              * route_cost shipment_cost i j)%Q.
Proof.
  unfold route_lines. intros ([i j] & Hin & [Hi Hj]%elem_of_pairs)%list_elem_of_bind.
  cbn zeta in Hin.
  destruct (0 <? get0 shipment_counts (i, j))%Z eqn:E; [|by apply elem_of_nil in Hin].
  apply list_elem_of_singleton in Hin as ->. apply Z.ltb_lt in E. by exists i, j.
Qed.

Lemma in_destination_lines line :
  line ∈ destination_lines warehouses destinations target_distribution
           shipment_counts →
  ∃ j, j ∈ destinations ∧
    line = DestinationLine j (dest_actual warehouses shipment_counts j)
             (get0 target_distribution j)
             (pct (dest_actual warehouses shipment_counts j)
                (total_shipments target_distribution)).
Proof.
  unfold destination_lines. intros (j & -> & Hj)%list_elem_of_fmap. by exists j.
Qed.

Lemma in_warehouse_share_lines line :
  line ∈ warehouse_share_lines warehouses destinations target_distribution
           shipment_counts →
  ∃ i, i ∈ warehouses ∧
    line = WarehouseShare i (warehouse_total destinations shipment_counts i)
             (pct (warehouse_total destinations shipment_counts i)
                (total_shipments target_distribution)).
Proof.
  unfold warehouse_share_lines. intros (i & -> & Hi)%list_elem_of_fmap. by exists i.
Qed.

Lemma in_destination_delivery_lines line :
  line ∈ destination_delivery_lines warehouses destinations target_delivery_days
           delivery_estimate shipment_counts →
  ∃ j avg pct_late, j ∈ destinations ∧
    (0 < dest_actual warehouses shipment_counts j)%Z ∧
    line = DestinationDelivery j avg
             (dest_on_time warehouses target_delivery_days delivery_estimate
                shipment_counts j)
             (dest_actual warehouses shipment_counts j
              - dest_on_time warehouses target_delivery_days delivery_estimate
                  shipment_counts j)%Z
             pct_late.
Proof.
  unfold destination_delivery_lines. intros (j & Hin & Hj)%list_elem_of_bind.
  destruct (0 <? dest_actual warehouses shipment_counts j)%Z eqn:E;
    [|by apply elem_of_nil in Hin].
  apply list_elem_of_singleton in Hin as ->. apply Z.ltb_lt in E.
  by eexists j, _, _.
Qed.

(** Splits the membership of a line in the report into the blocks of the
    report and discards the blocks that hold other kinds of lines. *)
Ltac in_report H :=
  unfold report_lines, dashes in H;
  repeat (apply elem_of_app in H as [H|H]);
  repeat (apply elem_of_cons in H as [H|H]);
  try (by apply elem_of_nil in H);
  try discriminate H;
  try (apply in_warehouse_lines in H as (? & ? & H); discriminate H);
  try (apply in_route_lines in H as (? & ? & ? & ? & ? & H); discriminate H);
  try (apply in_destination_lines in H as (? & ? & H); discriminate H);
  try (apply in_warehouse_share_lines in H as (? & ? & H); discriminate H);
  try (apply in_destination_delivery_lines in H as (? & ? & ? & ? & ? & H);
       discriminate H).

Lemma in_report_TotalCost c : TotalCost c ∈ report → c = total_cost.
Proof. intros H. in_report H. by injection H. Qed.

Lemma in_report_TotalFixedCosts f :
  TotalFixedCosts f ∈ report →
  f = fixed_cost_total warehouses warehouse_cost warehouse_usage.
Proof. intros H. in_report H. by injection H. Qed.

Lemma in_report_TotalVariableCosts v :
  TotalVariableCosts v ∈ report →
  v = variable_cost_total warehouses destinations shipment_cost shipment_counts.
Proof. intros H. in_report H. by injection H. Qed.

Lemma in_report_WarehouseLine i active cost :
  WarehouseLine i active cost ∈ report →
  i ∈ warehouses ∧ active = (get0 warehouse_usage i =? 1)%Z ∧
  cost = (fixed_cost warehouse_cost i * inject_Z (get0 warehouse_usage i))%Q.
Proof.
  intros H. in_report H.
  apply in_warehouse_lines in H as (i' & Hi & [= -> -> ->]). done.
Qed.

Lemma in_report_RouteLine i j count unit_cost total :
  RouteLine i j count unit_cost total ∈ report →
  i ∈ warehouses ∧ j ∈ destinations ∧ count = get0 shipment_counts (i, j) ∧
  (0 < count)%Z ∧ unit_cost = route_cost shipment_cost i j ∧
  total = (inject_Z count * unit_cost)%Q.
Proof.
  intros H. in_report H.
  apply in_route_lines in H as (i' & j' & Hi & Hj & Hpos & [= -> -> -> -> ->]). done.
Qed.

Lemma in_report_DestinationLine j actual target share :
  DestinationLine j actual target share ∈ report →
  j ∈ destinations ∧ actual = dest_actual warehouses shipment_counts j ∧
  target = get0 target_distribution j.
Proof.
  intros H. in_report H.
  apply in_destination_lines in H as (j' & Hj & [= -> -> -> ->]). done.
Qed.

Lemma in_report_OnTimeShipments n share :
  OnTimeShipments n share ∈ report →
  n = (delivery_totals warehouses destinations target_delivery_days
         delivery_estimate shipment_counts).1.2.
Proof. intros H. in_report H. by injection H. Qed.

Lemma in_report_LateShipments n share :
  LateShipments n share ∈ report →
  n = (delivery_totals warehouses destinations target_delivery_days
         delivery_estimate shipment_counts).2.
Proof. intros H. in_report H. by injection H. Qed.

Lemma in_report_DestinationDelivery j avg on_time late share :
  DestinationDelivery j avg on_time late share ∈ report →
  j ∈ destinations ∧ (0 < dest_actual warehouses shipment_counts j)%Z ∧
  on_time = dest_on_time warehouses target_delivery_days delivery_estimate
              shipment_counts j ∧
  late = (dest_actual warehouses shipment_counts j - on_time)%Z.
Proof.
  intros H. in_report H.
  apply in_destination_delivery_lines in H
    as (j' & avg' & share' & Hj & Hpos & [= -> -> -> -> ->]).
  done.
Qed.

Lemma report_has_totals :
  TotalCost total_cost ∈ report ∧
  TotalFixedCosts (fixed_cost_total warehouses warehouse_cost warehouse_usage)
    ∈ report ∧
  TotalVariableCosts
    (variable_cost_total warehouses destinations shipment_cost shipment_counts)
    ∈ report.
Proof.
  unfold report_lines. repeat split.
  - apply elem_of_app. left. do 4 right. by left.
  - do 2 (apply elem_of_app; right). apply elem_of_app. left. by left.
  - do 4 (apply elem_of_app; right). apply elem_of_app. left. right. by left.
Qed.

Lemma report_has_delivery_counts :
  ∃ on_time late p q, OnTimeShipments on_time p ∈ report ∧ LateShipments late q ∈ report.
Proof.
  eexists _, _, _, _. unfold report_lines.
  split; do 8 (apply elem_of_app; right); apply elem_of_app; left.
  - do 7 right. by left.
  - do 8 right. by left.
Qed.

Lemma report_has_destination_delivery j :
  j ∈ destinations → (0 < dest_actual warehouses shipment_counts j)%Z →
  ∃ avg on_time late share, DestinationDelivery j avg on_time late share ∈ report.
Proof.
  intros Hj Hpos. eexists _, _, _, _. unfold report_lines.
  do 9 (apply elem_of_app; right). apply elem_of_app. left.
  unfold destination_delivery_lines. apply list_elem_of_bind. exists j.
  split; [|exact Hj]. rewrite (proj2 (Z.ltb_lt _ _) Hpos). by left.
Qed.
End report_lines_inversion.

(** ** Sums of integers *)

Lemma Zsum_fmap_plus {A} (f g : A → Z) (l : list A) :
  warehouse_shipments.Zsum ((λ x, f x + g x)%Z <$> l)
  = (warehouse_shipments.Zsum (f <$> l) + warehouse_shipments.Zsum (g <$> l))%Z.
Proof.
  induction l as [|x l IH]; [done|].
  change ((f x + g x + warehouse_shipments.Zsum ((λ x, f x + g x) <$> l))%Z
          = (f x + warehouse_shipments.Zsum (f <$> l)
             + (g x + warehouse_shipments.Zsum (g <$> l)))%Z).
  rewrite IH. lia.
Qed.

Lemma Zsum_fmap_ext {A} (f g : A → Z) (l : list A) :
  (∀ x, x ∈ l → f x = g x) →
  warehouse_shipments.Zsum (f <$> l) = warehouse_shipments.Zsum (g <$> l).
Proof.
  induction l as [|x l IH]; intros H; [done|].
  change ((f x + warehouse_shipments.Zsum (f <$> l))%Z
          = (g x + warehouse_shipments.Zsum (g <$> l))%Z).
  rewrite IH, (H x); [done|by left|]. intros y Hy. apply H. by right.
Qed.

Lemma Zsum_fmap_zero {A} (l : list A) :
  warehouse_shipments.Zsum ((λ _, 0%Z) <$> l) = 0%Z.
Proof. induction l as [|x l IH]; [done|]. exact IH. Qed.

Lemma Zsum_swap {A B} (f : A → B → Z) (l : list A) (k : list B) :
  warehouse_shipments.Zsum ((λ x, warehouse_shipments.Zsum (f x <$> k)) <$> l)
  = warehouse_shipments.Zsum
      ((λ y, warehouse_shipments.Zsum ((λ x, f x y) <$> l)) <$> k).
Proof.
  induction l as [|x l IH].
  - symmetry. apply Zsum_fmap_zero.
  - change ((warehouse_shipments.Zsum (f x <$> k)
             + warehouse_shipments.Zsum
                 ((λ x, warehouse_shipments.Zsum (f x <$> k)) <$> l))%Z
            = warehouse_shipments.Zsum
                ((λ y, (f x y + warehouse_shipments.Zsum ((λ x, f x y) <$> l))%Z)
                   <$> k)).
    by rewrite IH, Zsum_fmap_plus.
Qed.

Lemma Zsum_bind {A} (g : A → list Z) (l : list A) :
  warehouse_shipments.Zsum (l ≫= g)
  = warehouse_shipments.Zsum ((λ x, warehouse_shipments.Zsum (g x)) <$> l).
Proof.
  induction l as [|x l IH]; [done|].
  change (warehouse_shipments.Zsum (g x ++ (l ≫= g))
          = (warehouse_shipments.Zsum (g x)
             + warehouse_shipments.Zsum
                 ((λ x, warehouse_shipments.Zsum (g x)) <$> l))%Z).
  rewrite <-IH. generalize (l ≫= g). intros r.
  induction (g x) as [|z zs IHz]; [done|].
  change ((z + warehouse_shipments.Zsum (zs ++ r))%Z
          = (z + warehouse_shipments.Zsum zs + warehouse_shipments.Zsum r)%Z).
  rewrite IHz. lia.
Qed.

(** ** What the network report says about a feasible solution *)

Section network_report_facts.
Import warehouse_shipments.
Context (warehouses destinations : list string).
Context (target_distribution : gmap string Z).
Context (shipment_capacity : gmap string (gmap string Z)).
Context (warehouse_cost : gmap string Q).
Context (shipment_cost : gmap string (gmap string Q)).
Context (target_delivery_days : Z).
Context (delivery_tolerance : Q).
Context (delivery_estimate : gmap string (gmap string Z)).
Context (solution : Solution NetKey).
Local Open Scope Q_scope.

#[local] Abbreviation model :=
  (network_model warehouses destinations target_distribution shipment_capacity
     warehouse_cost shipment_cost target_delivery_days delivery_tolerance
     delivery_estimate).
#[local] Abbreviation a := (varValue solution).
#[local] Abbreviation extracted :=
  (foldl (extract_step solution) (∅, ∅) (variables model)).
#[local] Abbreviation counts := (extracted.1).
#[local] Abbreviation usage := (extracted.2).
#[local] Abbreviation report :=
  (report_lines warehouses destinations target_distribution warehouse_cost
     shipment_cost target_delivery_days delivery_estimate counts usage "Optimal"
     (value a (objective model))).

Hypothesis plain_warehouses : ∀ i, i ∈ warehouses → plain_name i = true.
Hypothesis plain_destinations : ∀ j, j ∈ destinations → plain_name j = true.
Hypothesis entries_present :
  network_entries_present warehouses destinations target_distribution
    shipment_capacity warehouse_cost shipment_cost delivery_estimate.
Hypothesis status_optimal : status solution = LpStatusOptimal.
Hypothesis solution_feasible : feasible model a.

Lemma print_solution_report :
  print_solution model solution warehouses destinations target_distribution
    warehouse_cost shipment_cost target_delivery_days delivery_estimate
  = Ok report.
Proof.
  unfold print_solution. rewrite status_optimal. cbn [Z.eqb LpStatusOptimal negb].
  change (if negb (Pos.eqb 1 1) then ?x else ?y) with y.
  destruct entries_present as (Hroutes & Hfixed & _).
  apply optimal_report_lines.
  - by rewrite status_optimal.
  - rewrite (extract_solution_fold warehouses destinations target_distribution
               shipment_capacity warehouse_cost shipment_cost target_delivery_days
               delivery_tolerance delivery_estimate solution
               plain_warehouses plain_destinations).
    f_equal. apply surjective_pairing.
  - exact Hfixed.
  - intros i j Hi Hj. destruct (Hroutes i j Hi Hj) as (_ & Hc & Hd). by split.
Qed.

Lemma dest_actual_demand j :
  j ∈ destinations →
  dest_actual warehouses counts j = demand target_distribution j.
Proof.
  intros Hj.
  pose proof (network_target_met _ _ _ _ _ _ _ _ _ a j solution_feasible Hj) as Hsum.
  rewrite (Qsum_fmap_ext _ (λ i, inject_Z (get0 counts (i, j)))) in Hsum.
  - rewrite Qsum_inject_Z in Hsum. exact (proj1 (inject_Z_injective _ _) Hsum).
  - intros i Hi.
    by destruct (count_integer warehouses destinations target_distribution
                   shipment_capacity warehouse_cost shipment_cost
                   target_delivery_days delivery_tolerance delivery_estimate
                   solution solution_feasible i j Hi Hj).
Qed.

Lemma get0_demand j : get0 target_distribution j = demand target_distribution j.
Proof. unfold get0, demand, getitem. by destruct (target_distribution !! j). Qed.

(** On-time and late shipments of a destination. *)
Lemma dest_late_value j :
  (dest_actual warehouses counts j
   - dest_on_time warehouses target_delivery_days delivery_estimate counts j)%Z
  = Zsum ((λ i, late_indicator target_delivery_days delivery_estimate i j
                * get0 counts (i, j))%Z <$> warehouses).
Proof.
  unfold dest_actual, dest_on_time.
  rewrite (Zsum_fmap_ext (λ i, get0 counts (i, j))
             (λ i, (if (estimate delivery_estimate i j <=? target_delivery_days)%Z
                    then get0 counts (i, j) else 0)
                   + late_indicator target_delivery_days delivery_estimate i j
                     * get0 counts (i, j))%Z).
  - rewrite Zsum_fmap_plus. lia.
  - intros i _. unfold late_indicator, estimate.
    destruct (Z.leb_spec (or0Z (getitem2 delivery_estimate i j)) target_delivery_days),
             (Z.ltb_spec target_delivery_days (or0Z (getitem2 delivery_estimate i j)));
      lia.
Qed.

Lemma dest_late_within_tolerance j :
  j ∈ destinations →
  inject_Z (dest_actual warehouses counts j
            - dest_on_time warehouses target_delivery_days delivery_estimate
                counts j)
  <= delivery_tolerance * inject_Z (demand target_distribution j).
Proof.
  intros Hj. rewrite dest_late_value, <-Qsum_inject_Z.
  pose proof (network_target_met _ _ _ _ _ _ _ _ _ a j solution_feasible Hj) as Hsum.
  assert (Hd : Qsum ((λ i, inject_Z (late_indicator target_delivery_days
                                       delivery_estimate i j)
                           * a (shipment_count_key i j)) <$> warehouses)
               <= delivery_tolerance
                  * Qsum ((λ i, a (shipment_count_key i j)) <$> warehouses)).
  { apply (holds_delivery warehouses shipment_capacity target_delivery_days
             delivery_tolerance delivery_estimate a j).
    apply (feasible_holds _ a _ _ solution_feasible
             (delivery_constraint_elem warehouses destinations target_distribution
                shipment_capacity target_delivery_days delivery_tolerance
                delivery_estimate j Hj)). }
  rewrite Hsum in Hd.
  rewrite (Qsum_fmap_ext _
             (λ i, inject_Z (late_indicator target_delivery_days
                               delivery_estimate i j)
                   * a (shipment_count_key i j))); [exact Hd|].
  intros i Hi. rewrite inject_Z_mult.
  destruct (count_integer warehouses destinations target_distribution
              shipment_capacity warehouse_cost shipment_cost
              target_delivery_days delivery_tolerance delivery_estimate
              solution solution_feasible i j Hi Hj) as [-> _].
  reflexivity.
Qed.

(** The running totals of on-time and late shipments add up to all the
    shipments. *)
Lemma foldl_delivery_totals (l : list (string * string)) t o late :
  (∀ i j, (i, j) ∈ l → (0 <= get0 counts (i, j))%Z) →
  let r := foldl (λ '(total_delivery_days, on_time_shipments, late_shipments) '(i, j),
      let count := get0 counts (i, j) in
      if (0 <? count)%Z then
        let days := estimate delivery_estimate i j in
        if (days <=? target_delivery_days)%Z
        then ((total_delivery_days + days * count)%Z,
              (on_time_shipments + count)%Z, late_shipments)
        else ((total_delivery_days + days * count)%Z,
              on_time_shipments, (late_shipments + count)%Z)
      else (total_delivery_days, on_time_shipments, late_shipments))
      (t, o, late) l in
  (r.1.2 + r.2 = o + late + Zsum ((λ '(i, j), get0 counts (i, j)) <$> l))%Z.
Proof.
  revert t o late. induction l as [|[i j] l IH]; intros t o late Hpos; cbn zeta.
  - simpl. lia.
  - cbn [foldl].
    assert (Hl : ∀ i' j', (i', j') ∈ l → (0 <= get0 counts (i', j'))%Z)
      by (intros i' j' H'; apply Hpos; by right).
    assert (Hc : (0 <= get0 counts (i, j))%Z) by (apply Hpos; by left).
    change (Zsum ((λ '(i, j), get0 counts (i, j)) <$> (i, j) :: l))
      with (get0 counts (i, j) + Zsum ((λ '(i, j), get0 counts (i, j)) <$> l))%Z.
    cbn zeta.
    destruct (Z.ltb_spec 0 (get0 counts (i, j))).
    + destruct (estimate delivery_estimate i j <=? target_delivery_days)%Z.
      * pose proof (IH (t + estimate delivery_estimate i j * get0 counts (i, j))%Z
                      (o + get0 counts (i, j))%Z late Hl) as H'.
        cbn zeta in H'. lia.
      * pose proof (IH (t + estimate delivery_estimate i j * get0 counts (i, j))%Z
                      o (late + get0 counts (i, j))%Z Hl) as H'.
        cbn zeta in H'. lia.
    + pose proof (IH t o late Hl) as H'. cbn zeta in H'. lia.
Qed.

Lemma delivery_totals_sum :
  let r := delivery_totals warehouses destinations target_delivery_days
             delivery_estimate counts in
  (r.1.2 + r.2 = Zsum (demand target_distribution <$> destinations))%Z.
Proof.
  cbn zeta. unfold delivery_totals.
  pose proof (foldl_delivery_totals (pairs warehouses destinations) 0 0 0) as H.
  cbn zeta in H. rewrite H.
  - assert (E : (λ '(i, j), get0 counts (i, j)) <$> pairs warehouses destinations
                = i ← warehouses; (λ j, get0 counts (i, j)) <$> destinations).
    { unfold pairs. rewrite fmap_list_bind. apply list_bind_ext; [|done].
      intros i. rewrite fmap_list_bind.
      etransitivity; [|apply bind_singleton_fmap]. by apply list_bind_ext. }
    rewrite E, Zsum_bind, (Zsum_swap (λ i j, get0 counts (i, j))).
    simpl. apply Zsum_fmap_ext. intros j Hj. by apply dest_actual_demand.
  - intros i j [Hi Hj]%elem_of_pairs.
    by destruct (count_integer warehouses destinations target_distribution
                   shipment_capacity warehouse_cost shipment_cost
                   target_delivery_days delivery_tolerance delivery_estimate
                   solution solution_feasible i j Hi Hj).
Qed.
End network_report_facts.

(** ** The network report of an optimal solution *)

Lemma example_names_plain :
  (∀ i, i ∈ ["a"; "b"] → plain_name i = true) ∧
  (∀ j, j ∈ ["x"] → plain_name j = true).
Proof.
  split.
  - intros i Hi. repeat (apply elem_of_cons in Hi as [->|Hi]; [reflexivity|]).
    by apply elem_of_nil in Hi.
  - intros j ->%list_elem_of_singleton. reflexivity.
Qed.

(** X9. For a feasible solution with status optimal of the model built from
    the same inputs, with plain warehouse and destination names, the report
    is printed and its figures add up: the total cost it prints is the
    objective value, and it equals the printed total of the fixed costs plus
    the printed total of the variable costs. *)
Theorem report_costs_add_up
    warehouses destinations target_distribution shipment_capacity warehouse_cost
    shipment_cost target_delivery_days delivery_tolerance delivery_estimate
    m solution :
  (∀ i, i ∈ warehouses → plain_name i = true) →
  (∀ j, j ∈ destinations → plain_name j = true) →
  warehouse_shipments.optimize_shipments warehouses destinations
    target_distribution shipment_capacity warehouse_cost shipment_cost
    target_delivery_days delivery_tolerance delivery_estimate = Ok m →
  status solution = LpStatusOptimal →
  feasible m (varValue solution) →
  ∃ out,
    warehouse_shipments.print_solution m solution warehouses destinations
      target_distribution warehouse_cost shipment_cost target_delivery_days
      delivery_estimate = Ok out ∧
    warehouse_shipments.TotalCost (value (varValue solution) (objective m)) ∈ out ∧
    (∃ f v, warehouse_shipments.TotalFixedCosts f ∈ out ∧
            warehouse_shipments.TotalVariableCosts v ∈ out) ∧
    ∀ c f v,
      warehouse_shipments.TotalCost c ∈ out →
      warehouse_shipments.TotalFixedCosts f ∈ out →
      warehouse_shipments.TotalVariableCosts v ∈ out →
      (c == f + v)%Q.
Proof.
  intros Hw Hd Hm Hs Hf.
  pose proof (network_build_present _ _ _ _ _ _ _ _ _ m Hm) as Hp.
  apply network_optimize_shipments_model in Hm as ->.
  set (M := network_model warehouses destinations target_distribution
              shipment_capacity warehouse_cost shipment_cost target_delivery_days
              delivery_tolerance delivery_estimate) in *.
  eexists. split; [by apply print_solution_report|].
  destruct (report_has_totals warehouses destinations target_distribution
              warehouse_cost shipment_cost target_delivery_days delivery_estimate
              (foldl (extract_step solution) (∅, ∅) (variables M)).1
              (foldl (extract_step solution) (∅, ∅) (variables M)).2
              "Optimal" (value (varValue solution) (objective M)))
    as (Hc & Hfx & Hv).
  split; [exact Hc|]. split; [by eexists _, _|].
  intros c f v Hc'%in_report_TotalCost Hf'%in_report_TotalFixedCosts
    Hv'%in_report_TotalVariableCosts.
  subst c f v. subst M.
  rewrite (fixed_cost_total_value warehouses destinations target_distribution
             shipment_capacity warehouse_cost shipment_cost target_delivery_days
             delivery_tolerance delivery_estimate solution Hw Hf).
  rewrite (variable_cost_total_value warehouses destinations target_distribution
             shipment_capacity warehouse_cost shipment_cost target_delivery_days
             delivery_tolerance delivery_estimate solution Hf).
  change (objective (network_model warehouses destinations target_distribution
                       shipment_capacity warehouse_cost shipment_cost
                       target_delivery_days delivery_tolerance delivery_estimate))
    with (network_objective warehouses destinations shipment_capacity
            warehouse_cost shipment_cost).
  rewrite network_objective_value. ring.
Qed.

Lemma report_costs_add_up_witness :
  ∃ out,
    warehouse_shipments.print_solution example.network
      {| status := LpStatusOptimal; varValue := example.network_assignment |}
      ["a"; "b"] ["x"] example.target_distribution example.warehouse_cost
      example.route_cost 3 example.delivery_estimate = Ok out ∧
    warehouse_shipments.TotalCost 13 ∈ out.
Proof.
  destruct example_names_plain as [Hw Hd].
  destruct (report_costs_add_up ["a"; "b"] ["x"] example.target_distribution
              example.shipment_capacity example.warehouse_cost example.route_cost
              3%Z 0.5%Q example.delivery_estimate example.network
              {| status := LpStatusOptimal; varValue := example.network_assignment |}
              Hw Hd example_network_built eq_refl example_network_feasible)
    as (out & Hout & Hc & _).
  exists out. split; [exact Hout|].
  replace 13%Q with (value example.network_assignment (objective example.network))
    by (vm_compute; reflexivity).
  exact Hc.
Defined.

(** X10. In the report of a feasible optimal solution every destination is
    shown with an actual number of shipments equal to its target, the entry
    of [target_distribution]. *)
Theorem report_destinations_on_target
    warehouses destinations target_distribution shipment_capacity warehouse_cost
    shipment_cost target_delivery_days delivery_tolerance delivery_estimate
    m solution :
  (∀ i, i ∈ warehouses → plain_name i = true) →
  (∀ j, j ∈ destinations → plain_name j = true) →
  warehouse_shipments.optimize_shipments warehouses destinations
    target_distribution shipment_capacity warehouse_cost shipment_cost
    target_delivery_days delivery_tolerance delivery_estimate = Ok m →
  status solution = LpStatusOptimal →
  feasible m (varValue solution) →
  ∃ out,
    warehouse_shipments.print_solution m solution warehouses destinations
      target_distribution warehouse_cost shipment_cost target_delivery_days
      delivery_estimate = Ok out ∧
    (∀ j, j ∈ destinations →
       ∃ target share,
         warehouse_shipments.DestinationLine j target target share ∈ out) ∧
    ∀ j actual target share,
      warehouse_shipments.DestinationLine j actual target share ∈ out →
      actual = target ∧ getitem target_distribution j = Ok target.
Proof.
  intros Hw Hd Hm Hs Hf.
  pose proof (network_build_present _ _ _ _ _ _ _ _ _ m Hm) as Hp.
  apply network_optimize_shipments_model in Hm as ->.
  set (M := network_model warehouses destinations target_distribution
              shipment_capacity warehouse_cost shipment_cost target_delivery_days
              delivery_tolerance delivery_estimate) in *.
  eexists. split; [by apply print_solution_report|].
  assert (Hline : ∀ j, j ∈ destinations →
            dest_actual warehouses
              (foldl (extract_step solution) (∅, ∅) (variables M)).1 j
            = warehouse_shipments.get0 target_distribution j ∧
            getitem target_distribution j = Ok (warehouse_shipments.get0 target_distribution j)).
  { intros j Hj. rewrite get0_demand. split.
    - by apply (dest_actual_demand warehouses destinations target_distribution
                  shipment_capacity warehouse_cost shipment_cost
                  target_delivery_days delivery_tolerance delivery_estimate).
    - destruct Hp as (_ & _ & Ht). destruct (Ht j Hj) as [t Hjt].
      unfold demand. by rewrite Hjt. }
  split.
  - intros j Hj. eexists (warehouse_shipments.get0 target_distribution j), _.
    unfold report_lines. do 5 (apply elem_of_app; right). apply elem_of_app. left.
    unfold destination_lines. apply list_elem_of_fmap. exists j. split; [|done].
    destruct (Hline j Hj) as [E _]. by rewrite <-E.
  - intros j actual target share (Hj & -> & ->)%in_report_DestinationLine.
    by apply Hline.
Qed.

Lemma report_destinations_on_target_witness :
  ∃ out share,
    warehouse_shipments.print_solution example.network
      {| status := LpStatusOptimal; varValue := example.network_assignment |}
      ["a"; "b"] ["x"] example.target_distribution example.warehouse_cost
      example.route_cost 3 example.delivery_estimate = Ok out ∧
    warehouse_shipments.DestinationLine "x" 3 3 share ∈ out.
Proof.
  destruct example_names_plain as [Hw Hd].
  destruct (report_destinations_on_target ["a"; "b"] ["x"]
              example.target_distribution
              example.shipment_capacity example.warehouse_cost example.route_cost
              3%Z 0.5%Q example.delivery_estimate example.network
              {| status := LpStatusOptimal; varValue := example.network_assignment |}
              Hw Hd example_network_built eq_refl example_network_feasible)
    as (out & Hout & Hhas & Hall).
  destruct (Hhas "x") as (target & share & Hline); [by left|].
  exists out, share. split; [exact Hout|].
  destruct (Hall _ _ _ _ Hline) as [_ Ht]. injection Ht as <-. exact Hline.
Defined.

(** X11. In the report of a feasible optimal solution the overall on-time and
    late counts are printed and add up to all the shipments asked for, the
    sum of the targets of the destinations; a delivery line is printed for
    every destination with a positive target, and in every delivery line the
    on-time and the late count add up to the target of the destination, of
    which the late ones are at most the tolerated share. *)
Theorem report_delivery_counts
    warehouses destinations target_distribution shipment_capacity warehouse_cost
    shipment_cost target_delivery_days delivery_tolerance delivery_estimate
    m solution :
  (∀ i, i ∈ warehouses → plain_name i = true) →
  (∀ j, j ∈ destinations → plain_name j = true) →
  warehouse_shipments.optimize_shipments warehouses destinations
    target_distribution shipment_capacity warehouse_cost shipment_cost
    target_delivery_days delivery_tolerance delivery_estimate = Ok m →
  status solution = LpStatusOptimal →
  feasible m (varValue solution) →
  ∃ out,
    warehouse_shipments.print_solution m solution warehouses destinations
      target_distribution warehouse_cost shipment_cost target_delivery_days
      delivery_estimate = Ok out ∧
    (∃ on_time late p q,
       warehouse_shipments.OnTimeShipments on_time p ∈ out ∧
       warehouse_shipments.LateShipments late q ∈ out) ∧
    (∀ j target, j ∈ destinations →
       getitem target_distribution j = Ok target → (0 < target)%Z →
       ∃ avg on_time late share,
         warehouse_shipments.DestinationDelivery j avg on_time late share ∈ out) ∧
    (∀ on_time late p q,
       warehouse_shipments.OnTimeShipments on_time p ∈ out →
       warehouse_shipments.LateShipments late q ∈ out →
       (on_time + late
        = warehouse_shipments.Zsum (demand target_distribution <$> destinations))%Z) ∧
    (∀ j avg on_time late share,
       warehouse_shipments.DestinationDelivery j avg on_time late share ∈ out →
       getitem target_distribution j = Ok (on_time + late)%Z ∧
       (inject_Z late <= delivery_tolerance * inject_Z (on_time + late))%Q).
Proof.
  intros Hw Hd Hm Hs Hf.
  pose proof (network_build_present _ _ _ _ _ _ _ _ _ m Hm) as Hp.
  apply network_optimize_shipments_model in Hm as ->.
  set (M := network_model warehouses destinations target_distribution
              shipment_capacity warehouse_cost shipment_cost target_delivery_days
              delivery_tolerance delivery_estimate) in *.
  eexists. split; [by apply print_solution_report|]. split; [|split; [|split]].
  - apply report_has_delivery_counts.
  - intros j target Hj Ht Hpos. apply report_has_destination_delivery; [exact Hj|].
    rewrite (dest_actual_demand warehouses destinations target_distribution
               shipment_capacity warehouse_cost shipment_cost
               target_delivery_days delivery_tolerance delivery_estimate
               solution Hf j Hj).
    unfold demand. by rewrite Ht.
  - intros on_time late p q ->%in_report_OnTimeShipments ->%in_report_LateShipments.
    apply (delivery_totals_sum warehouses destinations target_distribution
             shipment_capacity warehouse_cost shipment_cost target_delivery_days
             delivery_tolerance delivery_estimate solution Hf).
  - intros j avg on_time late share
      (Hj & Hpos & -> & ->)%in_report_DestinationDelivery.
    pose proof (dest_actual_demand warehouses destinations target_distribution
                  shipment_capacity warehouse_cost shipment_cost
                  target_delivery_days delivery_tolerance delivery_estimate
                  solution Hf j Hj) as Hact.
    fold M in Hact.
    replace (dest_on_time warehouses target_delivery_days delivery_estimate
               (foldl (extract_step solution) (∅, ∅) (variables M)).1 j
             + (dest_actual warehouses
                  (foldl (extract_step solution) (∅, ∅) (variables M)).1 j
                - dest_on_time warehouses target_delivery_days delivery_estimate
                    (foldl (extract_step solution) (∅, ∅) (variables M)).1 j))%Z
      with (demand target_distribution j) by lia.
    split.
    + destruct Hp as (_ & _ & Ht). destruct (Ht j Hj) as [t Hjt].
      unfold demand. by rewrite Hjt.
    + by apply (dest_late_within_tolerance warehouses destinations
                  target_distribution shipment_capacity warehouse_cost
                  shipment_cost target_delivery_days delivery_tolerance
                  delivery_estimate solution Hf).
Qed.

Lemma report_delivery_counts_witness :
  ∃ out,
    warehouse_shipments.print_solution example.network
      {| status := LpStatusOptimal; varValue := example.network_assignment |}
      ["a"; "b"] ["x"] example.target_distribution example.warehouse_cost
      example.route_cost 3 example.delivery_estimate = Ok out ∧
    ∀ on_time late p q,
      warehouse_shipments.OnTimeShipments on_time p ∈ out →
      warehouse_shipments.LateShipments late q ∈ out →
      (on_time + late = 3)%Z.
Proof.
  destruct example_names_plain as [Hw Hd].
  destruct (report_delivery_counts ["a"; "b"] ["x"] example.target_distribution
              example.shipment_capacity example.warehouse_cost example.route_cost
              3%Z 0.5%Q example.delivery_estimate example.network
              {| status := LpStatusOptimal; varValue := example.network_assignment |}
              Hw Hd example_network_built eq_refl example_network_feasible)
    as (out & Hout & _ & _ & Hall & _).
  exists out. split; [exact Hout|exact Hall].
Defined.

(** X12. In the report of a feasible optimal solution a warehouse is shown as
    active exactly when its usage variable is 1, with its fixed cost times
    that value; and every route that is listed carries the solver's flow, at
    the unit cost of the input, from a warehouse that is shown as active. *)
Theorem report_routes_from_active_warehouses
    warehouses destinations target_distribution shipment_capacity warehouse_cost
    shipment_cost target_delivery_days delivery_tolerance delivery_estimate
    m solution :
  (∀ i, i ∈ warehouses → plain_name i = true) →
  (∀ j, j ∈ destinations → plain_name j = true) →
  warehouse_shipments.optimize_shipments warehouses destinations
    target_distribution shipment_capacity warehouse_cost shipment_cost
    target_delivery_days delivery_tolerance delivery_estimate = Ok m →
  status solution = LpStatusOptimal →
  feasible m (varValue solution) →
  ∃ out,
    warehouse_shipments.print_solution m solution warehouses destinations
      target_distribution warehouse_cost shipment_cost target_delivery_days
      delivery_estimate = Ok out ∧
    (∀ i active cost,
       warehouse_shipments.WarehouseLine i active cost ∈ out →
       (active = true ↔ (varValue solution (warehouse_usage_key i) == 1)%Q) ∧
       ∃ c, getitem warehouse_cost i = Ok c ∧
            (cost == c * varValue solution (warehouse_usage_key i))%Q) ∧
    (∀ i j count unit_cost total,
       warehouse_shipments.RouteLine i j count unit_cost total ∈ out →
       (0 < count)%Z ∧
       (inject_Z count == varValue solution (shipment_count_key i j))%Q ∧
       getitem2 shipment_cost i j = Ok unit_cost ∧
       ∃ cost, warehouse_shipments.WarehouseLine i true cost ∈ out).
Proof.
  intros Hw Hd Hm Hs Hf.
  pose proof (network_build_present _ _ _ _ _ _ _ _ _ m Hm) as Hp.
  apply network_optimize_shipments_model in Hm as ->.
  eexists. split; [by apply print_solution_report|].
  assert (Husage : ∀ i, i ∈ warehouses →
            (varValue solution (warehouse_usage_key i)
             == inject_Z (warehouse_shipments.get0
                            (foldl (extract_step solution) (∅, ∅) (variables (network_model warehouses destinations
                   target_distribution shipment_capacity warehouse_cost
                   shipment_cost target_delivery_days delivery_tolerance
                   delivery_estimate))).2 i))%Q
            ∧ (warehouse_shipments.get0
                 (foldl (extract_step solution) (∅, ∅) (variables (network_model warehouses destinations
                   target_distribution shipment_capacity warehouse_cost
                   shipment_cost target_delivery_days delivery_tolerance
                   delivery_estimate))).2 i = 0%Z
               ∨ warehouse_shipments.get0
                   (foldl (extract_step solution) (∅, ∅) (variables (network_model warehouses destinations
                   target_distribution shipment_capacity warehouse_cost
                   shipment_cost target_delivery_days delivery_tolerance
                   delivery_estimate))).2 i = 1%Z)).
  { intros i Hi.
    by apply (usage_integer warehouses destinations target_distribution
                shipment_capacity warehouse_cost shipment_cost target_delivery_days
                delivery_tolerance delivery_estimate solution Hw Hf). }
  split.
  - intros i active cost (Hi & -> & ->)%in_report_WarehouseLine.
    destruct (Husage i Hi) as [Hu Hbin]. split.
    + rewrite Hu. split.
      * intros ->%Z.eqb_eq. reflexivity.
      * intros H1. apply Z.eqb_eq. destruct Hbin as [E|E]; [|done].
        rewrite E in H1. discriminate H1.
    + destruct Hp as (_ & Hfixed & _). destruct (Hfixed i Hi) as [c Hc].
      exists c. split; [done|]. unfold fixed_cost. rewrite Hc, Hu. reflexivity.
  - intros i j count unit_cost total
      (Hi & Hj & -> & Hpos & -> & ->)%in_report_RouteLine.
    destruct (count_integer warehouses destinations target_distribution
                shipment_capacity warehouse_cost shipment_cost target_delivery_days
                delivery_tolerance delivery_estimate solution Hf i j Hi Hj)
      as [Hc _].
    split; [done|]. split; [by rewrite Hc|]. split.
    + destruct Hp as (Hroutes & _). destruct (Hroutes i j Hi Hj) as (_ & [c Hcost] & _).
      unfold route_cost. by rewrite Hcost.
    + destruct (Husage i Hi) as [Hu Hbin].
      assert (Hopen : warehouse_shipments.get0
                (foldl (extract_step solution) (∅, ∅) (variables (network_model warehouses destinations
                   target_distribution shipment_capacity warehouse_cost
                   shipment_cost target_delivery_days delivery_tolerance
                   delivery_estimate))).2 i = 1%Z).
      { destruct Hbin as [E|E]; [|done]. exfalso.
        assert (Hg : (varValue solution (shipment_count_key i j)
                      <= inject_Z (capacity shipment_capacity i j)
                         * varValue solution (warehouse_usage_key i))%Q).
        { apply holds_usage.
          apply (feasible_holds _ _ _ _ Hf
                   (usage_constraint_elem warehouses destinations
                      target_distribution shipment_capacity target_delivery_days
                      delivery_tolerance delivery_estimate i j Hi Hj)). }
        rewrite Hu, E, Hc in Hg. change (inject_Z 0) with 0%Q in Hg.
        assert (Hle : (inject_Z (warehouse_shipments.get0
                         (foldl (extract_step solution) (∅, ∅) (variables (network_model warehouses destinations
                   target_distribution shipment_capacity warehouse_cost
                   shipment_cost target_delivery_days delivery_tolerance
                   delivery_estimate))).1
                         (i, j)) <= inject_Z 0)%Q).
        { change (inject_Z 0) with 0%Q. lra. }
        rewrite <-Zle_Qle in Hle. lia. }
      eexists. unfold report_lines. apply elem_of_app. right.
      apply elem_of_app. left. unfold warehouse_lines.
      apply list_elem_of_fmap. exists i. split; [|done].
      rewrite Hopen. reflexivity.
Qed.

Lemma report_routes_from_active_warehouses_witness :
  ∃ out,
    warehouse_shipments.print_solution example.network
      {| status := LpStatusOptimal; varValue := example.network_assignment |}
      ["a"; "b"] ["x"] example.target_distribution example.warehouse_cost
      example.route_cost 3 example.delivery_estimate = Ok out ∧
    ∀ i j count unit_cost total,
      warehouse_shipments.RouteLine i j count unit_cost total ∈ out →
      ∃ cost, warehouse_shipments.WarehouseLine i true cost ∈ out.
Proof.
  destruct example_names_plain as [Hw Hd].
  destruct (report_routes_from_active_warehouses ["a"; "b"] ["x"]
              example.target_distribution
              example.shipment_capacity example.warehouse_cost example.route_cost
              3%Z 0.5%Q example.delivery_estimate example.network
              {| status := LpStatusOptimal; varValue := example.network_assignment |}
              Hw Hd example_network_built eq_refl example_network_feasible)
    as (out & Hout & _ & Hall).
  exists out. split; [exact Hout|].
  intros i j count unit_cost total Hline.
  by destruct (Hall i j count unit_cost total Hline) as (_ & _ & _ & H).
Defined.

(** * The tiered report *)

(** ** The names of the tiered variables *)

Lemma contains_app s1 s2 c : contains (s1 +:+ s2) c = contains s1 c || contains s2 c.
Proof.
  induction s1 as [|b s1 IH]; [done|]. simpl. rewrite IH. by rewrite orb_assoc.
Qed.

Lemma all_digits_pretty_N_go x s :
  all_digits s = true → all_digits (pretty_N_go x s) = true.
Proof.
  revert s. induction (N.lt_wf_0 x) as [x _ IH]; intros s Hs.
  assert (x = 0 ∨ 0 < x)%N as [->|Hx] by lia; [by rewrite pretty_N_go_0|].
  rewrite pretty_N_go_step by done. apply IH; [by apply N.div_lt|].
  simpl. rewrite Hs, andb_true_r.
  unfold pretty_N_char. by repeat case_match.
Qed.

Lemma all_digits_pretty (z : Z) : (0 ≤ z)%Z → all_digits (pretty z) = true.
Proof.
  destruct z as [|p|p]; [done| |lia]. intros _.
  unfold pretty, pretty_Z, pretty, pretty_positive, pretty, pretty_N.
  case_decide; [done|]. by apply all_digits_pretty_N_go.
Qed.

Lemma all_digits_contains s c : all_digits s = true → is_digit c = false → contains s c = false.
Proof.
  induction s as [|b s IH]; [done|]. simpl.
  intros [Hb Hs]%andb_prop Hc. rewrite (IH Hs Hc), orb_false_r.
  apply Ascii.eqb_neq. intros ->. congruence.
Qed.

Lemma illegal_not_digit c : c ∈ illegal_chars → is_digit c = false.
Proof.
  unfold illegal_chars. rewrite !elem_of_cons, elem_of_nil. intros H.
  repeat (destruct H as [->|H]; [reflexivity|]). done.
Qed.

Lemma all_digits_plain s : all_digits s = true → plain_name s = true.
Proof.
  intros Hs. unfold plain_name.
  rewrite (all_digits_contains s "_" Hs eq_refl). simpl.
  unfold kept_by_pulp. apply forallb_forall. intros c Hc%list_elem_of_In.
  by rewrite (all_digits_contains s c Hs (illegal_not_digit c Hc)).
Qed.

(** PuLP's renaming leaves none of the characters that it rewrites. *)
Lemma translate_no_illegal s c : c ∈ illegal_chars → contains (translate s) c = false.
Proof.
  intros Hc. induction s as [|b s IH]; [done|]. simpl. rewrite IH, orb_false_r.
  unfold trans. case_bool_decide as Hb.
  - apply Ascii.eqb_neq. intros <-. revert Hc. unfold illegal_chars.
    rewrite !elem_of_cons, elem_of_nil. intros H.
    repeat (destruct H as [H|H]; [discriminate H|]). done.
  - apply Ascii.eqb_neq. by intros ->.
Qed.

Lemma not_kept_by_pulp s :
  kept_by_pulp s = false → ∃ c, c ∈ illegal_chars ∧ contains s c = true.
Proof.
  unfold kept_by_pulp. generalize illegal_chars. intros l.
  induction l as [|c l IH]; [discriminate|]. simpl.
  destruct (contains s c) eqn:E; simpl.
  - intros _. exists c. split; [by left|done].
  - intros (c' & Hc' & H)%IH. exists c'. split; [by right|done].
Qed.

(** Fields without underscore, joined by underscores, split back. *)
Lemma split_join_underscore (fields : list string) :
  fields ≠ [] → Forall (λ s, contains s "_" = false) fields →
  split (join_underscore fields) "_" = fields.
Proof.
  induction fields as [|s rest IH]; [done|]. intros _ Hall.
  apply Forall_cons in Hall as [Hs Hrest].
  destruct rest as [|s' rest].
  - simpl. by apply split_no_sep.
  - change (join_underscore (s :: s' :: rest))
      with (s +:+ String "_" (join_underscore (s' :: rest))).
    rewrite split_app by done. f_equal. by apply IH.
Qed.

Lemma join_underscore_inj (l1 l2 : list string) :
  l1 ≠ [] → l2 ≠ [] →
  Forall (λ s, contains s "_" = false) l1 →
  Forall (λ s, contains s "_" = false) l2 →
  join_underscore l1 = join_underscore l2 → l1 = l2.
Proof.
  intros H1 H2 Hf1 Hf2 Heq.
  by rewrite <-(split_join_underscore l1 H1 Hf1), Heq, split_join_underscore.
Qed.

Lemma ship_name_fields year carrier tier dest :
  ship_name year carrier tier dest
  = join_underscore ["ship"; "y" +:+ pretty year; carrier; "t" +:+ pretty tier; dest].
Proof. reflexivity. Qed.

Lemma tier_name_fields year carrier tier :
  tier_name year carrier tier
  = join_underscore ["tier"; "y" +:+ pretty year; carrier; "t" +:+ pretty tier].
Proof. reflexivity. Qed.

Lemma pretty_no_underscore (z : Z) : (0 ≤ z)%Z → contains (pretty z) "_" = false.
Proof. intros Hz. by apply all_digits_contains; [apply all_digits_pretty|]. Qed.

Lemma pretty_translate (z : Z) : (0 ≤ z)%Z → translate (pretty z) = pretty z.
Proof.
  intros Hz. by apply plain_name_spec, all_digits_plain, all_digits_pretty.
Qed.

Lemma ship_name_translate year carrier tier dest :
  (0 ≤ year)%Z → (0 ≤ tier)%Z → plain_name carrier = true → plain_name dest = true →
  translate (ship_name year carrier tier dest) = ship_name year carrier tier dest.
Proof.
  intros Hy Ht [_ Hc]%plain_name_spec [_ Hd]%plain_name_spec.
  unfold ship_name. rewrite !translate_app, Hc, Hd, !pretty_translate by done.
  reflexivity.
Qed.

Lemma tier_name_translate year carrier tier :
  (0 ≤ year)%Z → (0 ≤ tier)%Z → plain_name carrier = true →
  translate (tier_name year carrier tier) = tier_name year carrier tier.
Proof.
  intros Hy Ht [_ Hc]%plain_name_spec.
  unfold tier_name. rewrite !translate_app, Hc, !pretty_translate by done.
  reflexivity.
Qed.

Lemma ship_name_inj year carrier tier dest year' carrier' tier' dest' :
  (0 ≤ year)%Z → (0 ≤ tier)%Z → (0 ≤ year')%Z → (0 ≤ tier')%Z →
  contains carrier "_" = false → contains dest "_" = false →
  contains carrier' "_" = false → contains dest' "_" = false →
  ship_name year carrier tier dest = ship_name year' carrier' tier' dest' →
  year = year' ∧ carrier = carrier' ∧ tier = tier' ∧ dest = dest'.
Proof.
  intros Hy Ht Hy' Ht' Hc Hd Hc' Hd'. rewrite !ship_name_fields.
  intros H%join_underscore_inj; [| done | done | |].
  - injection H. intros Hd1 Ht1 Hc1 Hy1.
    change ("" +:+ pretty tier) with (pretty tier) in Ht1.
    change ("" +:+ pretty tier') with (pretty tier') in Ht1.
    change ("" +:+ pretty year) with (pretty year) in Hy1.
    change ("" +:+ pretty year') with (pretty year') in Hy1.
    apply (inj pretty) in Hy1. apply (inj pretty) in Ht1. done.
  - repeat (apply Forall_cons; split); try done; try apply Forall_nil;
      simpl; by apply pretty_no_underscore.
  - repeat (apply Forall_cons; split); try done; try apply Forall_nil;
      simpl; by apply pretty_no_underscore.
Qed.

Lemma tier_name_inj year carrier tier year' carrier' tier' :
  (0 ≤ year)%Z → (0 ≤ tier)%Z → (0 ≤ year')%Z → (0 ≤ tier')%Z →
  contains carrier "_" = false → contains carrier' "_" = false →
  tier_name year carrier tier = tier_name year' carrier' tier' →
  year = year' ∧ carrier = carrier' ∧ tier = tier'.
Proof.
  intros Hy Ht Hy' Ht' Hc Hc'. rewrite !tier_name_fields.
  intros H%join_underscore_inj; [| done | done | |].
  - injection H. intros Ht1 Hc1 Hy1.
    change ("" +:+ pretty tier) with (pretty tier) in Ht1.
    change ("" +:+ pretty tier') with (pretty tier') in Ht1.
    change ("" +:+ pretty year) with (pretty year) in Hy1.
    change ("" +:+ pretty year') with (pretty year') in Hy1.
    apply (inj pretty) in Hy1. apply (inj pretty) in Ht1. done.
  - repeat (apply Forall_cons; split); try done; try apply Forall_nil;
      simpl; by apply pretty_no_underscore.
  - repeat (apply Forall_cons; split); try done; try apply Forall_nil;
      simpl; by apply pretty_no_underscore.
Qed.

Lemma ship_name_not_tier_name year carrier tier dest year' carrier' tier' :
  ship_name year carrier tier dest ≠ tier_name year' carrier' tier'.
Proof. discriminate. Qed.

(** ** Finding the tiered variables by name *)

Lemma find_by_name_key {K} (vars : list (LpVariable K)) nm k :
  (∃ v, v ∈ vars ∧ name v = nm) →
  (∀ v, v ∈ vars → name v = nm → key v = k) →
  ∃ v, find_by_name vars nm = Some v ∧ key v = k.
Proof.
  unfold find_by_name. induction vars as [|w vars IH]; intros (v & Hv & Hn) Hk.
  - by apply elem_of_nil in Hv.
  - simpl. destruct (String.eqb (name w) nm) eqn:E.
    + exists w. split; [done|]. apply Hk; [by left|]. by apply String.eqb_eq.
    + apply IH.
      * apply elem_of_cons in Hv as [->|Hv]; [|by exists v].
        apply String.eqb_neq in E. done.
      * intros v' Hv'. apply Hk. by right.
Qed.

Lemma find_by_name_none {K} (vars : list (LpVariable K)) nm :
  (∀ v, v ∈ vars → name v ≠ nm) → find_by_name vars nm = None.
Proof.
  unfold find_by_name. induction vars as [|w vars IH]; intros H; [done|].
  simpl. destruct (String.eqb (name w) nm) eqn:E.
  - apply String.eqb_eq in E. by destruct (H w); [left|].
  - apply IH. intros v Hv. apply H. by right.
Qed.

Section tiered_variables.
Context (num_years : Z) (carriers destinations : list string).
Context (shipment_target : list (gmap string Q)).
Context (shipment_cost : gmap string (gmap string Q)).
Context (tier_min_quantity : list Z).
Context (discount_rate : gmap string (list Q)).

#[local] Abbreviation all_years := (years num_years).
#[local] Abbreviation all_tiers := (tiers tier_min_quantity).
#[local] Abbreviation ship_var := (ship_var shipment_target).
#[local] Abbreviation model :=
  (tiered_model num_years carriers destinations shipment_target shipment_cost
     tier_min_quantity discount_rate).

Lemma tiered_constraints_inv nc :
  nc ∈ tiered_constraints num_years carriers destinations shipment_target
         tier_min_quantity →
  (∃ year carrier, year ∈ all_years ∧ carrier ∈ carriers ∧
     nc.2 = one_tier_constraint tier_min_quantity year carrier) ∨
  (∃ year carrier tier dest,
     year ∈ all_years ∧ carrier ∈ carriers ∧ tier ∈ all_tiers ∧
     dest ∈ destinations ∧
     nc.2 = gating_constraint shipment_target year carrier tier dest) ∨
  (∃ year carrier tier,
     year ∈ all_years ∧ carrier ∈ carriers ∧ tier ∈ all_tiers ∧
     nc.2 = tier_minimum_constraint destinations shipment_target tier_min_quantity
              year carrier tier) ∨
  (∃ year dest, year ∈ all_years ∧ dest ∈ destinations ∧
     nc.2 = target_constraint carriers shipment_target tier_min_quantity year dest).
Proof.
  unfold tiered_constraints. intros [H|H]%elem_of_app.
  - apply list_elem_of_bind in H as (year & H & Hy).
    apply list_elem_of_bind in H as (carrier & H & Hc).
    unfold tier_constraints in H. apply elem_of_cons in H as [->|H].
    { left. by exists year, carrier. }
    apply list_elem_of_bind in H as (tier & H & Ht).
    apply elem_of_app in H as [H|H].
    + apply list_elem_of_fmap in H as (dest & -> & Hd).
      right; left. by exists year, carrier, tier, dest.
    + apply list_elem_of_singleton in H as ->.
      right; right; left. by exists year, carrier, tier.
  - apply list_elem_of_bind in H as (year & H & Hy).
    apply list_elem_of_bind in H as (dest & H & Hd).
    apply list_elem_of_singleton in H as ->.
    right; right; right. by exists year, dest.
Qed.

Lemma tiered_all_variables v :
  v ∈ all_variables model →
  (∃ year carrier tier dest,
     year ∈ all_years ∧ carrier ∈ carriers ∧ tier ∈ all_tiers ∧
     dest ∈ destinations ∧ v = ship_var year carrier tier dest) ∨
  (∃ year carrier tier,
     year ∈ all_years ∧ carrier ∈ carriers ∧ tier ∈ all_tiers ∧
     v = flag_var year carrier tier).
Proof.
  unfold all_variables. intros [H|H]%elem_of_app.
  - change (objective model) with
      (tiered_objective num_years carriers destinations shipment_target
         shipment_cost tier_min_quantity discount_rate) in H.
    rewrite tiered_objective_variables in H.
    apply list_elem_of_bind in H as (year & H & Hy).
    apply list_elem_of_bind in H as (carrier & H & Hc).
    apply list_elem_of_bind in H as (tier & H & Ht).
    apply list_elem_of_bind in H as (dest & H & Hd).
    apply list_elem_of_singleton in H as ->.
    left. by exists year, carrier, tier, dest.
  - apply list_elem_of_bind in H as ([nm c] & Hv & Hc).
    apply tiered_constraints_inv in Hc
      as [(year & carrier & Hy & Hc & Heq)
         |[(year & carrier & tier & dest & Hy & Hc & Ht & Hd & Heq)
          |[(year & carrier & tier & Hy & Hc & Ht & Heq)
           |(year & dest & Hy & Hd & Heq)]]];
      simpl in Heq, Hv; subst c.
    + unfold constraint_variables, one_tier_constraint in Hv. simpl in Hv.
      rewrite app_nil_r, expr_variables_lpSum in Hv.
      apply list_elem_of_bind in Hv as (e & Hv & He).
      apply list_elem_of_fmap in He as (f & -> & Hf).
      apply list_elem_of_fmap in Hf as (tier & -> & Ht).
      apply list_elem_of_singleton in Hv as ->.
      right. by exists year, carrier, tier.
    + change (v ∈ [ship_var year carrier tier dest; flag_var year carrier tier]) in Hv.
      apply elem_of_cons in Hv as [->|Hv].
      * left. by exists year, carrier, tier, dest.
      * apply list_elem_of_singleton in Hv as ->. right. by exists year, carrier, tier.
    + unfold constraint_variables, tier_minimum_constraint in Hv. simpl in Hv.
      apply elem_of_app in Hv as [Hv|Hv].
      * rewrite expr_variables_lpSum in Hv.
        apply list_elem_of_bind in Hv as (e & Hv & He).
        apply list_elem_of_fmap in He as (dest & -> & Hd).
        apply list_elem_of_singleton in Hv as ->.
        left. by exists year, carrier, tier, dest.
      * apply list_elem_of_singleton in Hv as ->. right. by exists year, carrier, tier.
    + unfold constraint_variables, target_constraint in Hv. simpl in Hv.
      rewrite app_nil_r, expr_variables_lpSum_bind in Hv.
      apply list_elem_of_bind in Hv as (carrier & Hv & Hc).
      rewrite expr_variables_lpSum_bind in Hv.
      apply list_elem_of_bind in Hv as (tier & Hv & Ht).
      rewrite expr_variables_lpSum in Hv. simpl in Hv.
      apply list_elem_of_singleton in Hv as ->.
      left. by exists year, carrier, tier, dest.
Qed.

Lemma ship_var_occurs year carrier tier dest :
  year ∈ all_years → carrier ∈ carriers → tier ∈ all_tiers → dest ∈ destinations →
  ship_var year carrier tier dest ∈ all_variables model.
Proof.
  intros Hy Hc Ht Hd. unfold all_variables. apply elem_of_app. left.
  change (objective model) with
    (tiered_objective num_years carriers destinations shipment_target
       shipment_cost tier_min_quantity discount_rate).
  rewrite tiered_objective_variables.
  apply list_elem_of_bind. exists year. split; [|done].
  apply list_elem_of_bind. exists carrier. split; [|done].
  apply list_elem_of_bind. exists tier. split; [|done].
  apply list_elem_of_bind. exists dest. split; [by left|done].
Qed.

Lemma flag_var_occurs year carrier tier :
  year ∈ all_years → carrier ∈ carriers → tier ∈ all_tiers →
  flag_var year carrier tier ∈ all_variables model.
Proof.
  intros Hy Hc Ht. unfold all_variables. apply elem_of_app. right.
  apply list_elem_of_bind.
  exists (None, one_tier_constraint tier_min_quantity year carrier). split.
  - unfold constraint_variables, one_tier_constraint. simpl.
    rewrite app_nil_r, expr_variables_lpSum.
    apply list_elem_of_bind. exists (of_var (flag_var year carrier tier)).
    split; [by left|].
    apply list_elem_of_fmap_2, list_elem_of_fmap_2. exact Ht.
  - by apply one_tier_constraint_elem.
Qed.

(** Every name in the model comes out of PuLP's renaming. *)
Lemma tiered_variable_name v :
  v ∈ variables model → ∃ s, name v = translate s.
Proof.
  intros Hv%variables_sound%tiered_all_variables.
  destruct Hv as [(y & c & t & d & _ & _ & _ & _ & ->)|(y & c & t & _ & _ & _ & ->)];
    by eexists.
Qed.

Hypothesis plain_carriers : ∀ carrier, carrier ∈ carriers → plain_name carrier = true.
Hypothesis plain_destinations : ∀ dest, dest ∈ destinations → plain_name dest = true.

Lemma ship_var_name year carrier tier dest :
  year ∈ all_years → carrier ∈ carriers → tier ∈ all_tiers → dest ∈ destinations →
  name (ship_var year carrier tier dest) = ship_name year carrier tier dest.
Proof.
  intros Hy%elem_of_range Hc Ht%elem_of_range Hd.
  change (name (ship_var year carrier tier dest))
    with (translate (ship_name year carrier tier dest)).
  apply ship_name_translate; [lia|lia|by apply plain_carriers|by apply plain_destinations].
Qed.

Lemma flag_var_name year carrier tier :
  year ∈ all_years → carrier ∈ carriers → tier ∈ all_tiers →
  name (flag_var year carrier tier) = tier_name year carrier tier.
Proof.
  intros Hy%elem_of_range Hc Ht%elem_of_range.
  change (name (flag_var year carrier tier))
    with (translate (tier_name year carrier tier)).
  apply tier_name_translate; [lia|lia|by apply plain_carriers].
Qed.

Lemma no_underscore_carrier c : c ∈ carriers → contains c "_" = false.
Proof. intros Hc. by destruct (plain_name_spec c (plain_carriers c Hc)). Qed.
Lemma no_underscore_destination d : d ∈ destinations → contains d "_" = false.
Proof. intros Hd. by destruct (plain_name_spec d (plain_destinations d Hd)). Qed.

(** With plain names the scan for a flow variable finds the variable. *)
Lemma find_ship_var year carrier tier dest :
  year ∈ all_years → carrier ∈ carriers → tier ∈ all_tiers → dest ∈ destinations →
  ∃ v, find_by_name (variables model) (ship_name year carrier tier dest) = Some v ∧
       key v = shipment_at_tier_key year carrier tier dest.
Proof.
  intros Hy Hc Ht Hd. apply find_by_name_key.
  - destruct (variables_complete model (ship_var year carrier tier dest))
      as (v & Hv & Hk); [by apply ship_var_occurs|].
    exists v. split; [done|].
    pose proof Hv as Hv'%variables_sound%tiered_all_variables.
    destruct Hv' as [(y & c & t & d & Hy' & Hc' & Ht' & Hd' & ->)
                    |(y & c & t & _ & _ & _ & ->)]; [|discriminate Hk].
    injection Hk as -> -> -> ->. by apply ship_var_name.
  - intros v Hv%variables_sound%tiered_all_variables Hn.
    destruct Hv as [(y & c & t & d & Hy' & Hc' & Ht' & Hd' & ->)
                   |(y & c & t & Hy' & Hc' & Ht' & ->)].
    + rewrite ship_var_name in Hn by done.
      apply elem_of_range in Hy, Ht, Hy', Ht'.
      apply ship_name_inj in Hn as (-> & -> & -> & ->);
        [done|lia..|by apply no_underscore_carrier|by apply no_underscore_destination
        |by apply no_underscore_carrier|by apply no_underscore_destination].
    + rewrite flag_var_name in Hn by done. symmetry in Hn.
      by apply ship_name_not_tier_name in Hn.
Qed.

Lemma find_flag_var_key year carrier tier v :
  year ∈ all_years → carrier ∈ carriers → tier ∈ all_tiers →
  v ∈ variables model → name v = tier_name year carrier tier →
  key v = tier_flag_key year carrier tier.
Proof.
  intros Hy Hc Ht Hv%variables_sound%tiered_all_variables Hn.
  destruct Hv as [(y & c & t & d & Hy' & Hc' & Ht' & Hd' & ->)
                 |(y & c & t & Hy' & Hc' & Ht' & ->)].
  - rewrite ship_var_name in Hn by done.
    by apply ship_name_not_tier_name in Hn.
  - rewrite flag_var_name in Hn by done.
    apply elem_of_range in Hy, Ht, Hy', Ht'.
    apply tier_name_inj in Hn as (-> & -> & ->);
      [done|lia..|by apply no_underscore_carrier|by apply no_underscore_carrier].
Qed.
(** With plain names the flag of a tier is among the variables of the model
    under the name the report looks for. *)
Lemma flag_var_found year carrier tier :
  year ∈ all_years → carrier ∈ carriers → tier ∈ all_tiers →
  ∃ v, v ∈ variables model ∧ name v = tier_name year carrier tier ∧
       key v = tier_flag_key year carrier tier.
Proof.
  intros Hy Hc Ht.
  destruct (variables_complete model (flag_var year carrier tier))
    as (v & Hv & Hk); [by apply flag_var_occurs|].
  exists v. split; [done|]. split; [|done].
  pose proof Hv as Hv'%variables_sound%tiered_all_variables.
  destruct Hv' as [(y & c & t & d & Hy' & Hc' & Ht' & Hd' & ->)
                  |(y & c & t & Hy' & Hc' & Ht' & ->)]; [discriminate Hk|].
  injection Hk as -> -> ->. by apply flag_var_name.
Qed.
End tiered_variables.

(** ** The shape of the tiered report *)

(** A loop that only adds lines to the output part of its state. *)
Lemma for__extends {A S L} (out_of : S → list L) (P : L → Prop) (l : list A)
    (body : S → A → result S) :
  (∀ s x s', x ∈ l → body s x = Ok s' →
     ∃ ys, out_of s' = out_of s ++ ys ∧ Forall P ys) →
  ∀ s s', for_ l body s = Ok s' → ∃ ys, out_of s' = out_of s ++ ys ∧ Forall P ys.
Proof.
  induction l as [|x l IH]; intros Hbody s s' H; simpl in H.
  - injection H as <-. exists []. by rewrite app_nil_r.
  - inv_bind H.
    destruct (Hbody s x x0) as (ys & Hys & HP); [left|done|].
    destruct (IH (λ s1 y s2 Hy, Hbody s1 y s2 (list_elem_of_further _ _ _ Hy)) x0 s' H)
      as (zs & Hzs & HQ).
    exists (ys ++ zs). split; [by rewrite Hzs, Hys, app_assoc|by apply Forall_app].
Qed.

Lemma find_unique `{EqDecision A} (f : A → bool) (l : list A) (x : A) :
  x ∈ l → f x = true → (∀ y, y ∈ l → y ≠ x → f y = false) →
  List.find f l = Some x.
Proof.
  induction l as [|y l IH]; intros Hx Hfx Hothers; [by apply elem_of_nil in Hx|].
  simpl. destruct (f y) eqn:E.
  - f_equal. destruct (decide (y = x)) as [|Hne]; [done|].
    rewrite Hothers in E; [done|by left|done].
  - apply IH; [|done|intros z Hz; apply Hothers; by right].
    apply elem_of_cons in Hx as [->|Hx]; [congruence|done].
Qed.

Ltac other_lines :=
  repeat first [apply Forall_app; split | apply Forall_cons; split | apply Forall_nil];
  first [assumption | reflexivity].

Section tiered_report_shape.
Import carrier_earned_discount_report.
Context (problem : LpProblem TierKey) (solution : Solution TierKey).
Context (num_years : Z) (carriers destinations : list string).
Context (shipment_target : list (gmap string Q)).
Context (tier_min_quantity : list Z).
Context (discount_rate : gmap string (list Q)).

#[local] Abbreviation find_active_tier :=
  (find_active_tier problem solution tier_min_quantity).
#[local] Abbreviation shipments_by_name := (shipments_by_name problem solution).
#[local] Abbreviation other_line := (λ line, is_summary_line line = false).

(** The row of a destination in the destination summary, and the row of a
    carrier and year in the carrier performance summary. *)
#[local] Abbreviation summary_line := (λ dest,
  let total_target := Qsum ((λ year, target shipment_target year dest)
                              <$> range num_years) in
  let total_shipments :=
    Qsum (year ← range num_years; carrier ← carriers;
          tier ← range (len tier_min_quantity);
          [shipments_by_name year carrier tier dest]) in
  DestinationSummary dest total_shipments total_target
    (Qltb (Qabs (total_shipments - total_target)) 0.01)).
#[local] Abbreviation performance_lines := (λ carrier year,
  match find_active_tier year carrier with
  | Some active_tier =>
    [CarrierPerformance carrier year active_tier
       (Qsum (dest ← destinations; tier ← range (len tier_min_quantity);
              [shipments_by_name year carrier tier dest]))
       ((1 - rate discount_rate carrier active_tier) * 100)%Q]
  | None => []
  end).

Hypothesis targets_present : ∀ year dest,
  year ∈ range num_years → dest ∈ destinations →
  ∃ t, target_at shipment_target year dest = Ok t.
Hypothesis rates_present : ∀ carrier,
  carrier ∈ carriers →
  ∃ rates, getitem discount_rate carrier = Ok rates ∧
           (len tier_min_quantity ≤ len rates)%Z.

Lemma find_active_tier_in year carrier tier :
  find_active_tier year carrier = Some tier → tier ∈ range (len tier_min_quantity).
Proof.
  unfold carrier_earned_discount_report.find_active_tier.
  intros [H _]%find_some. by apply list_elem_of_In.
Qed.

Lemma rate_lookup carrier tier :
  carrier ∈ carriers → tier ∈ range (len tier_min_quantity) →
  ∃ rates, getitem discount_rate carrier = Ok rates ∧
           getitem_list rates tier = Ok (rate discount_rate carrier tier).
Proof.
  intros Hc Ht%elem_of_range. destruct (rates_present carrier Hc) as (rates & Hr & Hlen).
  destruct (getitem_list_total rates tier) as [r Hrt]; [lia|].
  exists rates. split; [done|]. unfold rate. rewrite Hr. cbn [mbind result_bind].
  by rewrite Hrt.
Qed.

Lemma active_tier_lines_total year carrier :
  carrier ∈ carriers →
  ∃ ls, active_tier_lines tier_min_quantity discount_rate carrier
          (find_active_tier year carrier) = Ok ls ∧ Forall other_line ls.
Proof.
  intros Hc. unfold active_tier_lines.
  destruct (find_active_tier year carrier) as [tier|] eqn:E; [|by exists []].
  apply find_active_tier_in in E.
  destruct (rate_lookup carrier tier Hc E) as (rates & -> & Hr).
  cbn [mbind result_bind]. rewrite Hr. cbn [mbind result_bind].
  destruct (getitem_list_total tier_min_quantity tier) as [q ->];
    [by apply elem_of_range|].
  eexists. split; [reflexivity|]. by repeat constructor.
Qed.

Lemma destination_figures_total year carrier dest :
  carrier ∈ carriers →
  ∃ figures, destination_figures problem solution tier_min_quantity discount_rate
               year carrier dest = Ok figures.
Proof.
  intros Hc. apply for__total. intros [s c] tier Ht.
  destruct (find_by_name _ _) as [var|]; [|by eexists]. cbn zeta.
  destruct (Qltb 0 _); [|by eexists].
  destruct (rate_lookup carrier tier Hc Ht) as (rates & -> & Hr).
  cbn [mbind result_bind]. rewrite Hr. by eexists.
Qed.

Lemma carrier_block_total year st carrier :
  year ∈ range num_years → carrier ∈ carriers →
  ∃ st', carrier_block problem solution destinations shipment_target
           tier_min_quantity discount_rate year st carrier = Ok st'.
Proof.
  intros Hy Hc. destruct st as [[out s] c]. unfold carrier_block.
  destruct (active_tier_lines_total year carrier Hc) as (ls & -> & _).
  cbn [mbind result_bind].
  apply bind_total2.
  - apply for__total. intros [[out' s'] c'] dest Hd.
    destruct (destination_figures_total year carrier dest Hc) as [[ds dc] ->].
    cbn [mbind result_bind]. destruct (Qltb 0 ds); [|by eexists].
    destruct (targets_present year dest Hy Hd) as [t ->]. by eexists.
  - intros [[out' s'] c'] _. by eexists.
Qed.

Lemma carrier_block_extends year st carrier st' :
  carrier ∈ carriers →
  carrier_block problem solution destinations shipment_target
    tier_min_quantity discount_rate year st carrier = Ok st' →
  ∃ ys, st'.1.1 = st.1.1 ++ ys ∧ Forall other_line ys.
Proof.
  intros Hc. destruct st as [[out s] c]. unfold carrier_block.
  destruct (active_tier_lines_total year carrier Hc) as (ls & -> & Hls).
  cbn [mbind result_bind]. intros H. inv_bind H. destruct x as [[out' s'] c'].
  injection H as <-.
  apply (for__extends (λ st : list Line * Q * Q, st.1.1) other_line) in E
    as (ys & Hys & HP).
  - simpl in Hys. subst out'. eexists. split.
    + simpl. rewrite <-!app_assoc. reflexivity.
    + repeat (apply Forall_app; split); try done; by repeat constructor.
  - intros [[o1 s1] c1] dest [[o2 s2] c2] _ Hbody.
    inv_bind Hbody. destruct x as [ds dc]. cbn zeta in Hbody.
    destruct (Qltb 0 ds).
    + inv_bind Hbody. injection Hbody as <- _ _.
      eexists. split; [reflexivity|]. by repeat constructor.
    + injection Hbody as <- _ _. exists []. by rewrite app_nil_r.
Qed.

Lemma yearly_table_shape out :
  ∃ ys, yearly_table problem solution num_years carriers destinations
          shipment_target tier_min_quantity discount_rate out = Ok (out ++ ys) ∧
        Forall other_line ys.
Proof.
  unfold yearly_table.
  destruct (for__total (range num_years)
    (λ out year,
       let out := out ++ [YearBanner year] in
       '(out, year_total_shipments, year_total_cost) ←
         for_ carriers (carrier_block problem solution destinations shipment_target
                          tier_min_quantity discount_rate year) (out, 0%Q, 0%Q);
       Ok (out ++ [YearTotal year_total_shipments year_total_cost])) out)
    as [out' Hout].
  { intros o year Hy. cbn zeta. apply bind_total2.
    - apply for__total. intros st carrier Hc. by apply carrier_block_total.
    - intros [[o' s] c] _. by eexists. }
  pose proof Hout as Hext.
  apply (for__extends (λ o : list Line, o) other_line) in Hext as (ys & -> & HP).
  - by exists ys.
  - intros o year o' _ Hbody. cbn zeta in Hbody. inv_bind Hbody.
    destruct x as [[o1 s] c]. injection Hbody as <-.
    apply (for__extends (λ st : list Line * Q * Q, st.1.1) other_line) in E
      as (ys & Hys & HP).
    + simpl in Hys. subst o1. eexists. split.
      * rewrite <-!app_assoc. reflexivity.
      * repeat (apply Forall_app; split); try done; by repeat constructor.
    + intros st carrier st' Hc Hblock. by apply (carrier_block_extends year st carrier).
Qed.

Lemma destination_summary_shape out :
  destination_summary problem solution num_years carriers destinations
    shipment_target tier_min_quantity out
  = Ok (out ++ (summary_line <$> destinations)).
Proof.
  unfold destination_summary. rewrite <-bind_singleton_fmap.
  apply (for__lines (λ dest, [summary_line dest])). intros o dest Hd.
  rewrite (comprehension_pure (λ year, target_at shipment_target year dest)
             (λ year, target shipment_target year dest)).
  - reflexivity.
  - intros year Hy. destruct (targets_present year dest Hy Hd) as [t Ht].
    unfold target. by rewrite Ht.
Qed.

Lemma carrier_performance_shape out :
  carrier_performance problem solution num_years carriers destinations
    tier_min_quantity discount_rate out
  = Ok (out ++ (carrier ← carriers; year ← range num_years;
                performance_lines carrier year)).
Proof.
  unfold carrier_performance.
  apply (for__lines (λ carrier, year ← range num_years;
                                performance_lines carrier year)).
  intros o carrier Hc.
  apply (for__lines (λ year, performance_lines carrier year)).
  intros o' year Hy. cbn zeta.
  destruct (find_active_tier year carrier) as [tier|] eqn:E; [|by rewrite app_nil_r].
  apply find_active_tier_in in E.
  destruct (rate_lookup carrier tier Hc E) as (rates & -> & Hr).
  cbn [mbind result_bind]. rewrite Hr. reflexivity.
Qed.

Lemma optimal_display_shape out :
  ∃ before between after,
    Forall other_line before ∧ Forall other_line between ∧
    Forall other_line after ∧
    optimal_display problem solution num_years carriers destinations
      shipment_target tier_min_quantity discount_rate out
    = Ok (out ++ before ++ (summary_line <$> destinations) ++ between
          ++ (carrier ← carriers; year ← range num_years;
              performance_lines carrier year)
          ++ after).
Proof.
  unfold optimal_display.
  destruct (yearly_table_shape
              (out ++ [Text (nl +:+ rule "-"); Text "SHIPMENT ALLOCATION BY YEAR";
                       Text (rule "-")]))
    as (ys & Hys & HP).
  rewrite Hys. cbn [mbind result_bind].
  rewrite destination_summary_shape. cbn [mbind result_bind].
  rewrite carrier_performance_shape. cbn [mbind result_bind].
  rewrite <-!app_assoc.
  match goal with
  | |- context [Ok (out ++ ?b1 ++ ys ++ ?b2 ++ _ ++ ?b3 ++ _ ++ ?e)] =>
    exists (b1 ++ ys ++ b2), b3, e
  end.
  split; [|split; [|split]]; [other_lines..|].
  rewrite <-!app_assoc. reflexivity.
Qed.

(** The report of an optimal solution: lines of other kinds around the two
    summary tables. *)
Lemma print_solution_shape :
  status solution = LpStatusOptimal →
  ∃ before between after,
    Forall other_line before ∧ Forall other_line between ∧
    Forall other_line after ∧
    print_solution problem solution num_years carriers destinations
      shipment_target tier_min_quantity discount_rate
    = Ok (before ++ (summary_line <$> destinations) ++ between
          ++ (carrier ← carriers; year ← range num_years;
              performance_lines carrier year)
          ++ after).
Proof.
  intros Hs. unfold print_solution. rewrite Hs.
  change (getitem LpStatus LpStatusOptimal) with (Ok (A:=string) "Optimal").
  cbn [mbind result_bind Z.eqb LpStatusOptimal Pos.eqb].
  destruct (optimal_display_shape
              ((results_banner ++ [SolverStatus "Optimal" LpStatusOptimal])
               ++ [OptimalTotalCost (value (varValue solution) (objective problem))]))
    as (before & between & after & Hb & Hm & Ha & Hshape).
  rewrite Hshape.
  exists ((results_banner ++ [SolverStatus "Optimal" LpStatusOptimal]
           ++ [OptimalTotalCost (value (varValue solution) (objective problem))])
          ++ before), between, after.
  split; [|split; [|split]]; try assumption.
  - unfold results_banner. other_lines.
  - rewrite <-!app_assoc. reflexivity.
Qed.
(** The rows of the two summary tables in the report of an optimal
    solution. *)
Lemma print_solution_lines :
  status solution = LpStatusOptimal →
  ∃ out,
    print_solution problem solution num_years carriers destinations
      shipment_target tier_min_quantity discount_rate = Ok out ∧
    (∀ dest s t ok,
       DestinationSummary dest s t ok ∈ out ↔
       dest ∈ destinations ∧ DestinationSummary dest s t ok = summary_line dest) ∧
    (∀ carrier year tier s p,
       CarrierPerformance carrier year tier s p ∈ out ↔
       carrier ∈ carriers ∧ year ∈ range num_years ∧
       performance_lines carrier year = [CarrierPerformance carrier year tier s p]).
Proof.
  intros Hs.
  destruct (print_solution_shape Hs) as (before & between & after & Hb & Hm & Ha & ->).
  eexists. split; [reflexivity|].
  assert (Hother : ∀ l x, Forall other_line l → x ∈ l → is_summary_line x = true → False).
  { intros l x Hl Hx Hsum. rewrite Forall_forall in Hl.
    specialize (Hl x Hx). simpl in Hl. congruence. }
  assert (Hperf : ∀ x, x ∈ (carrier ← carriers; year ← range num_years;
                            performance_lines carrier year) ↔
                       ∃ carrier year, carrier ∈ carriers ∧ year ∈ range num_years ∧
                                       performance_lines carrier year = [x]).
  { intros x. rewrite list_elem_of_bind. split.
    - intros (carrier & (year & Hx & Hy)%list_elem_of_bind & Hc).
      exists carrier, year. split; [done|]. split; [done|].
      destruct (find_active_tier year carrier); [|by apply elem_of_nil in Hx].
      by apply list_elem_of_singleton in Hx as ->.
    - intros (carrier & year & Hc & Hy & Hx). exists carrier. split; [|done].
      apply list_elem_of_bind. exists year. split; [|done]. rewrite Hx. by left. }
  split.
  - intros dest s t ok. rewrite !elem_of_app, list_elem_of_fmap, Hperf. split.
    + intros [H|[H|[H|[H|H]]]].
      * by destruct (Hother _ _ Hb H).
      * destruct H as (dest' & Heq & Hd). pose proof Heq as Heq'.
        injection Heq' as -> _ _ _. done.
      * by destruct (Hother _ _ Hm H).
      * destruct H as (carrier & year & _ & _ & H).
        destruct (find_active_tier year carrier); discriminate H.
      * by destruct (Hother _ _ Ha H).
    + intros [Hd Heq]. right. left. by exists dest.
  - intros carrier year tier s p. rewrite !elem_of_app, list_elem_of_fmap, Hperf. split.
    + intros [H|[H|[H|[H|H]]]].
      * by destruct (Hother _ _ Hb H).
      * destruct H as (dest' & Heq & Hd). discriminate Heq.
      * by destruct (Hother _ _ Hm H).
      * destruct H as (carrier' & year' & Hc & Hy & H).
        destruct (find_active_tier year' carrier') eqn:E; [|discriminate H].
        pose proof H as H'. injection H' as -> -> _ _ _.
        split; [done|]. split; [done|]. rewrite E. exact H.
      * by destruct (Hother _ _ Ha H).
    + intros (Hc & Hy & H). do 3 right. left. by exists carrier, year.
Qed.
End tiered_report_shape.

(** ** The tiered report of a feasible optimal solution *)

Lemma Qltb_true x y : Qltb x y = true ↔ (x < y)%Q.
Proof.
  unfold Qltb. rewrite negb_true_iff. split.
  - intros H. apply Qnot_le_lt. intros Hle%Qle_bool_iff. congruence.
  - intros H. destruct (Qle_bool y x) eqn:E; [|done].
    apply Qle_bool_iff in E. lra.
Qed.

Lemma Qltb_false x y : Qltb x y = false ↔ (y <= x)%Q.
Proof.
  unfold Qltb. rewrite negb_false_iff. apply Qle_bool_iff.
Qed.

Section tiered_report_facts.
Import carrier_earned_discount_report.
Context (num_years : Z) (carriers destinations : list string).
Context (shipment_target : list (gmap string Q)).
Context (shipment_cost : gmap string (gmap string Q)).
Context (tier_min_quantity : list Z).
Context (discount_rate : gmap string (list Q)).
Context (solution : Solution TierKey).

#[local] Abbreviation all_years := (years num_years).
#[local] Abbreviation all_tiers := (tiers tier_min_quantity).
#[local] Abbreviation model :=
  (tiered_model num_years carriers destinations shipment_target shipment_cost
     tier_min_quantity discount_rate).
#[local] Abbreviation a := (varValue solution).

Hypothesis plain_carriers : ∀ carrier, carrier ∈ carriers → plain_name carrier = true.
Hypothesis plain_destinations : ∀ dest, dest ∈ destinations → plain_name dest = true.
Hypothesis solution_feasible : feasible model a.

(** The scan by name reads the flow variable of the route. *)
Lemma shipments_by_name_value year carrier tier dest :
  year ∈ all_years → carrier ∈ carriers → tier ∈ all_tiers → dest ∈ destinations →
  shipments_by_name model solution year carrier tier dest
  = a (shipment_at_tier_key year carrier tier dest).
Proof.
  intros Hy Hc Ht Hd. unfold shipments_by_name.
  destruct (find_ship_var num_years carriers destinations shipment_target
              shipment_cost tier_min_quantity discount_rate plain_carriers
              plain_destinations year carrier tier dest Hy Hc Ht Hd)
    as (v & -> & Hk).
  unfold value_of. by rewrite Hk.
Qed.

(** The test of a tier in the search for the active tier reads the flag of
    the tier. *)
Lemma tier_test_value year carrier tier :
  year ∈ all_years → carrier ∈ carriers → tier ∈ all_tiers →
  existsb (λ var, String.eqb (name var) (tier_name year carrier tier)
                  && Qltb 0.5 (value_of solution var)) (variables model)
  = Qltb 0.5 (a (tier_flag_key year carrier tier)).
Proof.
  intros Hy Hc Ht. apply Bool.eq_iff_eq_true. rewrite existsb_exists. split.
  - intros (v & Hv%list_elem_of_In & [Hn%String.eqb_eq Hval]%andb_prop).
    unfold value_of in Hval.
    by rewrite (find_flag_var_key num_years carriers destinations shipment_target
                  shipment_cost tier_min_quantity discount_rate plain_carriers
                  plain_destinations year carrier tier v Hy Hc Ht Hv Hn) in Hval.
  - intros Hval.
    destruct (flag_var_found num_years carriers destinations shipment_target
                shipment_cost tier_min_quantity discount_rate plain_carriers
                year carrier tier Hy Hc Ht) as (v & Hv & Hn & Hk).
    exists v. split; [by apply list_elem_of_In|].
    apply andb_true_intro. split; [by apply String.eqb_eq|].
    unfold value_of. by rewrite Hk.
Qed.

(** The search finds the one tier whose flag is 1. *)
Lemma find_active_tier_value year carrier :
  year ∈ all_years → carrier ∈ carriers →
  ∃ tier, tier ∈ all_tiers ∧
    find_active_tier model solution tier_min_quantity year carrier = Some tier ∧
    (a (tier_flag_key year carrier tier) == 1)%Q ∧
    ∀ tier', tier' ∈ all_tiers → tier' ≠ tier →
      (a (tier_flag_key year carrier tier') == 0)%Q.
Proof.
  intros Hy Hc.
  destruct (tiered_one_tier num_years carriers destinations shipment_target
              shipment_cost tier_min_quantity discount_rate a year carrier
              solution_feasible Hy Hc) as (tier & Ht & H1 & H0).
  exists tier. split; [done|]. split; [|done].
  unfold find_active_tier. apply find_unique; [exact Ht| |].
  - rewrite tier_test_value by done. apply Qltb_true. rewrite H1. lra.
  - intros tier' Ht' Hne. rewrite tier_test_value by done.
    apply Qltb_false. rewrite (H0 tier' Ht' Hne). lra.
Qed.

(** What the report adds up for a destination in a year is the flow into
    the destination. *)
Lemma year_shipments_inflow year dest :
  year ∈ all_years → dest ∈ destinations →
  (Qsum (carrier ← carriers; tier ← all_tiers;
         [shipments_by_name model solution year carrier tier dest])
   == inflow carriers tier_min_quantity a year dest)%Q.
Proof.
  intros Hy Hd. unfold inflow. rewrite !Qsum_bind. apply Qsum_fmap_ext.
  intros carrier Hc. rewrite !Qsum_bind. apply Qsum_fmap_ext. intros tier Ht.
  by rewrite shipments_by_name_value.
Qed.

Lemma summary_shipments_target dest :
  dest ∈ destinations →
  (Qsum (year ← range num_years; carrier ← carriers;
         tier ← range (len tier_min_quantity);
         [shipments_by_name model solution year carrier tier dest])
   == Qsum ((λ year, target shipment_target year dest) <$> range num_years))%Q.
Proof.
  intros Hd. rewrite Qsum_bind. apply Qsum_fmap_ext. intros year Hy.
  rewrite (year_shipments_inflow year dest Hy Hd).
  by apply (tiered_target_met num_years carriers destinations shipment_target
              shipment_cost tier_min_quantity discount_rate).
Qed.

(** What the report adds up for a carrier in a year is what the carrier
    ships at its active tier. *)
Lemma performance_shipments year carrier tier :
  year ∈ all_years → carrier ∈ carriers → tier ∈ all_tiers →
  (a (tier_flag_key year carrier tier) == 1)%Q →
  (Qsum (dest ← destinations; tier' ← range (len tier_min_quantity);
         [shipments_by_name model solution year carrier tier' dest])
   == Qsum ((λ dest, a (shipment_at_tier_key year carrier tier dest))
              <$> destinations))%Q.
Proof.
  intros Hy Hc Ht H1. rewrite Qsum_bind. apply Qsum_fmap_ext. intros dest Hd.
  rewrite Qsum_bind.
  destruct (tiered_one_tier num_years carriers destinations shipment_target
              shipment_cost tier_min_quantity discount_rate a year carrier
              solution_feasible Hy Hc) as (tier0 & Ht0 & H10 & H0).
  assert (tier0 = tier) as ->.
  { destruct (decide (tier = tier0)) as [|Hne]; [done|].
    pose proof (H0 tier Ht Hne) as Hz. rewrite H1 in Hz. lra. }
  rewrite (Qsum_single _ _ tier); [| apply NoDup_range | exact Ht |].
  - change (Qsum [?x]) with (x + 0)%Q. rewrite shipments_by_name_value by done. ring.
  - intros tier' Ht' Hne. change (Qsum [?x]) with (x + 0)%Q.
    rewrite shipments_by_name_value by done.
    rewrite (tiered_inactive_zero num_years carriers destinations shipment_target
               shipment_cost tier_min_quantity discount_rate a year carrier tier'
               dest solution_feasible Hy Hc Ht' Hd (H0 tier' Ht' Hne)). ring.
Qed.
End tiered_report_facts.

(** The builder looks up the target of every year and destination. *)
Lemma tiered_build_targets_present
    num_years carriers destinations shipment_target shipment_cost
    tier_min_quantity discount_rate m :
  carrier_earned_discount.optimize_shipments num_years carriers destinations
    shipment_target shipment_cost tier_min_quantity discount_rate = Ok m →
  ∀ year dest, year ∈ range num_years → dest ∈ destinations →
    ∃ t, target_at shipment_target year dest = Ok t.
Proof.
  unfold carrier_earned_discount.optimize_shipments. intros H year dest Hy Hd.
  inv_bind H. inv_bind H. inv_bind H. inv_bind H.
  destruct (for__Ok_elem _ _ _ _ year H Hy) as (s1 & s2 & Hyear).
  destruct (for__Ok_elem _ _ _ _ dest Hyear Hd) as (s3 & s4 & Hdest).
  inv_bind Hdest. inv_bind Hdest. by eexists.
Qed.

Lemma Qabs_close s t : (s == t)%Q → (Qabs (s - t) < 0.01)%Q.
Proof.
  intros H. assert (E : (s - t == 0)%Q) by (rewrite H; ring).
  rewrite E. reflexivity.
Qed.

Lemma example_tiered_plain :
  (∀ carrier, carrier ∈ ["UPS"] → plain_name carrier = true) ∧
  (∀ dest, dest ∈ ["A"] → plain_name dest = true).
Proof. split; by intros ? ->%list_elem_of_singleton. Qed.

Lemma example_rates_present :
  ∀ carrier, carrier ∈ ["UPS"] →
    ∃ rates, getitem example.discount_rate carrier = Ok rates ∧
             (len example.tier_min_quantity ≤ len rates)%Z.
Proof. intros ? ->%list_elem_of_singleton. by eexists. Qed.

(** X13. In the report of a feasible optimal solution of the tiered model the
    destination summary has one row for every destination, the total target
    it shows is the sum of the targets of the destination over the years, the
    total of the shipments equals it, and the row is marked as met. *)
Theorem summary_rows_on_target
    num_years carriers destinations shipment_target shipment_cost
    tier_min_quantity discount_rate m solution :
  (∀ carrier, carrier ∈ carriers → plain_name carrier = true) →
  (∀ dest, dest ∈ destinations → plain_name dest = true) →
  (∀ carrier, carrier ∈ carriers →
     ∃ rates, getitem discount_rate carrier = Ok rates ∧
              (len tier_min_quantity ≤ len rates)%Z) →
  carrier_earned_discount.optimize_shipments num_years carriers destinations
    shipment_target shipment_cost tier_min_quantity discount_rate = Ok m →
  status solution = LpStatusOptimal →
  feasible m (varValue solution) →
  ∃ out,
    carrier_earned_discount_report.print_solution m solution num_years carriers
      destinations shipment_target tier_min_quantity discount_rate = Ok out ∧
    (∀ dest, dest ∈ destinations →
       ∃ s t ok, carrier_earned_discount_report.DestinationSummary dest s t ok ∈ out) ∧
    ∀ dest s t ok,
      carrier_earned_discount_report.DestinationSummary dest s t ok ∈ out →
      dest ∈ destinations ∧
      (∀ year, year ∈ range num_years →
         target_at shipment_target year dest
         = Ok (target shipment_target year dest)) ∧
      t = Qsum ((λ year, target shipment_target year dest) <$> range num_years) ∧
      (s == t)%Q ∧ ok = true.
Proof.
  intros Hpc Hpd Hrates Hm Hs Hf.
  pose proof (tiered_build_targets_present _ _ _ _ _ _ _ m Hm) as Htargets.
  apply optimize_shipments_model in Hm as ->.
  destruct (print_solution_lines
              (tiered_model num_years carriers destinations shipment_target
                 shipment_cost tier_min_quantity discount_rate)
              solution num_years carriers destinations
              shipment_target tier_min_quantity discount_rate Htargets Hrates Hs)
    as (out & Hout & Hsum & _).
  exists out. split; [exact Hout|]. split.
  - intros dest Hd. eexists _, _, _. apply Hsum. split; [exact Hd|reflexivity].
  - intros dest s t ok [Hd Heq]%Hsum. injection Heq as -> -> ->.
    split; [exact Hd|]. split; [|split; [reflexivity|]].
    + intros year Hy. destruct (Htargets year dest Hy Hd) as [q Hq].
      unfold target. by rewrite Hq.
    + pose proof (summary_shipments_target num_years carriers destinations
                    shipment_target shipment_cost tier_min_quantity discount_rate
                    solution Hpc Hpd Hf dest Hd) as Heq.
      split; [exact Heq|]. by apply Qltb_true, Qabs_close.
Qed.

Lemma summary_rows_on_target_witness :
  ∃ out s t,
    carrier_earned_discount_report.print_solution example.tiered
      {| status := LpStatusOptimal; varValue := example.tiered_assignment |}
      1 ["UPS"] ["A"] example.shipment_target example.tier_min_quantity
      example.discount_rate = Ok out ∧
    carrier_earned_discount_report.DestinationSummary "A" s t true ∈ out ∧
    (s == t)%Q.
Proof.
  destruct example_tiered_plain as [Hc Hd].
  destruct (summary_rows_on_target 1%Z ["UPS"] ["A"] example.shipment_target
              example.shipment_cost example.tier_min_quantity example.discount_rate
              example.tiered
              {| status := LpStatusOptimal; varValue := example.tiered_assignment |}
              Hc Hd example_rates_present example_tiered_built eq_refl
              example_tiered_feasible)
    as (out & Hout & Hhas & Hall).
  destruct (Hhas "A") as (s & t & ok & Hline); [by left|].
  destruct (Hall _ _ _ _ Hline) as (_ & _ & _ & Heq & Hok).
  exists out, s, t. split; [exact Hout|]. split; [|exact Heq].
  rewrite Hok in Hline. exact Hline.
Defined.

(** X14. When no destination is repeated in the list of destinations, in the
    report of a feasible optimal solution of the tiered model the carrier
    performance summary has a row for every carrier and year. The tier of the
    row is the tier whose flag is 1, the shipments of the row are what the
    carrier ships in the year at that tier, the sum of its flow variables of
    that year and tier over the destinations, which is at least the minimum
    quantity of the tier, and the discount is taken from the multiplier of
    that tier. *)
Theorem performance_rows_at_active_tier
    num_years carriers destinations shipment_target shipment_cost
    tier_min_quantity discount_rate m solution :
  (∀ carrier, carrier ∈ carriers → plain_name carrier = true) →
  (∀ dest, dest ∈ destinations → plain_name dest = true) →
  NoDup destinations →
  (∀ carrier, carrier ∈ carriers →
     ∃ rates, getitem discount_rate carrier = Ok rates ∧
              (len tier_min_quantity ≤ len rates)%Z) →
  carrier_earned_discount.optimize_shipments num_years carriers destinations
    shipment_target shipment_cost tier_min_quantity discount_rate = Ok m →
  status solution = LpStatusOptimal →
  feasible m (varValue solution) →
  ∃ out,
    carrier_earned_discount_report.print_solution m solution num_years carriers
      destinations shipment_target tier_min_quantity discount_rate = Ok out ∧
    (∀ carrier year, carrier ∈ carriers → year ∈ range num_years →
       ∃ tier s p,
         carrier_earned_discount_report.CarrierPerformance carrier year tier s p
         ∈ out) ∧
    ∀ carrier year tier s p,
      carrier_earned_discount_report.CarrierPerformance carrier year tier s p ∈ out →
      carrier ∈ carriers ∧ year ∈ range num_years ∧
      tier ∈ range (len tier_min_quantity) ∧
      (varValue solution (tier_flag_key year carrier tier) == 1)%Q ∧
      (s == Qsum ((λ dest, varValue solution
                             (shipment_at_tier_key year carrier tier dest))
                    <$> destinations))%Q ∧
      (inject_Z (min_quantity tier_min_quantity tier) <= s)%Q ∧
      ∃ rates r, getitem discount_rate carrier = Ok rates ∧
                 getitem_list rates tier = Ok r ∧ p = ((1 - r) * 100)%Q.
Proof.
  intros Hpc Hpd _ Hrates Hm Hs Hf.
  pose proof (tiered_build_targets_present _ _ _ _ _ _ _ m Hm) as Htargets.
  apply optimize_shipments_model in Hm as ->.
  destruct (print_solution_lines
              (tiered_model num_years carriers destinations shipment_target
                 shipment_cost tier_min_quantity discount_rate)
              solution num_years carriers destinations
              shipment_target tier_min_quantity discount_rate Htargets Hrates Hs)
    as (out & Hout & _ & Hperf).
  exists out. split; [exact Hout|]. split.
  - intros carrier year Hc Hy.
    destruct (find_active_tier_value num_years carriers destinations shipment_target
                shipment_cost tier_min_quantity discount_rate solution Hpc Hpd Hf
                year carrier Hy Hc) as (tier & Ht & Hfind & _).
    eexists tier, _, _. apply Hperf. split; [exact Hc|]. split; [exact Hy|].
    rewrite Hfind. reflexivity.
  - intros carrier year tier s p (Hc & Hy & Hline)%Hperf.
    destruct (find_active_tier_value num_years carriers destinations shipment_target
                shipment_cost tier_min_quantity discount_rate solution Hpc Hpd Hf
                year carrier Hy Hc) as (tier0 & Ht & Hfind & H1 & _).
    rewrite Hfind in Hline. injection Hline as -> <- <-.
    pose proof (performance_shipments num_years carriers destinations
                  shipment_target shipment_cost tier_min_quantity discount_rate
                  solution Hpc Hpd Hf year carrier tier Hy Hc Ht H1) as Hships.
    split; [exact Hc|]. split; [exact Hy|]. split; [exact Ht|]. split; [exact H1|].
    split; [exact Hships|]. split.
    + rewrite Hships.
      assert (Hmin : (inject_Z (min_quantity tier_min_quantity tier)
                      * varValue solution (tier_flag_key year carrier tier)
                      <= Qsum ((λ dest, varValue solution
                                          (shipment_at_tier_key year carrier tier dest))
                                 <$> destinations))%Q).
      { apply (holds_tier_minimum destinations shipment_target tier_min_quantity
                 (varValue solution) year carrier tier).
        apply (feasible_holds _ (varValue solution) None _ Hf).
        by apply tier_minimum_constraint_elem. }
      rewrite H1 in Hmin. lra.
    + destruct (Hrates carrier Hc) as (rates & Hr & Hlen).
      destruct (getitem_list_total rates tier) as [r Hrt];
        [apply elem_of_range in Ht; lia|].
      exists rates, r. split; [exact Hr|]. split; [exact Hrt|].
      unfold rate. rewrite Hr. cbn [mbind result_bind]. by rewrite Hrt.
Qed.

Lemma performance_rows_at_active_tier_witness :
  ∃ out s p,
    carrier_earned_discount_report.print_solution example.tiered
      {| status := LpStatusOptimal; varValue := example.tiered_assignment |}
      1 ["UPS"] ["A"] example.shipment_target example.tier_min_quantity
      example.discount_rate = Ok out ∧
    carrier_earned_discount_report.CarrierPerformance "UPS" 0 1 s p ∈ out.
Proof.
  destruct example_tiered_plain as [Hc Hd].
  destruct (performance_rows_at_active_tier 1%Z ["UPS"] ["A"] example.shipment_target
              example.shipment_cost example.tier_min_quantity example.discount_rate
              example.tiered
              {| status := LpStatusOptimal; varValue := example.tiered_assignment |}
              Hc Hd (NoDup_singleton "A") example_rates_present example_tiered_built
              eq_refl example_tiered_feasible)
    as (out & Hout & Hhas & Hall).
  destruct (Hhas "UPS" 0%Z) as (tier & s & p & Hline);
    [by left|apply elem_of_range; lia|].
  exists out, s, p. split; [exact Hout|].
  destruct (Hall _ _ _ _ _ Hline) as (_ & _ & Ht & H1 & _).
  apply elem_of_range in Ht.
  assert (tier = 1%Z) as ->; [|exact Hline].
  change (len example.tier_min_quantity) with 2%Z in Ht.
  assert (tier = 0 ∨ tier = 1)%Z as [->| ->] by lia; [|reflexivity].
  vm_compute in H1. discriminate H1.
Defined.

(** ** Names that PuLP rewrites *)

Lemma existsb_all_false {A} (f : A → bool) (l : list A) :
  (∀ x, x ∈ l → f x = false) → existsb f l = false.
Proof.
  induction l as [|x l IH]; intros H; [done|]. simpl.
  rewrite (H x); [|by left]. simpl. apply IH. intros y Hy. apply H. by right.
Qed.

Lemma find_all_false {A} (f : A → bool) (l : list A) :
  (∀ x, x ∈ l → f x = false) → List.find f l = None.
Proof.
  induction l as [|x l IH]; intros H; [done|]. simpl.
  rewrite (H x); [|by left]. apply IH. intros y Hy. apply H. by right.
Qed.

Lemma Qabs_zero_minus s t : (s == 0)%Q → (Qabs (s - t) < 0.01)%Q → (Qabs t < 0.01)%Q.
Proof.
  intros Hs H. assert (E : (t == - (s - t))%Q) by (rewrite Hs; ring).
  rewrite E, Qabs_opp. exact H.
Qed.

Lemma Qabs_zero_minus_2 s t : (s == 0)%Q → (Qabs t < 0.01)%Q → (Qabs (s - t) < 0.01)%Q.
Proof.
  intros Hs H. assert (E : (s - t == - t)%Q) by (rewrite Hs; ring).
  rewrite E, Qabs_opp. exact H.
Qed.

Section rewritten_names.
Import carrier_earned_discount_report.
Context (num_years : Z) (carriers destinations : list string).
Context (shipment_target : list (gmap string Q)).
Context (shipment_cost : gmap string (gmap string Q)).
Context (tier_min_quantity : list Z).
Context (discount_rate : gmap string (list Q)).
Context (solution : Solution TierKey).

#[local] Abbreviation model :=
  (tiered_model num_years carriers destinations shipment_target shipment_cost
     tier_min_quantity discount_rate).

(** No variable of the model has a name with a character that PuLP
    rewrites. *)
Lemma rewritten_name_absent nm c v :
  c ∈ illegal_chars → contains nm c = true → v ∈ variables model → name v ≠ nm.
Proof.
  intros Hc Hnm Hv Hn.
  destruct (tiered_variable_name num_years carriers destinations shipment_target
              shipment_cost tier_min_quantity discount_rate v Hv) as [s Hs].
  rewrite <-Hn, Hs, translate_no_illegal in Hnm by done. discriminate.
Qed.

Lemma rewritten_carrier_shipments year carrier tier dest :
  kept_by_pulp carrier = false →
  shipments_by_name model solution year carrier tier dest = 0%Q.
Proof.
  intros (c & Hc & Hin)%not_kept_by_pulp. unfold shipments_by_name.
  rewrite find_by_name_none; [done|]. intros v Hv.
  apply (rewritten_name_absent _ c v Hc); [|done].
  unfold ship_name. rewrite !contains_app, Hin. by rewrite ?orb_true_r.
Qed.

Lemma rewritten_destination_shipments year carrier tier dest :
  kept_by_pulp dest = false →
  shipments_by_name model solution year carrier tier dest = 0%Q.
Proof.
  intros (c & Hc & Hin)%not_kept_by_pulp. unfold shipments_by_name.
  rewrite find_by_name_none; [done|]. intros v Hv.
  apply (rewritten_name_absent _ c v Hc); [|done].
  unfold ship_name. rewrite !contains_app, Hin. by rewrite ?orb_true_r.
Qed.

Lemma rewritten_carrier_tier year carrier :
  kept_by_pulp carrier = false →
  find_active_tier model solution tier_min_quantity year carrier = None.
Proof.
  intros (c & Hc & Hin)%not_kept_by_pulp. unfold find_active_tier.
  apply find_all_false. intros tier _. apply existsb_all_false. intros v Hv.
  apply andb_false_iff. left. apply String.eqb_neq.
  apply (rewritten_name_absent _ c v Hc); [|done].
  unfold tier_name. rewrite !contains_app, Hin. by rewrite ?orb_true_r.
Qed.
End rewritten_names.

Lemma spaced_carrier_built :
  carrier_earned_discount.optimize_shipments 1 ["U S"] ["A"] example.shipment_target
    spaced_carrier.shipment_cost example.tier_min_quantity
    spaced_carrier.discount_rate
  = Ok (tiered_model 1 ["U S"] ["A"] example.shipment_target
          spaced_carrier.shipment_cost example.tier_min_quantity
          spaced_carrier.discount_rate).
Proof. vm_compute. reflexivity. Qed.

Lemma spaced_carrier_rates :
  ∀ carrier, carrier ∈ ["U S"] →
    ∃ rates, getitem spaced_carrier.discount_rate carrier = Ok rates ∧
             (len example.tier_min_quantity ≤ len rates)%Z.
Proof. intros ? ->%list_elem_of_singleton. by eexists. Qed.

(** X15. The report finds the variables by the names it composes itself, and
    PuLP has replaced some characters in the names of the variables. In the
    report of an optimal solution a carrier whose name has such a character
    gets no row in the carrier performance summary; a destination whose name
    has one has its row in the destination summary, and its row, like every
    row under its name, shows the sum of its targets over the years as total
    target and 0 shipments, and is marked as met exactly when that total
    target is below 0.01 in absolute value. *)
Theorem rewritten_names_not_reported
    num_years carriers destinations shipment_target shipment_cost
    tier_min_quantity discount_rate m solution :
  (∀ carrier, carrier ∈ carriers →
     ∃ rates, getitem discount_rate carrier = Ok rates ∧
              (len tier_min_quantity ≤ len rates)%Z) →
  carrier_earned_discount.optimize_shipments num_years carriers destinations
    shipment_target shipment_cost tier_min_quantity discount_rate = Ok m →
  status solution = LpStatusOptimal →
  ∃ out,
    carrier_earned_discount_report.print_solution m solution num_years carriers
      destinations shipment_target tier_min_quantity discount_rate = Ok out ∧
    (∀ carrier year tier s p,
       kept_by_pulp carrier = false →
       carrier_earned_discount_report.CarrierPerformance carrier year tier s p
       ∉ out) ∧
    (∀ dest, dest ∈ destinations → kept_by_pulp dest = false →
       ∃ s ok,
         carrier_earned_discount_report.DestinationSummary dest s
           (Qsum ((λ year, target shipment_target year dest) <$> range num_years))
           ok ∈ out) ∧
    ∀ dest s t ok,
      kept_by_pulp dest = false →
      carrier_earned_discount_report.DestinationSummary dest s t ok ∈ out →
      dest ∈ destinations ∧
      (∀ year, year ∈ range num_years →
         target_at shipment_target year dest
         = Ok (target shipment_target year dest)) ∧
      t = Qsum ((λ year, target shipment_target year dest) <$> range num_years) ∧
      (s == 0)%Q ∧ (ok = true ↔ (Qabs t < 0.01)%Q).
Proof.
  intros Hrates Hm Hs.
  pose proof (tiered_build_targets_present _ _ _ _ _ _ _ m Hm) as Htargets.
  apply optimize_shipments_model in Hm as ->.
  destruct (print_solution_lines
              (tiered_model num_years carriers destinations shipment_target
                 shipment_cost tier_min_quantity discount_rate)
              solution num_years carriers destinations
              shipment_target tier_min_quantity discount_rate Htargets Hrates Hs)
    as (out & Hout & Hsum & Hperf).
  exists out. split; [exact Hout|]. split; [|split].
  - intros carrier year tier s p Hk (_ & _ & Hline)%Hperf.
    rewrite rewritten_carrier_tier in Hline by done. discriminate Hline.
  - intros dest Hd Hk. eexists _, _. apply Hsum. split; [exact Hd|reflexivity].
  - intros dest s t ok Hk [Hd Heq]%Hsum. injection Heq as -> -> ->.
    assert (Hzero : (Qsum (year ← range num_years; carrier ← carriers;
                           tier ← range (len tier_min_quantity);
                           [carrier_earned_discount_report.shipments_by_name
                              (tiered_model num_years carriers destinations
                                 shipment_target shipment_cost tier_min_quantity
                                 discount_rate) solution year carrier tier dest])
                     == 0)%Q).
    { rewrite Qsum_bind. apply Qsum_fmap_all_zero. intros year _.
      rewrite Qsum_bind. apply Qsum_fmap_all_zero. intros carrier _.
      rewrite Qsum_bind. apply Qsum_fmap_all_zero. intros tier _.
      rewrite rewritten_destination_shipments by done. reflexivity. }
    split; [exact Hd|]. split; [|split; [reflexivity|split; [exact Hzero|]]].
    + intros year Hy. destruct (Htargets year dest Hy Hd) as [q Hq].
      unfold target. by rewrite Hq.
    + rewrite Qltb_true. split.
      * intros Hok. exact (Qabs_zero_minus _ _ Hzero Hok).
      * intros Hok. exact (Qabs_zero_minus_2 _ _ Hzero Hok).
Qed.

Lemma rewritten_names_not_reported_witness :
  ∃ out,
    carrier_earned_discount_report.print_solution
      (tiered_model 1 ["U S"] ["A"] example.shipment_target
         spaced_carrier.shipment_cost example.tier_min_quantity
         spaced_carrier.discount_rate)
      spaced_carrier.solution 1 ["U S"] ["A"] example.shipment_target
      example.tier_min_quantity spaced_carrier.discount_rate = Ok out ∧
    ∀ year tier s p,
      carrier_earned_discount_report.CarrierPerformance "U S" year tier s p ∉ out.
Proof.
  destruct (rewritten_names_not_reported 1%Z ["U S"] ["A"] example.shipment_target
              spaced_carrier.shipment_cost example.tier_min_quantity
              spaced_carrier.discount_rate _ spaced_carrier.solution
              spaced_carrier_rates spaced_carrier_built eq_refl)
    as (out & Hout & Hperf & _).
  exists out. split; [exact Hout|]. intros year tier s p.
  apply Hperf. reflexivity.
Defined.

(** ** Reading the parameters from the console *)

Lemma reader_bind_Some {A B} (m : reader A) (f : A → reader B) lines b rest :
  (m ≫= f) lines = Some (b, rest) ↔
  ∃ a mid, m lines = Some (a, mid) ∧ f a mid = Some (b, rest).
Proof.
  unfold mbind, reader_bind. destruct (m lines) as [[a mid]|]; split.
  - intros H. by exists a, mid.
  - intros (a' & mid' & Heq & H). by injection Heq as -> ->.
  - discriminate.
  - by intros (a' & mid' & ? & _).
Qed.

Lemma reader_ret_Some {A} (a b : A) lines rest :
  mret (M:=reader) a lines = Some (b, rest) ↔ a = b ∧ lines = rest.
Proof. unfold mret, reader_ret. split; [by intros [= -> ->]|by intros [-> ->]]. Qed.

Ltac inv_reader H :=
  let a := fresh "x" in
  let mid := fresh "mid" in
  let Ha := fresh "E" in
  apply reader_bind_Some in H as (a & mid & Ha & H).

Tactic Notation "inv_read" hyp(H) "as" ident(a) ident(Ha) :=
  let mid := fresh "mid" in
  apply reader_bind_Some in H as (a & mid & Ha & H).

(** A value returned by the loop has been parsed and accepted. *)
Lemma ask_Some {A} (parse : string → option A) accept lines val rest :
  ask parse accept lines = Some (val, rest) →
  accept val = true ∧ ∃ line, line ∈ lines ∧ parse line = Some val.
Proof.
  induction lines as [|line lines IH]; [discriminate|]. simpl.
  destruct (parse line) as [v|] eqn:Hp.
  - destruct (accept v) eqn:Ha.
    + intros [= -> ->]. split; [done|]. exists line. split; [by left|done].
    + intros (? & line' & ? & ?)%IH. split; [done|]. exists line'.
      split; [by right|done].
  - intros (? & line' & ? & ?)%IH. split; [done|]. exists line'.
    split; [by right|done].
Qed.

(** The loop skips the lines that are refused. *)
Lemma ask_skip {A} (parse : string → option A) accept line lines :
  (∀ val, parse line = Some val → accept val = false) →
  ask parse accept (line :: lines) = ask parse accept lines.
Proof.
  intros H. simpl. destruct (parse line) as [v|] eqn:Hp; [|done].
  by rewrite (H v).
Qed.

Lemma for_in_inv {A S} (Inv : list A → S → Prop) (l : list A)
    (body : S → A → reader S) s lines s' rest :
  Inv [] s →
  (∀ seen x s1 s2 l1 l2, x ∈ l → Inv seen s1 → body s1 x l1 = Some (s2, l2) →
     Inv (seen ++ [x]) s2) →
  for_in l body s lines = Some (s', rest) → Inv l s'.
Proof.
  intros H0 Hstep.
  assert (Hgen : ∀ l' seen s lines, (∀ x, x ∈ l' → x ∈ l) → Inv seen s →
            for_in l' body s lines = Some (s', rest) → Inv (seen ++ l') s').
  { clear s lines H0. induction l' as [|x l' IH]; intros seen s lines Hsub Hinv H.
    - apply reader_ret_Some in H as [-> _]. by rewrite app_nil_r.
    - simpl in H. inv_reader H.
      replace (seen ++ x :: l') with ((seen ++ [x]) ++ l')
        by (by rewrite <-app_assoc).
      apply (IH _ x0 mid); [intros y Hy; apply Hsub; by right| |done].
      by apply (Hstep seen x s x0 lines mid); [apply Hsub; left|..]. }
  intros H. by apply (Hgen l [] s lines).
Qed.

(** A dictionary filled from the console has an entry for every key, and
    every entry was read for its key. *)
Lemma dict_in_Some `{Countable K} {V W} (P : K → W → Prop) (g : V → W)
    (keys : list K) (read : K → reader V) lines (d : gmap K W) rest :
  (∀ k v l1 l2, k ∈ keys → read k l1 = Some (v, l2) → P k (g v)) →
  for_in keys (λ d k, v ← read k; mret (<[k := g v]> d)) ∅ lines = Some (d, rest) →
  (∀ k, k ∈ keys → ∃ w, d !! k = Some w ∧ P k w) ∧
  (∀ k w, d !! k = Some w → k ∈ keys ∧ P k w).
Proof.
  intros Hread Hfor.
  apply (for_in_inv (λ seen (d : gmap K W),
           (∀ k, k ∈ seen → ∃ w, d !! k = Some w ∧ P k w) ∧
           (∀ k w, d !! k = Some w → k ∈ seen ∧ k ∈ keys ∧ P k w))) in Hfor.
  - destruct Hfor as [H1 H2]. split; [done|]. intros k w Hk.
    by destruct (H2 k w Hk) as (_ & ? & ?).
  - split; [by intros k Hk%elem_of_nil|]. intros k w Hk. by rewrite lookup_empty in Hk.
  - intros seen k d1 d2 l1 l2 Hk [H1 H2] Hbody. inv_reader Hbody.
    apply reader_ret_Some in Hbody as [<- _].
    pose proof (Hread k x l1 mid Hk E) as HP. split.
    + intros k' [Hk'|Hk'%list_elem_of_singleton]%elem_of_app; [|subst k'].
      * destruct (decide (k' = k)) as [->|Hne].
        -- exists (g x). by rewrite lookup_insert_eq.
        -- rewrite lookup_insert_ne by done. by apply H1.
      * exists (g x). by rewrite lookup_insert_eq.
    + intros k' w. destruct (decide (k' = k)) as [->|Hne].
      * rewrite lookup_insert_eq. intros [= <-]. split; [|done].
        apply elem_of_app. right. by left.
      * rewrite lookup_insert_ne by done. intros (? & ? & ?)%H2.
        split; [|done]. apply elem_of_app. by left.
Qed.

(** A dictionary of accepted values, and a dictionary of such
    dictionaries. *)
Lemma asked_dict `{Countable K} {V W} (Q : W → Prop) (g : V → W) (keys : list K)
    (parse : string → option V) accept lines (d : gmap K W) rest :
  (∀ v, accept v = true → Q (g v)) →
  for_in keys (λ d k, val ← ask parse accept; mret (<[k := g val]> d)) ∅ lines
  = Some (d, rest) →
  ∀ k, k ∈ keys → ∃ w, getitem d k = Ok w ∧ Q w.
Proof.
  intros Hacc Hfor k Hk.
  apply (dict_in_Some (λ _ w, Q w) g keys (λ _, ask parse accept)) in Hfor as [Hfor _].
  - destruct (Hfor k Hk) as (w & Hw & HQ). exists w. split; [|done].
    by apply getitem_Ok.
  - intros k' v l1 l2 _ [Hv _]%ask_Some. by apply Hacc.
Qed.

Lemma asked_rows {V} (Q : V → Prop) (rows cols : list string)
    (parse : string → option V) accept lines
    (d : gmap string (gmap string V)) rest :
  (∀ v, accept v = true → Q v) →
  for_in rows (λ d i,
    row ← for_in cols (λ row j,
             val ← ask parse accept; mret (<[j := val]> row)) ∅;
    mret (<[i := row]> d)) ∅ lines = Some (d, rest) →
  ∀ i j, i ∈ rows → j ∈ cols → ∃ v, getitem2 d i j = Ok v ∧ Q v.
Proof.
  intros Hacc Hfor i j Hi Hj.
  apply (dict_in_Some
           (λ _ (row : gmap string V), ∀ j, j ∈ cols → ∃ v, getitem row j = Ok v ∧ Q v)
           (λ row, row) rows
           (λ _, for_in cols (λ row j,
                   val ← ask parse accept; mret (<[j := val]> row)) ∅))
    in Hfor as [Hfor _].
  - destruct (Hfor i Hi) as (row & Hrow & Hall).
    destruct (Hall j Hj) as (v & Hv & HQ). exists v. split; [|done].
    unfold getitem2. apply getitem_Ok in Hrow. by rewrite Hrow.
  - intros _ row l1 l2 _ Hrow.
    by apply (asked_dict Q (λ v, v) cols parse accept l1 row l2).
Qed.

(** A list filled from the console has one element for every turn of the
    loop. *)
Lemma list_in_Some {A V} (P : A → V → Prop) (l : list A) (read : A → reader V)
    lines (r : list V) rest :
  (∀ x v l1 l2, x ∈ l → read x l1 = Some (v, l2) → P x v) →
  for_in l (λ acc x, v ← read x; mret (acc ++ [v])) [] lines = Some (r, rest) →
  Forall2 P l r.
Proof.
  intros Hread Hfor.
  apply (for_in_inv (λ seen (r : list V), Forall2 P seen r)) in Hfor; [done|done|].
  intros seen x r1 r2 l1 l2 Hx Hinv Hbody. inv_reader Hbody.
  apply reader_ret_Some in Hbody as [<- _].
  apply Forall2_app; [done|]. constructor; [|done]. by apply (Hread x x0 l1 mid).
Qed.

(** The pieces of a line: there is always one. *)
Lemma split_not_nil s sep : split s sep ≠ [].
Proof.
  destruct s as [|c s]; [done|]. simpl. destruct (Ascii.eqb c sep); [done|].
  by destruct (split s sep).
Qed.

Section network_input.
Context (strip : string → string).
Context (int_of : string → option Z) (float_of : string → option Q).
Context (lines : list string) (params : network_params) (rest : list string).
Hypothesis parameters_read :
  network_get_user_input strip int_of float_of lines = Some (params, rest).

Lemma network_input_checked :
  np_warehouses params ≠ [] ∧ np_destinations params ≠ [] ∧
  (∀ j, j ∈ np_destinations params →
     ∃ target, getitem (np_target_distribution params) j = Ok target ∧
               (0 ≤ target)%Z) ∧
  (∀ i, i ∈ np_warehouses params →
     ∃ cost, getitem (np_warehouse_cost params) i = Ok cost ∧ (0 <= cost)%Q) ∧
  (∀ i j, i ∈ np_warehouses params → j ∈ np_destinations params →
     ∃ capacity, getitem2 (np_shipment_capacity params) i j = Ok capacity ∧
                 (0 ≤ capacity)%Z) ∧
  (∀ i j, i ∈ np_warehouses params → j ∈ np_destinations params →
     ∃ cost, getitem2 (np_shipment_cost params) i j = Ok cost ∧ (0 < cost)%Q) ∧
  (∀ i j, i ∈ np_warehouses params → j ∈ np_destinations params →
     ∃ days, getitem2 (np_delivery_estimate params) i j = Ok days ∧ (1 ≤ days)%Z) ∧
  (0 < np_target_delivery_days params)%Z ∧
  (0 <= np_delivery_tolerance params <= 1)%Q.
Proof.
  pose proof parameters_read as H. unfold network_get_user_input in H.
  inv_read H as warehouse_input Hwin.
  inv_read H as destination_input Hdin.
  cbv zeta in H.
  inv_read H as target_distribution Htarget.
  inv_read H as warehouse_cost Hwcost.
  inv_read H as shipment_capacity Hcap.
  inv_read H as shipment_cost Hcost.
  inv_read H as target_delivery_days Hdays.
  inv_read H as delivery_tolerance Htol.
  inv_read H as delivery_estimate Hest.
  apply reader_ret_Some in H as [<- _]. simpl.
  split; [|split; [|split; [|split; [|split; [|split; [|split; [|split]]]]]]].
  - intros Hnil%fmap_nil_inv. by apply split_not_nil in Hnil.
  - intros Hnil%fmap_nil_inv. by apply split_not_nil in Hnil.
  - refine (asked_dict (λ v, (0 ≤ v)%Z) (λ v, v) _ _ _ _ _ _ _ Htarget).
    intros v Hv. by apply Z.leb_le.
  - refine (asked_dict (λ v, (0 <= v)%Q) (λ v, v) _ _ _ _ _ _ _ Hwcost).
    intros v Hv. by apply Qle_bool_iff.
  - refine (asked_rows (λ v, (0 ≤ v)%Z) _ _ _ _ _ _ _ _ Hcap).
    intros v Hv. by apply Z.leb_le.
  - refine (asked_rows (λ v, (0 < v)%Q) _ _ _ _ _ _ _ _ Hcost).
    intros v Hv. by apply Qltb_true.
  - refine (asked_rows (λ v, (1 ≤ v)%Z) _ _ _ _ _ _ _ _ Hest).
    intros v Hv. by apply Z.leb_le.
  - apply ask_Some in Hdays as [Hd _]. by apply Z.ltb_lt.
  - apply ask_Some in Htol as [[H1 H2]%andb_prop _].
    split; by apply Qle_bool_iff.
Qed.
End network_input.

Lemma range_lookup_elem n i : i ∈ range n → range n !! Z.to_nat i = Some i.
Proof.
  intros Hi%elem_of_range. unfold range. rewrite list_lookup_fmap.
  rewrite lookup_seq_lt by lia. simpl. f_equal. lia.
Qed.

Lemma len_cons {A} (x : A) (l : list A) : len (x :: l) = (1 + len l)%Z.
Proof. unfold len. simpl length. lia. Qed.

Lemma forallb_Forall {A} (f : A → bool) (P : A → Prop) (l : list A) :
  (∀ x, f x = true → P x) → forallb f l = true → Forall P l.
Proof.
  intros Hf Hall. apply Forall_forall. intros x Hx%list_elem_of_In.
  apply Hf. by apply (proj1 (forallb_forall f l) Hall).
Qed.

Section tiered_input.
Context (strip : string → string).
Context (int_of : string → option Z) (float_of : string → option Q).
Context (lines : list string) (params : tiered_params) (rest : list string).
Hypothesis parameters_read :
  tiered_get_user_input strip int_of float_of lines = Some (params, rest).

Lemma tiered_input_checked :
  (0 < tp_num_years params)%Z ∧
  (∀ carrier, carrier ∈ tp_carriers params → carrier ≠ "") ∧
  (∀ dest, dest ∈ tp_destinations params → dest ≠ "") ∧
  (∀ year dest, year ∈ range (tp_num_years params) →
     dest ∈ tp_destinations params →
     ∃ t, target_at (tp_shipment_target params) year dest = Ok (inject_Z t) ∧
          (0 ≤ t)%Z) ∧
  (∀ carrier dest, carrier ∈ tp_carriers params → dest ∈ tp_destinations params →
     ∃ cost, getitem2 (tp_shipment_cost params) carrier dest = Ok cost ∧
             (0 <= cost)%Q) ∧
  (∃ user_tiers, tp_tier_min_quantity params = 0%Z :: user_tiers ∧
                 Forall (λ q, (0 < q)%Z) user_tiers) ∧
  (∀ carrier, carrier ∈ tp_carriers params →
     ∃ user_rates,
       getitem (tp_discount_rate params) carrier = Ok (1%Q :: user_rates) ∧
       len (1%Q :: user_rates) = len (tp_tier_min_quantity params) ∧
       Forall (λ r, (0 < r)%Q) user_rates).
Proof.
  pose proof parameters_read as H. unfold tiered_get_user_input in H.
  inv_read H as num_years Hyears.
  inv_read H as carrier_input Hcin.
  inv_read H as destination_input Hdin.
  cbv zeta in H.
  inv_read H as shipment_target Htargets.
  inv_read H as shipment_cost Hcosts.
  inv_read H as user_tiers Htiers.
  inv_read H as discount_rate Hrates.
  apply reader_ret_Some in H as [<- _]. simpl.
  split; [|split; [|split; [|split; [|split; [|split]]]]].
  - apply ask_Some in Hyears as [Hy _]. by apply Z.ltb_lt.
  - by intros carrier [Hc _]%list_elem_of_filter.
  - by intros dest [Hd _]%list_elem_of_filter.
  - intros year dest Hy Hd.
    apply (list_in_Some
             (λ _ (yearly : gmap string Q),
                ∀ dest, dest ∈ filter (λ d, d ≠ "")
                                 (strip <$> split (strip destination_input) ",") →
                  ∃ w, getitem yearly dest = Ok w ∧
                       ∃ t, w = inject_Z t ∧ (0 ≤ t)%Z)) in Htargets.
    + destruct (Forall2_lookup_l _ _ _ _ _ Htargets (range_lookup_elem _ _ Hy))
        as (yearly & Hyearly & Hall).
      destruct (Hall dest Hd) as (w & Hw & t & -> & Ht).
      exists t. split; [|done]. unfold target_at.
      apply elem_of_range in Hy.
      rewrite (proj2 (getitem_list_Ok shipment_target year yearly
                        ltac:(lia)) Hyearly).
      exact Hw.
    + intros _ yearly l1 l2 _ Hrow.
      refine (asked_dict (λ w, ∃ t, w = inject_Z t ∧ (0 ≤ t)%Z) inject_Z
                _ _ _ _ _ _ _ Hrow).
      intros v Hv. exists v. split; [done|]. by apply Z.leb_le.
  - refine (asked_rows (λ v, (0 <= v)%Q) _ _ _ _ _ _ _ _ Hcosts).
    intros v Hv. by apply Qle_bool_iff.
  - exists user_tiers. split; [done|]. apply ask_Some in Htiers as [Ht _].
    apply (forallb_Forall _ _ _ (λ x, proj1 (Z.ltb_lt 0 x)) Ht).
  - intros carrier Hc.
    assert (Hacc : ∀ user_rates : list Q,
              (len user_rates =? len (0%Z :: user_tiers) - 1)%Z
              && forallb (λ r, Qltb 0 r) user_rates = true →
              ∃ rates, 1%Q :: user_rates = 1%Q :: rates ∧
                       len (1%Q :: rates) = len (0%Z :: user_tiers) ∧
                       Forall (λ r, (0 < r)%Q) rates).
    { intros user_rates [Hlen%Z.eqb_eq Hpos]%andb_prop. exists user_rates.
      split; [done|]. split; [rewrite len_cons; lia|].
      apply (forallb_Forall _ _ _ (λ r, proj1 (Qltb_true 0 r)) Hpos). }
    destruct (asked_dict
                (λ w, ∃ rates, w = 1%Q :: rates ∧
                               len (1%Q :: rates) = len (0%Z :: user_tiers) ∧
                               Forall (λ r, (0 < r)%Q) rates)
                (λ user_rates, 1%Q :: user_rates) _ _ _ _ _ _ Hacc Hrates
                carrier Hc) as (w & Hw & rates & -> & Hlen & Hpos).
    by exists rates.
Qed.

(** The builder of the packaged copy finds every entry it reads. *)
Lemma tiered_input_builds :
  ∃ m, problems_carrier_earned_discount_main.optimize_shipments
         (tp_num_years params) (tp_carriers params) (tp_destinations params)
         (tp_shipment_target params) (tp_shipment_cost params)
         (tp_tier_min_quantity params) (tp_discount_rate params) = Ok m.
Proof.
  destruct tiered_input_checked as (_ & _ & _ & Htargets & Hcosts & _ & Hrates).
  apply optimize_shipments_total.
  - intros year dest Hy Hd. destruct (Htargets year dest Hy Hd) as (t & Ht & _).
    by eexists.
  - intros carrier dest Hc Hd. destruct (Hcosts carrier dest Hc Hd) as (c & Hcd & _).
    by eexists.
  - intros carrier Hc. destruct (Hrates carrier Hc) as (rates & Hr & _). by eexists.
  - intros carrier rates Hc Hr. destruct (Hrates carrier Hc) as (rates' & Hr' & Hlen & _).
    rewrite Hr in Hr'. injection Hr' as ->. lia.
Qed.
End tiered_input.

Section network_input_builds.
Context (strip : string → string).
Context (int_of : string → option Z) (float_of : string → option Q).
Context (lines : list string) (params : network_params) (rest : list string).
Hypothesis parameters_read :
  network_get_user_input strip int_of float_of lines = Some (params, rest).

Lemma network_input_builds :
  ∃ m, warehouse_shipments.optimize_shipments
         (np_warehouses params) (np_destinations params)
         (np_target_distribution params) (np_shipment_capacity params)
         (np_warehouse_cost params) (np_shipment_cost params)
         (np_target_delivery_days params) (np_delivery_tolerance params)
         (np_delivery_estimate params) = Ok m.
Proof.
  destruct (network_input_checked strip int_of float_of lines params rest
              parameters_read)
    as (_ & _ & Htarget & Hwcost & Hcap & Hcost & Hest & _).
  apply network_build_total. split; [|split].
  - intros i j Hi Hj.
    destruct (Hcap i j Hi Hj) as (c & ? & _). destruct (Hcost i j Hi Hj) as (q & ? & _).
    destruct (Hest i j Hi Hj) as (d & ? & _). split; [|split]; by eexists.
  - intros i Hi. destruct (Hwcost i Hi) as (c & ? & _). by eexists.
  - intros j Hj. destruct (Htarget j Hj) as (t & ? & _). by eexists.
Qed.
End network_input_builds.

(** ** A tier without minimum keeps the tiered model feasible *)

Section tier_zero.
Context (num_years : Z) (carriers destinations : list string).
Context (shipment_target : list (gmap string Q)).
Context (shipment_cost : gmap string (gmap string Q)).
Context (tier_min_quantity : list Z).
Context (discount_rate : gmap string (list Q)).
Context (carrier0 : string).

#[local] Abbreviation all_years := (years num_years).
#[local] Abbreviation all_tiers := (tiers tier_min_quantity).
#[local] Abbreviation model :=
  (tiered_model num_years carriers destinations shipment_target shipment_cost
     tier_min_quantity discount_rate).
#[local] Abbreviation a := (tier_zero_assignment shipment_target carrier0).

Hypothesis first_carrier : carrier0 ∈ carriers.
Hypothesis carriers_distinct : NoDup carriers.
Hypothesis tier_zero : ∃ q0, getitem_list tier_min_quantity 0 = Ok q0 ∧ (q0 ≤ 0)%Z.
Hypothesis whole_targets : ∀ year dest,
  year ∈ range num_years → dest ∈ destinations →
  ∃ t, target_at shipment_target year dest = Ok (inject_Z t) ∧ (0 ≤ t)%Z.

Lemma tier_zero_in : 0%Z ∈ all_tiers.
Proof.
  destruct tier_zero as (q0 & Hq & _). apply elem_of_range.
  unfold getitem_list in Hq. simpl in Hq.
  destruct tier_min_quantity; [discriminate|]. rewrite len_cons. unfold len. lia.
Qed.

Lemma whole_target year dest :
  year ∈ all_years → dest ∈ destinations →
  ∃ t, target shipment_target year dest = inject_Z t ∧ (0 ≤ t)%Z.
Proof.
  intros Hy Hd. destruct (whole_targets year dest Hy Hd) as (t & Ht & Hpos).
  exists t. split; [|done]. unfold target. by rewrite Ht.
Qed.

Lemma target_nonneg year dest :
  year ∈ all_years → dest ∈ destinations →
  (0 <= target shipment_target year dest)%Q.
Proof.
  intros Hy Hd. destruct (whole_target year dest Hy Hd) as (t & -> & Ht).
  change 0%Q with (inject_Z 0). by rewrite <-Zle_Qle.
Qed.

Lemma tier_zero_ship_nonneg year carrier tier dest :
  year ∈ all_years → dest ∈ destinations →
  (0 <= a (shipment_at_tier_key year carrier tier dest))%Q.
Proof.
  intros Hy Hd. simpl. case_bool_decide; [by apply target_nonneg|apply Qle_refl].
Qed.

Lemma tier_zero_tier_sum year carrier dest :
  (Qsum ((λ tier, a (shipment_at_tier_key year carrier tier dest)) <$> all_tiers)
   == if bool_decide (carrier = carrier0)
      then target shipment_target year dest else 0)%Q.
Proof.
  rewrite (Qsum_single _ _ 0%Z); [|apply NoDup_range|apply tier_zero_in|].
  - simpl. destruct (decide (carrier = carrier0)) as [->|Hne].
    + by rewrite !bool_decide_eq_true_2.
    + rewrite !bool_decide_eq_false_2; [reflexivity|done|by intros [? _]].
  - intros tier _ Hne. simpl. rewrite bool_decide_eq_false_2; [reflexivity|].
    by intros [_ ?].
Qed.

Lemma tier_zero_feasible : feasible model a.
Proof.
  split.
  - intros nc Hnc.
    apply (tiered_constraints_inv num_years carriers destinations shipment_target
             tier_min_quantity) in Hnc
      as [(year & carrier & Hy & Hc & ->)
         |[(year & carrier & tier & dest & Hy & Hc & Ht & Hd & ->)
          |[(year & carrier & tier & Hy & Hc & Ht & ->)
           |(year & dest & Hy & Hd & ->)]]].
    + apply holds_one_tier.
      rewrite (Qsum_single _ _ 0%Z); [done|apply NoDup_range|apply tier_zero_in|].
      intros tier _ Hne. simpl. by case_bool_decide.
    + apply holds_gating. pose proof (target_nonneg year dest Hy Hd) as Hpos.
      simpl. destruct (decide (tier = 0%Z)) as [->|Hne].
      * rewrite (bool_decide_eq_true_2 (0 = 0)%Z) by done.
        case_bool_decide; lra.
      * rewrite !bool_decide_eq_false_2; [lra|done|by intros [_ ?]].
    + apply holds_tier_minimum.
      pose proof (Qsum_fmap_nonneg
                    (λ dest, a (shipment_at_tier_key year carrier tier dest))
                    destinations
                    (λ dest Hd, tier_zero_ship_nonneg year carrier tier dest Hy Hd))
        as Hsum.
      simpl. case_bool_decide as Ht0.
      * subst tier. destruct tier_zero as (q0 & Hq & Hq0).
        apply min_quantity_Ok in Hq. subst q0.
        rewrite Zle_Qle in Hq0. change (inject_Z 0) with 0%Q in Hq0.
        simpl in Hsum. lra.
      * simpl in Hsum. lra.
    + apply holds_target. rewrite inflow_nested.
      rewrite (Qsum_fmap_ext _ (λ carrier,
                 if bool_decide (carrier = carrier0)
                 then target shipment_target year dest else 0%Q)).
      * rewrite (Qsum_single _ _ carrier0); [|done|done|].
        -- by rewrite bool_decide_eq_true_2.
        -- intros carrier _ Hne. by rewrite bool_decide_eq_false_2.
      * intros carrier _. apply tier_zero_tier_sum.
  - intros v Hv.
    apply (tiered_all_variables num_years carriers destinations shipment_target
             shipment_cost tier_min_quantity discount_rate) in Hv
      as [(year & carrier & tier & dest & Hy & Hc & Ht & Hd & ->)
         |(year & carrier & tier & Hy & Hc & Ht & ->)].
    + pose proof (target_nonneg year dest Hy Hd) as Hpos.
      destruct (whole_target year dest Hy Hd) as (t & Ht' & _).
      split; [|split].
      * intros lo [= <-]. simpl. case_bool_decide; [done|apply Qle_refl].
      * intros up [= <-]. simpl. case_bool_decide; [apply Qle_refl|done].
      * intros _. simpl. case_bool_decide; [by exists t; rewrite Ht'|by exists 0%Z].
    + split; [|split].
      * intros lo [= <-]. simpl. by case_bool_decide.
      * intros up [= <-]. simpl. by case_bool_decide.
      * intros _. simpl. case_bool_decide; [by exists 1%Z|by exists 0%Z].
Qed.
End tier_zero.

(** ** The parameters read from the console *)

Lemma console_network_read :
  network_get_user_input console_example.strip console_example.int_of
    console_example.float_of console_example.network_lines
  = Some (console_example.network_read, []).
Proof. vm_compute. reflexivity. Qed.

Lemma console_tiered_read :
  tiered_get_user_input console_example.strip console_example.int_of
    console_example.float_of console_example.tiered_lines
  = Some (console_example.tiered_read, []).
Proof. vm_compute. reflexivity. Qed.

(** X16. The parameters that [get_user_input] of the network formulation
    returns have passed its checks, whatever was typed: there is at least one
    warehouse and one destination, every destination has a target that is not
    negative, every warehouse a fixed cost that is not negative, every route a
    capacity that is not negative, a positive cost and an estimate of at
    least one day, the target number of days is positive and the tolerance
    lies between 0 and 1. *)
Theorem network_input_validated
    (strip : string → string) (int_of : string → option Z)
    (float_of : string → option Q) lines params rest :
  network_get_user_input strip int_of float_of lines = Some (params, rest) →
  np_warehouses params ≠ [] ∧ np_destinations params ≠ [] ∧
  (∀ j, j ∈ np_destinations params →
     ∃ target, getitem (np_target_distribution params) j = Ok target ∧
               (0 ≤ target)%Z) ∧
  (∀ i, i ∈ np_warehouses params →
     ∃ cost, getitem (np_warehouse_cost params) i = Ok cost ∧ (0 <= cost)%Q) ∧
  (∀ i j, i ∈ np_warehouses params → j ∈ np_destinations params →
     ∃ capacity, getitem2 (np_shipment_capacity params) i j = Ok capacity ∧
                 (0 ≤ capacity)%Z) ∧
  (∀ i j, i ∈ np_warehouses params → j ∈ np_destinations params →
     ∃ cost, getitem2 (np_shipment_cost params) i j = Ok cost ∧ (0 < cost)%Q) ∧
  (∀ i j, i ∈ np_warehouses params → j ∈ np_destinations params →
     ∃ days, getitem2 (np_delivery_estimate params) i j = Ok days ∧ (1 ≤ days)%Z) ∧
  (0 < np_target_delivery_days params)%Z ∧
  (0 <= np_delivery_tolerance params <= 1)%Q.
Proof. apply network_input_checked. Qed.

Lemma network_input_validated_witness :
  (0 < np_target_delivery_days console_example.network_read)%Z ∧
  (0 <= np_delivery_tolerance console_example.network_read <= 1)%Q.
Proof.
  exact (proj2 (proj2 (proj2 (proj2 (proj2 (proj2 (proj2
           (network_input_validated console_example.strip console_example.int_of
              console_example.float_of console_example.network_lines
              console_example.network_read [] console_network_read)))))))).
Defined.

(** X17. Whatever is typed at the prompts of the network formulation, when
    [get_user_input] returns parameters whose constraint names are distinct,
    [main] builds the model without an exception, every entry the builder
    reads being there, and what it prints is the report of the result of the
    solver for that model. *)
Theorem network_main_builds_model
    (strip : string → string) (int_of : string → option Z)
    (float_of : string → option Q) (solve : LpProblem NetKey → Solution NetKey)
    lines params rest :
  network_get_user_input strip int_of float_of lines = Some (params, rest) →
  NoDup (network_constraint_names (np_warehouses params) (np_destinations params)) →
  ∃ m,
    warehouse_shipments.optimize_shipments
      (np_warehouses params) (np_destinations params)
      (np_target_distribution params) (np_shipment_capacity params)
      (np_warehouse_cost params) (np_shipment_cost params)
      (np_target_delivery_days params) (np_delivery_tolerance params)
      (np_delivery_estimate params) = Ok m ∧
    network_main strip int_of float_of solve lines
    = Some (warehouse_shipments.print_solution m (solve m)
              (np_warehouses params) (np_destinations params)
              (np_target_distribution params) (np_warehouse_cost params)
              (np_shipment_cost params) (np_target_delivery_days params)
              (np_delivery_estimate params)).
Proof.
  intros Hread _.
  destruct (network_input_builds strip int_of float_of lines params rest Hread)
    as [m Hm].
  exists m. split; [exact Hm|]. unfold network_main. rewrite Hread, Hm. reflexivity.
Qed.

Lemma network_main_builds_model_witness :
  ∃ m,
    warehouse_shipments.optimize_shipments ["a"; "b"] ["x"]
      example.target_distribution example.shipment_capacity example.warehouse_cost
      example.route_cost 3 1 example.delivery_estimate = Ok m.
Proof.
  destruct (network_main_builds_model console_example.strip console_example.int_of
              console_example.float_of
              (λ _, {| status := LpStatusNotSolved; varValue := λ _, 0%Q |})
              console_example.network_lines console_example.network_read []
              console_network_read) as (m & Hm & _).
  { apply (bool_decide_unpack _). vm_compute. exact I. }
  exists m. exact Hm.
Defined.

(** X18. The parameters that [get_user_input] of the packaged tiered
    formulation returns have passed its checks, whatever was typed: the
    number of years is positive, no carrier or destination has an empty name,
    every year has for every destination a target that is a whole number and
    not negative, every carrier has for every destination a cost that is not
    negative, the list of tier minimums starts with the tier 0 of minimum 0
    and is positive after it, and every carrier has one positive multiplier
    for each tier, the first being 1. *)
Theorem tiered_input_validated
    (strip : string → string) (int_of : string → option Z)
    (float_of : string → option Q) lines params rest :
  tiered_get_user_input strip int_of float_of lines = Some (params, rest) →
  (0 < tp_num_years params)%Z ∧
  (∀ carrier, carrier ∈ tp_carriers params → carrier ≠ "") ∧
  (∀ dest, dest ∈ tp_destinations params → dest ≠ "") ∧
  (∀ year dest, year ∈ range (tp_num_years params) →
     dest ∈ tp_destinations params →
     ∃ t, target_at (tp_shipment_target params) year dest = Ok (inject_Z t) ∧
          (0 ≤ t)%Z) ∧
  (∀ carrier dest, carrier ∈ tp_carriers params → dest ∈ tp_destinations params →
     ∃ cost, getitem2 (tp_shipment_cost params) carrier dest = Ok cost ∧
             (0 <= cost)%Q) ∧
  (∃ user_tiers, tp_tier_min_quantity params = 0%Z :: user_tiers ∧
                 Forall (λ q, (0 < q)%Z) user_tiers) ∧
  (∀ carrier, carrier ∈ tp_carriers params →
     ∃ user_rates,
       getitem (tp_discount_rate params) carrier = Ok (1%Q :: user_rates) ∧
       len (1%Q :: user_rates) = len (tp_tier_min_quantity params) ∧
       Forall (λ r, (0 < r)%Q) user_rates).
Proof. apply tiered_input_checked. Qed.

Lemma tiered_input_validated_witness :
  (0 < tp_num_years console_example.tiered_read)%Z.
Proof.
  exact (proj1 (tiered_input_validated console_example.strip console_example.int_of
                  console_example.float_of console_example.tiered_lines
                  console_example.tiered_read [] console_tiered_read)).
Defined.

(** X19. Whatever is typed at the prompts of the packaged tiered formulation,
    when [get_user_input] returns, [main] builds the model without an
    exception, every entry the builder reads being there, and what it prints
    is the report of the result of the solver for that model. *)
Theorem tiered_main_builds_model
    (strip : string → string) (int_of : string → option Z)
    (float_of : string → option Q) (solve : LpProblem TierKey → Solution TierKey)
    lines params rest :
  tiered_get_user_input strip int_of float_of lines = Some (params, rest) →
  ∃ m,
    problems_carrier_earned_discount_main.optimize_shipments
      (tp_num_years params) (tp_carriers params) (tp_destinations params)
      (tp_shipment_target params) (tp_shipment_cost params)
      (tp_tier_min_quantity params) (tp_discount_rate params) = Ok m ∧
    tiered_main strip int_of float_of solve lines
    = Some (carrier_earned_discount_report.print_solution m (solve m)
              (tp_num_years params) (tp_carriers params) (tp_destinations params)
              (tp_shipment_target params) (tp_tier_min_quantity params)
              (tp_discount_rate params)).
Proof.
  intros Hread.
  destruct (tiered_input_builds strip int_of float_of lines params rest Hread)
    as [m Hm].
  exists m. split; [exact Hm|]. unfold tiered_main. rewrite Hread, Hm. reflexivity.
Qed.

Lemma tiered_main_builds_model_witness :
  ∃ m,
    problems_carrier_earned_discount_main.optimize_shipments 1 ["UPS"] ["A"]
      example.shipment_target example.shipment_cost example.tier_min_quantity
      {[ "UPS" := [1%Q; 1%Q] ]} = Ok m.
Proof.
  destruct (tiered_main_builds_model console_example.strip console_example.int_of
              console_example.float_of
              (λ _, {| status := LpStatusNotSolved; varValue := λ _, 0%Q |})
              console_example.tiered_lines console_example.tiered_read []
              console_tiered_read) as (m & Hm & _).
  exists m. exact Hm.
Defined.

(** X20. A tiered model with a tier 0 whose minimum is not positive, targets
    that are whole numbers and not negative, and at least one carrier, the
    carriers being distinct, is feasible: the assignment that puts every
    carrier at tier 0 and lets one carrier ship every target satisfies every
    constraint and every bound. *)
Theorem tier_without_minimum_feasible
    num_years carriers destinations shipment_target shipment_cost
    tier_min_quantity discount_rate m carrier0 :
  carrier_earned_discount.optimize_shipments num_years carriers destinations
    shipment_target shipment_cost tier_min_quantity discount_rate = Ok m →
  carrier0 ∈ carriers → NoDup carriers →
  (∃ q0, getitem_list tier_min_quantity 0 = Ok q0 ∧ (q0 ≤ 0)%Z) →
  (∀ year dest, year ∈ range num_years → dest ∈ destinations →
     ∃ t, target_at shipment_target year dest = Ok (inject_Z t) ∧ (0 ≤ t)%Z) →
  feasible m (tier_zero_assignment shipment_target carrier0).
Proof.
  intros Hm Hc Hnd Hq Ht. apply optimize_shipments_model in Hm as ->.
  by apply tier_zero_feasible.
Qed.

Lemma example_whole_targets :
  ∀ year dest, year ∈ range 1 → dest ∈ ["A"] →
    ∃ t, target_at example.shipment_target year dest = Ok (inject_Z t) ∧ (0 ≤ t)%Z.
Proof.
  intros year dest Hy%elem_of_range ->%list_elem_of_singleton.
  assert (year = 0%Z) as -> by lia. by exists 10%Z.
Qed.

Lemma tier_without_minimum_feasible_witness :
  feasible example.tiered (tier_zero_assignment example.shipment_target "UPS").
Proof.
  apply (tier_without_minimum_feasible 1%Z ["UPS"] ["A"] example.shipment_target
           example.shipment_cost example.tier_min_quantity example.discount_rate
           example.tiered "UPS" example_tiered_built).
  - by left.
  - apply NoDup_singleton.
  - by exists 0%Z.
  - exact example_whole_targets.
Defined.

(** X21. The model that [main] of the packaged tiered formulation builds from
    the parameters read at the console is feasible as soon as one carrier was
    entered and no carrier was entered twice: tier 0, which the input adds
    with minimum 0, can always be taken. *)
Theorem console_model_feasible
    (strip : string → string) (int_of : string → option Z)
    (float_of : string → option Q) lines params rest carrier0 :
  tiered_get_user_input strip int_of float_of lines = Some (params, rest) →
  carrier0 ∈ tp_carriers params → NoDup (tp_carriers params) →
  ∃ m,
    problems_carrier_earned_discount_main.optimize_shipments
      (tp_num_years params) (tp_carriers params) (tp_destinations params)
      (tp_shipment_target params) (tp_shipment_cost params)
      (tp_tier_min_quantity params) (tp_discount_rate params) = Ok m ∧
    feasible m (tier_zero_assignment (tp_shipment_target params) carrier0).
Proof.
  intros Hread Hc Hnd.
  destruct (tiered_input_builds strip int_of float_of lines params rest Hread)
    as [m Hm].
  destruct (tiered_input_checked strip int_of float_of lines params rest Hread)
    as (_ & _ & _ & Htargets & _ & (user_tiers & Htiers & _) & _).
  exists m. split; [exact Hm|].
  apply optimize_shipments_model in Hm as ->.
  apply tier_zero_feasible; [done|done| |done].
  exists 0%Z. by rewrite Htiers.
Qed.

Lemma console_model_feasible_witness :
  ∃ m,
    problems_carrier_earned_discount_main.optimize_shipments 1 ["UPS"] ["A"]
      example.shipment_target example.shipment_cost example.tier_min_quantity
      {[ "UPS" := [1%Q; 1%Q] ]} = Ok m ∧
    feasible m (tier_zero_assignment example.shipment_target "UPS").
Proof.
  apply (console_model_feasible console_example.strip console_example.int_of
           console_example.float_of console_example.tiered_lines
           console_example.tiered_read [] "UPS" console_tiered_read).
  - by left.
  - apply NoDup_singleton.
Defined.

(** * The flow into a destination *)

Lemma Qsum_Permutation (l l' : list Q) : l ≡ₚ l' → (Qsum l == Qsum l')%Q.
Proof.
  induction 1 as [|x l l' _ IH|x y l|l l' l'' _ IH1 _ IH2].
  - reflexivity.
  - rewrite !Qsum_cons, IH. reflexivity.
  - rewrite !Qsum_cons. ring.
  - by rewrite IH1.
Qed.

Section variables_once.
Context {K : Type} `{EqDecision K}.
Implicit Types (v w : LpVariable K) (l acc vs : list (LpVariable K)).

Lemma insert_by_name_Permutation v l : insert_by_name v l ≡ₚ v :: l.
Proof.
  induction l as [|u l IH]; simpl; [done|].
  destruct (String.leb (name v) (name u)); [done|].
  rewrite IH. apply Permutation_swap.
Qed.

Lemma sort_by_name_Permutation l : sort_by_name l ≡ₚ l.
Proof.
  induction l as [|u l IH]; [done|]. simpl.
  by rewrite insert_by_name_Permutation, IH.
Qed.

Lemma addVariables_NoDup acc vs :
  NoDup (key <$> acc) → NoDup (key <$> addVariables acc vs).
Proof.
  unfold addVariables. revert acc.
  induction vs as [|v vs IH]; intros acc Hacc; simpl; [done|].
  apply IH. case_bool_decide as Hex; [done|].
  rewrite fmap_app. apply NoDup_app. split; [done|]. split.
  - intros k (u & -> & Hu)%list_elem_of_fmap Hk%list_elem_of_singleton.
    apply Hex. apply Exists_exists. by exists u.
  - apply NoDup_singleton.
Qed.

(** [problem.variables()] has every variable once. *)
Lemma variables_NoDup (p : LpProblem K) : NoDup (key <$> variables p).
Proof.
  unfold variables. rewrite sort_by_name_Permutation.
  apply addVariables_NoDup. constructor.
Qed.
End variables_once.

Lemma fmap_of_bind {A B C} (f : B → C) (g : A → list B) (l : list A) :
  f <$> (l ≫= g) = l ≫= (λ x, f <$> g x).
Proof.
  induction l as [|x l IH]; [done|].
  change (f <$> (g x ++ (l ≫= g)) = (f <$> g x) ++ (l ≫= (λ x, f <$> g x))).
  by rewrite fmap_app, IH.
Qed.

Lemma NoDup_fmap_filter {A B} (f : A → B) (P : A → Prop) `{∀ x, Decision (P x)}
    (l : list A) :
  NoDup (f <$> l) → NoDup (f <$> filter P l).
Proof.
  induction l as [|x l IH]; [done|]. rewrite fmap_cons, NoDup_cons.
  intros [Hx Hl]. rewrite filter_cons. destruct (decide (P x)); [|by apply IH].
  rewrite fmap_cons. apply NoDup_cons. split; [|by apply IH].
  intros (y & Hy & [_ Hin]%list_elem_of_filter)%list_elem_of_fmap.
  apply Hx. apply list_elem_of_fmap. by exists y.
Qed.

Section tiered_flow.
Context (num_years : Z) (carriers destinations : list string).
Context (shipment_target : list (gmap string Q)).
Context (shipment_cost : gmap string (gmap string Q)).
Context (tier_min_quantity : list Z).
Context (discount_rate : gmap string (list Q)).

#[local] Abbreviation all_years := (years num_years).
#[local] Abbreviation all_tiers := (tiers tier_min_quantity).
#[local] Abbreviation model :=
  (tiered_model num_years carriers destinations shipment_target shipment_cost
     tier_min_quantity discount_rate).

(** The keys of the flow variables of the model into a destination. *)
Lemma flow_keys year dest k :
  year ∈ all_years → dest ∈ destinations →
  k ∈ key <$> filter (λ v, flows_into year dest (key v)) (variables model) ↔
  k ∈ (carrier ← carriers; tier ← all_tiers;
       [shipment_at_tier_key year carrier tier dest]).
Proof.
  intros Hy Hd. rewrite list_elem_of_fmap. split.
  - intros (v & -> & [Hflow Hv]%list_elem_of_filter).
    apply variables_sound in Hv.
    apply (tiered_all_variables num_years carriers destinations shipment_target
             shipment_cost tier_min_quantity discount_rate) in Hv
      as [(y & c & t & d & _ & Hc & Ht & _ & ->)|(y & c & t & _ & _ & _ & ->)];
      [|done].
    simpl in Hflow. apply andb_prop_elim in Hflow as [Hy'%bool_decide_unpack
                                                       Hd'%bool_decide_unpack].
    simpl. subst y d. apply list_elem_of_bind. exists c. split; [|done].
    apply list_elem_of_bind. exists t. split; [by left|done].
  - intros (c & (t & ->%list_elem_of_singleton & Ht)%list_elem_of_bind & Hc)
             %list_elem_of_bind.
    destruct (variables_complete model
                (ship_var shipment_target year c t dest)) as (v & Hv & Hk).
    { by apply ship_var_occurs. }
    exists v. split; [done|]. apply list_elem_of_filter. split; [|done].
    rewrite Hk. simpl. apply andb_prop_intro. split; by apply bool_decide_pack.
Qed.

Lemma flow_keys_NoDup year dest :
  NoDup carriers →
  NoDup (carrier ← carriers; tier ← all_tiers;
         [shipment_at_tier_key year carrier tier dest]).
Proof.
  intros Hnd. apply NoDup_bind; [| |done].
  - intros c1 c2 k _ _
      (t1 & ->%list_elem_of_singleton & _)%list_elem_of_bind
      (t2 & Heq%list_elem_of_singleton & _)%list_elem_of_bind.
    by injection Heq.
  - intros c _. apply NoDup_bind; [| |apply NoDup_range].
    + intros t1 t2 k _ _ ->%list_elem_of_singleton Heq%list_elem_of_singleton.
      by injection Heq.
    + intros t _. apply NoDup_singleton.
Qed.

(** With distinct carriers the sum the builder writes, over the list of
    carriers and the tiers, is the sum over the flow variables of the
    model. *)
Lemma flow_into_inflow a year dest :
  NoDup carriers → year ∈ all_years → dest ∈ destinations →
  (flow_into model a year dest == inflow carriers tier_min_quantity a year dest)%Q.
Proof.
  intros Hnd Hy Hd. unfold flow_into, inflow.
  assert (Hperm : key <$> filter (λ v, flows_into year dest (key v)) (variables model)
                  ≡ₚ (carrier ← carriers; tier ← all_tiers;
                      [shipment_at_tier_key year carrier tier dest])).
  { apply NoDup_Permutation.
    - apply NoDup_fmap_filter, variables_NoDup.
    - by apply flow_keys_NoDup.
    - intros k. by apply flow_keys. }
  rewrite (list_fmap_compose key a), (Qsum_Permutation _ _ (fmap_Permutation a _ _ Hperm)).
  rewrite fmap_of_bind.
  erewrite list_bind_ext; [reflexivity| |done].
  intros carrier. by rewrite fmap_of_bind.
Qed.

Lemma holds_target_flow a year dest :
  NoDup carriers → year ∈ all_years → dest ∈ destinations →
  holds a (target_constraint carriers shipment_target tier_min_quantity year dest) ↔
  (flow_into model a year dest == target shipment_target year dest)%Q.
Proof.
  intros Hnd Hy Hd. rewrite holds_target. by rewrite flow_into_inflow.
Qed.

Lemma tiered_target_met_flow a year dest :
  NoDup carriers → feasible model a → year ∈ all_years → dest ∈ destinations →
  (flow_into model a year dest == target shipment_target year dest)%Q.
Proof.
  intros Hnd Hf Hy Hd. rewrite flow_into_inflow by done.
  by apply (tiered_target_met num_years carriers destinations shipment_target
              shipment_cost tier_min_quantity discount_rate).
Qed.
End tiered_flow.

(** ** Target equality *)



